(* ===== verification/_CoqProject ===== *)
-Q . S2P
Prelude.v
Strconv.v
Utils.v
GoFloat.v
Canonical.v
Json.v
Api.v
LoadBalance.v
Errors.v
Request.v
FromString.v
RequestTypes.v
Response.v
Effects.v
Stream.v
Filters.v
Auth.v
Usage.v
RateLimit.v
RedisLimit.v
ClusterFilters.v
Cluster.v
Completion.v
Speech.v
SpeechResponse.v
CosyVoice.v
Route.v
Limits.v
RouteManager.v
Listener.v
AccessLog.v
Serve.v
ServeMedia.v
KeyServer.v
Voices.v
Bootkit.v
Gateway.v
Access.v
Drain.v
Kube.v
Controller.v
ModelRouteController.v
BackendController.v
System.v
Main.v
