(* ===== verification/Prelude.v ===== *)
(** * knoway: a verification library for the LLM gateway

    knoway is a gateway in front of large-language-model services.  A client
    sends an OpenAI-style request (chat, completion, image, speech); a
    listener authenticates it, parses it and finds the route of its model; the
    route applies its filters (authorization, usage, rate limiting), chooses a
    target cluster, and retries on another one when the first fails; the
    cluster rewrites the request for its upstream, sends it, and parses the
    answer, whole or streamed; the answer travels back through the route's
    response filters, and the listener writes it to the client.  Routes and
    clusters come from Kubernetes: three controllers translate custom
    resources into configuration messages and keep the gateway's registers and
    the statuses of the resources up to date.  This library models both paths:
    a request from its parsed form to the bytes written, and a resource from
    its specification to the registered cluster and route.  Without Kubernetes
    the clusters come from the configuration file, as the listeners always do;
    [Gateway] models that start, [Main] the program around it, [Serve] puts
    the layers of a request together, and [System] the controllers and the
    requests.

    ** Files

    In the order of [_CoqProject]; each file requires those it builds on.

    - [Prelude]: Go's fixed-width integers ([wrap_s], [wrap_u]), the hint
      databases, tactics, lemmas on lists and maps, and [inevitable], what
      every run of a step relation comes to.
    - [Strconv], [Utils], [GoFloat], [Json]: what the code uses of strconv,
      strings, encoding/json and float64; pkg/utils.  [Canonical]: the results
      of float operations are canonical, so that they compare as numbers do.
    - [Api]: the protobuf messages of api/ with their nil-safe getters.
    - [LoadBalance]: pkg/route/loadbalance (load_balance.go), weighted round
      robin and weighted least request over int32 counters.
    - [Errors]: pkg/object/errors.go, error.go and pkg/types/openai/errors.go.
      A Go error is a [gerror]; [errors.As] and the [IsError...] predicates are
      functions of it; [LLMErrorOrInternalError] and [NewErrorFromLLMError] are
      what the client finally sees.
    - [Request]: jsonpatch.go, common.go and the request types of
      pkg/types/openai.  [FromString]: pkg/utils/string.go at every type of
      its switch ([GoType]), of which the conversions in [Request] are
      instances.  [RequestTypes]: the four request types with their own
      methods, as instances of the class [RequestMethods], and the record of
      [Request] as what the handlers see of each.  [Response]: usage.go, the whole responses, the
      recognition of upstream errors and the metering of images.
    - [Effects]: pkg/metadata and the monad [Eff].  A handler takes the
      surroundings [X] and the metadata and the request, both shared by
      pointer in the code, and returns them changed together with its
      result, or panics.
    - [Stream]: sse/event.go, chat_completions_stream.go and the stream pipe
      of listener/common.go.
    - [Filters], [Auth], [Usage], [RateLimit]: pkg/filters and its three
      filters.  A filter is the record of the hooks it implements, so that a
      Go type assertion on it is a field that is [Some].  [RedisLimit]: the
      Lua script of ratelimit/redis.go, and the checks of any number of
      gateways that share the server.
    - [ClusterFilters], [Cluster]: pkg/clusters/filters, pkg/registry/config,
      pkg/clusters/cluster and pkg/clusters/manager.  [Completion]: the
      goroutine that [DoUpstreamRequest] starts for a stream, the one of
      [WaitUntilEOF] and the pipe of the listener as a transition system
      ([completion_step]).
    - [Speech]: the request builders of the speech providers (speech_v1.go of
      openai, speech.go of deepgram, elevenlabs, koemotion, volcengine,
      microsoft and alibaba), the argument [BuildSpeechRequest] of the
      clusters.  [SpeechResponse]: pkg/types/tts and the functions
      [ParseSpeechResponse] of those packages, with base64.  [CosyVoice]:
      [DoSpeech] of alibaba/cosyvoice/speech.go and the goroutine that reads
      the websocket for it, as the executable steps ([main_steps],
      [reader_steps]) of a session.
    - [Route], [RouteManager]: pkg/route/route and pkg/route/manager.
      [Limits]: a rate limit on a route, in any traffic ([traffic]).
    - [Listener]: pkg/listener, with common.go, middlewares.go and handler.go,
      the endpoints of pkg/listener/manager, and the response writers.
      [AccessLog]: the stack with the access log and the request timer.
      [Serve]: a request through all the layers ([gateway_router],
      [serve_chat]), and static clusters (cmd/gateway/devClusters.go,
      [toClusterMap] of cmd/main.go); [ServeMedia]: the same for the endpoints
      of images and of speech ([serve_image], [serve_speech]).  [KeyServer]: the
      sample authorization service (samples/api-key-server/main.go) and a
      gateway that asks it.
      [Voices]: the list of voices (pkg/listener/manager/tts/voices.go).
      [Access]: a listener behind an authorization filter.  [Drain]: the
      requests in flight and the drain of a listener (middlewares.go and
      [Drain] of the listeners) as a transition system ([listener_step]).
    - [Bootkit]: pkg/bootkit (bootkit.go, lifecycle.go): goroutines, channels
      and contexts as transition systems, a group of goroutines that one
      caller waits for ([group_step]) and the kit whose [Start] and [Stop] run
      under one mutex ([boot_step]).
    - [Gateway]: the start of the gateway (cmd/gateway/proxy.go) with the mux
      of pkg/listener/listener.go and the constructors and routes of the three
      listeners (listener.go of chat, image and tts).
    - [Kube]: the custom resources of api/v1alpha1, the class [Reconciled] of
      objects with conditions (status.go), and the client of the API server as
      the classes [KubeResource] and [KubeEnv].
    - [Controller]: what the controllers of internal/controller share
      (common.go, backends.go, enums.go): conditions and phases, the loop over
      the handlers and [Reconcile], generic in the object.
    - [ModelRouteController]: modelroute_controller.go.
      [BackendController]: llmbackend_controller.go and
      imagegenerationbackend_controller.go, one definition for both through
      the class [BackendResource], with the parameters ([processStruct]) and
      the headers of common.go.
    - [System]: the states that static clusters and the three controllers can
      bring the gateway to ([sys_reach]), and the requests it then serves.
    - [Main]: cmd/admin/admin.go, cmd/server/server.go, config/config.go and
      cmd/main.go; what the kit has run when it serves.

    ** How the parts meet

    The route calls clusters through the class [ClusterManager]
    ([Route.v]): its theorems use only the laws [ClusterManagerLaws] (a
    failure is an LLM error, an answer without an error exists), which the
    manager of [Cluster.v] satisfies.  The route manager is written against
    [RouteInterface]; [Route.v]'s routes are an instance.  The listener
    composes the manager, the routes and the registry of clusters with their
    actual definitions: the router of the listener is a class [Router], and
    [gateway_router] is its instance over the route manager, whose routes call
    the register of clusters.  [serves] says what the two registers must hold
    for a model to be served, [posts] and [upstream_speaks] what the upstream
    does; [chat_request_served], [chat_stream_served],
    [image_request_served] and [speech_request_served] go from the one to the
    bytes of the answer through the same lemma ([Serve.handled]), and
    [static_clusters_served] shows that static registration establishes
    [serves].  A listener has its own state (in flight, drained) by its
    position in the configuration.

    A controller is a computation [Ctl] over a [Gateway]: the API server, the
    route manager and the register of clusters.  It changes the last two only
    through the operations of [RouteManager] and [Cluster]: an operation on
    the routes is a step [rm_step] of the manager ([modifyRoutes_step]), with
    the order of the maps drawn by the environment.  A handler's object is
    passed by pointer in the code and returned changed here; [reads] says that
    a computation leaves both registers alone.  [System] joins the two sides:
    every computation of a controller keeps the invariant of the registers
    ([gateway_ok]), so that it holds in every state the gateway can reach, and
    a backend's registration establishes [serves].

    The middlewares of a listener appear twice: [stack] runs one request with
    nothing in between, as the layers of a request are composed; [Drain] has
    the steps of many requests, of [Drain] and of its timer in any order.
    [stack_is_path] ties them: a run of [stack] is a path of the steps.
    The pipe of a stream appears twice, too: [pipeCompletionsStream] runs it
    alone, and in [Completion] it runs beside the goroutines that wait for its
    end; [completion_invisible] ties them.  [RateLimit] is about the bucket of a
    key, [Limits] about the requests that a route with such a limiter lets
    through, whose hooks ask the bucket.
    [main]'s runnables are those of the kit: [Main.runs] gives each the results
    of the component it starts.

    ** What the theorems show

    - The whole: a chat request for a served model is answered with the
      upstream's answer under the model's name ([chat_request_served]), one
      for a stream with the upstream's events ([chat_stream_served]), one for
      pictures with the upstream's body and the size of each picture by the
      metering policy ([image_request_served]), one for speech with the upstream's audio
      ([speech_request_served]); static
      clusters are served once registered ([static_clusters_served]), and a
      backend that reports its registration is, unless a model route has its
      name ([registered_backend_chats]);
      requests are routed by the model's name in every state that can be
      reached ([routing_by_name]), which the administration shows
      ([config_dump_tells]); an authorization filter is enforced through all of
      a listener ([access_enforced]), and with the sample service the keys of
      its file decide ([key_server_decides]); when the gateway starts, with which routes and hooks
      ([gateway_started]); of several chat listeners the first serves
      ([first_chat_listener_serves]); nothing serves before the program is
      configured ([serving_means_configured]).
    - Draining: no request enters, those in flight are cancelled in time
      ([drain_safe]), and it ends ([drain_ends]).
    - Requests: the shared record refines the request types of the code
      ([request_types_refine]).
    - Texts: [FromString] reads back what was written, and the texts that
      stand for nothing as that ([FromString_reads_back]), and misreads no
      integer ([FromString_exact]).
    - Rate limiting: as long as no bucket is evicted, a bucket lets at most its
      capacity plus the refill of the elapsed time through
      ([rate_limit_bound]), and so does a route whose filters have it, for the
      requests that run them ([route_limit_enforced]); in the Redis mode the
      bound holds for all gateways together, up to the rounding of its floats
      ([redis_rate_limit_bound]); policies too small for the fixed-point rate
      never refill ([rate_limit_starves]).
    - Streams: what the pipe writes is the sequence of serialized events of
      the upstream's chunks, closed by one [DONE] ([pipe_wellformed]); it
      stops on every input ([pipe_terminates]); an upstream that never says
      [DONE] leaves the client without it ([pipe_without_done]); an event
      reads back as it was written ([event_roundtrip]).  What completes the
      answer beside the pipe is not seen by it ([completion_invisible]) and
      comes to its end ([completion_ends]), unless the client goes away, when
      it waits for ever ([client_gone_leaks]).
    - Upstream calls: what is sent is the client's request with the model,
      the default and the override parameters of the cluster
      ([request_rewritten], [upstream_request_sent]); every failure is an LLM
      error ([cluster_errors_are_llm]); the answer carries the cluster's name
      ([response_names_cluster]).
    - Speech: the call for a speech request is what the builder of its
      provider makes of it ([speech_request_sent]); every provider is told to
      say the client's text ([speech_text_sent]); a missing response format
      panics for Volcengine ([volcengine_needs_format]); three providers do not
      see the parameters of the cluster ([speech_params_ignored]).  The audio
      of an answer and its errors are told apart ([speech_answers_told_apart])
      and base64 comes back as it was ([volcengine_audio]).  A session with
      CosyVoice gives one answer ([speech_session_answers_once]), ends with
      the messages of its server, which are finitely many
      ([speech_session_finite]), and gives the audio of a server that keeps to
      the protocol ([speech_session_speaks]), which also says when part of it
      passes for the whole.
    - Routing: the fallback loop refines the specification of a retry
      sequence ([fallback_refines]), is bounded when a limit is configured and
      unbounded when none is; the registers of clusters and of routes refine
      maps from names ([register_refines], [MatchRoute_refines]); a filter
      that fails keeps the request from every cluster
      ([route_filter_blocks]).
    - Load balancing: the round robin serves the positive weights in their
      proportion ([WRR_Next_fair]); the least request chooses a least ratio
      ([WLR_Next_least]), over counters that the code never decreases
      ([WLR_counters_only_grow]).
    - Authorization and usage: a chat request goes through exactly when the
      key's patterns say so ([auth_completion_decision], [access_enforced]);
      a whole answer is reported once ([usage_reported_once]), a streamed one
      never ([stream_never_metered]).
    - Answers: the error a handler returns is the one the client reads, with
      its status ([error_reaches_client], [NewErrorFromLLMError_status]); a
      draining gateway refuses ([drained_rejects]); a panic is answered 500
      ([panic_answers_500]), and logged with the wrong status ([panic_logged],
      against [error_logged]); the lists of models and of voices are what the
      key may use ([list_models_exact], [list_voices_exact]).

    - Life cycle: the wait for a group of goroutines tells the truth and ends
      ([wait_result], [wait_terminates]), but may leave one blocked
      ([failed_goroutine_leaks]); the start hooks come after the runnables
      ([start_hooks_after_runnables]); a [Start] that returns has called the
      stop hooks of all hooks registered at one moment, the started ones among
      them ([start_stops_hooks]), but not of those that controllers register
      later; a cancelled one returns, if hooks do not come without end
      ([cancelled_start_returns]), but [Stop] cannot cancel it
      ([stop_cannot_interrupt]).

    - Controllers: the conditions of a resource tell what the gateway has
      registered, and of what the API server has answered
      ([modelroute_status_truthful], [backend_status_truthful]),
      and are written when and only when they say something new
      ([modelroute_status_written]); a backend that says it is registered is
      found by the requests for its model ([registered_backend_chats]);
      the balancer of a valid route draws each target by its weight
      ([modelroute_balances]); the model
      that a backend's parameters ask for ([llm_model_sent]) and the
      parameters that cannot be given ([image_named_params_refused]); the
      scope of a rate limit rule ([rate_limit_rule_scope]); a deletion ends
      and cleans up ([modelroute_deletion]).

    ** Conventions and bounds

    An integer is a [Z] wrapped at its width where the code computes with it;
    float64 is [SpecFloat]'s binary64.  A Go panic is the outcome [Panic].
    The model of a JSON body is the value it denotes; a parsed object is a
    [gmap], since no handler depends on the order of its keys.  Two loops take
    fuel.  The stream pipe reads a line of at least one byte per turn, so one
    more than the bytes of the upstream's body is enough ([pipe_terminates]).
    The fallback loop with a limit of n retries takes n + 1 turns
    ([fallback_bounded]); without a limit no fuel is enough against a cluster
    that keeps failing ([fallback_unbounded]), as the code would loop.
    The sessions of [CosyVoice] and the runs of [Drain] and [Completion] need
    no fuel: their
    steps are relations, with a measure that each step decreases where they
    end.
    A mutex-protected operation is one step, except in [Bootkit], where [Start]
    and [Stop] hold theirs over many steps; theorems about shared state
    (buckets, counters, registers) hold from every state, hence in every
    interleaving of such steps.

    ** Parameters

    Code that is not in the repository is an argument of the definitions that
    use it: the JSON patch library with its laws ([JSONPatch],
    [JSONPatchLaws]), the JSON path library ([JSONPath], [JSONPathLaws]), the
    text of a JSON document ([JSONText], and marshalling), the glob matcher
    of authorization, the authorization and usage services ([APIKeyAuth], of
    which [KeyServer] has the sample, and [UsageReport]), the Redis server with its commands ([Redis],
    [RedisLaws]) and the texts of Lua's numbers ([LuaNumbers],
    [LuaNumbersLaws]), the HTTP client ([doRequest]), URL parsing, the decoding
    and download of pictures, and the client's connection ([write_ok]).
    Clusters take the speech providers' request builders as an argument,
    which [Speech.BuildSpeechRequest] is; these use net/url ([NetURL]),
    encoding/xml's reading of markup ([xml_Unmarshal]) and the identifiers
    that package uuid draws.  [strconv.ParseFloat] is [FloatText].  The
    conversion of a float64 outside the int64 range, which Go leaves to the platform, is a
    parameter as well; so is the state a handler leaves behind when it panics, its deferred hooks
    included ([at_panic]).  The client's address and the random draws of the
    round robin are parameters too.  The clients that list the voices of the
    providers are [Unspeech]; how a path finds its route (gorilla/mux) is
    [PathRouter], whose law is that the first route registered for a path is
    taken; [net.Listen] and the YAML readers of the configuration are
    functions.  A websocket (gorilla/websocket) is what its reads give, each
    once the client has said enough ([se_Incoming]), and how its writes fail;
    data URLs (dataurl), the parsers of float32 and complex numbers
    ([Float32Text], [ComplexText]) and the function that [fo.Invoke0] runs are
    parameters.  protobuf's [Any] is [AnyPB], whose law is that a message reads
    back; its JSON, controller-runtime's manager and its checks are functions.

    The API server is a type [K] with the operations of [KubeResource] and
    [KubeEnv] on it, which may answer anything; the only law is that a range
    over a map visits its keys ([KubeLaws]).  [structpb.NewValue] is
    [StructPB], with the documented conversions of the basic types ([StructPBLaws]); the text of a multierror and
    [strcase.LowerCamelCase] are functions of strings.

    ** Not modelled

    - What [fo.Invoke0] does besides running the function that completes a
      streamed answer once: its result is thrown away.
    - The writes of the upstream's time stamps, which only the access log
      reads.
    - The mutexes of the components (the kit's is) and the ticker that schedules the cleanup of
      buckets (the cleanup is modelled as a step).
    - The Redis server, apart from the behaviour of the three commands that
      the script calls, and its eviction of keys when memory is short.
    - The HTTP servers and their shutdown, the parsing of the command line and
      the logging of cmd/main.go: input and output.  [StaticClustersConfig] of
      devClusters.go, behind a constant that is false.
    - What hands the reconcilers to controller-runtime (SetupWithManager), and
      the generated copies of the resources. *)
From Stdlib Require Export ZArith Lia String Ascii.
From stdpp Require Export base tactics numbers list gmap strings fin_maps pretty.

#[global] Open Scope Z_scope.
#[global] Set Default Goal Selector "!".

(** ** Go's fixed-width integers

    A value of a w-bit Go integer is the integer it denotes; [wrap_s]/[wrap_u]
    is the two's complement truncation Go applies to the result of every
    arithmetic operation and conversion.  [int] is 64 bits wide. *)
Definition wrap_s (w z : Z) : Z := (z + 2 ^ (w - 1)) mod 2 ^ w - 2 ^ (w - 1).
Definition wrap_u (w z : Z) : Z := z mod 2 ^ w.

Abbreviation int32 := (wrap_s 32).
Abbreviation int64 := (wrap_s 64).
Abbreviation uint32 := (wrap_u 32).
Abbreviation uint64 := (wrap_u 64).

Definition in_s (w z : Z) : Prop := - 2 ^ (w - 1) <= z < 2 ^ (w - 1).
Definition in_u (w z : Z) : Prop := 0 <= z < 2 ^ w.

#[export] Instance in_s_dec w z : Decision (in_s w z).
Proof. unfold in_s. apply _. Defined.
#[export] Instance in_u_dec w z : Decision (in_u w z).
Proof. unfold in_u. apply _. Defined.

Lemma wrap_s_id w z : 0 < w -> in_s w z -> wrap_s w z = z.
Proof.
  unfold wrap_s, in_s. intros Hw Hz.
  replace (2 ^ w) with (2 * 2 ^ (w - 1)).
  - rewrite Z.mod_small by lia. lia.
  - rewrite <- Z.pow_succ_r by lia. f_equal. lia.
Qed.

Lemma wrap_s_range w z : 0 < w -> in_s w (wrap_s w z).
Proof.
  unfold wrap_s, in_s. intros Hw.
  pose proof (Z.mod_pos_bound (z + 2 ^ (w - 1)) (2 ^ w)) as Hm.
  replace (2 ^ w) with (2 * 2 ^ (w - 1)) in *.
  - assert (0 < 2 ^ (w - 1)) by (apply Z.pow_pos_nonneg; lia). lia.
  - rewrite <- Z.pow_succ_r by lia. f_equal. lia.
Qed.

Lemma wrap_u_id w z : in_u w z -> wrap_u w z = z.
Proof. apply Z.mod_small. Qed.

Lemma wrap_u_range w z : 0 <= w -> in_u w (wrap_u w z).
Proof. intros. apply Z.mod_pos_bound. apply Z.pow_pos_nonneg; lia. Qed.

Lemma int64_id z : - 9223372036854775808 <= z < 9223372036854775808 -> int64 z = z.
Proof. intros. apply wrap_s_id; [lia | exact H]. Qed.
Lemma int32_id z : - 2147483648 <= z < 2147483648 -> int32 z = z.
Proof. intros. apply wrap_s_id; [lia | exact H]. Qed.
Lemma uint64_id z : 0 <= z < 18446744073709551616 -> uint64 z = z.
Proof. exact (wrap_u_id 64 z). Qed.
Lemma uint32_id z : 0 <= z < 4294967296 -> uint32 z = z.
Proof. exact (wrap_u_id 32 z). Qed.

(** ** Panics

    A Go computation that may panic is an [outcome]; [Panic] carries the
    message of the run-time error or of the explicit [panic] call.  Ordinary
    Go errors are values (see [Errors]) and are returned inside [Ret]. *)
Inductive outcome (A : Type) : Type :=
| Ret (a : A)
| Panic (msg : string).
Arguments Ret {A} a.
Arguments Panic {A} msg.

#[export] Instance outcome_ret : MRet outcome := fun A => @Ret A.
#[export] Instance outcome_bind : MBind outcome := fun A B f m =>
  match m with Ret a => f a | Panic s => Panic s end.
#[export] Instance outcome_fmap : FMap outcome := fun A B f m =>
  match m with Ret a => Ret (f a) | Panic s => Panic s end.

Lemma outcome_bind_Ret {A B} (m : outcome A) (f : A -> outcome B) b :
  mbind f m = Ret b <-> exists a, m = Ret a /\ f a = Ret b.
Proof.
  destruct m as [a|s]; simpl; split.
  - intros H. by exists a.
  - intros (a' & [= ->] & H). exact H.
  - discriminate.
  - intros (a' & [=] & _).
Qed.

(** Indexing a slice: the run-time panic outside the bounds. *)
Definition index {A} (l : list A) (i : Z) : outcome A :=
  if (0 <=? i) then
    match l !! Z.to_nat i with
    | Some a => Ret a
    | None => Panic "index out of range"
    end
  else Panic "index out of range".

Definition len {A} (l : list A) : Z := Z.of_nat (length l).

Lemma index_Some {A} (l : list A) i a :
  l !! i = Some a -> index l (Z.of_nat i) = Ret a.
Proof.
  intros H. unfold index. rewrite (proj2 (Z.leb_le 0 (Z.of_nat i))) by lia.
  by rewrite Nat2Z.id, H.
Qed.

Lemma index_lt {A} (l : list A) i :
  0 <= i < len l -> exists a, index l i = Ret a /\ l !! Z.to_nat i = Some a.
Proof.
  unfold len. intros Hi.
  destruct (lookup_lt_is_Some_2 l (Z.to_nat i)) as [a Ha]; [lia |].
  exists a. split; [| done].
  unfold index. rewrite (proj2 (Z.leb_le 0 i)) by lia. by rewrite Ha.
Qed.

(** ** Sums and counting over integer lists *)
Fixpoint zsum (ws : list Z) : Z :=
  match ws with [] => 0 | w :: ws => w + zsum ws end.

Lemma zsum_app l k : zsum (l ++ k) = zsum l + zsum k.
Proof. induction l as [|x l IH]; simpl; [done|]. rewrite IH. lia. Qed.

Lemma zsum_nonneg l : Forall (Z.le 0) l -> 0 <= zsum l.
Proof. induction 1; simpl; lia. Qed.

#[export] Instance zsum_Permutation : Proper (Permutation ==> eq) zsum.
Proof. intros l k H. induction H; simpl; lia. Qed.

(** Go's [for] accumulation at machine width is the mathematical sum while the
    sum of the nonnegative terms stays below 2^63. *)
Lemma foldl_int64_sum {A} (f : A -> Z) l acc :
  0 <= acc -> Forall (fun a => 0 <= f a) l -> acc + zsum (map f l) < 2 ^ 63 ->
  foldl (fun acc a => int64 (acc + f a)) acc l = acc + zsum (map f l).
Proof.
  intros Hacc Hl. revert acc Hacc. induction Hl as [|a l Ha Hl IH]; intros acc Hacc Hs; simpl in *.
  - lia.
  - assert (0 <= zsum (map f l)) by (apply zsum_nonneg, Forall_map; done).
    rewrite int64_id by lia. rewrite IH by lia. lia.
Qed.

Lemma filter_all {A} (P : A -> Prop) `{forall r, Decision (P r)} l :
  Forall P l -> filter P l = l.
Proof. induction 1; [done|]. rewrite filter_cons_True by done. by f_equal. Qed.

Lemma filter_none {A} (P : A -> Prop) `{forall r, Decision (P r)} l :
  Forall (fun x => ~ P x) l -> filter P l = [].
Proof. induction 1; [done|]. by rewrite filter_cons_False. Qed.

(** The members of an integer interval that lie in a subinterval. *)
Lemma filter_seqZ_interval (P : Z -> Prop) `{forall r, Decision (P r)} a b n :
  0 <= a -> 0 <= b -> a + b <= n ->
  (forall r, 0 <= r < n -> P r <-> a <= r < a + b) ->
  filter P (seqZ 0 n) = seqZ a b.
Proof.
  intros Ha Hb Hn HP.
  replace n with (a + (b + (n - a - b))) by lia.
  rewrite 2!seqZ_app, 2!filter_app by lia.
  rewrite (filter_all P (seqZ (0 + a) b)).
  2:{ apply Forall_seqZ. intros r Hr. apply HP; lia. }
  rewrite !filter_none; [by rewrite app_nil_r | |];
    apply Forall_seqZ; intros r Hr; rewrite HP; lia.
Qed.

(** ** Strings (byte strings, as in Go) *)
Definition HasPrefix (s p : string) : bool := String.prefix p s.

Fixpoint string_drop (n : nat) (s : string) : string :=
  match n, s with
  | O, _ => s
  | S n, String _ s => string_drop n s
  | S _, EmptyString => EmptyString
  end.

Definition TrimPrefix (s p : string) : string :=
  if HasPrefix s p then string_drop (String.length p) s else s.

Lemma HasPrefix_spec s p : HasPrefix s p = true <-> exists t, s = p +:+ t.
Proof.
  unfold HasPrefix. revert s. induction p as [|a p IH]; intros s.
  - destruct s; simpl; naive_solver.
  - destruct s as [|b s]; simpl.
    + split; [done | intros [t Ht]; discriminate].
    + destruct (ascii_dec a b) as [->|Hne]; [rewrite IH|].
      * split; intros [t Ht]; exists t; simpl in *; [by rewrite Ht | by injection Ht].
      * split; [done | intros [t Ht]; simpl in *; by injection Ht as -> _].
Qed.

Lemma string_app_assoc s t u : s +:+ (t +:+ u) = (s +:+ t) +:+ u.
Proof. induction s as [|a s IH]; [done | exact (f_equal (String a) IH)]. Qed.

Lemma string_app_nil_r s : s +:+ "" = s.
Proof. induction s as [|a s IH]; [done | exact (f_equal (String a) IH)]. Qed.

Lemma string_drop_app p t : string_drop (String.length p) (p +:+ t) = t.
Proof. induction p; simpl; [by destruct t | done]. Qed.

Lemma TrimPrefix_app p t : TrimPrefix (p +:+ t) p = t.
Proof.
  unfold TrimPrefix. rewrite (proj2 (HasPrefix_spec _ _)) by eauto.
  apply string_drop_app.
Qed.

Lemma HasPrefix_app p t : HasPrefix (p +:+ t) p = true.
Proof. apply HasPrefix_spec. eauto. Qed.

(** ** Runs that cannot go on forever

    Whatever the scheduler does, a run from here gets to [P]. *)
Inductive inevitable {A} (step : A -> A -> Prop) (P : A -> Prop) : A -> Prop :=
| inevitable_now a : P a -> inevitable step P a
| inevitable_later a : (exists a', step a a') -> (forall a', step a a' -> inevitable step P a') -> inevitable step P a.

(** A measure that every step decreases, and a step wherever [P] does not hold,
    as long as an invariant holds. *)
Lemma inevitable_measure {A} (step : A -> A -> Prop) (P : A -> Prop) (I : A -> Prop) (m : A -> nat) :
  (forall a, I a -> P a \/
     (exists a', step a a') /\ forall a', step a a' -> P a' \/ I a' /\ (m a' < m a)%nat) ->
  forall a, I a -> inevitable step P a.
Proof.
  intros Hstep a. remember (m a) as k eqn:Hk. revert a Hk.
  induction k as [k IH] using lt_wf_ind. intros a -> Ha.
  destruct (Hstep a Ha) as [HP | [Hex Hall]]; [by apply inevitable_now|].
  apply inevitable_later; [done|]. intros a' Ha'. destruct (Hall a' Ha') as [HP | [HI Hm]].
  - by apply inevitable_now.
  - by eapply IH.
Qed.

(** ** Tactics and hints shared by the components *)
Create HintDb knoway.
#[export] Hint Resolve HasPrefix_app TrimPrefix_app string_drop_app : knoway.

(** [case_bool]: case analysis on a boolean test of the goal, the test turned
    into the integer (in)equality it decides. *)
Ltac case_bool :=
  match goal with
  | |- context [if ?b then _ else _] =>
      lazymatch b with
      | Z.leb ?x ?y => destruct (Z.leb_spec x y)
      | Z.ltb ?x ?y => destruct (Z.ltb_spec x y)
      | Z.eqb ?x ?y => destruct (Z.eqb_spec x y)
      | String.eqb ?x ?y => destruct (String.eqb_spec x y)
      | _ => destruct b eqn:?
      end
  end.

(** [inv_ret]: peel the binds of a hypothesis [m >>= f = Ret x]. *)
Ltac inv_ret :=
  repeat match goal with
  | H : mbind _ _ = Ret _ |- _ =>
      apply outcome_bind_Ret in H; destruct H as (? & ? & ?)
  | H : Ret _ = Ret _ |- _ => injection H as H
  | H : Panic _ = Ret _ |- _ => discriminate H
  end.
