(* ===== verification/Strconv.v ===== *)
(** * The pieces of Go's strconv and strings the gateway uses

    Decimal parsing with its range errors, decimal printing, splitting and
    trimming of byte strings. *)
From S2P Require Import Prelude.

(** ** strconv.ParseUint(s, 10, w) and strconv.ParseInt(s, 10, w) *)
Inductive NumError : Type := ErrSyntax | ErrRange.

Definition digit (c : ascii) : option Z :=
  let n := Z.of_nat (Ascii.nat_of_ascii c) in
  if (48 <=? n) && (n <=? 57) then Some (n - 48) else None.

(** The value of a non-empty run of digits; Go stops at the first byte that is
    not one (a syntax error takes precedence over an overflow seen later only). *)
Fixpoint parse_digits (w : Z) (s : string) (acc : Z) : Z + NumError :=
  match s with
  | EmptyString => inl acc
  | String c s =>
      match digit c with
      | None => inr ErrSyntax
      | Some d =>
          let acc := acc * 10 + d in
          if 2 ^ w <=? acc then inr ErrRange else parse_digits w s acc
      end
  end.

Definition ParseUint (s : string) (w : Z) : Z + NumError :=
  match s with
  | EmptyString => inr ErrSyntax
  | _ => parse_digits w s 0
  end.

Definition ParseInt (s : string) (w : Z) : Z + NumError :=
  match s with
  | EmptyString => inr ErrSyntax
  | String c rest =>
      let neg := Ascii.eqb c "-" in
      let digits := if neg || Ascii.eqb c "+" then rest else s in
      match ParseUint digits w with
      | inr e => inr e
      | inl un =>
          let cutoff := 2 ^ (w - 1) in
          if negb neg && (cutoff <=? un) then inr ErrRange
          else if neg && (cutoff <? un) then inr ErrRange
          else inl (if neg then - un else un)
      end
  end.

(** strconv.ParseBool *)
Definition ParseBool (s : string) : option bool :=
  if existsb (String.eqb s) ["1"; "t"; "T"; "TRUE"; "true"; "True"] then Some true
  else if existsb (String.eqb s) ["0"; "f"; "F"; "FALSE"; "false"; "False"] then Some false
  else None.

(** ** strings *)

(** [strings.Split(s, sep)] for a one-byte separator. *)
Fixpoint Split (sep : ascii) (s : string) : list string :=
  match s with
  | EmptyString => [EmptyString]
  | String c s =>
      if Ascii.eqb c sep then EmptyString :: Split sep s
      else match Split sep s with
           | [] => [String c EmptyString]
           | p :: ps => String c p :: ps
           end
  end.

Fixpoint HasSuffix (s suf : string) : bool :=
  String.eqb s suf || match s with EmptyString => false | String _ s => HasSuffix s suf end.

(** [strings.TrimSuffix(s, c)] for a one-byte suffix. *)
Fixpoint TrimSuffix1 (s : string) (c : ascii) : string :=
  match s with
  | EmptyString => EmptyString
  | String a EmptyString => if Ascii.eqb a c then EmptyString else s
  | String a s => String a (TrimSuffix1 s c)
  end.

Lemma TrimSuffix1_app s c : TrimSuffix1 (s +:+ String c "") c = s.
Proof.
  induction s as [|a s IH]; simpl; [by rewrite Ascii.eqb_refl|].
  destruct s; simpl in *; by rewrite IH.
Qed.

Fixpoint Contains (s sub : string) : bool :=
  String.prefix sub s || match s with EmptyString => false | String _ s => Contains s sub end.

Fixpoint ContainsByte (s : string) (c : ascii) : bool :=
  match s with EmptyString => false | String a s => Ascii.eqb a c || ContainsByte s c end.

(** [strings.Join] *)
Fixpoint Join (sep : string) (l : list string) : string :=
  match l with
  | [] => ""
  | [s] => s
  | s :: l => s +:+ sep +:+ Join sep l
  end.

(** strconv.Quote / fmt's %q, where the bytes from 128 up are printable UTF-8. *)
Definition dquote : ascii := Ascii.ascii_of_nat 34.
Definition hex_digit (n : nat) : ascii := Ascii.ascii_of_nat (if Nat.ltb n 10 then 48 + n else 87 + n).
Definition quote_byte (c : ascii) : string :=
  let n := Ascii.nat_of_ascii c in
  if Ascii.eqb c dquote || Nat.eqb n 92 then String (Ascii.ascii_of_nat 92) (String c "")
  else
    let esc (l : string) := String (Ascii.ascii_of_nat 92) l in
    match n with
    | 7 => esc "a" | 8 => esc "b" | 12 => esc "f" | 10 => esc "n" | 13 => esc "r" | 9 => esc "t" | 11 => esc "v"
    | _ => if Nat.ltb n 32 || Nat.eqb n 127
           then esc (String "x" (String (hex_digit (Nat.div n 16)) (String (hex_digit (Nat.modulo n 16)) "")))
           else String c ""
    end%nat.
Fixpoint quote_loop (s : string) : string :=
  match s with EmptyString => "" | String c s => quote_byte c +:+ quote_loop s end.
Definition Quote (s : string) : string := String dquote (quote_loop s +:+ String dquote "").

(** strconv.Itoa / FormatInt(z, 10) / fmt's %d *)
Definition Itoa (z : Z) : string := pretty z.

(** ** Round trips *)
Lemma digit_char (x : N) : (x < 10)%N -> digit (pretty_N_char x) = Some (Z.of_N x).
Proof.
  intros Hx. assert (x = 0 \/ x = 1 \/ x = 2 \/ x = 3 \/ x = 4 \/ x = 5 \/ x = 6 \/ x = 7 \/ x = 8 \/ x = 9)%N as H by lia.
  repeat (destruct H as [->|H]; [reflexivity|]). by subst.
Qed.

Lemma parse_pretty_N_go w (x : N) s :
  Z.of_N x < 2 ^ w -> parse_digits w (pretty_N_go x s) 0 = parse_digits w s (Z.of_N x).
Proof.
  revert s. induction (N.lt_wf_0 x) as [x _ IH]. intros s Hx.
  destruct (decide (x = 0%N)) as [->|Hne]; [done|].
  rewrite pretty_N_go_step by lia.
  assert (x `div` 10 < x)%N as Hlt by (apply N.div_lt; lia).
  rewrite IH by lia. simpl.
  pose proof (N.mod_lt x 10 ltac:(lia)) as Hm. rewrite digit_char by done.
  pose proof (N.div_mod x 10 ltac:(lia)) as Hd.
  assert (Z.of_N (x `div` 10) * 10 + Z.of_N (x `mod` 10) = Z.of_N x) as -> by lia.
  destruct (Z.leb_spec (2 ^ w) (Z.of_N x)); [lia | done].
Qed.

Lemma pretty_N_go_cons (x : N) s : (0 < x)%N -> exists c t, pretty_N_go x s = String c t.
Proof.
  revert s. induction (N.lt_wf_0 x) as [x _ IH]. intros s Hx.
  rewrite pretty_N_go_step by done.
  destruct (decide (x `div` 10 = 0)%N) as [E|E]; [rewrite E; by do 2 eexists|].
  apply IH; [apply N.div_lt; lia | by apply N.neq_0_lt_0].
Qed.

Lemma Itoa_nonneg n :
  0 <= n -> Itoa n = if decide (n = 0) then "0" else pretty_N_go (Z.to_N n) "".
Proof.
  intros Hn. destruct n as [|p|p]; [done| |lia]. unfold Itoa. simpl.
  done.
Qed.

Lemma ParseUint_Itoa w n : 0 < w -> 0 <= n < 2 ^ w -> ParseUint (Itoa n) w = inl n.
Proof.
  intros Hw Hn. rewrite Itoa_nonneg by lia. case_decide as E.
  - subst. change (ParseUint "0" w) with ((if 2 ^ w <=? 0 then inr ErrRange else inl 0) : Z + NumError).
    destruct (Z.leb_spec (2 ^ w) 0); [lia|done].
  - destruct (pretty_N_go_cons (Z.to_N n) "") as (c & t & Et); [lia|].
    unfold ParseUint. rewrite Et, <- Et, parse_pretty_N_go by lia. simpl. by rewrite Z2N.id by lia.
Qed.

Lemma parse_pretty_N_go_overflow w (x : N) s :
  0 < w -> 2 ^ w <= Z.of_N x -> parse_digits w (pretty_N_go x s) 0 = inr ErrRange.
Proof.
  intros Hw. revert s. induction (N.lt_wf_0 x) as [x _ IH]. intros s Hx.
  assert (0 < 2 ^ w) by (apply Z.pow_pos_nonneg; lia).
  rewrite pretty_N_go_step by lia.
  assert (x `div` 10 < x)%N as Hlt by (apply N.div_lt; lia).
  destruct (Z.le_gt_cases (2 ^ w) (Z.of_N (x `div` 10))) as [Hge|Hsm]; [by apply IH|].
  rewrite parse_pretty_N_go by done. simpl.
  pose proof (N.mod_lt x 10 ltac:(lia)) as Hm. rewrite digit_char by done.
  pose proof (N.div_mod x 10 ltac:(lia)) as Hd.
  assert (Z.of_N (x `div` 10) * 10 + Z.of_N (x `mod` 10) = Z.of_N x) as -> by lia.
  destruct (Z.leb_spec (2 ^ w) (Z.of_N x)); [done | lia].
Qed.

Lemma ParseUint_Itoa_overflow w n : 0 < w -> 2 ^ w <= n -> ParseUint (Itoa n) w = inr ErrRange.
Proof.
  intros Hw Hn. assert (0 < 2 ^ w) by (apply Z.pow_pos_nonneg; lia).
  rewrite Itoa_nonneg, decide_False by lia.
  destruct (pretty_N_go_cons (Z.to_N n) "") as (c & t & Et); [lia|].
  unfold ParseUint. rewrite Et, <- Et. by apply parse_pretty_N_go_overflow; [|lia].
Qed.

Lemma Itoa_neg n : 0 < n -> Itoa (- n) = String "-" (Itoa n).
Proof. by destruct n. Qed.

Lemma ContainsByte_head c s d : ContainsByte (String c s) d = false -> Ascii.eqb c d = false.
Proof. simpl. by intros [-> _]%orb_false_iff. Qed.

Lemma ContainsByte_app s t c : ContainsByte (s +:+ t) c = ContainsByte s c || ContainsByte t c.
Proof. induction s as [|a s IH]; simpl; [done|]. by rewrite IH, orb_assoc. Qed.

Lemma pretty_N_go_digits (x : N) s c :
  digit c = None -> ContainsByte (pretty_N_go x s) c = ContainsByte s c.
Proof.
  intros Hc. revert s. induction (N.lt_wf_0 x) as [x _ IH]. intros s.
  destruct (decide (x = 0%N)) as [->|Hne]; [done|].
  rewrite pretty_N_go_step by lia.
  rewrite IH by (apply N.div_lt; lia). simpl.
  destruct (Ascii.eqb_spec (pretty_N_char (x `mod` 10)) c) as [E|E]; [|done].
  rewrite <- E, digit_char in Hc; [done|]. apply N.mod_lt. lia.
Qed.

Lemma Itoa_digits n c : 0 <= n -> digit c = None -> ContainsByte (Itoa n) c = false.
Proof.
  intros Hn Hc. rewrite Itoa_nonneg by done. case_decide.
  - cbn [ContainsByte]. destruct (Ascii.eqb_spec "0" c) as [E|]; [by subst|done].
  - by rewrite pretty_N_go_digits.
Qed.

Lemma Split_no_sep sep s : ContainsByte s sep = false -> Split sep s = [s].
Proof.
  induction s as [|a s IH]; simpl; [done|]. rewrite orb_false_iff. intros [-> H]. by rewrite IH.
Qed.

Lemma Split_app sep s t :
  ContainsByte s sep = false -> Split sep (s +:+ String sep t) = s :: Split sep t.
Proof.
  induction s as [|a s IH]; simpl.
  - intros _. by rewrite Ascii.eqb_refl.
  - rewrite orb_false_iff. intros [-> H]. by rewrite IH.
Qed.

Lemma Split_cons sep s : exists p ps, Split sep s = p :: ps.
Proof.
  induction s as [|a s (p & ps & E)]; simpl; [by do 2 eexists|].
  destruct (Ascii.eqb a sep); [by do 2 eexists|]. rewrite E. by do 2 eexists.
Qed.

Lemma Join_Split sep s : Join (String sep "") (Split sep s) = s.
Proof.
  induction s as [|a s IH]; [done|]. cbn [Split].
  destruct (Split_cons sep s) as (p & ps & E). rewrite E in *.
  destruct (Ascii.eqb_spec a sep) as [->|Hne].
  - transitivity (String sep (Join (String sep "") (p :: ps))); [done | by rewrite IH].
  - transitivity (String a (Join (String sep "") (p :: ps))); [by destruct ps | by rewrite IH].
Qed.

(** Decimal texts of any integer: parsed exactly when the value fits. *)
Lemma ParseInt_Itoa w z :
  0 < w -> ParseInt (Itoa z) w = if decide (in_s w z) then inl z else inr ErrRange.
Proof.
  intros Hw. assert (2 ^ w = 2 * 2 ^ (w - 1)) as E2 by (rewrite <- Z.pow_succ_r by lia; f_equal; lia).
  assert (0 < 2 ^ (w - 1)) by (apply Z.pow_pos_nonneg; lia).
  destruct (Z.lt_ge_cases z 0) as [Hneg|Hpos].
  - replace z with (- - z) at 1 by lia. rewrite Itoa_neg by lia. unfold ParseInt. simpl Ascii.eqb. cbn [orb].
    destruct (Z.lt_ge_cases (- z) (2 ^ w)).
    + rewrite ParseUint_Itoa by lia. cbn [negb andb].
      destruct (Z.ltb_spec (2 ^ (w - 1)) (- z)).
      * rewrite decide_False; [done|]. unfold in_s. lia.
      * rewrite decide_True by (unfold in_s; lia). by rewrite Z.opp_involutive.
    + rewrite ParseUint_Itoa_overflow by lia. rewrite decide_False; [done|]. unfold in_s. lia.
  - pose proof (Itoa_digits z "-" Hpos eq_refl) as Hm. pose proof (Itoa_digits z "+" Hpos eq_refl) as Hp.
    assert (exists c t, Itoa z = String c t) as (c & t & Et).
    { rewrite Itoa_nonneg by done. case_decide; [by do 2 eexists|]. apply pretty_N_go_cons. lia. }
    unfold ParseInt. rewrite Et in *. rewrite (ContainsByte_head _ _ _ Hm), (ContainsByte_head _ _ _ Hp).
    cbn [orb negb andb]. rewrite <- Et.
    destruct (Z.lt_ge_cases z (2 ^ w)).
    + rewrite ParseUint_Itoa by lia. destruct (Z.leb_spec (2 ^ (w - 1)) z).
      * rewrite decide_False; [done|]. unfold in_s. lia.
      * rewrite decide_True by (unfold in_s; lia). done.
    + rewrite ParseUint_Itoa_overflow by lia. rewrite decide_False; [done|]. unfold in_s. lia.
Qed.
