(* ===== verification/Utils.v ===== *)
(** * pkg/utils: conversions from strings and slices of interfaces *)
From S2P Require Import Prelude Strconv.

(** ** string.go

    [FromString] at each type it is used with: the empty string, [null] and
    [<nil>] are the zero value, a nil pointer at a pointer type. *)
Definition isEmptyString (s : string) : bool :=
  String.eqb s "" || String.eqb s "null" || String.eqb s "<nil>".

Definition FromString_string (s : string) : string := if isEmptyString s then "" else s.
Definition FromString_string_ptr (s : string) : option string := if isEmptyString s then None else Some s.

(** int, int8, ..., int64, by width. *)
Definition FromString_signed (w : Z) (s : string) : Z + NumError :=
  if isEmptyString s then inl 0 else ParseInt s w.
Definition FromString_signed_ptr (w : Z) (s : string) : option Z + NumError :=
  if isEmptyString s then inl None
  else match ParseInt s w with inl z => inl (Some z) | inr e => inr e end.

(** uint, uint8, ..., uint64, by width. *)
Definition FromString_unsigned (w : Z) (s : string) : Z + NumError :=
  if isEmptyString s then inl 0 else ParseUint s w.
Definition FromString_unsigned_ptr (w : Z) (s : string) : option Z + NumError :=
  if isEmptyString s then inl None
  else match ParseUint s w with inl z => inl (Some z) | inr e => inr e end.

Definition FromString_bool (s : string) : option bool :=
  if isEmptyString s then Some false else ParseBool s.
Definition FromString_bool_ptr (s : string) : option (option bool) :=
  if isEmptyString s then Some None else match ParseBool s with Some b => Some (Some b) | None => None end.

(** [FromStringOrEmpty] at an integer type. *)
Definition FromStringOrEmpty (r : Z + NumError) : Z := match r with inl z => z | inr _ => 0 end.

(** ** lo.go

    A type assertion of an interface value is an option; [TypeAssertFrom]
    keeps the values that implement the interface, in order. *)
Definition TypeAssertFrom {F T} (assert : F -> option T) (items : list F) : list T :=
  omap id (map assert items).

Definition Clone {A} (collection : list A) : list A := map (fun item => item) collection.

Lemma Clone_id {A} (l : list A) : Clone l = l.
Proof. unfold Clone. apply map_id. Qed.

Lemma TypeAssertFrom_omap {F T} (assert : F -> option T) items :
  TypeAssertFrom assert items = omap assert items.
Proof. unfold TypeAssertFrom. induction items as [|f l IH]; [done|].
  simpl. destruct (assert f); simpl; [f_equal|]; apply IH. Qed.

Lemma TypeAssertFrom_cons {F T} (assert : F -> option T) f l :
  TypeAssertFrom assert (f :: l) =
  match assert f with Some y => y :: TypeAssertFrom assert l | None => TypeAssertFrom assert l end.
Proof. done. Qed.

Lemma TypeAssertFrom_app {F T} (assert : F -> option T) l k :
  TypeAssertFrom assert (l ++ k) = TypeAssertFrom assert l ++ TypeAssertFrom assert k.
Proof. unfold TypeAssertFrom. by rewrite map_app, omap_app. Qed.

Lemma TypeAssertFrom_rev {F T} (assert : F -> option T) l :
  TypeAssertFrom assert (rev l) = rev (TypeAssertFrom assert l).
Proof.
  induction l as [|f l IH]; [done|]. simpl rev. rewrite TypeAssertFrom_app, IH.
  change (TypeAssertFrom assert (f :: l)) with (match assert f with Some y => y :: TypeAssertFrom assert l | None => TypeAssertFrom assert l end).
  unfold TypeAssertFrom at 2. simpl. by destruct (assert f); simpl; rewrite ?app_nil_r.
Qed.

(** ** Decimal texts at the integer types *)
Lemma Itoa_head z : exists c t, Itoa z = String c t /\ (digit c <> None \/ c = "-"%char).
Proof.
  destruct (Z.lt_ge_cases z 0) as [Hneg|Hpos].
  - exists "-"%char, (Itoa (- z)). split; [|by right]. rewrite <- Itoa_neg by lia. f_equal. lia.
  - destruct (Itoa z) as [|c t] eqn:E.
    + rewrite Itoa_nonneg in E by done. case_decide; [done|].
      destruct (pretty_N_go_cons (Z.to_N z) "") as (? & ? & ?); [lia|]. congruence.
    + exists c, t. split; [done|]. left. intros Hc.
      pose proof (Itoa_digits z c Hpos Hc) as H. rewrite E in H. simpl in H. by rewrite Ascii.eqb_refl in H.
Qed.

Lemma isEmptyString_Itoa z : isEmptyString (Itoa z) = false.
Proof.
  destruct (Itoa_head z) as (c & t & -> & Hc). unfold isEmptyString.
  repeat rewrite orb_false_iff. repeat split; apply String.eqb_neq; intros [= -> ->];
    destruct Hc as [Hc|Hc]; (by apply Hc) || done.
Qed.

(** [FromString] at a signed integer type of any width reads the decimal
    text of an integer as that integer exactly when it fits the type, and
    reports a range error otherwise. *)
Theorem FromString_signed_exact w z :
  0 < w -> FromString_signed w (Itoa z) = if decide (in_s w z) then inl z else inr ErrRange.
Proof. intros Hw. unfold FromString_signed. rewrite isEmptyString_Itoa. by apply ParseInt_Itoa. Qed.

Lemma FromString_signed_exact_witness : FromString_signed 8 (Itoa 128) = inr ErrRange.
Proof. apply (FromString_signed_exact 8 128). reflexivity. Defined.
