(* ===== verification/GoFloat.v ===== *)
(** * float64 arithmetic

    The gateway computes load ratios, refill rates and elapsed seconds in
    [float64].  The operations are the IEEE 754 binary64 ones of the Standard
    Library's [SpecFloat]; [time.Duration.Seconds] and the conversion to
    [int64] are modelled over them.  The lemmas bound a rounded result by any
    representable bound of the exact one ([round_bounds]), which is enough to
    show where the code's truncated float computations are exact. *)
From S2P Require Import Prelude.
From Stdlib Require Import SpecFloat.

Definition f64 : Type := spec_float.
Definition f64_of_int (z : Z) : f64 := binary_normalize 53 1024 z 0 false.

(** [strconv.ParseFloat] at 64 bits; an error is its text. *)
Class FloatText := ParseFloat : string -> f64 + string.

Definition f64_add : f64 -> f64 -> f64 := SFadd 53 1024.
Definition f64_div : f64 -> f64 -> f64 := SFdiv 53 1024.
Definition f64_ltb : f64 -> f64 -> bool := SFltb.
Definition f64_eqb : f64 -> f64 -> bool := SFeqb.

(** [int64(f)]: truncation toward zero.  The result is implementation-defined
    for NaN, the infinities and values outside int64; [invalid] stands for
    whatever the platform gives (math.MinInt64 on amd64). *)
Definition f64_trunc (f : f64) : option Z :=
  match f with
  | S754_zero _ => Some 0
  | S754_finite s m e =>
      let a := if 0 <=? e then Zpos m * 2 ^ e else Zpos m / 2 ^ (- e) in
      Some (if s then - a else a)
  | _ => None
  end.

Definition int64_of_f64 (invalid : Z) (f : f64) : Z :=
  match f64_trunc f with
  | Some z =>
      if (- 9223372036854775808 <=? z) && (z <? 9223372036854775808) then z else invalid
  | None => invalid
  end.

(** [func (d Duration) Seconds() float64] of package time: [d / Second] and
    [d % Second] are Go's truncated division. *)
Definition nanosPerSecond : Z := 1000000000.

Definition Seconds (d : Z) : f64 :=
  let sec := Z.quot d nanosPerSecond in
  let nsec := Z.rem d nanosPerSecond in
  f64_add (f64_of_int sec) (f64_div (f64_of_int nsec) (f64_of_int nanosPerSecond)).

(** ** Shifting right with sticky bits *)

(** [ub r Y]: the value the record denotes is at most the integer [Y]. *)
Definition ub (r : shr_record) (Y : Z) : Prop :=
  shr_m r < Y \/ (shr_m r = Y /\ shr_r r = false /\ shr_s r = false).

Lemma shr_1_m r : 0 <= shr_m r -> shr_m (shr_1 r) = shr_m r / 2.
Proof.
  destruct r as [m rb s]; simpl; intros Hm.
  destruct m as [|p|p]; [done| |lia].
  destruct p as [p|p|]; simpl; [|by rewrite (Pos2Z.inj_xO p), Z.mul_comm, Z.div_mul|done].
  rewrite (Pos2Z.inj_xI p). apply Z.div_unique with 1; lia.
Qed.

Lemma shr_1_ub r Y : 0 <= shr_m r -> ub r (2 * Y) -> ub (shr_1 r) Y.
Proof.
  intros Hm H. pose proof (shr_1_m r Hm) as Hs.
  destruct H as [H | (H & Hr & Hsb)].
  - left. rewrite Hs. apply Z.div_lt_upper_bound; lia.
  - right. split; [rewrite Hs, H, Z.mul_comm; apply Z.div_mul; lia|].
    destruct r as [m rb s]; simpl in *; subst. destruct Y as [|p|p]; simpl; [done|done|lia].
Qed.

Lemma iter_pos_add {A} (f : A -> A) p x : iter_pos f p x = Nat.iter (Pos.to_nat p) f x.
Proof.
  revert x. induction p as [p IH|p IH|]; intros x; cbn [iter_pos].
  - rewrite !IH, <- Nat.iter_add, <- Nat.iter_succ_r. f_equal. lia.
  - rewrite !IH, <- Nat.iter_add. f_equal. lia.
  - done.
Qed.

Lemma shr_iter n r Y L :
  0 <= shr_m r -> ub r (Y * 2 ^ Z.of_nat n) -> L * 2 ^ Z.of_nat n <= shr_m r ->
  let r' := Nat.iter n shr_1 r in
  0 <= shr_m r' /\ ub r' Y /\ L <= shr_m r'.
Proof.
  revert Y L. induction n as [|n IH]; intros Y L Hm Hu Hl; simpl.
  - change (Z.of_nat 0) with 0 in *. rewrite Z.pow_0_r, Z.mul_1_r in *. done.
  - rewrite Nat2Z.inj_succ, Z.pow_succ_r in Hu, Hl by lia.
    destruct (IH (2 * Y) (2 * L)) as (H0 & H1 & H2); [done| | |].
    { by replace (2 * Y * 2 ^ Z.of_nat n) with (Y * (2 * 2 ^ Z.of_nat n)) by lia. }
    { by replace (2 * L * 2 ^ Z.of_nat n) with (L * (2 * 2 ^ Z.of_nat n)) by lia. }
    set (r' := Nat.iter n shr_1 r) in *. rewrite shr_1_m by done. split; [|split].
    + apply Z.div_pos; lia.
    + by apply shr_1_ub.
    + apply Z.div_le_lower_bound; lia.
Qed.

(** ** Digits *)
Lemma digits2_pos_bounds p :
  2 ^ (Zpos (digits2_pos p) - 1) <= Zpos p < 2 ^ Zpos (digits2_pos p).
Proof.
  induction p as [p IH|p IH|]; simpl digits2_pos; [| |simpl; lia];
    rewrite Pos2Z.inj_succ, Z.pow_succ_r by lia;
    replace (Z.succ (Zpos (digits2_pos p)) - 1)
      with (Z.succ (Zpos (digits2_pos p) - 1)) by lia;
    rewrite Z.pow_succ_r by lia; lia.
Qed.

Lemma digits_le p d : 0 <= d -> Zpos p < 2 ^ d -> Zpos (digits2_pos p) <= d.
Proof.
  intros Hd Hp. pose proof (digits2_pos_bounds p) as [Hl _].
  assert (2 ^ (Zpos (digits2_pos p) - 1) < 2 ^ d) as H by lia.
  apply Z.pow_lt_mono_r_iff in H; lia.
Qed.

Lemma digits_ge p d : 0 <= d -> 2 ^ d <= Zpos p -> d < Zpos (digits2_pos p).
Proof.
  intros Hd Hp. pose proof (digits2_pos_bounds p) as [_ Hu].
  assert (2 ^ d < 2 ^ Zpos (digits2_pos p)) as H by lia.
  apply Z.pow_lt_mono_r_iff in H; lia.
Qed.

(** ** Rounding stays within representable bounds *)

(** [f64_in f L U k]: the nonnegative float [f] lies in [L*2^k, U*2^k], its
    exponent being at most [k]. *)
Definition f64_in (f : f64) (L U k : Z) : Prop :=
  match f with
  | S754_zero false => L <= 0 <= U
  | S754_finite false m e => e <= k /\ L * 2 ^ (k - e) <= Zpos m <= U * 2 ^ (k - e)
  | _ => False
  end.

Definition round_rec (r : shr_record) : Z :=
  round_nearest_even (shr_m r) (loc_of_shr_record r).

Lemma round_rec_bounds r U L :
  ub r U -> L <= shr_m r -> L <= round_rec r <= U.
Proof.
  destruct r as [m rb s]; unfold round_rec, ub; simpl. intros Hu Hl.
  destruct rb, s; simpl; repeat case_bool; destruct Hu as [Hu | (Hu & ? & ?)];
    try discriminate; lia.
Qed.

(** The exponent [shr_fexp] moves to is at most [k] for a value below
    [U * 2^k] with [U < 2^53]. *)
Lemma fexp_le m e U k :
  0 < m -> e <= k -> m <= U * 2 ^ (k - e) -> U < 2 ^ 53 -> -1074 <= k ->
  fexp 53 1024 (Zdigits2 m + e) <= k.
Proof.
  intros Hm He HU HU53 Hk. destruct m as [|p|p]; try lia. unfold fexp, emin. simpl Zdigits2.
  assert (Zpos (digits2_pos p) <= 53 + (k - e)).
  { apply digits_le; [lia|]. rewrite Z.pow_add_r by lia.
    assert (0 < 2 ^ (k - e)) by (apply Z.pow_pos_nonneg; lia). nia. }
  lia.
Qed.

Lemma shr_fexp_bounds m e l L U k :
  0 <= m -> e <= k -> ub (shr_record_of_loc m l) (U * 2 ^ (k - e)) ->
  L * 2 ^ (k - e) <= m -> U < 2 ^ 53 -> -1074 <= k ->
  exists r e', shr_fexp 53 1024 m e l = (r, e') /\ e' <= k /\ 0 <= shr_m r /\
    ub r (U * 2 ^ (k - e')) /\ L * 2 ^ (k - e') <= shr_m r.
Proof.
  intros Hm He Hu Hl HU Hk. unfold shr_fexp.
  assert (shr_m (shr_record_of_loc m l) = m) as Hr by (destruct l as [|[]]; done).
  assert (m <= U * 2 ^ (k - e)) as HmU by (unfold ub in Hu; rewrite Hr in Hu; lia).
  unfold shr. destruct (fexp 53 1024 (Zdigits2 m + e) - e) as [|p|p] eqn:Hn.
  - exists (shr_record_of_loc m l), e. by rewrite Hr.
  - assert (fexp 53 1024 (Zdigits2 m + e) <= k \/ m = 0) as Hf.
    { destruct (Z.eq_dec m 0); [by right|left]. by apply (fexp_le m e U k); try lia. }
    assert (e + Zpos p <= k) as Hek.
    { destruct Hf as [Hf | ->]; [lia|]. unfold fexp, emin in Hn. simpl Zdigits2 in Hn. lia. }
    rewrite iter_pos_add.
    destruct (shr_iter (Pos.to_nat p) (shr_record_of_loc m l)
      (U * 2 ^ (k - (e + Zpos p))) (L * 2 ^ (k - (e + Zpos p)))) as (H0 & H1 & H2).
    + by rewrite Hr.
    + rewrite positive_nat_Z, <- Z.mul_assoc, <- Z.pow_add_r by lia.
      by replace (k - (e + Zpos p) + Zpos p) with (k - e) by lia.
    + rewrite Hr, positive_nat_Z, <- Z.mul_assoc, <- Z.pow_add_r by lia.
      by replace (k - (e + Zpos p) + Zpos p) with (k - e) by lia.
    + eexists _, _. split; [reflexivity|]. done.
  - exists (shr_record_of_loc m l), e. by rewrite Hr.
Qed.

Lemma round_bounds m e l L U k :
  0 <= m -> e <= k -> ub (shr_record_of_loc m l) (U * 2 ^ (k - e)) ->
  L * 2 ^ (k - e) <= m -> U < 2 ^ 53 -> -1074 <= k <= 971 ->
  f64_in (binary_round_aux 53 1024 false m e l) L U k.
Proof.
  intros Hm He Hu Hl HU Hk. unfold binary_round_aux.
  destruct (shr_fexp_bounds m e l L U k) as (r & e1 & -> & He1 & Hr0 & Hru & Hrl); try lia; [done|].
  fold (round_rec r).
  pose proof (round_rec_bounds r (U * 2 ^ (k - e1)) (L * 2 ^ (k - e1)) Hru Hrl) as [HL2 HU2].
  assert (0 <= round_rec r) as Hpos.
  { pose proof (round_rec_bounds r (U * 2 ^ (k - e1)) 0 Hru Hr0); lia. }
  destruct (shr_fexp_bounds (round_rec r) e1 loc_Exact L U k)
    as (r2 & e2 & -> & He2 & Hr20 & Hru2 & Hrl2); try lia.
  { unfold ub; simpl. destruct (Z.eq_dec (round_rec r) (U * 2 ^ (k - e1))); [by right|left; lia]. }
  destruct (shr_m r2) as [|p|p] eqn:Hm2; [| |lia].
  - simpl. unfold ub in Hru2. rewrite Hm2 in Hru2.
    assert (0 < 2 ^ (k - e2)) by (apply Z.pow_pos_nonneg; lia). nia.
  - rewrite (proj2 (Z.leb_le e2 _)) by lia. simpl.
    unfold ub in Hru2. rewrite Hm2 in Hru2. lia.
Qed.

(** ** Conversion, division and addition of nonnegative values *)
Lemma Pos_iter_xO p d : Zpos (Pos.iter xO p d) = Zpos p * 2 ^ Zpos d.
Proof.
  induction d as [|d IH] using Pos.peano_ind; [simpl; lia|].
  rewrite Pos.iter_succ, Pos2Z.inj_succ, Z.pow_succ_r by lia.
  rewrite (Pos2Z.inj_xO (Pos.iter _ _ _)). lia.
Qed.

Lemma shl_align_spec p e e' q d :
  shl_align p e e' = (q, d) -> d <= e /\ Zpos q = Zpos p * 2 ^ (e - d).
Proof.
  unfold shl_align. destruct (e' - e) as [|x|x] eqn:Hx; intros [= <- <-].
  - rewrite Z.sub_diag. lia.
  - rewrite Z.sub_diag. lia.
  - rewrite Pos_iter_xO. split; [lia|]. by replace (e - e') with (Zpos x) by lia.
Qed.

Lemma shl_align_min p e e' :
  e' <= e -> Zpos (fst (shl_align p e e')) = Zpos p * 2 ^ (e - e').
Proof.
  intros He. unfold shl_align. destruct (e' - e) as [|x|x] eqn:Hx; simpl; try lia.
  - replace (e - e') with 0 by lia. lia.
  - rewrite Pos_iter_xO. by replace (e - e') with (Zpos x) by lia.
Qed.

Lemma binary_normalize_in z e L U k :
  0 <= z -> e <= k -> L * 2 ^ (k - e) <= z <= U * 2 ^ (k - e) ->
  U < 2 ^ 53 -> -1074 <= k <= 971 ->
  f64_in (binary_normalize 53 1024 z e false) L U k.
Proof.
  intros Hz He [HL HU] HU53 Hk.
  assert (0 < 2 ^ (k - e)) by (apply Z.pow_pos_nonneg; lia).
  destruct z as [|p|p]; [simpl; nia| |lia].
  simpl. unfold binary_round.
  destruct (shl_align p e _) as [q d] eqn:Hq. apply shl_align_spec in Hq as [Hd Hq].
  assert (2 ^ (k - d) = 2 ^ (k - e) * 2 ^ (e - d)) as Hp
    by (rewrite <- Z.pow_add_r by lia; f_equal; lia).
  assert (0 < 2 ^ (e - d)) by (apply Z.pow_pos_nonneg; lia).
  apply round_bounds; try lia.
  - unfold ub; simpl. rewrite Hq, Hp.
    destruct (Z.eq_dec (Zpos p) (U * 2 ^ (k - e))); [right; split; [nia|done]|left; nia].
  - rewrite Hq, Hp. nia.
Qed.

(** An integer of fewer than [53+k] bits is converted exactly, to a float
    whose exponent is at most [k]. *)
Lemma f64_of_int_at z k :
  0 <= z < 2 ^ (53 + k) -> -53 <= k <= 0 ->
  f64_in (f64_of_int z) (z * 2 ^ (- k)) (z * 2 ^ (- k)) k.
Proof.
  intros Hz Hk. unfold f64_of_int. destruct z as [|p|p]; [simpl; lia| |lia].
  simpl. unfold binary_round.
  assert (fexp 53 1024 (Zpos (digits2_pos p) + 0) <= k) as Hf.
  { unfold fexp, emin. pose proof (digits_le p (53 + k) ltac:(lia) ltac:(lia)). lia. }
  destruct (shl_align p 0 _) as [q d] eqn:Hq.
  assert (d <= k) as Hdk.
  { unfold shl_align in Hq.
    destruct (fexp 53 1024 (Zpos (digits2_pos p) + 0) - 0) eqn:Hx; injection Hq as <- <-; lia. }
  apply shl_align_spec in Hq as [Hd Hq].
  assert (Zpos q = Zpos p * 2 ^ (- k) * 2 ^ (k - d)) as Hq2.
  { rewrite Hq, <- Z.mul_assoc, <- Z.pow_add_r by lia. do 2 f_equal. lia. }
  apply round_bounds; try lia.
  - unfold ub; simpl. by right.
  - assert (2 ^ 53 = 2 ^ (53 + k) * 2 ^ (- k)) as ->
      by (rewrite <- Z.pow_add_r by lia; f_equal; lia).
    assert (0 < 2 ^ (- k)) by (apply Z.pow_pos_nonneg; lia). nia.
Qed.

Lemma f64_of_int_in z : 0 <= z < 2 ^ 53 -> f64_in (f64_of_int z) z z 0.
Proof. intros Hz. pose proof (f64_of_int_at z 0) as H. rewrite Z.mul_1_r in H. apply H; lia. Qed.

(** Exponents lie in int64's neighbourhood: a float in [L*2^k, U*2^k] with
    [k <= 0] truncates to an integer in the same interval. *)
Lemma f64_trunc_in f L U k n :
  k <= 0 -> f64_in f L U k -> n * 2 ^ (- k) <= L -> U < (n + 1) * 2 ^ (- k) ->
  f64_trunc f = Some n.
Proof.
  intros Hk Hf HL HU. assert (0 < 2 ^ (- k)) by (apply Z.pow_pos_nonneg; lia).
  destruct f as [[]|[]| |[] m e]; simpl in Hf; try done.
  - simpl. f_equal. nia.
  - destruct Hf as (He & Hl & Hu). simpl.
    assert (0 < 2 ^ (k - e)) by (apply Z.pow_pos_nonneg; lia).
    assert (2 ^ (- e) = 2 ^ (- k) * 2 ^ (k - e)) as Hp
      by (rewrite <- Z.pow_add_r by lia; f_equal; lia).
    f_equal. destruct (Z.leb_spec 0 e).
    + assert (e = 0 /\ k = 0) as [-> ->] by lia. simpl in *. lia.
    + symmetry. apply Z.div_unique with (Zpos m - 2 ^ (- e) * n); [left; rewrite Hp; nia|lia].
Qed.

Lemma new_location_exact d r : 0 < d -> 0 <= r < d -> new_location d r = loc_Exact <-> r = 0.
Proof.
  intros Hd Hr. unfold new_location, new_location_even, new_location_odd.
  destruct (Z.even d); destruct (Z.eqb_spec r 0); by split.
Qed.

Lemma ub_loc q l U : q < U \/ (q = U /\ l = loc_Exact) -> ub (shr_record_of_loc q l) U.
Proof.
  unfold ub. intros [H | [H ->]]; [left; by destruct l as [|[]] | by right].
Qed.

(** Division: the quotient of two exactly represented integers stays within
    representable bounds of the exact quotient. *)
Lemma div_exponent mx ex my ey a b k :
  ex <= 0 -> ey <= 0 -> Zpos mx = a * 2 ^ (- ex) -> Zpos my = b * 2 ^ (- ey) ->
  a < 2 ^ (53 + k) * b -> -53 <= k ->
  fexp 53 1024 (Zpos (digits2_pos mx) + ex - (Zpos (digits2_pos my) + ey)) <= k.
Proof.
  intros Hex Hey Hx Hy Hab Hk. unfold fexp, emin.
  pose proof (digits2_pos_bounds mx) as [Hmx _]. pose proof (digits2_pos_bounds my) as [_ Hmy].
  assert (0 < 2 ^ (- ex)) by (apply Z.pow_pos_nonneg; lia).
  assert (0 < 2 ^ (- ey)) by (apply Z.pow_pos_nonneg; lia).
  assert (0 < a /\ 0 < b) as [Ha Hb] by nia.
  assert (- ex < Zpos (digits2_pos mx)) by (apply digits_ge; nia).
  assert (- ey < Zpos (digits2_pos my)) by (apply digits_ge; nia).
  set (d1 := Zpos (digits2_pos mx)) in *. set (d2 := Zpos (digits2_pos my)) in *.
  assert (2 ^ (d1 - 1 + ex) <= a) as Ha1.
  { replace (d1 - 1) with (d1 - 1 + ex + - ex) in Hmx by lia.
    rewrite Z.pow_add_r in Hmx by lia. nia. }
  assert (b < 2 ^ (d2 + ey)) as Hb1.
  { replace d2 with (d2 + ey + - ey) in Hmy by lia.
    rewrite Z.pow_add_r in Hmy by lia. nia. }
  destruct (Z.le_gt_cases (d1 + ex - (d2 + ey) - 53) k) as [|Hgt]; [lia|exfalso].
  assert (2 ^ (53 + k) * 2 ^ (d2 + ey) <= 2 ^ (d1 - 1 + ex)) as Hc1
    by (rewrite <- Z.pow_add_r by lia; apply Z.pow_le_mono_r; lia).
  assert (0 < 2 ^ (53 + k)) by (apply Z.pow_pos_nonneg; lia). nia.
Qed.

Lemma f64_div_in x y a b L U k :
  f64_in x a a 0 -> f64_in y b b 0 -> 0 <= a -> 0 < b ->
  L * b <= a * 2 ^ (- k) <= U * b -> -53 <= k <= 0 -> a < 2 ^ (53 + k) * b ->
  U < 2 ^ 53 -> f64_in (f64_div x y) L U k.
Proof.
  intros Hx Hy Ha Hb [HL HU] Hk Hak HU53. unfold f64_div.
  destruct y as [[]|[]| |[] my ey]; unfold f64_in in Hy; rewrite ?Z.sub_0_l in Hy; try done; [lia|].
  destruct Hy as (Hey & Hly & Huy). assert (Zpos my = b * 2 ^ (- ey)) as Hmy by lia.
  destruct x as [[]|[]| |[] mx ex]; unfold f64_in in Hx; rewrite ?Z.sub_0_l in Hx; try done.
  { replace a with 0 in * by lia. simpl. nia. }
  destruct Hx as (Hex & Hlx & Hux). assert (Zpos mx = a * 2 ^ (- ex)) as Hmx by lia.
  pose proof (div_exponent mx ex my ey a b k ltac:(lia) ltac:(lia) Hmx Hmy Hak ltac:(lia)) as Hf.
  unfold SFdiv, SFdiv_core_binary. simpl Zdigits2.
  set (e' := Z.min _ (ex - ey)) in *. assert (e' <= k) as He' by lia.
  set (m' := match ex - ey - e' with Z0 => _ | Zpos _ => _ | Zneg _ => _ end).
  assert (m' = a * 2 ^ (- ey - e')) as Hm'.
  { unfold m'. destruct (ex - ey - e') as [|s|s] eqn:Hs; [| |lia].
    - rewrite Hmx. do 2 f_equal. lia.
    - rewrite Z.shiftl_mul_pow2, Hmx, <- Z.mul_assoc, <- Z.pow_add_r by lia.
      do 2 f_equal. lia. }
  assert (0 <= m') as Hm'0 by (rewrite Hm'; apply Z.mul_nonneg_nonneg; [lia|apply Z.pow_nonneg; lia]).
  assert (2 ^ (- ey - e') = 2 ^ (- k) * (2 ^ (k - e') * 2 ^ (- ey))) as Hp
    by (rewrite <- !Z.pow_add_r by lia; f_equal; lia).
  assert (0 < 2 ^ (k - e') /\ 0 < 2 ^ (- ey)) as [Hp1 Hp2] by (split; apply Z.pow_pos_nonneg; lia).
  assert (m' <= U * 2 ^ (k - e') * Zpos my) as HmU by (rewrite Hm', Hp, Hmy; nia).
  assert (L * 2 ^ (k - e') * Zpos my <= m') as HmL by (rewrite Hm', Hp, Hmy; nia).
  pose proof (Z_div_mod m' (Zpos my) ltac:(lia)) as Hdiv.
  destruct (Z.div_eucl m' (Zpos my)) as [q r]. destruct Hdiv as [Heq Hr]. simpl xorb.
  apply round_bounds; try lia; [nia| |nia].
  apply ub_loc. rewrite new_location_exact by lia.
  destruct (Z.eq_dec r 0); [|left; nia].
  destruct (Z.eq_dec q (U * 2 ^ (k - e'))); [by right|left; nia].
Qed.

Lemma f64_add_in x y L1 U1 L2 U2 k :
  f64_in x L1 U1 k -> f64_in y L2 U2 k -> 0 <= L1 -> 0 <= L2 ->
  U1 + U2 < 2 ^ 53 -> -1074 <= k <= 971 ->
  f64_in (f64_add x y) (L1 + L2) (U1 + U2) k.
Proof.
  intros Hx Hy HL1 HL2 HU Hk. unfold f64_add.
  destruct x as [[]|[]| |[] mx ex], y as [[]|[]| |[] my ey]; simpl in Hx, Hy; try done.
  - simpl. lia.
  - simpl. destruct Hy as (? & ? & ?).
    assert (0 < 2 ^ (k - ey)) by (apply Z.pow_pos_nonneg; lia). nia.
  - simpl. destruct Hx as (? & ? & ?).
    assert (0 < 2 ^ (k - ex)) by (apply Z.pow_pos_nonneg; lia). nia.
  - destruct Hx as (Hex & Hlx & Hux), Hy as (Hey & Hly & Huy).
    unfold SFadd. unfold cond_Zopp. set (ez := Z.min ex ey).
    assert (ez <= ex /\ ez <= ey) as [Hzx Hzy] by (unfold ez; lia).
    rewrite !shl_align_min by done.
    assert (2 ^ (k - ez) = 2 ^ (k - ex) * 2 ^ (ex - ez)) as Hpx
      by (rewrite <- Z.pow_add_r by lia; f_equal; lia).
    assert (2 ^ (k - ez) = 2 ^ (k - ey) * 2 ^ (ey - ez)) as Hpy
      by (rewrite <- Z.pow_add_r by lia; f_equal; lia).
    assert (0 < 2 ^ (ex - ez) /\ 0 < 2 ^ (ey - ez)) as [? ?] by (split; apply Z.pow_pos_nonneg; lia).
    clearbody ez. apply binary_normalize_in; [nia|lia| |lia|lia].
    rewrite !Z.mul_add_distr_r.
    split; apply Z.add_le_mono; (rewrite Hpx; nia) || (rewrite Hpy; nia).
Qed.

(** ** Where the code's truncated computations are exact *)

(** Up to 2^22 seconds (48 days) the whole seconds of a duration are computed
    exactly: [int64(d.Seconds()) = d / Second]. *)
Lemma Seconds_trunc d :
  0 <= d < 2 ^ 22 * nanosPerSecond -> f64_trunc (Seconds d) = Some (d / nanosPerSecond).
Proof.
  unfold nanosPerSecond. intros Hd. unfold Seconds, nanosPerSecond.
  rewrite Z.quot_div_nonneg, Z.rem_mod_nonneg by lia.
  pose proof (Z.mod_pos_bound d 1000000000 ltac:(lia)) as Hn.
  assert (0 <= d / 1000000000 < 2 ^ 22) as Hs
    by (split; [apply Z.div_pos; lia | apply Z.div_lt_upper_bound; lia]).
  set (s := d / 1000000000) in *. set (n := d mod 1000000000) in *. clearbody s n.
  assert (f64_in (f64_of_int s) (s * 2 ^ 30) (s * 2 ^ 30) (-30)) as Hfs
    by (apply (f64_of_int_at s (-30)); lia).
  apply (f64_trunc_in _ (s * 2 ^ 30 + 0) (s * 2 ^ 30 + (2 ^ 30 - 1)) (-30)); try lia.
  apply f64_add_in; try lia; [done|].
  apply (f64_div_in _ _ n 1000000000); try lia; apply f64_of_int_in; lia.
Qed.

Lemma Seconds_whole w : 0 <= w < 2 ^ 33 -> f64_in (Seconds (w * nanosPerSecond)) w w 0.
Proof.
  intros Hw. unfold Seconds, nanosPerSecond.
  rewrite Z.quot_mul, Z.rem_mul by lia.
  change (f64_div (f64_of_int 0) (f64_of_int 1000000000)) with (S754_zero false).
  pose proof (f64_of_int_in w ltac:(lia)) as H.
  pose proof (f64_add_in (f64_of_int w) (S754_zero false) w w 0 0 0 H) as H2.
  rewrite !Z.add_0_r in H2. apply H2; simpl; lia.
Qed.

(** A whole number of seconds: the truncated rate [int64(float64(c)/w.Seconds())]
    is the integer quotient. *)
Lemma rate_trunc c w :
  0 <= c < 2 ^ 42 -> 0 < w < 2 ^ 33 ->
  f64_trunc (f64_div (f64_of_int c) (Seconds (w * nanosPerSecond))) = Some (c / w).
Proof.
  intros Hc Hw.
  assert (0 <= c / w) by (apply Z.div_pos; lia).
  pose proof (Z.mul_div_le c w ltac:(lia)). pose proof (Z.mul_succ_div_gt c w ltac:(lia)).
  set (t := Z.log2_up w). pose proof (Z.log2_up_nonneg w) as Ht0. fold t in Ht0.
  assert (w <= 2 ^ t /\ 2 ^ t < 2 * w) as [Ht1 Ht2].
  { destruct (Z.eq_dec w 1) as [->|]; [done|].
    pose proof (Z.log2_up_spec w ltac:(lia)) as [Hl Hu]. fold t in Hl, Hu. split; [done|].
    replace t with (Z.succ (Z.pred t)) by lia. rewrite Z.pow_succ_r; [lia|].
    assert (0 < t) by (apply Z.log2_up_pos; lia). lia. }
  assert (t <= 33) by (apply (Z.log2_up_le_pow2 w 33); lia).
  set (q := c / w) in *. clearbody q t.
  apply (f64_trunc_in _ (q * 2 ^ t) ((q + 1) * 2 ^ t - 1) (- t)); rewrite ?Z.opp_involutive; try lia.
  apply (f64_div_in _ _ c w); rewrite ?Z.opp_involutive; try lia.
  - apply f64_of_int_in. lia.
  - apply Seconds_whole. lia.
  - split; [nia|]. nia.
  - assert (2 ^ 53 = 2 ^ (53 + - t) * 2 ^ t) as Hp by (rewrite <- Z.pow_add_r by lia; f_equal; lia).
    assert (0 < 2 ^ (53 + - t)) by (apply Z.pow_pos_nonneg; lia). nia.
  - nia.
Qed.

(** ** Comparing nonnegative floats *)
Definition f64_nonneg (f : f64) : Prop :=
  match f with S754_zero _ | S754_finite false _ _ => True | _ => False end.

Lemma f64_in_nonneg f L U k : f64_in f L U k -> f64_nonneg f.
Proof. by destruct f as [[]|[]| |[] m e]. Qed.

Lemma f64_ge_trans a b c :
  f64_nonneg a -> f64_nonneg b -> f64_nonneg c ->
  f64_ltb a b = false -> f64_ltb b c = false -> f64_ltb a c = false.
Proof.
  unfold f64_ltb, SFltb.
  destruct a as [sa|sa| |[] ma ea], b as [sb|sb| |[] mb eb], c as [sc|sc| |[] mc ec];
    try done; simpl; intros _ _ _.
  change (Pos.compare_cont Eq ma mb) with (Pos.compare ma mb).
  change (Pos.compare_cont Eq mb mc) with (Pos.compare mb mc).
  change (Pos.compare_cont Eq ma mc) with (Pos.compare ma mc).
  destruct (Z.compare_spec ea eb), (Z.compare_spec eb ec), (Z.compare_spec ea ec),
    (Pos.compare_spec ma mb), (Pos.compare_spec mb mc), (Pos.compare_spec ma mc);
    try done; lia.
Qed.

Lemma f64_ltb_asym a b : f64_ltb a b = true -> f64_ltb b a = false.
Proof.
  unfold f64_ltb, SFltb.
  destruct a as [sa|[]| |[] ma ea], b as [sb|[]| |[] mb eb]; try done; simpl;
    rewrite (Z.compare_antisym ea eb); destruct (ea ?= eb); try done; simpl;
    change (Pos.compare_cont Eq ma mb) with (Pos.compare ma mb);
    change (Pos.compare_cont Eq mb ma) with (Pos.compare mb ma);
    rewrite (Pos.compare_antisym ma mb); destruct (Pos.compare ma mb); done.
Qed.

Lemma f64_eqb_not_ltb a b : f64_eqb a b = true -> f64_ltb b a = false.
Proof.
  unfold f64_eqb, f64_ltb, SFeqb, SFltb.
  destruct a as [sa|[]| |[] ma ea], b as [sb|[]| |[] mb eb]; try done; simpl;
    rewrite (Z.compare_antisym ea eb); destruct (ea ?= eb); try done; simpl;
    change (Pos.compare_cont Eq ma mb) with (Pos.compare ma mb);
    change (Pos.compare_cont Eq mb ma) with (Pos.compare mb ma);
    rewrite (Pos.compare_antisym ma mb); destruct (Pos.compare ma mb); done.
Qed.

Lemma f64_ltb_irrefl a : f64_ltb a a = false.
Proof. destruct (f64_ltb a a) eqn:H; [|done]. by rewrite (f64_ltb_asym _ _ H) in H. Qed.

(** A quotient of 31-bit integers is a nonnegative float. *)
Lemma f64_ratio_nonneg a b :
  0 <= a < 2 ^ 31 -> 0 < b < 2 ^ 31 -> f64_nonneg (f64_div (f64_of_int a) (f64_of_int b)).
Proof.
  intros Ha Hb. apply (f64_in_nonneg _ 0 (a * 2 ^ 22) (-22)).
  apply (f64_div_in _ _ a b); try (apply f64_of_int_in; lia); try lia.
  change (2 ^ (- (-22))) with (2 ^ 22). split; nia.
Qed.
