(* ===== verification/Canonical.v ===== *)
(** * Canonical floats

    [SpecFloat] compares floats by their exponents first, which is right on
    canonical representations only.  The operations return canonical floats
    ([valid_round] and what follows), so that comparing two results compares
    the numbers they stand for, and a number has one representation.  The
    interval lemmas of GoFloat.v are extended with multiplication and
    subtraction. *)
From S2P Require Import Prelude GoFloat.
From Stdlib Require Import SpecFloat.

Definition f64_sub : f64 -> f64 -> f64 := SFsub 53 1024.
Definition f64_mul : f64 -> f64 -> f64 := SFmul 53 1024.
Definition f64_leb : f64 -> f64 -> bool := SFleb.

(** A float as binary64 stores it. *)
Definition valid (f : f64) : Prop := valid_binary 53 1024 f = true.

(** ** Digits of shifted numbers *)
Lemma digits_nonneg m : 0 <= Zdigits2 m.
Proof. by destruct m. Qed.

Lemma digits_bounds m : 0 < m -> 2 ^ (Zdigits2 m - 1) <= m < 2 ^ Zdigits2 m.
Proof. destruct m; try lia. intros _. apply digits2_pos_bounds. Qed.

Lemma digits_at_least m d : 0 <= m -> 0 <= d -> 2 ^ d <= m -> d < Zdigits2 m.
Proof. intros Hm Hd H. destruct m as [|p|p]; [|by apply digits_ge|lia]. assert (0 < 2 ^ d) by (apply Z.pow_pos_nonneg; lia). lia. Qed.

Lemma digits_at_most m d : 0 <= m -> 0 <= d -> m < 2 ^ d -> Zdigits2 m <= d.
Proof. intros Hm Hd H. destruct m as [|p|p]; [done|by apply digits_le|lia]. Qed.

Lemma digits_shift m n : 0 < m -> 0 <= n -> Zdigits2 (m * 2 ^ n) = Zdigits2 m + n.
Proof.
  intros Hm Hn. pose proof (digits_bounds m Hm) as [Hl Hu].
  assert (0 < Zdigits2 m) by (destruct m; simpl; lia). assert (0 < 2 ^ n) by (apply Z.pow_pos_nonneg; lia).
  assert (Zdigits2 m - 1 + n < Zdigits2 (m * 2 ^ n)).
  { apply digits_at_least; [nia|lia|]. rewrite Z.pow_add_r by lia. nia. }
  assert (Zdigits2 (m * 2 ^ n) <= Zdigits2 m + n); [|lia].
  apply digits_at_most; [nia|lia|]. rewrite Z.pow_add_r by lia. nia.
Qed.

(** ** Rounding gives a canonical float *)
Lemma shr_iter_m n r : 0 <= shr_m r -> shr_m (Nat.iter n shr_1 r) = shr_m r / 2 ^ Z.of_nat n.
Proof.
  intros Hr. induction n as [|n IH]; [by rewrite Z.div_1_r|]. cbn [Nat.iter nat_rect].
  change (nat_rect _ _ _ n) with (Nat.iter n shr_1 r). rewrite shr_1_m, IH.
  - rewrite Z.div_div, Nat2Z.inj_succ, Z.pow_succ_r by lia. f_equal. lia.
  - rewrite IH. apply Z.div_pos; lia.
Qed.

Lemma shr_fexp_m m e l :
  0 <= m -> e <= fexp 53 1024 (Zdigits2 m + e) ->
  exists r, shr_fexp 53 1024 m e l = (r, fexp 53 1024 (Zdigits2 m + e)) /\
    shr_m r = m / 2 ^ (fexp 53 1024 (Zdigits2 m + e) - e).
Proof.
  intros Hm He. unfold shr_fexp. set (e' := fexp 53 1024 _) in *.
  assert (shr_m (shr_record_of_loc m l) = m) as Er by by destruct l as [|[]].
  unfold shr. destruct (e' - e) as [|p|p] eqn:Ep; [| |lia].
  - eexists. split; [f_equal; lia|]. by rewrite Er, Z.div_1_r.
  - eexists. split; [f_equal; lia|]. by rewrite iter_pos_add, shr_iter_m, Er, positive_nat_Z by lia.
Qed.

(** What the first shift leaves: at most 53 digits, and all of them unless the
    exponent is the least. *)
Lemma shifted_bounds m e :
  0 <= m -> e <= fexp 53 1024 (Zdigits2 m + e) ->
  let e1 := fexp 53 1024 (Zdigits2 m + e) in
  let m1 := m / 2 ^ (e1 - e) in
  -1074 <= e1 /\ 0 <= m1 < 2 ^ 53 /\ (e1 = -1074 \/ 2 ^ 52 <= m1).
Proof.
  intros Hm He e1 m1. fold e1 in He. assert (0 < 2 ^ (e1 - e)) as Hp by (apply Z.pow_pos_nonneg; lia).
  assert (-1074 <= e1) as H1 by (unfold e1, fexp, emin; lia). split; [done|].
  assert (m < 2 ^ Zdigits2 m) as Hu by (destruct m; [simpl; lia|apply digits2_pos_bounds|lia]).
  assert (Zdigits2 m <= 53 + (e1 - e)) as Hd by (unfold e1, fexp, emin; lia).
  split; [split; [apply Z.div_pos; lia|]|].
  - apply Z.div_lt_upper_bound; [done|]. rewrite <- Z.pow_add_r by lia.
    apply (Z.lt_le_trans _ _ _ Hu), Z.pow_le_mono_r; lia.
  - destruct (Z.eq_dec e1 (-1074)) as [|Hne]; [by left|right].
    assert (Zdigits2 m = 53 + (e1 - e)) as Hd' by (unfold e1, fexp, emin in *; lia).
    destruct (Z.eq_dec m 0) as [->|]; [simpl in Hd'; lia|].
    pose proof (digits_bounds m ltac:(lia)) as [Hl _]. rewrite Hd' in Hl.
    apply Z.div_le_lower_bound; [done|]. rewrite <- Z.pow_add_r by lia. etransitivity; [|exact Hl].
    apply Z.pow_le_mono_r; lia.
Qed.

Lemma fexp_canonical m e :
  0 < m < 2 ^ 53 -> -1074 <= e -> e = -1074 \/ 2 ^ 52 <= m -> fexp 53 1024 (Zdigits2 m + e) = e.
Proof.
  intros Hm He Hc. pose proof (digits_at_most m 53 ltac:(lia) ltac:(lia) ltac:(lia)). unfold fexp, emin.
  destruct Hc as [->|Hc]; [lia|]. pose proof (digits_at_least m 52 ltac:(lia) ltac:(lia) Hc). lia.
Qed.

Lemma valid_finite s p e : fexp 53 1024 (Zpos (digits2_pos p) + e) = e -> e <= 1024 - 53 -> valid (S754_finite s p e).
Proof.
  intros He Hle. unfold valid, valid_binary, bounded, canonical_mantissa.
  by rewrite He, Z.eqb_refl, (proj2 (Z.leb_le _ _) Hle).
Qed.

Lemma valid_round s m e l :
  0 <= m -> e <= fexp 53 1024 (Zdigits2 m + e) -> valid (binary_round_aux 53 1024 s m e l).
Proof.
  intros Hm He. unfold binary_round_aux. destruct (shr_fexp_m m e l Hm He) as (r & -> & Er).
  pose proof (shifted_bounds m e Hm He) as (H1 & H2 & H3). cbv zeta in H2, H3. rewrite <- Er in H2, H3.
  set (e1 := fexp 53 1024 (Zdigits2 m + e)) in *. clearbody e1. fold (round_rec r). set (m2 := round_rec r).
  assert (shr_m r <= m2 <= shr_m r + 1) as Hm2.
  { apply round_rec_bounds; [unfold ub|]; lia. }
  destruct (Z.eq_dec m2 0) as [E0|Hn0].
  { rewrite E0. assert (e1 = -1074) as -> by lia. done. }
  destruct (Z.eq_dec m2 (2 ^ 53)) as [E53|Hn53].
  - rewrite E53. destruct (shr_fexp_m (2 ^ 53) e1 loc_Exact ltac:(lia)) as (r2 & -> & E2).
    { change (Zdigits2 (2 ^ 53)) with 54. unfold fexp, emin. lia. }
    change (Zdigits2 (2 ^ 53)) with 54 in *. replace (fexp 53 1024 (54 + e1)) with (e1 + 1) in * by (unfold fexp, emin; lia).
    replace (e1 + 1 - e1) with 1 in E2 by lia. change (2 ^ 53 / 2 ^ 1) with 4503599627370496 in E2. rewrite E2.
    destruct (Z.leb_spec (e1 + 1) (1024 - 53)); [|done].
    apply valid_finite; [|done]. apply (fexp_canonical 4503599627370496); lia.
  - assert (fexp 53 1024 (Zdigits2 m2 + e1) = e1) as Ef by (apply fexp_canonical; lia).
    destruct (shr_fexp_m m2 e1 loc_Exact ltac:(lia) ltac:(lia)) as (r2 & -> & E2). rewrite Ef in *.
    rewrite Z.sub_diag, Z.div_1_r in E2. rewrite E2. destruct m2 as [|p|p]; [done| |lia].
    destruct (Z.leb_spec e1 (1024 - 53)); [|done]. by apply valid_finite.
Qed.

(** ** The operations *)
Lemma fexp_mono a b : a <= b -> fexp 53 1024 a <= fexp 53 1024 b.
Proof. unfold fexp. lia. Qed.

Lemma valid_normalize z e sz : valid (binary_normalize 53 1024 z e sz).
Proof.
  assert (forall s p, valid (binary_round 53 1024 s p e)) as H.
  { intros s p. unfold binary_round. set (e' := fexp 53 1024 (Zpos (digits2_pos p) + e)).
    destruct (shl_align p e e') as [q d] eqn:E. pose proof (shl_align_spec _ _ _ _ _ E) as [Hd Hq].
    apply valid_round; [lia|]. rewrite Hq, (digits_shift (Zpos p)) by lia. cbn [Zdigits2].
    replace (Zpos (digits2_pos p) + (e - d) + d) with (Zpos (digits2_pos p) + e) by lia. fold e'.
    unfold shl_align in E. destruct (e' - e) eqn:Ee; injection E as <- <-; lia. }
  destruct z; [done|apply H..].
Qed.

Lemma valid_of_int z : valid (f64_of_int z).
Proof. apply valid_normalize. Qed.

Lemma valid_add x y : valid x -> valid y -> valid (f64_add x y).
Proof. intros Hx Hy. destruct x as [[]|[]| |sx mx ex], y as [[]|[]| |sy my ey]; try done; apply valid_normalize. Qed.

Lemma valid_sub x y : valid x -> valid y -> valid (f64_sub x y).
Proof. intros Hx Hy. destruct x as [[]|[]| |sx mx ex], y as [[]|[]| |sy my ey]; try done; apply valid_normalize. Qed.

Lemma canonical_exponent s p e : valid (S754_finite s p e) -> fexp 53 1024 (Zpos (digits2_pos p) + e) = e.
Proof. unfold valid, valid_binary, bounded, canonical_mantissa. intros [H _]%andb_true_iff. by apply Z.eqb_eq. Qed.

Lemma digits_mono p r : Zpos p <= Zpos r -> Zpos (digits2_pos p) <= Zdigits2 (Zpos r).
Proof.
  intros Hp. pose proof (digits2_pos_bounds p) as [H _].
  pose proof (digits_at_least (Zpos r) (Zpos (digits2_pos p) - 1) ltac:(lia) ltac:(lia) ltac:(lia)). lia.
Qed.

Lemma valid_mul x y : valid x -> valid y -> valid (f64_mul x y).
Proof.
  intros Hx Hy. destruct x as [[]|[]| |sx mx ex], y as [[]|[]| |sy my ey]; try done.
  apply canonical_exponent in Hx, Hy. apply valid_round; [lia|].
  assert (Zpos (digits2_pos mx) <= Zdigits2 (Zpos (mx * my)) /\ Zpos (digits2_pos my) <= Zdigits2 (Zpos (mx * my))) as [H1 H2].
  { split; apply digits_mono; rewrite Pos2Z.inj_mul; nia. }
  unfold fexp, emin in *. lia.
Qed.

Lemma valid_div x y : valid x -> valid y -> valid (f64_div x y).
Proof.
  intros Hx Hy. destruct x as [[]|[]| |sx mx ex], y as [[]|[]| |sy my ey]; try done.
  unfold f64_div, SFdiv, SFdiv_core_binary. cbn [Zdigits2].
  set (d1 := Zpos (digits2_pos mx)). set (d2 := Zpos (digits2_pos my)).
  set (f := fexp 53 1024 (d1 + ex - (d2 + ey))). set (e' := Z.min f (ex - ey)).
  set (s := ex - ey - e'). assert (0 <= s) as Hs by (unfold s, e'; lia).
  set (m' := match s with Z0 => _ | Zpos _ => _ | Zneg _ => _ end).
  assert (m' = Zpos mx * 2 ^ s) as Em.
  { unfold m'. destruct s eqn:Es; [by rewrite Z.mul_1_r| |lia]. by rewrite Z.shiftl_mul_pow2. }
  assert (0 < 2 ^ s) by (apply Z.pow_pos_nonneg; lia).
  pose proof (Z_div_mod m' (Zpos my) ltac:(lia)) as Hq. destruct (Z.div_eucl m' (Zpos my)) as [q r]. destruct Hq as [Hq Hr].
  assert (0 <= q) as Hq0 by nia. apply valid_round; [done|]. transitivity f; [unfold e'; lia|]. apply fexp_mono.
  pose proof (digits2_pos_bounds mx) as [Hmx _]. pose proof (digits2_pos_bounds my) as [_ Hmy]. fold d1 in Hmx. fold d2 in Hmy.
  assert (d1 + s - d2 <= Zdigits2 q); [|unfold s in *; lia].
  destruct (Z.le_gt_cases (d1 + s - d2) 0) as [|Hpos]; [pose proof (digits_nonneg q); lia|].
  enough (d1 + s - d2 - 1 < Zdigits2 q) by lia. apply digits_at_least; [done|lia|].
  assert (2 ^ (d1 + s - d2 - 1) * 2 ^ d2 <= m') as Hb.
  { rewrite Em, <- Z.pow_add_r by lia. replace (d1 + s - d2 - 1 + d2) with (d1 - 1 + s) by lia.
    rewrite Z.pow_add_r by lia. nia. }
  set (a := 2 ^ (d1 + s - d2 - 1)) in *. apply Z.lt_succ_r. apply (Z.mul_lt_mono_pos_r (Zpos my)); [lia|].
  assert (0 < a) by (apply Z.pow_pos_nonneg; lia). nia.
Qed.

#[export] Hint Resolve valid_of_int valid_add valid_sub valid_mul valid_div : knoway.

(** ** Comparing canonical floats compares the numbers *)
Lemma canonical_bounds s p e : valid (S754_finite s p e) -> Zpos p < 2 ^ 53 /\ -1074 <= e /\ (e = -1074 \/ 2 ^ 52 <= Zpos p).
Proof.
  intros He%canonical_exponent. pose proof (digits2_pos_bounds p) as [Hl Hu]. unfold fexp, emin in He.
  split; [|split; [lia|]].
  - apply (Z.lt_le_trans _ _ _ Hu), Z.pow_le_mono_r; lia.
  - destruct (Z.eq_dec e (-1074)); [by left|right]. etransitivity; [|exact Hl]. apply Z.pow_le_mono_r; lia.
Qed.

Lemma smaller_exponent p1 e1 p2 e2 z s1 s2 :
  valid (S754_finite s1 p1 e1) -> valid (S754_finite s2 p2 e2) -> z <= e1 -> e1 < e2 ->
  Zpos p1 * 2 ^ (e1 - z) < Zpos p2 * 2 ^ (e2 - z).
Proof.
  intros H1%canonical_bounds H2%canonical_bounds Hz He.
  assert (2 ^ (e1 - z) * 2 <= 2 ^ (e2 - z)) as Hp.
  { rewrite Z.mul_comm, <- Z.pow_succ_r by lia. apply Z.pow_le_mono_r; lia. }
  assert (0 < 2 ^ (e1 - z)) by (apply Z.pow_pos_nonneg; lia).
  assert (2 ^ 52 <= Zpos p2) by lia. assert (Zpos p1 < Zpos p2 * 2) by lia. nia.
Qed.

Lemma SFcompare_valid p1 e1 p2 e2 z :
  valid (S754_finite false p1 e1) -> valid (S754_finite false p2 e2) -> z <= e1 -> z <= e2 ->
  SFcompare (S754_finite false p1 e1) (S754_finite false p2 e2)
  = Some (Z.compare (Zpos p1 * 2 ^ (e1 - z)) (Zpos p2 * 2 ^ (e2 - z))).
Proof.
  intros H1 H2 Hz1 Hz2. cbn [SFcompare]. f_equal. destruct (Z.compare_spec e1 e2) as [->|Hlt|Hgt].
  - assert (0 < 2 ^ (e2 - z)) by (apply Z.pow_pos_nonneg; lia). by rewrite <- Zmult_compare_compat_r by lia.
  - symmetry. apply Z.compare_lt_iff. by apply (smaller_exponent p1 e1 p2 e2 z false false).
  - symmetry. apply Z.compare_gt_iff. by apply (smaller_exponent p2 e2 p1 e1 z false false).
Qed.

(** [f <= g] with both in an interval: each bound carries over. *)
Lemma f64_leb_in f g L U L' U' k :
  valid f -> valid g -> f64_leb f g = true -> f64_in f L U k -> f64_in g L' U' k ->
  f64_in f L U' k /\ f64_in g L U' k.
Proof.
  intros Hf Hg Hle If Ig. unfold f64_leb, SFleb in Hle.
  destruct f as [[]|[]| |[] p1 e1], g as [[]|[]| |[] p2 e2]; cbn [f64_in] in If, Ig; try done; cbn [f64_in].
  - lia.
  - destruct Ig as (? & ? & ?). assert (0 < 2 ^ (k - e2)) by (apply Z.pow_pos_nonneg; lia). repeat split; nia.
  - set (z := Z.min e1 e2). rewrite (SFcompare_valid p1 e1 p2 e2 z) in Hle by (done || lia).
    destruct If as (He1 & Hl1 & Hu1), Ig as (He2 & Hl2 & Hu2).
    assert (Zpos p1 * 2 ^ (e1 - z) <= Zpos p2 * 2 ^ (e2 - z)) as Hc.
    { destruct (Z.compare_spec (Zpos p1 * 2 ^ (e1 - z)) (Zpos p2 * 2 ^ (e2 - z))); [lia..|done]. }
    assert (0 < 2 ^ (e1 - z) /\ 0 < 2 ^ (e2 - z)) as [? ?] by (split; apply Z.pow_pos_nonneg; lia).
    assert (2 ^ (k - e1) * 2 ^ (e1 - z) = 2 ^ (k - z)) as E1 by (rewrite <- Z.pow_add_r by lia; f_equal; lia).
    assert (2 ^ (k - e2) * 2 ^ (e2 - z) = 2 ^ (k - z)) as E2 by (rewrite <- Z.pow_add_r by lia; f_equal; lia).
    split; (split; [done|split; [done || idtac|done || idtac]]).
    + apply (Z.mul_le_mono_pos_r _ _ (2 ^ (e1 - z))); [done|]. nia.
    + apply (Z.mul_le_mono_pos_r _ _ (2 ^ (e2 - z))); [done|]. nia.
Qed.

Lemma f64_ltb_leb f g : f64_ltb f g = true -> f64_leb f g = true.
Proof. unfold f64_ltb, f64_leb, SFltb, SFleb. by destruct (SFcompare f g) as [[]|]. Qed.

(** The bound a comparison that failed gives. *)
Lemma f64_ltb_false f g L U L' U' k :
  valid f -> valid g -> f64_in f L U k -> f64_in g L' U' k -> f64_ltb f g = false -> f64_leb g f = true.
Proof.
  intros Hf Hg If Ig. unfold f64_ltb, f64_leb, SFltb, SFleb.
  destruct f as [[]|[]| |[] p1 e1], g as [[]|[]| |[] p2 e2]; cbn [f64_in] in If, Ig; try done.
  rewrite (SFcompare_valid p1 e1 p2 e2 (Z.min e1 e2)), (SFcompare_valid p2 e2 p1 e1 (Z.min e1 e2)) by (done || lia).
  rewrite (Z.compare_antisym (Zpos p1 * _)). by destruct (Z.compare _ _).
Qed.

(** A number has one canonical float. *)
Lemma f64_in_inj f g z k : valid f -> valid g -> f64_in f z z k -> f64_in g z z k -> f = g.
Proof.
  intros Hf Hg If Ig. destruct f as [[]|[]| |[] p1 e1], g as [[]|[]| |[] p2 e2]; cbn [f64_in] in If, Ig; try done.
  - destruct Ig as (? & ? & ?). assert (0 < 2 ^ (k - e2)) by (apply Z.pow_pos_nonneg; lia). nia.
  - destruct If as (? & ? & ?). assert (0 < 2 ^ (k - e1)) by (apply Z.pow_pos_nonneg; lia). nia.
  - destruct If as (He1 & Hl1 & Hu1), Ig as (He2 & Hl2 & Hu2).
    assert (forall e p e' p', e <= k -> e' <= k -> e < e' -> Zpos p = z * 2 ^ (k - e) -> Zpos p' = z * 2 ^ (k - e') ->
      ~ Zpos p * 2 ^ (e - e) < Zpos p' * 2 ^ (e' - e)) as H.
    { intros e p e' p' ? ? ? -> -> Hlt. rewrite <- !Z.mul_assoc, <- !Z.pow_add_r in Hlt by lia.
      replace (k - e' + (e' - e)) with (k - e + (e - e)) in Hlt by lia. lia. }
    destruct (Z.lt_trichotomy e1 e2) as [Hlt|[->|Hlt]].
    + exfalso. apply (H e1 p1 e2 p2); try lia. by apply (smaller_exponent p1 e1 p2 e2 e1 false false).
    + f_equal. lia.
    + exfalso. apply (H e2 p2 e1 p1); try lia. by apply (smaller_exponent p2 e2 p1 e1 e2 false false).
Qed.

(** ** Multiplication and subtraction stay within representable bounds *)
Lemma f64_mul_in x y L1 U1 k1 L2 U2 k2 :
  f64_in x L1 U1 k1 -> f64_in y L2 U2 k2 -> 0 <= L1 -> 0 <= L2 -> U1 * U2 < 2 ^ 53 ->
  -1074 <= k1 + k2 <= 971 -> f64_in (f64_mul x y) (L1 * L2) (U1 * U2) (k1 + k2).
Proof.
  intros Hx Hy HL1 HL2 HU Hk. unfold f64_mul.
  destruct x as [[]|[]| |[] p1 e1], y as [[]|[]| |[] p2 e2]; cbn [f64_in] in Hx, Hy; try done; cbn [SFmul xorb f64_in].
  - nia.
  - destruct Hy as (? & ? & ?). assert (0 < 2 ^ (k2 - e2)) by (apply Z.pow_pos_nonneg; lia). nia.
  - destruct Hx as (? & ? & ?). assert (0 < 2 ^ (k1 - e1)) by (apply Z.pow_pos_nonneg; lia). nia.
  - destruct Hx as (He1 & Hl1 & Hu1), Hy as (He2 & Hl2 & Hu2).
    assert (0 < 2 ^ (k1 - e1) /\ 0 < 2 ^ (k2 - e2)) as [? ?] by (split; apply Z.pow_pos_nonneg; lia).
    assert (2 ^ (k1 + k2 - (e1 + e2)) = 2 ^ (k1 - e1) * 2 ^ (k2 - e2)) as Hp
      by (rewrite <- Z.pow_add_r by lia; f_equal; lia).
    assert (Zpos (p1 * p2) <= U1 * U2 * 2 ^ (k1 + k2 - (e1 + e2))) as Hu.
    { rewrite Hp, Pos2Z.inj_mul. transitivity (U1 * 2 ^ (k1 - e1) * (U2 * 2 ^ (k2 - e2))); [|lia].
      apply Z.mul_le_mono_nonneg; lia. }
    apply round_bounds; try lia.
    + apply ub_loc. destruct (Z.eq_dec (Zpos (p1 * p2)) (U1 * U2 * 2 ^ (k1 + k2 - (e1 + e2)))); [by right|left; lia].
    + rewrite Hp, Pos2Z.inj_mul. transitivity (L1 * 2 ^ (k1 - e1) * (L2 * 2 ^ (k2 - e2))); [lia|].
      apply Z.mul_le_mono_nonneg; nia.
Qed.

Lemma f64_sub_in x y L1 U1 L2 U2 k :
  f64_in x L1 U1 k -> f64_in y L2 U2 k -> 0 <= L2 -> U2 <= L1 -> U1 - L2 < 2 ^ 53 -> -1074 <= k <= 971 ->
  f64_in (f64_sub x y) (L1 - U2) (U1 - L2) k.
Proof.
  intros Hx Hy HL2 HL HU Hk. unfold f64_sub.
  destruct x as [[]|[]| |[] p1 e1], y as [[]|[]| |[] p2 e2]; cbn [f64_in] in Hx, Hy; try done.
  - cbn. lia.
  - destruct Hy as (? & ? & ?). assert (0 < 2 ^ (k - e2)) by (apply Z.pow_pos_nonneg; lia). nia.
  - cbn. destruct Hx as (? & ? & ?). assert (0 < 2 ^ (k - e1)) by (apply Z.pow_pos_nonneg; lia). repeat split; nia.
  - destruct Hx as (He1 & Hl1 & Hu1), Hy as (He2 & Hl2 & Hu2).
    unfold SFsub, cond_Zopp. set (ez := Z.min e1 e2).
    rewrite !shl_align_min by lia.
    assert (2 ^ (k - ez) = 2 ^ (k - e1) * 2 ^ (e1 - ez)) as Hp1 by (rewrite <- Z.pow_add_r by lia; f_equal; lia).
    assert (2 ^ (k - ez) = 2 ^ (k - e2) * 2 ^ (e2 - ez)) as Hp2 by (rewrite <- Z.pow_add_r by lia; f_equal; lia).
    assert (0 < 2 ^ (e1 - ez) /\ 0 < 2 ^ (e2 - ez)) as [? ?] by (split; apply Z.pow_pos_nonneg; lia).
    assert (L1 * 2 ^ (k - ez) <= Zpos p1 * 2 ^ (e1 - ez) <= U1 * 2 ^ (k - ez)) as [? ?] by (rewrite Hp1; nia).
    assert (L2 * 2 ^ (k - ez) <= Zpos p2 * 2 ^ (e2 - ez) <= U2 * 2 ^ (k - ez)) as [? ?] by (rewrite Hp2; nia).
    assert (0 < 2 ^ (k - ez)) by (rewrite Hp1; apply Z.mul_pos_pos; [apply Z.pow_pos_nonneg; lia|lia]).
    apply binary_normalize_in; [nia|lia| |lia|lia]. rewrite !Z.mul_sub_distr_r. lia.
Qed.

(** A canonical float below another one has no larger exponent. *)
Lemma f64_leb_under f g L U k V j :
  valid f -> valid g -> f64_leb f g = true -> f64_in f 0 V j -> f64_in g L U k -> f64_in f 0 U k.
Proof.
  intros Hf Hg Hle If Ig. unfold f64_leb, SFleb in Hle.
  destruct f as [[]|[]| |[] p1 e1], g as [[]|[]| |[] p2 e2]; cbn [f64_in] in If, Ig; try done; cbn [f64_in].
  - lia.
  - destruct Ig as (? & ? & ?). assert (0 < 2 ^ (k - e2)) by (apply Z.pow_pos_nonneg; lia). nia.
  - assert (e1 <= e2) as He.
    { cbn [SFcompare] in Hle. by destruct (Z.compare_spec e1 e2); lia || done. }
    destruct Ig as (He2 & Hl2 & Hu2). split; [lia|]. split; [lia|].
    rewrite (SFcompare_valid p1 e1 p2 e2 e1) in Hle by (done || lia). rewrite Z.sub_diag, Z.mul_1_r in Hle.
    assert (Zpos p1 <= Zpos p2 * 2 ^ (e2 - e1)) as Hc
      by (destruct (Z.compare_spec (Zpos p1) (Zpos p2 * 2 ^ (e2 - e1))); [lia..|done]).
    assert (2 ^ (k - e2) * 2 ^ (e2 - e1) = 2 ^ (k - e1)) as <- by (rewrite <- Z.pow_add_r by lia; f_equal; lia).
    assert (0 < 2 ^ (e2 - e1)) by (apply Z.pow_pos_nonneg; lia). nia.
Qed.

(** A coarser grid. *)
Lemma f64_in_coarser f U k U' k' :
  f64_in f 0 U k -> k <= k' -> U <= U' * 2 ^ (k' - k) -> f64_in f 0 U' k'.
Proof.
  intros If Hk HU. assert (0 < 2 ^ (k' - k)) by (apply Z.pow_pos_nonneg; lia).
  destruct f as [[]|[]| |[] p e]; cbn [f64_in] in *; try done; [nia|].
  destruct If as (He & _ & Hu). split; [lia|]. split; [lia|].
  assert (2 ^ (k' - k) * 2 ^ (k - e) = 2 ^ (k' - e)) as <- by (rewrite <- Z.pow_add_r by lia; f_equal; lia).
  assert (0 < 2 ^ (k - e)) by (apply Z.pow_pos_nonneg; lia). nia.
Qed.

Lemma f64_in_weaken f L U L' U' k : f64_in f L U k -> L' <= L -> U <= U' -> f64_in f L' U' k.
Proof.
  intros If HL HU. destruct f as [[]|[]| |[] p e]; cbn [f64_in] in *; try done; [lia|].
  destruct If as (He & Hl & Hu). assert (0 < 2 ^ (k - e)) by (apply Z.pow_pos_nonneg; lia). repeat split; nia.
Qed.

Lemma f64_in_ordered f L U k : f64_in f L U k -> L <= U.
Proof.
  intros If. destruct f as [[]|[]| |[] p e]; cbn [f64_in] in *; try done; [lia|].
  destruct If as (He & Hl & Hu). assert (0 < 2 ^ (k - e)) by (apply Z.pow_pos_nonneg; lia). nia.
Qed.

(** ** Integers below [2^53] are computed with exactly *)
Lemma mul_int a b : 0 <= a < 2 ^ 53 -> 0 <= b < 2 ^ 53 -> a * b < 2 ^ 53 -> f64_mul (f64_of_int a) (f64_of_int b) = f64_of_int (a * b).
Proof.
  intros Ha Hb Hab. apply (f64_in_inj _ _ (a * b) 0); [auto with knoway..| |apply f64_of_int_in; lia].
  apply (f64_mul_in _ _ a a 0 b b 0); [apply f64_of_int_in..| | | |]; lia.
Qed.

Lemma sub_int a b : 0 <= b <= a -> a < 2 ^ 53 -> f64_sub (f64_of_int a) (f64_of_int b) = f64_of_int (a - b).
Proof.
  intros Hb Ha. apply (f64_in_inj _ _ (a - b) 0); [auto with knoway..| |apply f64_of_int_in; lia].
  apply (f64_sub_in _ _ a a b b 0); [apply f64_of_int_in..| | | |]; lia.
Qed.

Lemma ltb_int a b : 0 <= a < 2 ^ 53 -> 0 <= b < 2 ^ 53 -> f64_ltb (f64_of_int a) (f64_of_int b) = (a <? b).
Proof.
  intros Ha Hb. pose proof (f64_of_int_in a Ha) as Ia. pose proof (f64_of_int_in b Hb) as Ib.
  pose proof (valid_of_int a) as Va. pose proof (valid_of_int b) as Vb.
  destruct (f64_ltb _ _) eqn:E; symmetry; [apply Z.ltb_lt|apply Z.ltb_ge].
  - pose proof (f64_leb_in _ _ _ _ _ _ 0 Va Vb (f64_ltb_leb _ _ E) Ia Ib) as [Hi _]. apply f64_in_ordered in Hi.
    destruct (Z.eq_dec a b) as [->|]; [|lia]. by rewrite f64_ltb_irrefl in E.
  - pose proof (f64_ltb_false _ _ _ _ _ _ 0 Va Vb Ia Ib E) as Hle.
    pose proof (f64_leb_in _ _ _ _ _ _ 0 Vb Va Hle Ib Ia) as [Hi _]. by apply f64_in_ordered in Hi.
Qed.

Lemma f64_in_eqb f L U k : f64_in f L U k -> f64_eqb f f = true.
Proof.
  destruct f as [[]|[]| |[] p e]; try done. intros _. unfold f64_eqb, SFeqb. cbn [SFcompare].
  rewrite Z.compare_refl. change (Pos.compare_cont Eq p p) with (Pos.compare p p). by rewrite Pos.compare_refl.
Qed.
