(* ===== verification/Json.v ===== *)
(** * JSON values

    What [encoding/json] decodes into an [any]: the values handlers inspect.
    A decoded number is a float64. *)
From S2P Require Import Prelude GoFloat.

Inductive json : Type :=
| JNull
| JBool (b : bool)
| JNum (n : f64)
| JStr (s : string)
| JArr (l : list json)
| JObj (m : gmap string json).

(** The type assertions [v.(string)] and [v.(map[string]any)]. *)
Definition as_string (v : option json) : option string :=
  match v with Some (JStr s) => Some s | _ => None end.

Definition as_object (v : option json) : option (gmap string json) :=
  match v with Some (JObj m) => Some m | _ => None end.

Definition json_of_option (s : option string) : json :=
  match s with Some s => JStr s | None => JNull end.

Definition JNat (z : Z) : json := JNum (f64_of_int z).
