(* ===== verification/Api.v ===== *)
(** * Configuration messages

    The protobuf messages of [api/] that the gateway is configured with, as
    records: a message-typed field and an [optional] scalar are options (nil
    or unset), a [repeated] field is a list.  The generated getters are
    nil-safe and return the zero value, as the functions [Get...] here. *)
From S2P Require Import Prelude GoFloat Json.

(** ** api/route/v1alpha1 *)

(** [oneof match]: unset, [exact] or [prefix]. *)
Inductive StringMatch : Type :=
| StringMatch_None
| StringMatch_Exact (exact : string)
| StringMatch_Prefix (prefix : string).

Definition GetExact (m : option StringMatch) : string :=
  match m with Some (StringMatch_Exact e) => e | _ => "" end.

Definition GetPrefix (m : option StringMatch) : string :=
  match m with Some (StringMatch_Prefix p) => p | _ => "" end.

Record Match : Type := mkMatch {
  match_model : option StringMatch;
  match_message : option StringMatch }.

Record RouteDestination : Type := mkRouteDestination {
  dst_namespace : string;
  dst_backend : string;
  dst_weight : option Z;       (* optional int32 *)
  dst_cluster : string }.

Definition GetCluster (d : option RouteDestination) : string :=
  match d with Some d => dst_cluster d | None => "" end.

Definition GetWeight (d : option RouteDestination) : Z :=
  match d with
  | Some d => match dst_weight d with Some w => w | None => 0 end
  | None => 0
  end.

Record RouteTarget : Type := mkRouteTarget {
  rt_destination : option RouteDestination }.

Inductive RouteLoadBalancePolicy : Type :=
| LB_UNSPECIFIED
| LB_ROUND_ROBIN
| LB_LEAST_REQUEST
| LB_other (n : Z).            (* an enum number the code does not know *)

#[export] Instance RouteLoadBalancePolicy_eq : EqDecision RouteLoadBalancePolicy.
Proof. solve_decision. Defined.

Record RouteFallback : Type := mkRouteFallback {
  fb_pre_delay : option Z;     (* nanoseconds *)
  fb_post_delay : option Z;
  fb_max_retries : option Z }. (* optional uint64 *)

(** ** api/filters/v1alpha1 *)
Inductive RateLimitBaseOn : Type :=
| BASE_ON_UNSPECIFIED
| USER_ID
| API_KEY
| BASE_ON_other (n : Z).

#[export] Instance RateLimitBaseOn_eq : EqDecision RateLimitBaseOn.
Proof. solve_decision. Defined.

Record RateLimitPolicy : Type := mkRateLimitPolicy {
  rlp_match : option StringMatch;
  rlp_limit : Z;               (* int32 *)
  rlp_based_on : RateLimitBaseOn;
  rlp_duration : Z }.          (* GetDuration().AsDuration(), 0 when unset *)

Inductive RateLimitMode : Type :=
| RATE_LIMIT_MODEL_UNSPECIFIED
| LOCAL
| REDIS
| MODE_other (n : Z).

Record RateLimitConfig : Type := mkRateLimitConfig {
  rlc_policies : list RateLimitPolicy;
  rlc_model : RateLimitMode;
  rlc_server_prefix : string }.

(** The configuration of a request filter: the [google.protobuf.Any] of a
    [RouteFilter], by its type URL. *)
Inductive FilterConfig : Type :=
| APIKeyAuthConfig (url : string) (timeout : Z)
| RateLimitCfg (c : RateLimitConfig)
| UsageStatsConfig (url : string) (timeout : Z)
| UnknownFilterConfig (type_url : string).

Record RouteFilter : Type := mkRouteFilter {
  rf_name : string;
  rf_config : FilterConfig }.

Record Route : Type := mkRoute {
  route_name : string;
  route_matches : list Match;
  route_filters : list RouteFilter;
  route_lb_policy : RouteLoadBalancePolicy;
  route_targets : list RouteTarget;
  route_fallback : option RouteFallback }.

(** ** api/service/v1alpha1 *)
Record APIKeyAuthResponse : Type := mkAPIKeyAuthResponse {
  auth_is_valid : bool;
  auth_allow_models : list string;
  auth_api_key_id : string;
  auth_user_id : string;
  auth_deny_models : list string }.

Definition GetApiKeyId (a : option APIKeyAuthResponse) : string :=
  match a with Some a => auth_api_key_id a | None => "" end.

Definition GetUserId (a : option APIKeyAuthResponse) : string :=
  match a with Some a => auth_user_id a | None => "" end.

(** ** api/clusters/v1alpha1 *)
Inductive ClusterLoadBalancePolicy : Type :=
| CLB_UNSPECIFIED
| CLB_ROUND_ROBIN
| CLB_LEAST_CONNECTION
| CLB_IP_HASH
| CLB_CUSTOM
| CLB_other (n : Z).

#[export] Instance ClusterLoadBalancePolicy_eq : EqDecision ClusterLoadBalancePolicy.
Proof. solve_decision. Defined.

Inductive ClusterType : Type :=
| CLUSTER_TYPE_UNSPECIFIED
| LLM
| IMAGE_GENERATION
| SPEECH_GENERATION
| CLUSTER_TYPE_other (n : Z).

#[export] Instance ClusterType_eq : EqDecision ClusterType.
Proof. solve_decision. Defined.

Inductive ClusterProvider : Type :=
| CLUSTER_PROVIDER_UNSPECIFIED
| OPEN_AI
| VLLM
| OLLAMA
| OPEN_AI_V1_SPEECH
| DEEPGRAM_WEBSOCKET_V1
| ELEVEN_LABS_V1
| KOEMOTION_V1
| VOLCENGINE_SEED_SPEECH_V1
| ALIBABA_COSY_VOICE_SERVICE
| MICROSOFT_SPEECH_SERVICE_V1
| CLUSTER_PROVIDER_other (n : Z).

#[export] Instance ClusterProvider_eq : EqDecision ClusterProvider.
Proof. solve_decision. Defined.

(** [ClusterMeteringPolicy_SizeFrom]; the getter of an unset one is the first. *)
Inductive SizeFrom : Type :=
| SIZE_FROM_UNSPECIFIED
| SIZE_FROM_INPUT
| SIZE_FROM_OUTPUT
| SIZE_FROM_GREATEST
| SIZE_FROM_other (n : Z).

#[export] Instance SizeFrom_eq : EqDecision SizeFrom.
Proof. solve_decision. Defined.

Record ClusterMeteringPolicy : Type := mkMeteringPolicy { mp_size_from : option SizeFrom }.

Definition GetSizeFrom (p : ClusterMeteringPolicy) : SizeFrom :=
  match mp_size_from p with Some s => s | None => SIZE_FROM_UNSPECIFIED end.

(** The parameter maps are listed in the order a [range] over them visits. *)
Record Upstream : Type := mkUpstream {
  up_url : string;
  up_headers : list (string * string);
  up_timeout : Z;
  up_defaultParams : list (string * json);
  up_overrideParams : list (string * json);
  up_removeParamKeys : list string }.

(** A [ClusterFilter] configuration, by the type URL of its [Any]. *)
Inductive ClusterFilterConfig : Type :=
| OpenAIRequestHandlerConfig
| OpenAIResponseHandlerConfig
| UnknownClusterFilterConfig (type_url : string).

Record Cluster : Type := mkCluster {
  cl_name : string;
  cl_lb_policy : ClusterLoadBalancePolicy;
  cl_upstream : option Upstream;
  cl_filters : list (string * ClusterFilterConfig);
  cl_provider : ClusterProvider;
  cl_created : Z;
  cl_type : ClusterType;
  cl_metering : option ClusterMeteringPolicy }.

(** [GetUpstream()] and its getters are nil-safe. *)
Definition GetUpstream (c : Cluster) : Upstream :=
  match cl_upstream c with Some u => u | None => mkUpstream "" [] 0 [] [] [] end.
