(* ===== verification/LoadBalance.v ===== *)
(** * pkg/route/loadbalance

    Weighted round robin and weighted least request over the destinations of
    a route.  The atomic counters are int32 values; a [Next] is one step, so
    every theorem holds whatever other requests did to [current] before. *)
From S2P Require Import Prelude GoFloat Api.

(** ** Servers and request counters *)
Record server : Type := mkServer {
  srv_name : string;
  srv_weight : Z;      (* int32 *)
  srv_counter : Z }.   (* memoryRequestCounter: atomic.Int32 *)

Definition newServers (destinations : list (option RouteDestination)) : list server :=
  map (fun d => mkServer (GetCluster d) (GetWeight d) 0) destinations.

Definition Current (s : server) : Z := srv_counter s.

Definition Inc (s : server) : server :=
  mkServer (srv_name s) (srv_weight s) (int32 (srv_counter s + 1)).

(** [m.count.And(-1)]: the bitwise and. *)
Definition Desc (s : server) : server :=
  if srv_counter s >? 0
  then mkServer (srv_name s) (srv_weight s) (int32 (Z.land (srv_counter s) (-1)))
  else s.

Definition Less (s o : server) : bool := Current s <? Current o.

(** ** WeightedRoundRobin *)
Record WeightedRoundRobin : Type := mkWRR {
  wrr_servers : list server;
  wrr_current : Z;       (* atomic.Int32 *)
  wrr_totalWeight : Z }.

Definition NewWeightedRoundRobin (destinations : list (option RouteDestination)) : WeightedRoundRobin :=
  mkWRR (newServers destinations) 0
    (foldl (fun acc d => int64 (acc + GetWeight d)) 0 destinations).

Definition calculateTotalWeight (w : WeightedRoundRobin) : Z :=
  foldl (fun acc s => int64 (acc + srv_weight s)) 0 (wrr_servers w).

(** The loop [for i := range w.servers]: [n] iterations are left, [i] is the
    loop variable, [total] the accumulated weight; -1 when no server is found. *)
Fixpoint wrr_scan (servers : list server) (currentIndex rnd : Z)
    (n : nat) (i total : Z) : outcome Z :=
  match n with
  | O => Ret (-1)
  | S n =>
      let idx := Z.rem (currentIndex + i) (len servers) in
      s ← index servers idx;
      let total := int64 (total + srv_weight s) in
      if total >? rnd then Ret idx
      else wrr_scan servers currentIndex rnd n (i + 1) total
  end.

(** [draw] is what [rand.Int(rand.Reader, known)] reads: [None] for an error
    of the random source.  [rand.Int] panics on a bound that is not positive. *)
Definition WRR_Next (w : WeightedRoundRobin) (draw : option Z)
    : outcome (WeightedRoundRobin * string) :=
  let servers := wrr_servers w in
  match servers with
  | [] => Ret (w, "")
  | [s] => Ret (w, srv_name s)
  | _ =>
      let known := calculateTotalWeight w in
      if known <=? 0 then Panic "crypto/rand: argument to Int is <= 0"
      else match draw with
           | None => Ret (w, "")
           | Some rnd =>
               foundIdx ← wrr_scan servers (wrr_current w) rnd (length servers) 0 0;
               let foundIdx := if foundIdx =? -1 then wrr_current w else foundIdx in
               let nextIndex := Z.rem (int32 (int32 foundIdx + 1)) (int32 (len servers)) in
               selected ← index servers foundIdx;
               Ret (mkWRR servers nextIndex (wrr_totalWeight w), srv_name selected)
           end
  end.

(** ** WeightedLeastRequest *)
Record WeightedLeastRequest : Type := mkWLR {
  wlr_servers : list server;
  wlr_current : Z }.

Definition NewWeightedLeastRequest (destinations : list (option RouteDestination)) : WeightedLeastRequest :=
  mkWLR (newServers destinations) 0.

Definition loadRatio (s : server) : f64 :=
  f64_div (f64_of_int (Current s)) (f64_of_int (srv_weight s)).

(** One iteration of the loop over the servers; the state is
    [(selectedServer, leastLoadRatio, selected)]. *)
Definition wlr_step (st : server * f64 * Z) (i : Z) (s : server) : server * f64 * Z :=
  let '(selectedServer, leastLoadRatio, selected) := st in
  let ratio := loadRatio s in
  let requestLess := f64_eqb ratio leastLoadRatio && Less s selectedServer in
  if f64_eqb leastLoadRatio (f64_of_int (-1)) || f64_ltb ratio leastLoadRatio || requestLess
  then (s, ratio, i)
  else st.

Fixpoint wlr_loop (servers : list server) (i : Z) (st : server * f64 * Z) : server * f64 * Z :=
  match servers with
  | [] => st
  | s :: rest => wlr_loop rest (i + 1) (wlr_step st i s)
  end.

Definition WLR_Next (w : WeightedLeastRequest) : outcome (WeightedLeastRequest * string) :=
  let servers := wlr_servers w in
  match servers with
  | [] => Ret (w, "")
  | [s] => Ret (w, srv_name s)
  | _ =>
      selectedServer ← index servers (wlr_current w);
      let '(selectedServer, _, selected) :=
        wlr_loop servers 0 (selectedServer, f64_of_int (-1), wlr_current w) in
      Ret (mkWLR (<[Z.to_nat selected := Inc selectedServer]> servers) selected,
           srv_name selectedServer)
  end.

Definition WLR_Done (w : WeightedLeastRequest) : outcome WeightedLeastRequest :=
  s ← index (wlr_servers w) (wlr_current w);
  Ret (mkWLR (<[Z.to_nat (wlr_current w) := Desc s]> (wlr_servers w)) (wlr_current w)).

(** ** The load balancer of a route *)
Inductive LoadBalancer : Type :=
| LB_WRR (w : WeightedRoundRobin)
| LB_WLR (w : WeightedLeastRequest)
| LB_empty.

Definition New (router : Route) : LoadBalancer :=
  let destinations := map rt_destination (route_targets router) in
  match route_lb_policy router with
  | LB_ROUND_ROBIN => LB_WRR (NewWeightedRoundRobin destinations)
  | LB_LEAST_REQUEST => LB_WLR (NewWeightedLeastRequest destinations)
  | LB_UNSPECIFIED => LB_empty
  | LB_other _ => LB_empty
  end.

Definition Next (lb : LoadBalancer) (draw : option Z) : outcome (LoadBalancer * string) :=
  match lb with
  | LB_WRR w => '(w, n) ← WRR_Next w draw; Ret (LB_WRR w, n)
  | LB_WLR w => '(w, n) ← WLR_Next w; Ret (LB_WLR w, n)
  | LB_empty => Ret (LB_empty, "")
  end.

(** ** Weighted round robin: the walk around the ring

    [pick ws r] is the reference definition: the first position at which the
    cumulative weight exceeds [r]. *)
Fixpoint pick (ws : list Z) (r : Z) : option nat :=
  match ws with
  | [] => None
  | w :: ws => if r <? w then Some 0%nat else S <$> pick ws (r - w)
  end.

Lemma pick_spec ws r k :
  Forall (Z.le 0) ws -> 0 <= r ->
  pick ws r = Some k <->
  exists w, ws !! k = Some w /\ zsum (take k ws) <= r < zsum (take k ws) + w.
Proof.
  intros Hws. revert r k. induction Hws as [|w ws Hw Hws IH]; intros r k Hr; simpl.
  { split; [done|]. by intros (w & [=] & _). }
  destruct (Z.ltb_spec r w) as [Hlt|Hge].
  - split.
    + intros [= <-]. exists w. simpl. split; [done|lia].
    + intros (w' & Hk & Hr'). destruct k as [|k]; [done|]. simpl in *.
      assert (0 <= zsum (take k ws)) by (apply zsum_nonneg; by apply Forall_take). lia.
  - destruct k as [|k]; simpl.
    + split; [by destruct (pick ws (r - w))|]. intros (w' & [= ->] & ?). lia.
    + rewrite fmap_Some. split.
      * intros (k' & Hk & [= <-]). apply IH in Hk as (w' & ? & ?); [|lia]. exists w'. split; [done|lia].
      * intros (w' & ? & ?). exists k. split; [|done]. apply IH; [lia|]. exists w'. split; [done|lia].
Qed.

Lemma pick_total ws r : 0 <= r < zsum ws -> exists k, pick ws r = Some k.
Proof.
  revert r. induction ws as [|w ws IH]; simpl; intros r Hr; [lia|].
  destruct (Z.ltb_spec r w); [by eexists|].
  destruct (IH (r - w)) as [k ->]; [lia|]. by eexists.
Qed.

Lemma pick_pos ws r k :
  Forall (Z.le 0) ws -> 0 <= r -> pick ws r = Some k -> exists w, ws !! k = Some w /\ 0 < w.
Proof. intros Hws Hr Hk. apply pick_spec in Hk as (w & ? & ?); [|done..]. exists w. split; [done|lia]. Qed.

(** The weights of the servers, from the current one around the ring. *)
Definition ring (w : WeightedRoundRobin) : list Z :=
  map srv_weight (rotate (Z.to_nat (wrr_current w)) (wrr_servers w)).

(** What [NewWeightedRoundRobin] establishes for validated routes and [Next]
    keeps: int32 weights that are not negative, fewer than 2^31 destinations
    and [current] inside the slice. *)
Record wrr_wf (w : WeightedRoundRobin) : Prop := {
  wf_weights : Forall (fun s => 0 <= srv_weight s < 2 ^ 31) (wrr_servers w);
  wf_len : len (wrr_servers w) < 2 ^ 31;
  wf_current : 0 <= wrr_current w < Z.max 1 (len (wrr_servers w)) }.

Definition totalWeight (servers : list server) : Z := zsum (map srv_weight servers).

Lemma totalWeight_bound servers :
  Forall (fun s => 0 <= srv_weight s < 2 ^ 31) servers ->
  0 <= totalWeight servers <= len servers * 2 ^ 31.
Proof.
  unfold totalWeight, len. induction 1; simpl; lia.
Qed.

Lemma ring_nonneg w : wrr_wf w -> Forall (Z.le 0) (ring w).
Proof.
  intros [Hw _ _]. apply Forall_map, Forall_forall. intros s Hs.
  rewrite elem_of_rotate in Hs. rewrite Forall_forall in Hw. apply Hw in Hs. lia.
Qed.

Lemma rotate_Permutation {A} n (l : list A) : rotate n l ≡ₚ l.
Proof. unfold rotate. rewrite Permutation_app_comm. by rewrite take_drop. Qed.

Lemma zsum_ring w : zsum (ring w) = totalWeight (wrr_servers w).
Proof. unfold ring, totalWeight. by rewrite rotate_Permutation. Qed.

Lemma ring_length w : length (ring w) = length (wrr_servers w).
Proof. unfold ring. by rewrite length_map, length_rotate. Qed.

Lemma calculateTotalWeight_eq w : wrr_wf w -> calculateTotalWeight w = totalWeight (wrr_servers w).
Proof.
  intros [Hw Hl _]. pose proof (totalWeight_bound _ Hw). unfold calculateTotalWeight.
  rewrite foldl_int64_sum; [done | lia | |].
  - eapply Forall_impl; [exact Hw|]. simpl. lia.
  - unfold totalWeight in *. lia.
Qed.

(** The server the scan looks at in its iteration [i]. *)
Definition ring_pos (w : WeightedRoundRobin) (i : nat) : nat :=
  Z.to_nat (Z.rem (wrr_current w + Z.of_nat i) (len (wrr_servers w))).

Lemma ring_pos_lt w i : wrr_wf w -> wrr_servers w <> [] -> (ring_pos w i < length (wrr_servers w))%nat.
Proof.
  intros [_ _ Hc] Hne. unfold ring_pos, len in *. destruct (wrr_servers w); [done|]. simpl length in *.
  rewrite Z.rem_mod_nonneg by lia.
  pose proof (Z.mod_pos_bound (wrr_current w + Z.of_nat i) (Z.of_nat (S (length l)))). lia.
Qed.

Lemma ring_pos_rotate w i :
  wrr_wf w -> ring_pos w i = rotate_nat_add (Z.to_nat (wrr_current w)) i (length (wrr_servers w)).
Proof.
  intros [_ _ Hc]. unfold ring_pos, rotate_nat_add, len in *.
  destruct (wrr_servers w) as [|s l]; simpl length in *.
  - replace (Z.to_nat (wrr_current w)) with 0%nat by lia. simpl.
    replace (wrr_current w) with 0 by lia. by destruct i.
  - rewrite Z.rem_mod_nonneg by lia. f_equal. f_equal. lia.
Qed.

Lemma wrr_scan_pick w rnd n : forall i total,
  wrr_wf w -> (i + n = length (wrr_servers w))%nat ->
  0 <= total -> total + zsum (drop i (ring w)) < 2 ^ 63 ->
  wrr_scan (wrr_servers w) (wrr_current w) rnd n (Z.of_nat i) total
  = Ret (match pick (drop i (ring w)) (rnd - total) with
         | Some k => Z.of_nat (ring_pos w (i + k))
         | None => -1
         end).
Proof.
  induction n as [|n IH]; intros i total Hwf Hin Ht Hs.
  - rewrite drop_ge by (rewrite ring_length; lia). done.
  - assert (wrr_servers w <> []) as Hne by (intros E; rewrite E in Hin; simpl in Hin; lia).
    pose proof (ring_pos_lt w i Hwf Hne) as Hlt.
    destruct (lookup_lt_is_Some_2 _ _ Hlt) as [s Hs'].
    assert (ring w !! i = Some (srv_weight s)) as Hr.
    { unfold ring. rewrite list_lookup_fmap, lookup_rotate_r by lia.
      rewrite ring_pos_rotate in Hs' by done. by rewrite Hs'. }
    assert (Z.rem (wrr_current w + Z.of_nat i) (len (wrr_servers w)) = Z.of_nat (ring_pos w i)) as Epos.
    { unfold ring_pos. destruct Hwf as [_ _ Hc]. unfold len in *.
      rewrite Z.rem_mod_nonneg by lia.
      pose proof (Z.mod_pos_bound (wrr_current w + Z.of_nat i) (Z.of_nat (length (wrr_servers w)))). lia. }
    pose proof (ring_nonneg w Hwf) as Hnn.
    pose proof (Forall_lookup_1 _ _ _ _ Hnn Hr) as Hws.
    rewrite (drop_S _ _ _ Hr) in Hs |- *. simpl in Hs.
    assert (0 <= zsum (drop (S i) (ring w))) by (apply zsum_nonneg; by apply Forall_drop).
    simpl wrr_scan. rewrite Epos, (index_Some _ _ _ Hs'). simpl mbind.
    rewrite int64_id by lia. simpl pick.
    rewrite Z.gtb_ltb.
    destruct (Z.ltb_spec rnd (total + srv_weight s)) as [Hlt'|Hge'];
      destruct (Z.ltb_spec (rnd - total) (srv_weight s)); try lia.
    + by rewrite Nat.add_0_r.
    + replace (Z.of_nat i + 1) with (Z.of_nat (S i)) by lia.
      rewrite IH by (done || lia).
      replace (rnd - (total + srv_weight s)) with (rnd - total - srv_weight s) by lia.
      destruct (pick (drop (S i) (ring w)) (rnd - total - srv_weight s)) as [k|]; simpl; [|done].
      do 2 f_equal. f_equal. lia.
Qed.

Definition selectNext (w : WeightedRoundRobin) (j : nat) : WeightedRoundRobin :=
  mkWRR (wrr_servers w) (Z.of_nat (S j mod length (wrr_servers w))) (wrr_totalWeight w).

Lemma WRR_Next_pick w rnd :
  wrr_wf w -> (2 <= length (wrr_servers w))%nat -> 0 <= rnd < totalWeight (wrr_servers w) ->
  exists k s, pick (ring w) rnd = Some k /\ wrr_servers w !! ring_pos w k = Some s /\
    WRR_Next w (Some rnd) = Ret (selectNext w (ring_pos w k), srv_name s).
Proof.
  intros Hwf Hlen Hr. pose proof Hwf as [Hw Hl Hc].
  pose proof (totalWeight_bound _ Hw) as Hb.
  assert (wrr_servers w <> []) as Hne by (intros E; rewrite E in Hlen; simpl in Hlen; lia).
  destruct (pick_total (ring w) rnd) as [k Hk]; [by rewrite zsum_ring|].
  pose proof (ring_pos_lt w k Hwf Hne) as Hlt.
  destruct (lookup_lt_is_Some_2 _ _ Hlt) as [s Hs]. exists k, s. split; [done|]. split; [done|].
  unfold WRR_Next. rewrite calculateTotalWeight_eq by done.
  pose proof (wrr_scan_pick w rnd (length (wrr_servers w)) 0 0 Hwf) as Hscan.
  change (Z.of_nat 0) with 0 in Hscan. rewrite drop_0, zsum_ring, Z.sub_0_r, Hk in Hscan. simpl Nat.add in Hscan.
  rewrite Hscan by (unfold len in *; lia). clear Hscan.
  destruct (Z.leb_spec (totalWeight (wrr_servers w)) 0); [lia|]. cbn [mbind outcome_bind].
  destruct (Z.eqb_spec (Z.of_nat (ring_pos w k)) (-1)); [lia|].
  rewrite (index_Some _ _ _ Hs). cbn [mbind outcome_bind].
  unfold selectNext. unfold len in Hl.
  rewrite !int32_id by (rewrite ?int32_id; unfold len; lia).
  rewrite Z.rem_mod_nonneg by (unfold len; lia).
  replace (Z.of_nat (ring_pos w k) + 1) with (Z.of_nat (S (ring_pos w k))) by lia.
  unfold len. rewrite <- Nat2Z.inj_mod.
  destruct (wrr_servers w) as [|s1 [|s2 l]]; [done | simpl in Hlen; lia | done].
Qed.

Lemma selectNext_wf w j : wrr_servers w <> [] -> wrr_wf w -> wrr_wf (selectNext w j).
Proof.
  intros Hne [Hw Hl Hc]. split; simpl; [done|done|]. unfold len in *.
  pose proof (Nat.mod_upper_bound (S j) (length (wrr_servers w))).
  destruct (wrr_servers w); simpl length in *; [done|]. lia.
Qed.

(** The draws that make [Next] select the server at position [j]: it answers
    that server's name and leaves [current] behind it. *)
Definition drawsSelecting (w : WeightedRoundRobin) (j : nat) (name : string) (rnd : Z) : Prop :=
  WRR_Next w (Some rnd) = Ret (selectNext w j, name).

#[export] Instance server_eq_dec : EqDecision server.
Proof. solve_decision. Defined.
#[export] Instance WeightedRoundRobin_eq_dec : EqDecision WeightedRoundRobin.
Proof. solve_decision. Defined.
#[export] Instance outcome_eq_dec {A} `{EqDecision A} : EqDecision (outcome A).
Proof. solve_decision. Defined.
#[export] Instance drawsSelecting_dec w j name rnd : Decision (drawsSelecting w j name rnd).
Proof. unfold drawsSelecting. apply _. Defined.

Lemma selectNext_inj w i j :
  (i < length (wrr_servers w))%nat -> (j < length (wrr_servers w))%nat ->
  selectNext w i = selectNext w j -> i = j.
Proof.
  intros Hi Hj [= H]. apply Nat2Z.inj in H.
  destruct (decide (S i = length (wrr_servers w))) as [Ei|Ei];
    destruct (decide (S j = length (wrr_servers w))) as [Ej|Ej];
    rewrite ?Ei, ?Ej, ?Nat.Div0.mod_same in H; try lia;
    rewrite ?(Nat.mod_small (S i)), ?(Nat.mod_small (S j)) in H by lia; lia.
Qed.

(** Every position is at some distance from [current]. *)
Lemma ring_pos_surj w j :
  wrr_wf w -> (j < length (wrr_servers w))%nat ->
  exists k, (k < length (wrr_servers w))%nat /\ ring_pos w k = j.
Proof.
  intros Hwf Hj. exists (rotate_nat_sub (Z.to_nat (wrr_current w)) j (length (wrr_servers w))).
  pose proof Hwf as [_ _ Hc]. unfold len in Hc. split.
  - unfold rotate_nat_sub.
    pose proof (Z.mod_pos_bound (Z.of_nat (length (wrr_servers w)) + Z.of_nat j -
      Z.of_nat (Z.to_nat (wrr_current w))) (Z.of_nat (length (wrr_servers w)))). lia.
  - rewrite ring_pos_rotate by done. by apply rotate_nat_add_sub.
Qed.

Lemma ring_pos_inj w i k :
  wrr_wf w -> (i < length (wrr_servers w))%nat -> (k < length (wrr_servers w))%nat ->
  ring_pos w i = ring_pos w k -> i = k.
Proof.
  intros Hwf Hi Hk H. rewrite !ring_pos_rotate in H by done.
  rewrite <- (rotate_nat_sub_add (Z.to_nat (wrr_current w)) (length (wrr_servers w)) i) by done.
  rewrite H. by apply rotate_nat_sub_add.
Qed.

Lemma drawsSelecting_interval w j s k rnd :
  wrr_wf w -> (2 <= length (wrr_servers w))%nat -> wrr_servers w !! j = Some s ->
  (k < length (wrr_servers w))%nat -> ring_pos w k = j ->
  0 <= rnd < totalWeight (wrr_servers w) ->
  drawsSelecting w j (srv_name s) rnd <->
  zsum (take k (ring w)) <= rnd < zsum (take k (ring w)) + srv_weight s.
Proof.
  intros Hwf Hlen Hs Hk Hkj Hr. unfold drawsSelecting.
  assert (ring w !! k = Some (srv_weight s)) as Hrk.
  { unfold ring. rewrite list_lookup_fmap, lookup_rotate_r by done.
    rewrite ring_pos_rotate in Hkj by done. by rewrite Hkj, Hs. }
  pose proof (ring_nonneg w Hwf) as Hnn.
  destruct (WRR_Next_pick w rnd Hwf Hlen Hr) as (k' & s' & Hp & Hs' & ->).
  pose proof (proj1 (pick_spec _ _ _ Hnn (proj1 Hr)) Hp) as (w' & Hw' & Hint).
  assert (k' < length (wrr_servers w))%nat as Hk'.
  { rewrite <- ring_length. by eapply lookup_lt_Some. }
  split.
  - intros [= Hsel Hname].
    assert (k' = k) as ->.
    { apply (ring_pos_inj w); [done..|]. rewrite Hkj. apply (selectNext_inj w).
      - by eapply lookup_lt_Some.
      - by eapply lookup_lt_Some.
      - unfold selectNext. f_equal. exact Hsel. }
    rewrite Hrk in Hw'. injection Hw' as <-. exact Hint.
  - intros Hi. assert (pick (ring w) rnd = Some k) as Hp'.
    { apply pick_spec; [done|lia|]. by exists (srv_weight s). }
    rewrite Hp in Hp'. injection Hp' as ->. rewrite Hkj in Hs' |- *.
    rewrite Hs in Hs'. by injection Hs' as ->.
Qed.

Lemma draws_count w j s :
  wrr_wf w -> (2 <= length (wrr_servers w))%nat -> wrr_servers w !! j = Some s ->
  Z.of_nat (length (filter (drawsSelecting w j (srv_name s)) (seqZ 0 (totalWeight (wrr_servers w)))))
  = srv_weight s.
Proof.
  intros Hwf Hlen Hs. pose proof (lookup_lt_Some _ _ _ Hs) as Hj.
  destruct (ring_pos_surj w j Hwf Hj) as (k & Hk & Hkj).
  pose proof (Forall_lookup_1 _ _ _ _ (wf_weights _ Hwf) Hs) as Hw. simpl in Hw.
  assert (ring w !! k = Some (srv_weight s)) as Hrk.
  { unfold ring. rewrite list_lookup_fmap, lookup_rotate_r by done.
    rewrite ring_pos_rotate in Hkj by done. by rewrite Hkj, Hs. }
  pose proof (ring_nonneg w Hwf) as Hnn.
  rewrite (filter_seqZ_interval _ (zsum (take k (ring w))) (srv_weight s)).
  - rewrite length_seqZ. lia.
  - apply zsum_nonneg. by apply Forall_take.
  - lia.
  - rewrite <- zsum_ring. rewrite <- (take_drop_middle _ _ _ Hrk) at 2.
    rewrite zsum_app. simpl.
    assert (0 <= zsum (drop (S k) (ring w))) by (apply zsum_nonneg; by apply Forall_drop). lia.
  - intros r Hr. by apply drawsSelecting_interval.
Qed.

(** A lone server is selected by every draw. *)
Lemma draws_count_any w j s :
  wrr_wf w -> wrr_servers w !! j = Some s ->
  Z.of_nat (length (filter (drawsSelecting w j (srv_name s)) (seqZ 0 (totalWeight (wrr_servers w)))))
  = srv_weight s.
Proof.
  intros Hwf Hs. destruct (decide (2 <= length (wrr_servers w))%nat) as [Hl|Hl]; [by apply draws_count|].
  pose proof Hwf as [Hw _ Hc]. unfold len in Hc. pose proof (lookup_lt_Some _ _ _ Hs) as Hj.
  destruct w as [[|s1 [|s2 l]] cur total]; cbn [wrr_servers wrr_current length] in *; [done| |lia].
  destruct j as [|j]; [|done]. injection Hs as ->. apply Forall_cons in Hw as [Hw _].
  unfold totalWeight. cbn [map zsum foldr]. rewrite (filter_seqZ_interval _ 0 (srv_weight s)); [rewrite length_seqZ; lia|lia..|].
  intros r Hr. unfold drawsSelecting, WRR_Next, selectNext. cbn. assert (cur = 0) as -> by lia. split; [lia|done].
Qed.

(** C32: weighted round robin is fair.  Over the draws of the random source the
    server at position [j] is selected for exactly its weight out of
    [totalWeight] draws, wherever the ring stands. *)
Theorem WRR_Next_fair w j s :
  wrr_wf w -> (2 <= length (wrr_servers w))%nat -> wrr_servers w !! j = Some s ->
  Z.of_nat (length (filter (drawsSelecting w j (srv_name s)) (seqZ 0 (totalWeight (wrr_servers w)))))
  = srv_weight s.
Proof. apply draws_count. Qed.

Definition wrr_example : WeightedRoundRobin :=
  mkWRR [mkServer "a" 3 0; mkServer "b" 0 0; mkServer "c" 5 0] 1 8.

Lemma wrr_example_wf : wrr_wf wrr_example.
Proof. split; [repeat constructor; simpl; lia | by vm_compute | split; by vm_compute]. Qed.

Lemma WRR_Next_fair_witness :
  Z.of_nat (length (filter (drawsSelecting wrr_example 2 "c") (seqZ 0 (totalWeight (wrr_servers wrr_example))))) = 5.
Proof.
  apply (WRR_Next_fair wrr_example 2 (mkServer "c" 5 0)); [exact wrr_example_wf | simpl; lia | reflexivity].
Defined.

(** On every draw of the random source weighted round robin answers one of
    its servers without panicking, one with a positive weight when there is a
    choice, and keeps [current] inside the slice for the requests to come. *)
Theorem WRR_Next_serves w rnd :
  wrr_wf w -> wrr_servers w <> [] ->
  0 <= rnd < totalWeight (wrr_servers w) ->
  exists w' s, WRR_Next w (Some rnd) = Ret (w', srv_name s) /\ s ∈ wrr_servers w /\
    0 < srv_weight s /\ wrr_servers w' = wrr_servers w /\ wrr_wf w'.
Proof.
  intros Hwf Hne Hr. destruct (wrr_servers w) as [|s1 [|s2 l]] eqn:E; [done| |].
  - exists w, s1. unfold WRR_Next. rewrite E. unfold totalWeight in Hr. simpl in Hr.
    split; [done|]. split; [by left|]. split; [lia|]. done.
  - rewrite <- E in *. destruct (WRR_Next_pick w rnd) as (k & s & Hk & Hs & HN); [done|rewrite E; simpl; lia|done|].
    exists (selectNext w (ring_pos w k)), s. split; [done|]. split; [by eapply list_elem_of_lookup_2|].
    split; [|split; [done | by apply selectNext_wf]].
    destruct (pick_pos (ring w) rnd k) as (x & Hx & ?); [by apply ring_nonneg|lia|done|].
    unfold ring in Hx. rewrite list_lookup_fmap in Hx.
    apply fmap_Some in Hx as (s' & Hs' & ->). apply lookup_rotate_r_Some in Hs' as [Hs' _].
    rewrite <- ring_pos_rotate, Hs in Hs' by done. by injection Hs' as ->.
Qed.

Lemma WRR_Next_serves_witness :
  exists w' s, WRR_Next wrr_example (Some 4) = Ret (w', srv_name s) /\ s ∈ wrr_servers wrr_example /\
    0 < srv_weight s /\ wrr_servers w' = wrr_servers wrr_example /\ wrr_wf w'.
Proof. apply WRR_Next_serves; [exact wrr_example_wf | done | by vm_compute]. Defined.

(** with at least two servers a request panics exactly when every weight is
    zero: the total handed to [rand.Int] is then not positive. *)
Theorem WRR_Next_panics w draw :
  wrr_wf w -> (2 <= length (wrr_servers w))%nat ->
  (forall r, draw = Some r -> 0 <= r < Z.max 1 (totalWeight (wrr_servers w))) ->
  (exists msg, WRR_Next w draw = Panic msg) <-> Forall (fun s => srv_weight s = 0) (wrr_servers w).
Proof.
  intros Hwf Hlen Hr. pose proof (wf_weights _ Hwf) as Hw.
  assert (Forall (fun s => srv_weight s = 0) (wrr_servers w) <-> totalWeight (wrr_servers w) = 0) as ->.
  { clear Hlen Hr Hwf. unfold totalWeight. induction Hw as [|s l Hs Hl IH]; [done|].
    pose proof (totalWeight_bound l Hl) as Hb. unfold totalWeight in Hb. simpl.
    rewrite Forall_cons, IH. lia. }
  pose proof (totalWeight_bound _ Hw).
  destruct (decide (totalWeight (wrr_servers w) = 0)) as [E|E].
  - split; [done|]. intros _. unfold WRR_Next. rewrite calculateTotalWeight_eq, E by done.
    destruct (wrr_servers w) as [|? [|? ?]]; [simpl in Hlen; lia..|]. by eexists.
  - split; [|done]. intros [msg Hp]. exfalso. destruct draw as [r|].
    + specialize (Hr r eq_refl). destruct (WRR_Next_pick w r) as (k & s & _ & _ & HN); [done|done|lia|].
      by rewrite HN in Hp.
    + unfold WRR_Next in Hp. rewrite calculateTotalWeight_eq in Hp by done.
      destruct (Z.leb_spec (totalWeight (wrr_servers w)) 0); [lia|].
      destruct (wrr_servers w) as [|? [|? ?]]; done.
Qed.

Definition wrr_zero : WeightedRoundRobin :=
  NewWeightedRoundRobin [Some (mkRouteDestination "" "" (Some 0) "a"); Some (mkRouteDestination "" "" None "b")].

Lemma WRR_Next_panics_witness :
  (exists msg, WRR_Next wrr_zero (Some 0) = Panic msg) <-> Forall (fun s => srv_weight s = 0) (wrr_servers wrr_zero).
Proof.
  apply WRR_Next_panics; [|simpl; lia|].
  - split; [repeat constructor; simpl; lia | by vm_compute | split; by vm_compute].
  - intros r [= <-]. vm_compute. done.
Defined.

(** ** Weighted least request *)
Record wlr_wf (w : WeightedLeastRequest) : Prop := {
  wlr_weights : Forall (fun s => 0 < srv_weight s < 2 ^ 31) (wlr_servers w);
  wlr_counts : Forall (fun s => 0 <= srv_counter s < 2 ^ 31) (wlr_servers w);
  wlr_cur : 0 <= wlr_current w < Z.max 1 (len (wlr_servers w)) }.

Definition leastLoaded (seen : list server) (r : f64) : Prop :=
  Forall (fun t => f64_ltb (loadRatio t) r = false) seen.

Lemma loadRatio_nonneg s :
  0 < srv_weight s < 2 ^ 31 -> 0 <= srv_counter s < 2 ^ 31 -> f64_nonneg (loadRatio s).
Proof. intros. by apply f64_ratio_nonneg. Qed.

Lemma f64_nonneg_not_minus_one r : f64_nonneg r -> f64_eqb r (f64_of_int (-1)) = false.
Proof. by destruct r as [[]|[]| |[]]. Qed.

Lemma f64_nonneg_eqb_refl r : f64_nonneg r -> f64_ltb r r = false.
Proof. intros _. apply f64_ltb_irrefl. Qed.

Lemma wlr_step_least seen s0 j0 i s :
  Forall (fun t => f64_nonneg (loadRatio t)) (s0 :: s :: seen) ->
  leastLoaded seen (loadRatio s0) ->
  exists s1 j1, wlr_step (s0, loadRatio s0, j0) i s = (s1, loadRatio s1, j1) /\
    ((s1, j1) = (s, i) \/ (s1, j1) = (s0, j0)) /\ leastLoaded (s :: seen) (loadRatio s1).
Proof.
  intros Hnn Hl. apply Forall_cons in Hnn as [H0 Hnn]. apply Forall_cons in Hnn as [Hs Hseen].
  unfold wlr_step. rewrite f64_nonneg_not_minus_one by done. simpl.
  destruct (f64_ltb (loadRatio s) (loadRatio s0)) eqn:Elt; simpl.
  - exists s, i. split; [done|]. split; [by left|]. constructor; [apply f64_ltb_irrefl|].
    unfold leastLoaded in Hl. rewrite Forall_forall in Hl, Hseen |- *. intros t Ht.
    apply (f64_ge_trans _ (loadRatio s0)); auto. by apply f64_ltb_asym.
  - destruct (f64_eqb (loadRatio s) (loadRatio s0) && Less s s0) eqn:Eeq.
    + apply andb_true_iff in Eeq as [Eeq _].
      exists s, i. split; [done|]. split; [by left|]. constructor; [apply f64_ltb_irrefl|].
      unfold leastLoaded in Hl. rewrite Forall_forall in Hl, Hseen |- *. intros t Ht.
      apply (f64_ge_trans _ (loadRatio s0)); auto. by apply f64_eqb_not_ltb.
    + exists s0, j0. split; [done|]. split; [by right|]. by constructor.
Qed.

Lemma wlr_loop_least rest : forall seen s0 j0,
  Forall (fun t => f64_nonneg (loadRatio t)) (s0 :: seen ++ rest) ->
  leastLoaded seen (loadRatio s0) -> seen !! Z.to_nat j0 = Some s0 -> 0 <= j0 ->
  exists s j, wlr_loop rest (len seen) (s0, loadRatio s0, j0) = (s, loadRatio s, j) /\
    (seen ++ rest) !! Z.to_nat j = Some s /\ 0 <= j /\ leastLoaded (seen ++ rest) (loadRatio s).
Proof.
  induction rest as [|s rest IH]; intros seen s0 j0 Hnn Hl Hj Hj0.
  - exists s0, j0. rewrite app_nil_r. done.
  - apply Forall_cons in Hnn as [H0 Hnn]. pose proof Hnn as Hnn'.
    apply Forall_app in Hnn as [Hseen Hrest]. apply Forall_cons in Hrest as [Hs Hrest].
    destruct (wlr_step_least seen s0 j0 (len seen) s) as (s1 & j1 & E & Hor & Hl1); [by repeat constructor|done|].
    cbn [wlr_loop]. rewrite E. replace (len seen + 1) with (len (seen ++ [s])) by (unfold len; rewrite length_app; simpl; lia).
    replace (seen ++ s :: rest) with ((seen ++ [s]) ++ rest) in * by by rewrite <- app_assoc.
    apply IH.
    + constructor; [|done]. by destruct Hor as [[= -> ->]|[= -> ->]].
    + apply Forall_app. apply Forall_cons in Hl1 as [? ?]. split; [done|]. by constructor.
    + destruct Hor as [[= -> ->]|[= -> ->]].
      * unfold len. rewrite Nat2Z.id. by rewrite lookup_app_r, Nat.sub_diag by lia.
      * by apply lookup_app_l_Some.
    + destruct Hor as [[= -> ->]|[= -> ->]]; [unfold len|]; lia.
Qed.

Lemma wlr_nonneg w : wlr_wf w -> Forall (fun t => f64_nonneg (loadRatio t)) (wlr_servers w).
Proof.
  intros [Hw Hc _]. rewrite Forall_forall in Hw, Hc |- *. intros s Hs. apply loadRatio_nonneg; auto.
Qed.

(** The loop starts from a ratio of -1, which no server has: its first
    iteration always takes the first server. *)
Lemma wlr_loop_all servers s0 j0 :
  servers <> [] -> Forall (fun t => f64_nonneg (loadRatio t)) servers ->
  exists s j, wlr_loop servers 0 (s0, f64_of_int (-1), j0) = (s, loadRatio s, j) /\
    servers !! Z.to_nat j = Some s /\ 0 <= j /\ leastLoaded servers (loadRatio s).
Proof.
  intros Hne Hnn. destruct servers as [|s rest]; [done|].
  apply (wlr_loop_least rest [s] s 0); [|by constructor; [apply f64_ltb_irrefl|]|done|lia].
  apply Forall_cons in Hnn as [? ?]. by repeat constructor.
Qed.

Lemma WLR_Next_pick w :
  wlr_wf w -> (2 <= length (wlr_servers w))%nat ->
  exists s j, wlr_servers w !! j = Some s /\ leastLoaded (wlr_servers w) (loadRatio s) /\
    WLR_Next w = Ret (mkWLR (<[j := Inc s]> (wlr_servers w)) (Z.of_nat j), srv_name s).
Proof.
  intros Hwf Hlen. pose proof Hwf as [_ _ Hc].
  assert (wlr_servers w <> []) as Hne by (intros E; rewrite E in Hlen; simpl in Hlen; lia).
  destruct (index_lt (wlr_servers w) (wlr_current w)) as (s0 & Hi & _); [unfold len in *; lia|].
  destruct (wlr_loop_all (wlr_servers w) s0 (wlr_current w) Hne (wlr_nonneg w Hwf)) as (s & j & Hloop & Hs & Hj & Hl).
  exists s, (Z.to_nat j). split; [done|]. split; [done|].
  unfold WLR_Next. rewrite Hi. cbn [mbind outcome_bind]. rewrite Hloop.
  rewrite Z2Nat.id by lia.
  destruct (wlr_servers w) as [|? [|? ?]]; [simpl in Hlen; lia..|done].
Qed.


Definition wlr_example : WeightedLeastRequest :=
  mkWLR [mkServer "a" 1 2; mkServer "b" 4 3; mkServer "c" 2 2] 0.

Lemma wlr_example_wf : wlr_wf wlr_example.
Proof. split; [repeat constructor; simpl; lia..|]. simpl. unfold len. simpl. lia. Qed.


(** *** Runs of [Next] and [Done] *)
Inductive wlr_event : Type := EvNext | EvDone.
#[export] Instance wlr_event_eq : EqDecision wlr_event.
Proof. solve_decision. Defined.

(** A run of the balancer; the answers are the positions [Next] selected. *)
Fixpoint wlr_run (w : WeightedLeastRequest) (evs : list wlr_event)
    : outcome (WeightedLeastRequest * list Z) :=
  match evs with
  | [] => Ret (w, [])
  | EvNext :: evs =>
      '(w, _) ← WLR_Next w;
      let pos := wlr_current w in
      '(w, picks) ← wlr_run w evs;
      Ret (w, pos :: picks)
  | EvDone :: evs => w ← WLR_Done w; wlr_run w evs
  end.

Definition picksOf (j : nat) (picks : list Z) : Z := len (filter (fun p => p = Z.of_nat j) picks).

Lemma Z_land_m1 z : Z.land z (-1) = z.
Proof. apply Z.land_m1_r. Qed.

Lemma WLR_Done_id w w' :
  Forall (fun s => in_s 32 (srv_counter s)) (wlr_servers w) -> WLR_Done w = Ret w' -> w' = w.
Proof.
  intros Hc. unfold WLR_Done. destruct (index (wlr_servers w) (wlr_current w)) as [s|] eqn:Hi; [|done].
  cbn [mbind outcome_bind]. intros [= <-].
  assert (wlr_servers w !! Z.to_nat (wlr_current w) = Some s) as Hs.
  { unfold index in Hi. destruct (0 <=? wlr_current w); [|done].
    destruct (wlr_servers w !! Z.to_nat (wlr_current w)); [|done]. by injection Hi as ->. }
  assert (Desc s = s) as ->.
  { unfold Desc. destruct (srv_counter s >? 0); [|done].
    rewrite Z_land_m1. rewrite wrap_s_id; [by destruct s | lia |].
    rewrite Forall_forall in Hc. apply Hc. by eapply list_elem_of_lookup_2. }
  rewrite list_insert_id by done. by destruct w.
Qed.

Lemma int32_wrap_plus a b : int32 (int32 a + b) = int32 (a + b).
Proof.
  unfold wrap_s. replace ((a + 2 ^ (32 - 1)) mod 2 ^ 32 - 2 ^ (32 - 1) + b + 2 ^ (32 - 1))
    with ((a + 2 ^ (32 - 1)) mod 2 ^ 32 + b) by lia.
  rewrite Zplus_mod_idemp_l. do 2 f_equal. lia.
Qed.

Lemma wlr_loop_member rest : forall seen st s j,
  (seen ++ rest) !! Z.to_nat (snd st) = Some (fst (fst st)) -> 0 <= snd st ->
  (let '(s', _, j') := wlr_loop rest (len seen) st in (s', j') = (s, j)) ->
  (seen ++ rest) !! Z.to_nat j = Some s /\ 0 <= j.
Proof.
  induction rest as [|t rest IH]; intros seen [[s0 r0] j0] s j H H0 E.
  { simpl in *. by injection E as <- <-. }
  cbn [wlr_loop] in E. replace (len seen + 1) with (len (seen ++ [t])) in E by (unfold len; rewrite length_app; simpl; lia).
  replace (seen ++ t :: rest) with ((seen ++ [t]) ++ rest) in * by by rewrite <- app_assoc.
  refine (IH _ _ _ _ _ _ E); unfold wlr_step; destruct (_ || _); simpl in *.
  - unfold len. rewrite Nat2Z.id, <- app_assoc. by rewrite lookup_app_r, Nat.sub_diag by lia.
  - done.
  - unfold len. lia.
  - done.
Qed.

(** Whatever the weights, [Next] answers a server and counts that request. *)
Lemma WLR_Next_member w :
  0 <= wlr_current w < len (wlr_servers w) -> (2 <= length (wlr_servers w))%nat ->
  exists s j, wlr_servers w !! j = Some s /\
    WLR_Next w = Ret (mkWLR (<[j := Inc s]> (wlr_servers w)) (Z.of_nat j), srv_name s).
Proof.
  intros Hc Hlen. destruct (index_lt (wlr_servers w) (wlr_current w)) as (s0 & Hi & Hs0); [done|].
  destruct (wlr_loop (wlr_servers w) 0 (s0, f64_of_int (-1), wlr_current w)) as [[s r] j] eqn:Hloop.
  destruct (wlr_loop_member (wlr_servers w) [] (s0, f64_of_int (-1), wlr_current w) s j) as [Hs Hj];
    [done | simpl; lia | by change (len []) with 0; rewrite Hloop |].
  exists s, (Z.to_nat j). split; [done|]. unfold WLR_Next. rewrite Hi. cbn [mbind outcome_bind].
  rewrite Hloop, Z2Nat.id by lia.
  destruct (wlr_servers w) as [|? [|? ?]]; [simpl in Hlen; lia..|done].
Qed.

Definition counters32 (w : WeightedLeastRequest) : Prop :=
  Forall (fun s => in_s 32 (srv_counter s)) (wlr_servers w).

Lemma counters32_insert w j s c :
  counters32 w -> counters32 (mkWLR (<[j := Inc s]> (wlr_servers w)) c).
Proof. intros H. apply Forall_insert; [done|]. apply wrap_s_range. lia. Qed.

Lemma picksOf_cons j p picks : picksOf j (p :: picks) = (if decide (p = Z.of_nat j) then 1 else 0) + picksOf j picks.
Proof.
  unfold picksOf, len. destruct (decide (p = Z.of_nat j)).
  - rewrite filter_cons_True by done. simpl length. lia.
  - by rewrite filter_cons_False.
Qed.

(** Over any run of requests and completions, a server's in-flight counter
    is its initial value plus the number of times it was selected, as an
    int32: completions are never taken off. *)
Theorem WLR_counters_only_grow evs : forall w,
  0 <= wlr_current w < len (wlr_servers w) -> (2 <= length (wlr_servers w))%nat ->
  Forall (fun s => in_s 32 (srv_counter s)) (wlr_servers w) ->
  exists w' picks, wlr_run w evs = Ret (w', picks) /\
    length picks = length (filter (fun e => e = EvNext) evs) /\
    forall j s, wlr_servers w !! j = Some s ->
      wlr_servers w' !! j
      = Some (mkServer (srv_name s) (srv_weight s) (int32 (srv_counter s + picksOf j picks))).
Proof.
  induction evs as [|[] evs IH]; intros w Hc Hlen H32.
  - exists w, []. split; [done|]. split; [done|]. intros j s Hs. rewrite Hs. unfold picksOf, len. simpl.
    rewrite Z.add_0_r, wrap_s_id; [by destruct s | lia |].
    rewrite Forall_forall in H32. apply H32. by eapply list_elem_of_lookup_2.
  - destruct (WLR_Next_member w Hc Hlen) as (t & p & Ht & HN).
    pose proof (lookup_lt_Some _ _ _ Ht) as Hp.
    destruct (IH (mkWLR (<[p := Inc t]> (wlr_servers w)) (Z.of_nat p))) as (w' & picks & Hrun & Hl & Hj);
      [simpl; unfold len; rewrite length_insert; lia | simpl; by rewrite length_insert
      | by apply (counters32_insert w p t 0) |].
    exists w', (Z.of_nat p :: picks). cbn [wlr_run]. rewrite HN. cbn [mbind outcome_bind]. rewrite Hrun.
    split; [done|]. split; [rewrite filter_cons_True by done; simpl; by rewrite Hl|].
    intros j s Hs. rewrite picksOf_cons. destruct (decide (Z.of_nat p = Z.of_nat j)) as [E|E].
    + apply Nat2Z.inj in E as ->. rewrite Hs in Ht. injection Ht as <-.
      rewrite (Hj j (Inc s)) by (simpl; by apply list_lookup_insert_eq).
      unfold Inc. simpl. by rewrite int32_wrap_plus, Z.add_assoc.
    + rewrite (Hj j s); [done|]. simpl. rewrite list_lookup_insert_ne by (intros ->; lia). done.
  - destruct (index_lt (wlr_servers w) (wlr_current w)) as (s0 & Hi & Hs0); [done|].
    destruct (WLR_Done w) as [w1|] eqn:HD; [|unfold WLR_Done in HD; rewrite Hi in HD; done].
    pose proof (WLR_Done_id _ _ H32 HD) as ->.
    destruct (IH w Hc Hlen H32) as (w' & picks & Hrun & Hl & Hj).
    exists w', picks. cbn [wlr_run]. rewrite HD. cbn [mbind outcome_bind]. split; [done|].
    split; [by rewrite filter_cons_False|done].
Qed.

Lemma WLR_counters_only_grow_witness :
  exists w' picks, wlr_run wlr_example [EvNext; EvDone; EvNext] = Ret (w', picks) /\
    length picks = length (filter (fun e => e = EvNext) [EvNext; EvDone; EvNext]) /\
    forall j s, wlr_servers wlr_example !! j = Some s ->
      wlr_servers w' !! j
      = Some (mkServer (srv_name s) (srv_weight s) (int32 (srv_counter s + picksOf j picks))).
Proof.
  apply WLR_counters_only_grow; [by vm_compute | simpl; lia |].
  repeat constructor; simpl; vm_compute; done.
Defined.
