(* ===== verification/Errors.v ===== *)
(** * pkg/object/errors.go, pkg/object/error.go, pkg/types/openai/errors.go

    Go errors as values, the gateway's own [LLMError]s and their translation
    into the OpenAI error that the client receives. *)
From S2P Require Import Prelude GoFloat Json.

(** ** Error values *)
Record BaseError : Type := mkBaseError {
  be_code : option string;
  be_message : string }.

Record BaseLLMError : Type := mkBaseLLMError {
  ble_status : Z;
  ble_body : option BaseError }.     (* ErrorBody *BaseError *)

#[export] Instance BaseError_eq : EqDecision BaseError.
Proof. solve_decision. Defined.
#[export] Instance BaseLLMError_eq : EqDecision BaseLLMError.
Proof. solve_decision. Defined.

(** [openai.Error] *)
Record Error : Type := mkError {
  err_code : option string;
  err_message : string;
  err_param : option string;
  err_type : string }.

(** [openai.ErrorResponse], over the type of its [Cause]. *)
Record ErrorResponseOf (E : Type) : Type := mkErrorResponse {
  er_status : Z;
  er_from_upstream : bool;
  er_upstream_body : string;
  er_body : option Error;            (* ErrorBody *Error *)
  er_cause : option E }.
Arguments mkErrorResponse {E}.
Arguments er_status {E}.
Arguments er_from_upstream {E}.
Arguments er_upstream_body {E}.
Arguments er_body {E}.
Arguments er_cause {E}.

(** A non-nil [error]: the two [LLMError] implementations, the sentinels the
    code compares with, any other error with its text, and a [%w] wrapping,
    [fmt.Errorf(prefix + ": %w" + suffix, e)]. *)
Inductive gerror : Type :=
| EBase (e : BaseLLMError)
| EOpenAI (e : ErrorResponseOf gerror)
| EPlain (msg : string)
| EWrapf (prefix : string) (e : gerror) (suffix : string)
| EEOF
| ESkipStream.

Abbreviation EWrap prefix e := (EWrapf prefix e "").

Abbreviation ErrorResponse := (ErrorResponseOf gerror).

Definition nil_deref : string := "invalid memory address or nil pointer dereference".

(** [err.Error()] *)
Fixpoint ErrorText (e : gerror) : outcome string :=
  match e with
  | EBase b => match ble_body b with Some b => Ret (be_message b) | None => Panic nil_deref end
  | EOpenAI r => match er_body r with Some b => Ret (err_message b) | None => Panic nil_deref end
  | EPlain msg => Ret msg
  | EWrapf prefix e suffix => t ← ErrorText e; Ret (prefix +:+ ": " +:+ t +:+ suffix)
  | EEOF => Ret "EOF"
  | ESkipStream => Ret "skip writing stream response"
  end.

(** [errors.Is] against the sentinels: along the [%w] chain. *)
Fixpoint IsEOFError (e : gerror) : bool :=
  match e with EEOF => true | EWrapf _ e _ => IsEOFError e | _ => false end.

Fixpoint IsSkipStream (e : gerror) : bool :=
  match e with ESkipStream => true | EWrapf _ e _ => IsSkipStream e | _ => false end.

(** ** HTTP status codes *)
Definition StatusOK := 200.
Definition StatusBadRequest := 400.
Definition StatusUnauthorized := 401.
Definition StatusPaymentRequired := 402.
Definition StatusForbidden := 403.
Definition StatusNotFound := 404.
Definition StatusTooManyRequests := 429.
Definition StatusInternalServerError := 500.
Definition StatusBadGateway := 502.
Definition StatusServiceUnavailable := 503.

(** ** pkg/object/errors.go *)
Definition LLMErrorCodeModelNotFoundOrNotAccessible := "model_not_found".
Definition LLMErrorCodeModelAccessDenied := "model_access_denied".
Definition LLMErrorCodeRateLimitExceeded := "model_rate_limit_exceeded".
Definition LLMErrorCodeInsufficientQuota := "insufficient_quota".
Definition LLMErrorCodeMissingAPIKey := "missing_api_key".
Definition LLMErrorCodeIncorrectAPIKey := "incorrect_api_key".
Definition LLMErrorCodeMissingModel := "missing_model".
Definition LLMErrorCodeServiceUnavailable := "service_unavailable".
Definition LLMErrorCodeInternalError := "internal_error".
Definition LLMErrorCodeBadGateway := "bad_gateway".

Definition FromPtrOr {A} (p : option A) (fallback : A) : A :=
  match p with Some a => a | None => fallback end.

Definition base_GetCode (e : BaseLLMError) : outcome string :=
  match ble_body e with Some b => Ret (FromPtrOr (be_code b) "") | None => Panic nil_deref end.
Definition base_GetMessage (e : BaseLLMError) : outcome string :=
  match ble_body e with Some b => Ret (be_message b) | None => Panic nil_deref end.
Definition base_GetStatus (e : BaseLLMError) : Z := ble_status e.

Definition base_MarshalJSON (e : BaseLLMError) : outcome json :=
  match ble_body e with
  | Some b => Ret (JObj {[ "error" := JObj (<["code" := json_of_option (be_code b)]>
                                            {[ "message" := JStr (be_message b) ]}) ]})
  | None => Panic nil_deref
  end.

(** [parsed] is what [json.Unmarshal(data, &parsed)] gives: the decoded map or
    an error. *)
Definition base_UnmarshalJSON (e : BaseLLMError) (parsed : gmap string json + gerror)
    : BaseLLMError * option gerror :=
  let reset body := mkBaseLLMError (ble_status e) (Some body) in
  match parsed with
  | inr err => (reset (mkBaseError None ""), Some err)
  | inl parsed =>
      match as_object (parsed !! "error") with
      | None => (reset (mkBaseError None ""), None)
      | Some errorMap =>
          let code := as_string (errorMap !! "code") in
          let message := match as_string (errorMap !! "message") with Some m => m | None => "" end in
          (reset (mkBaseError code message), None)
      end
  end.

Definition newBase (status : Z) (code message : string) : BaseLLMError :=
  mkBaseLLMError status (Some (mkBaseError (Some code) message)).

Definition NewErrorModelNotFoundOrNotAccessible (model : string) : BaseLLMError :=
  newBase StatusNotFound LLMErrorCodeModelNotFoundOrNotAccessible
    ("The model `" +:+ model +:+ "` does not exist or you do not have access to it.").
Definition NewErrorModelAccessDenied (model : string) : BaseLLMError :=
  newBase StatusForbidden LLMErrorCodeModelAccessDenied
    ("You do not have access to the model `" +:+ model +:+ "`.").
Definition NewErrorRateLimitExceeded : BaseLLMError :=
  newBase StatusTooManyRequests LLMErrorCodeRateLimitExceeded
    "You have exceeded the rate limit. Please try again later.".
Definition NewErrorInsufficientQuota : BaseLLMError :=
  newBase StatusPaymentRequired LLMErrorCodeInsufficientQuota "You exceeded your current quota.".
Definition NewErrorMissingAPIKey : BaseLLMError :=
  newBase StatusUnauthorized LLMErrorCodeMissingAPIKey "Missing API key".
Definition NewErrorIncorrectAPIKey (apiKey : string) : BaseLLMError :=
  newBase StatusUnauthorized LLMErrorCodeIncorrectAPIKey ("Incorrect API key provided: " +:+ apiKey).
Definition NewErrorMissingModel : BaseLLMError :=
  newBase StatusNotFound LLMErrorCodeMissingModel
    ("Missing required parameter: '" +:+ "model" +:+ "'.").

(** [lo.Coalesce]: the first error that is not nil; the default appended to
    the list makes [lo.Must] succeed. *)
Fixpoint Coalesce (errs : list (option gerror)) (default : gerror) : gerror :=
  match errs with
  | [] => default
  | Some e :: _ => e
  | None :: errs => Coalesce errs default
  end.

Definition NewErrorInternalError (internalErrs : list (option gerror)) : outcome BaseLLMError :=
  msg ← ErrorText (Coalesce internalErrs (EPlain "internal error"));
  Ret (newBase StatusInternalServerError LLMErrorCodeInternalError msg).

Definition NewErrorBadGateway (upstreamErr : option gerror) : outcome BaseLLMError :=
  msg ← ErrorText (Coalesce [upstreamErr] (EPlain "bad gateway"));
  Ret (newBase StatusBadGateway LLMErrorCodeBadGateway msg).

Definition NewErrorServiceUnavailable : BaseLLMError :=
  newBase StatusServiceUnavailable LLMErrorCodeServiceUnavailable "service unavailable".

(** ** pkg/object/error.go *)
Definition IsLLMError (err : option gerror) : bool :=
  match err with Some (EBase _) | Some (EOpenAI _) => true | _ => false end.

(** The [LLMError] interface: its two implementations. *)
Inductive LLMError : Type :=
| LBase (e : BaseLLMError)
| LOpenAI (e : ErrorResponse).

Definition AsLLMError (err : option gerror) : option LLMError :=
  match err with
  | Some (EBase e) => Some (LBase e)
  | Some (EOpenAI e) => Some (LOpenAI e)
  | _ => None
  end.

Definition as_error (e : LLMError) : gerror :=
  match e with LBase e => EBase e | LOpenAI e => EOpenAI e end.

Fixpoint LLMErrorOrInternalError_loop (errs : list gerror) : option LLMError :=
  match errs with
  | [] => None
  | err :: errs =>
      if IsLLMError (Some err) then AsLLMError (Some err) else LLMErrorOrInternalError_loop errs
  end.

Definition LLMErrorOrInternalError (anyErrs : list (option gerror)) : outcome LLMError :=
  let anyErrs := omap id anyErrs in
  match LLMErrorOrInternalError_loop anyErrs with
  | Some e => Ret e
  | None => e ← NewErrorInternalError (map Some anyErrs); Ret (LBase e)
  end.

(** [GetCode], [GetMessage], [GetStatus] of an [LLMError]. *)
Definition openai_GetCode (e : ErrorResponse) : outcome string :=
  match er_body e with Some b => Ret (FromPtrOr (err_code b) "") | None => Panic nil_deref end.
Definition openai_GetMessage (e : ErrorResponse) : outcome string :=
  match er_body e with Some b => Ret (err_message b) | None => Panic nil_deref end.
Definition openai_GetStatus (e : ErrorResponse) : Z := er_status e.

Definition GetCode (e : LLMError) : outcome string :=
  match e with LBase e => base_GetCode e | LOpenAI e => openai_GetCode e end.
Definition GetMessage (e : LLMError) : outcome string :=
  match e with LBase e => base_GetMessage e | LOpenAI e => openai_GetMessage e end.
Definition GetStatus (e : LLMError) : Z :=
  match e with LBase e => base_GetStatus e | LOpenAI e => openai_GetStatus e end.

(** ** pkg/types/openai/errors.go *)
Definition scalarNullJSON := "null".
Definition scalarNilGolang := "<nil>".

Definition scalar (s : string) : option string :=
  if String.eqb s scalarNullJSON || String.eqb s scalarNilGolang then None else Some s.

(** [parsed] is what [json.Unmarshal(data, &parsed)] gives: an error, or the
    parsed body, as its rendering at the templates of the jsonpath library,
    whose errors carry their text. *)
Definition Error_UnmarshalJSON (parsed : (string -> string + string) + gerror) : Error + gerror :=
  match parsed with
  | inr err => inr (EWrap "failed to unmarshal error" err)
  | inl jsonpath =>
  match jsonpath "{ .code }" with
  | inr e => inr (EWrap "failed to get code" (EPlain e))
  | inl codeStr =>
  match jsonpath "{ .param }" with
  | inr e => inr (EWrap "failed to get param" (EPlain e))
  | inl paramStr =>
  match jsonpath "{ .type }" with
  | inr e => inr (EWrap "failed to get type" (EPlain e))
  | inl type =>
  match jsonpath "{ .message }" with
  | inr e => inr (EWrap "failed to get message" (EPlain e))
  | inl message =>
      let code := scalar codeStr in
      let param := scalar paramStr in
      let message :=
        if String.eqb message ""
        then "unknown error (empty message received from upstream): code: " +:+ FromPtrOr code ""
             +:+ ", type: " +:+ type +:+ ", param: " +:+ FromPtrOr param ""
        else message in
      inl (mkError code message param type)
  end end end end end.

Definition appendCause (e : ErrorResponse) (err : gerror) : outcome ErrorResponse :=
  let body := FromPtrOr (er_body e) (mkError None "" None "") in
  t ← ErrorText err;
  let message :=
    if String.eqb (err_message body) "" then t else err_message body +:+ ": " +:+ t in
  Ret (mkErrorResponse (er_status e) (er_from_upstream e) (er_upstream_body e)
         (Some (mkError (err_code body) message (err_param body) (err_type body))) (er_cause e)).

Definition WithCause (e : ErrorResponse) (err : gerror) : outcome ErrorResponse :=
  appendCause (mkErrorResponse (er_status e) (er_from_upstream e) (er_upstream_body e)
                 (er_body e) (Some err)) err.

Definition NewErrorResponse (status : Z) (err : Error) : ErrorResponse :=
  mkErrorResponse status false "" (Some err) None.

Definition openai_NewErrorInternalError : ErrorResponse :=
  NewErrorResponse StatusInternalServerError (mkError None "internal error" None "internal_error").

Definition WithMessage (e : ErrorResponse) (message : string) : ErrorResponse :=
  let body := FromPtrOr (er_body e) (mkError None "internal error" None "internal_error") in
  mkErrorResponse (er_status e) (er_from_upstream e) (er_upstream_body e)
    (Some (mkError (err_code body) message (err_param body) (err_type body))) (er_cause e).

Definition json_of_Error (e : Error) : json :=
  JObj (<["code" := json_of_option (err_code e)]> (<["message" := JStr (err_message e)]>
       (<["param" := json_of_option (err_param e)]> {[ "type" := JStr (err_type e) ]}))).

Definition openai_MarshalJSON (e : ErrorResponse) : json :=
  JObj {[ "error" := match er_body e with Some b => json_of_Error b | None => JNull end ]}.

Definition ErrorResponse_UnmarshalJSON (e : ErrorResponse) (parsed : Error + gerror)
    : ErrorResponse + gerror :=
  match parsed with
  | inr err => inr (EWrap "failed to unmarshal error body" err)
  | inl body => inl (mkErrorResponse (er_status e) (er_from_upstream e) (er_upstream_body e)
                       (Some body) (er_cause e))
  end.

Definition invalid_request (code param : option string) (message : string) : Error :=
  mkError code message param "invalid_request_error".

Definition openai_NewErrorMissingAPIKey : ErrorResponse :=
  NewErrorResponse StatusUnauthorized (invalid_request None None
    ("You didn't provide an API key. You need to provide your API key in an Authorization header using Bearer auth " +:+
     "(i.e. Authorization: Bearer YOUR_KEY), or as the password field (with blank username) if you're accessing the " +:+
     "API from your browser and are prompted for a username and password. You can obtain an API key from " +:+
     "https://platform.openai.com/account/api-keys.")).
Definition openai_NewErrorIncorrectAPIKey (apiKey : string) : ErrorResponse :=
  NewErrorResponse StatusUnauthorized (invalid_request (Some "invalid_api_key") None
    ("Incorrect API key provided: " +:+ apiKey +:+ ". You can find your API key at https://platform.openai.com/account/api-keys.")).
Definition NewErrorBadRequest : ErrorResponse :=
  NewErrorResponse StatusBadRequest (invalid_request None None "bad request").
Definition openai_NewErrorMissingModel : ErrorResponse :=
  NewErrorResponse StatusBadRequest (invalid_request None None "you must provide a model parameter").
Definition NewErrorInvalidBody : ErrorResponse :=
  NewErrorResponse StatusBadRequest (invalid_request None None
    ("We could not parse the JSON body of your request. " +:+
     "(HINT: This likely means you aren't using your HTTP " +:+
     "library correctly. The OpenAI API expects a JSON " +:+
     "payload, but what was sent was not valid JSON. If you " +:+
     "have trouble figuring out how to fix this, please " +:+
     "contact us through our help center at help.openai.com.)")).

(** [strings.ToUpper] on the ASCII letters of an HTTP method. *)
Definition upper_ascii (c : ascii) : ascii :=
  let n := Ascii.nat_of_ascii c in
  if (Nat.leb 97 n && Nat.leb n 122)%bool then Ascii.ascii_of_nat (n - 32) else c.
Fixpoint ToUpper (s : string) : string :=
  match s with EmptyString => EmptyString | String c s => String (upper_ascii c) (ToUpper s) end.

Definition NewErrorNotFound (method url : string) : ErrorResponse :=
  NewErrorResponse StatusNotFound (invalid_request None None
    ("Invalid URL (" +:+ ToUpper method +:+ " " +:+ url +:+ ")")).
Definition openai_NewErrorModelNotFoundOrNotAccessible (model : string) : ErrorResponse :=
  NewErrorResponse StatusNotFound (invalid_request (Some "model_not_found") None
    ("The model `" +:+ model +:+ "` does not exist or you do not have access to it.")).
Definition openai_NewErrorModelAccessDenied (model : string) : ErrorResponse :=
  NewErrorResponse StatusForbidden (invalid_request (Some "model_access_denied") None
    ("You do not have access to the model `" +:+ model +:+ "`.")).
Definition NewErrorQuotaExceeded : ErrorResponse :=
  NewErrorResponse StatusPaymentRequired (mkError (Some "insufficient_quota")
    ("You exceeded your current quota, please check your plan and billing details. " +:+
     "For more information on this error, read the docs: " +:+
     "https://platform.openai.com/docs/guides/error-codes/api-errors.") None "insufficient_quota").
Definition NewErrorMissingParameter (parameter : string) : ErrorResponse :=
  NewErrorResponse StatusBadRequest (invalid_request (Some "missing_required_parameter") (Some parameter)
    ("Missing required parameter: '" +:+ parameter +:+ "'.")).
Definition openai_NewErrorBadGateway : ErrorResponse :=
  NewErrorResponse StatusBadGateway (mkError None "bad gateway" None "upstream_error").
Definition openai_NewErrorServiceUnavailable : ErrorResponse :=
  NewErrorResponse StatusServiceUnavailable (mkError None "service unavailable" None "internal_error").

(** The map [m] from error codes to constructors; [message] is
    [llmError.GetMessage()]. *)
Definition errorConstructors (message : string) : gmap string ErrorResponse :=
  list_to_map
  [(LLMErrorCodeModelNotFoundOrNotAccessible, WithMessage (openai_NewErrorModelNotFoundOrNotAccessible "") message);
   (LLMErrorCodeModelAccessDenied, WithMessage (openai_NewErrorModelAccessDenied "") message);
   (LLMErrorCodeInsufficientQuota, NewErrorQuotaExceeded);
   (LLMErrorCodeMissingAPIKey, openai_NewErrorMissingAPIKey);
   (LLMErrorCodeIncorrectAPIKey, WithMessage (openai_NewErrorIncorrectAPIKey "******") message);
   (LLMErrorCodeMissingModel, openai_NewErrorMissingModel);
   (LLMErrorCodeServiceUnavailable, openai_NewErrorServiceUnavailable);
   (LLMErrorCodeInternalError, openai_NewErrorInternalError);
   (LLMErrorCodeBadGateway, WithMessage openai_NewErrorBadGateway message)].

(** The argument is the non-nil error of [ResponseHandler].  Neither
    [LLMError] has an [Unwrap] method, so [errors.As] succeeds on an
    [ErrorResponse] only. *)
Definition NewErrorFromLLMError (err : gerror) : outcome ErrorResponse :=
  match AsLLMError (Some err) with
  | None => WithCause openai_NewErrorInternalError err
  | Some llmError =>
      match err with
      | EOpenAI openaiErrorResp => Ret openaiErrorResp
      | _ =>
          code ← GetCode llmError;
          message ← GetMessage llmError;
          match errorConstructors message !! code with
          | Some e => Ret e
          | None => Ret (NewErrorResponse (GetStatus llmError) (mkError (Some code) message None ""))
          end
      end
  end.

(** ** The errors the gateway makes *)
Inductive gateway_error : BaseLLMError -> Prop :=
| gw_model_not_found model : gateway_error (NewErrorModelNotFoundOrNotAccessible model)
| gw_access_denied model : gateway_error (NewErrorModelAccessDenied model)
| gw_rate_limit : gateway_error NewErrorRateLimitExceeded
| gw_quota : gateway_error NewErrorInsufficientQuota
| gw_missing_key : gateway_error NewErrorMissingAPIKey
| gw_incorrect_key apiKey : gateway_error (NewErrorIncorrectAPIKey apiKey)
| gw_missing_model : gateway_error NewErrorMissingModel
| gw_internal errs e : NewErrorInternalError errs = Ret e -> gateway_error e
| gw_bad_gateway err e : NewErrorBadGateway err = Ret e -> gateway_error e
| gw_unavailable : gateway_error NewErrorServiceUnavailable.

Lemma NewErrorInternalError_Ret errs e :
  NewErrorInternalError errs = Ret e ->
  exists msg, e = newBase StatusInternalServerError LLMErrorCodeInternalError msg.
Proof.
  unfold NewErrorInternalError. intros H. inv_ret. subst. by eexists.
Qed.

Lemma NewErrorBadGateway_Ret err e :
  NewErrorBadGateway err = Ret e ->
  exists msg, e = newBase StatusBadGateway LLMErrorCodeBadGateway msg.
Proof.
  unfold NewErrorBadGateway. intros H. inv_ret. subst. by eexists.
Qed.

(** The client sees the status the gateway decided on: an error made by
    the gateway keeps its HTTP status through the translation to an OpenAI
    error, except a missing model, which becomes a bad request; the translated
    error always has a body. *)
Theorem NewErrorFromLLMError_status e :
  gateway_error e ->
  exists r b, NewErrorFromLLMError (EBase e) = Ret r /\ er_body r = Some b /\
    er_status r = (if decide (e = NewErrorMissingModel) then StatusBadRequest else ble_status e).
Proof.
  intros He.
  destruct He as [model|model| | | |apiKey| |errs e He|err e He|];
    try apply NewErrorInternalError_Ret in He as [msg ->];
    try apply NewErrorBadGateway_Ret in He as [msg ->];
    do 2 eexists; (split; [reflexivity|]); (split; [reflexivity|]);
    case_decide as E; done.
Qed.

Lemma NewErrorFromLLMError_status_witness :
  exists r b, NewErrorFromLLMError (EBase NewErrorRateLimitExceeded) = Ret r /\ er_body r = Some b /\
    er_status r = (if decide (NewErrorRateLimitExceeded = NewErrorMissingModel) then StatusBadRequest
                   else ble_status NewErrorRateLimitExceeded).
Proof. apply NewErrorFromLLMError_status. constructor. Defined.

(** An error with a body has a text. *)
Fixpoint has_text (e : gerror) : bool :=
  match e with
  | EBase b => bool_decide (is_Some (ble_body b))
  | EOpenAI r => match er_body r with Some _ => true | None => false end
  | EWrapf _ e _ => has_text e
  | _ => true
  end.

Lemma has_text_Ret e : has_text e = true -> exists t, ErrorText e = Ret t.
Proof.
  induction e as [b|r|msg|p e IH| |]; simpl; intros H; try by eexists.
  - destruct (ble_body b); [by eexists | done].
  - destruct (er_body r); [by eexists | done].
  - destruct (IH H) as [t ->]. by eexists.
Qed.

Lemma Coalesce_text errs d :
  Forall (fun e => has_text e = true) (omap id errs) -> has_text d = true ->
  has_text (Coalesce errs d) = true.
Proof.
  induction errs as [|[e|] errs IH]; simpl; intros H Hd; [done| |by apply IH].
  by apply Forall_cons in H as [H _].
Qed.

Lemma LLMErrorOrInternalError_loop_spec errs :
  match LLMErrorOrInternalError_loop errs with
  | Some e => exists pre post, errs = pre ++ as_error e :: post /\
                Forall (fun e => IsLLMError (Some e) = false) pre
  | None => Forall (fun e => IsLLMError (Some e) = false) errs
  end.
Proof.
  induction errs as [|[b|r|msg|p e| |] errs IH]; cbn [LLMErrorOrInternalError_loop IsLLMError AsLLMError].
  { constructor. }
  1, 2: exists [], errs; split; [done | constructor].
  all: destruct (LLMErrorOrInternalError_loop errs) as [e'|]; [|by constructor];
    destruct IH as (pre & post & -> & Hpre);
    match goal with |- context [?x :: pre ++ _] => exists (x :: pre), post end; split; [done | by constructor].
Qed.

Lemma omap_id_map_Some {A} (l : list A) : omap id (map Some l) = l.
Proof. induction l; [done|]. simpl. by f_equal. Qed.

(** Whatever errors a handler collected, the gateway answers with an
    [LLMError]: the first one of them that is one, and otherwise an internal
    error with the text of the first error that is not nil. *)
Theorem LLMErrorOrInternalError_first anyErrs :
  Forall (fun e => has_text e = true) (omap id anyErrs) ->
  exists e, LLMErrorOrInternalError anyErrs = Ret e /\
    ((exists pre post, omap id anyErrs = pre ++ as_error e :: post /\
        Forall (fun e => IsLLMError (Some e) = false) pre) \/
     (Forall (fun e => IsLLMError (Some e) = false) (omap id anyErrs) /\
      exists t, ErrorText (FromPtrOr (head (omap id anyErrs)) (EPlain "internal error")) = Ret t /\
        e = LBase (newBase StatusInternalServerError LLMErrorCodeInternalError t))).
Proof.
  intros Ht. unfold LLMErrorOrInternalError.
  pose proof (LLMErrorOrInternalError_loop_spec (omap id anyErrs)) as H.
  destruct (LLMErrorOrInternalError_loop (omap id anyErrs)) as [e|].
  - exists e. split; [done|]. by left.
  - unfold NewErrorInternalError.
    destruct (has_text_Ret (Coalesce (map Some (omap id anyErrs)) (EPlain "internal error"))) as [t Et].
    { apply Coalesce_text; [by rewrite omap_id_map_Some | done]. }
    rewrite Et. eexists. split; [done|]. right. split; [done|]. exists t. split; [|done].
    rewrite <- Et. by destruct (omap id anyErrs).
Qed.

Lemma LLMErrorOrInternalError_first_witness :
  let errs := [None; Some (EPlain "boom"); Some (EBase NewErrorMissingAPIKey)] in
  exists e, LLMErrorOrInternalError errs = Ret e /\
    ((exists pre post, omap id errs = pre ++ as_error e :: post /\
        Forall (fun e => IsLLMError (Some e) = false) pre) \/
     (Forall (fun e => IsLLMError (Some e) = false) (omap id errs) /\
      exists t, ErrorText (FromPtrOr (head (omap id errs)) (EPlain "internal error")) = Ret t /\
        e = LBase (newBase StatusInternalServerError LLMErrorCodeInternalError t))).
Proof. apply LLMErrorOrInternalError_first. repeat constructor. Defined.

(** An [LLMError] survives its JSON form: what [MarshalJSON] writes,
    [UnmarshalJSON] reads back, code and message, whatever was in the receiver
    but its status. *)
Lemma base_json_roundtrip e e0 parsed :
  base_MarshalJSON e = Ret (JObj parsed) ->
  base_UnmarshalJSON e0 (inl parsed) = (mkBaseLLMError (ble_status e0) (ble_body e), None).
Proof.
  unfold base_MarshalJSON, base_UnmarshalJSON. destruct (ble_body e) as [[[c|] m]|]; [| |done]; by intros [= <-].
Qed.
