(* ===== verification/Request.v ===== *)
(** * pkg/types/openai requests: the request body and its rewriting

    The three request types hold the JSON body twice, as bytes and parsed, and
    rewrite both with JSON patches.  The bytes are modelled by the document
    they denote. *)
From S2P Require Import Prelude Strconv Utils GoFloat Json Errors.

(** ** JSON patches (jsonpatch.go) *)
Inductive JSONPatchOperationObject : Type :=
| PatchAdd (path : string) (value : json)
| PatchRemove (path : string)
| PatchReplace (path : string) (value : json).

Definition NewReplace (path : string) (to : json) := PatchReplace path to.
Definition NewAdd (path : string) (value : json) := PatchAdd path value.
Definition NewRemove (path : string) := PatchRemove path.

Record ApplyOptions : Type := mkApplyOptions {
  EnsurePathExistsOnAdd : bool;
  AllowMissingPathOnRemove : bool }.

Definition NewApplyOptions : ApplyOptions := mkApplyOptions false false.

(** The patch library (github.com/evanphx/json-patch), on decoded documents;
    an error carries its text. *)
Class JSONPatch := applyPatch : ApplyOptions -> JSONPatchOperationObject -> json -> json + string.

(** A key that is its own JSON pointer segment. *)
Definition plain_key (k : string) : bool :=
  negb (ContainsByte k "/") && negb (ContainsByte k "~").

(** RFC 6902 on a member of the root object, as the library documents it. *)
Class JSONPatchLaws `{JSONPatch} : Prop := {
  patch_add opt k v m : plain_key k = true ->
    applyPatch opt (PatchAdd ("/" +:+ k) v) (JObj m) = inl (JObj (<[k := v]> m));
  patch_replace opt k v m : plain_key k = true -> is_Some (m !! k) ->
    applyPatch opt (PatchReplace ("/" +:+ k) v) (JObj m) = inl (JObj (<[k := v]> m));
  patch_remove opt k m : plain_key k = true -> AllowMissingPathOnRemove opt = true ->
    applyPatch opt (PatchRemove ("/" +:+ k)) (JObj m) = inl (JObj (delete k m)) }.

(** A patch engine for one-segment pointers that has these laws. *)
Definition pointer (path : string) : option string :=
  if HasPrefix path "/" && plain_key (TrimPrefix path "/") then Some (TrimPrefix path "/") else None.

#[local] Instance rfc6902 : JSONPatch := fun opt op doc =>
  match doc with
  | JObj m =>
      match op with
      | PatchAdd path v =>
          match pointer path with
          | Some k => inl (JObj (<[k := v]> m))
          | None => inr "unsupported path"
          end
      | PatchReplace path v =>
          match pointer path with
          | Some k => if bool_decide (is_Some (m !! k)) then inl (JObj (<[k := v]> m))
                      else inr "replace operation does not apply"
          | None => inr "unsupported path"
          end
      | PatchRemove path =>
          match pointer path with
          | Some k =>
              if bool_decide (is_Some (m !! k)) then inl (JObj (delete k m))
              else if AllowMissingPathOnRemove opt then inl (JObj m)
              else inr "remove operation does not apply"
          | None => inr "unsupported path"
          end
      end
  | _ => inr "not an object"
  end.

Lemma pointer_plain k : plain_key k = true -> pointer ("/" +:+ k) = Some k.
Proof. intros H. unfold pointer. by rewrite HasPrefix_app, TrimPrefix_app, H. Qed.

#[local] Instance rfc6902_laws : JSONPatchLaws.
Proof.
  split; intros opt k; intros; unfold applyPatch, rfc6902; rewrite pointer_plain by done.
  - done.
  - by rewrite bool_decide_true.
  - case_bool_decide as E; [done|]. rewrite H0, delete_id; [done|]. by apply eq_None_not_Some.
Qed.

(** ** Image sizes (common.go) *)
Record ImageGenerationsRequestSize : Type := mkSize { size_Width : Z; size_Height : Z }.  (* uint64 *)


(** [quote] is the double quote of the messages. *)
Definition quote : string := String (Ascii.ascii_of_nat 34) "".
Definition sizeValue : string := quote +:+ "size" +:+ quote +:+ " value".

Definition parseImageGenerationsSizeString (str : option string)
    : option ImageGenerationsRequestSize + gerror :=
  match str with
  | None => inl None
  | Some str =>
      let fail m := inr (EOpenAI (WithMessage NewErrorBadRequest m)) in
      if String.eqb str "" then fail "empty size string" else
      match Split "x" str with
      | [] | [_] => fail ("invalid `" +:+ str +:+ "` in " +:+ sizeValue)
      | [w; h] =>
          match ParseUint w 64 with
          | inr _ => fail ("invalid width `" +:+ w +:+ "` in " +:+ sizeValue +:+ " `" +:+ str +:+ "`")
          | inl width =>
              match ParseUint h 64 with
              | inr _ => fail ("invalid height `" +:+ h +:+ "` in " +:+ sizeValue +:+ " `" +:+ str +:+ "`")
              | inl height => inl (Some (mkSize width height))
              end
          end
      | _ => fail ("invalid `" +:+ str +:+ "` in " +:+ sizeValue +:+ ": too many parts")
      end
  end.

Definition defaultImageGenerationRequestSizeWidth := 1024.
Definition defaultImageGenerationRequestSizeHeight := 1024.

(** ** The request object *)

(** The fields of a [TextToSpeechRequest], read once from the body. *)
Record SpeechFields : Type := mkSpeech {
  sp_Input : string;
  sp_Voice : string;
  sp_ResponseFormat : option string;
  sp_Speed : option f64;
  sp_ExtraBody : option (gmap string json) }.

Inductive RequestType : Type :=
| RequestTypeChatCompletions
| RequestTypeCompletions
| RequestTypeImageGenerations
| RequestTypeTextToSpeech.

#[export] Instance RequestType_eq : EqDecision RequestType.
Proof. solve_decision. Defined.

(** A pointer to one of the request types; [req_body] is the document of
    [bodyBuffer] (nil after a failed patch), [req_parsed] is [bodyParsed] (nil
    likewise), the image and the speech fields are unset for the others. *)
Record LLMRequest : Type := mkLLMRequest {
  req_type : RequestType;
  req_model : string;
  req_stream : bool;
  req_body : option json;
  req_parsed : option (gmap string json);
  req_size : option ImageGenerationsRequestSize;
  req_style : option string;
  req_quality : option string;
  req_speech : option SpeechFields }.

Definition GetModel (r : LLMRequest) : string := req_model r.
Definition IsStream (r : LLMRequest) : bool := req_stream r.
Definition GetRequestType (r : LLMRequest) : RequestType := req_type r.

Definition setBody (r : LLMRequest) (body : option json) (parsed : option (gmap string json)) : LLMRequest :=
  mkLLMRequest (req_type r) (req_model r) (req_stream r) body parsed (req_size r) (req_style r) (req_quality r)
    (req_speech r).
Definition setModelField (r : LLMRequest) (model : string) : LLMRequest :=
  mkLLMRequest (req_type r) model (req_stream r) (req_body r) (req_parsed r) (req_size r) (req_style r) (req_quality r)
    (req_speech r).
Definition setSize (r : LLMRequest) (size : option ImageGenerationsRequestSize) : LLMRequest :=
  mkLLMRequest (req_type r) (req_model r) (req_stream r) (req_body r) (req_parsed r) size (req_style r) (req_quality r)
    (req_speech r).

Definition lookup_parsed (p : option (gmap string json)) (k : string) : option json :=
  match p with Some m => m !! k | None => None end.

(** [json.Unmarshal] of a document into a [map[string]any]. *)
Definition decode_object (doc : json) : option (gmap string json) + gerror :=
  match doc with
  | JObj m => inl (Some m)
  | JNull => inl None
  | _ => inr (EPlain "json: cannot unmarshal value into Go value of type map[string]interface {}")
  end.

Section WithPatch.
Context `{JSONPatch}.

(** A nil buffer is dereferenced. *)
Definition modifyBufferBodyAndParsed (buffer : option json) (applyOpt : option ApplyOptions)
    (op : JSONPatchOperationObject)
    : outcome (option json * option (gmap string json) * option gerror) :=
  let applyOpt := match applyOpt with Some o => o | None => NewApplyOptions end in
  match buffer with
  | None => Panic nil_deref
  | Some doc =>
      match applyPatch applyOpt op doc with
      | inr e => Ret (None, None, Some (EPlain e))
      | inl patched =>
          match decode_object patched with
          | inr e => Ret (None, None, Some e)
          | inl newParsed => Ret (Some patched, newParsed, None)
          end
      end
  end.

(** [r.bodyBuffer, r.bodyParsed, err = modifyBufferBodyAndParsed(...)] *)
Definition patchRequest (r : LLMRequest) (opt : option ApplyOptions) (op : JSONPatchOperationObject)
    : outcome (LLMRequest * option gerror) :=
  '(body, parsed, err) ← modifyBufferBodyAndParsed (req_body r) opt op;
  Ret (setBody r body parsed, err).

Definition SetModel (r : LLMRequest) (model : string) : outcome (LLMRequest * option gerror) :=
  '(r, err) ← patchRequest r None (NewReplace "/model" (JStr model));
  match err with
  | Some e => Ret (r, Some e)
  | None => Ret (setModelField r model, None)
  end.

(** [v.GetStringValue()] *)
Definition GetStringValue (v : json) : string := match v with JStr s => s | _ => "" end.

(** The tail shared by the two parameter setters. *)
Definition refreshModel (r : LLMRequest) : LLMRequest :=
  match lookup_parsed (req_parsed r) "model" with
  | Some (JStr model) => if String.eqb (req_model r) model then r else setModelField r model
  | _ => r
  end.

(** Image requests keep [Size] in step with the body. *)
Definition refreshSize (r : LLMRequest) (k : string) (v : json) : LLMRequest * option gerror :=
  match req_type r with
  | RequestTypeImageGenerations =>
      if String.eqb k "size" then
        match parseImageGenerationsSizeString (Some (GetStringValue v)) with
        | inl size => (setSize r size, None)
        | inr e => (setSize r None, Some e)
        end
      else (r, None)
  | _ => (r, None)
  end.

(** [params] lists the map in the order the [range] visits it. *)
Fixpoint SetDefaultParams_loop (r : LLMRequest) (params : list (string * json))
    : outcome (LLMRequest * option gerror) :=
  match params with
  | [] => Ret (r, None)
  | (k, v) :: params =>
      match lookup_parsed (req_parsed r) k with
      | Some _ => SetDefaultParams_loop r params
      | None =>
          '(r, err) ← patchRequest r None (NewAdd ("/" +:+ k) v);
          match err with
          | Some e => Ret (r, Some (EWrap ("failed to add key " +:+ k) e))
          | None =>
              let '(r, err) := refreshSize r k v in
              match err with
              | Some e => Ret (r, Some e)
              | None => SetDefaultParams_loop r params
              end
          end
      end
  end.

Definition SetDefaultParams (r : LLMRequest) (params : list (string * json))
    : outcome (LLMRequest * option gerror) :=
  '(r, err) ← SetDefaultParams_loop r params;
  match err with
  | Some e => Ret (r, Some e)
  | None => Ret (refreshModel r, None)
  end.

Fixpoint SetOverrideParams_loop (r : LLMRequest) (params : list (string * json))
    : outcome (LLMRequest * option gerror) :=
  match params with
  | [] => Ret (r, None)
  | (k, v) :: params =>
      '(r, err) ← patchRequest r (Some (mkApplyOptions true false)) (NewAdd ("/" +:+ k) v);
      match err with
      | Some e => Ret (r, Some e)
      | None =>
          let '(r, err) := refreshSize r k v in
          match err with
          | Some e => Ret (r, Some e)
          | None => SetOverrideParams_loop r params
          end
      end
  end.

Definition SetOverrideParams (r : LLMRequest) (params : list (string * json))
    : outcome (LLMRequest * option gerror) :=
  '(r, err) ← SetOverrideParams_loop r params;
  match err with
  | Some e => Ret (r, Some e)
  | None => Ret (refreshModel r, None)
  end.

Fixpoint RemoveParamKeys (r : LLMRequest) (keys : list string)
    : outcome (LLMRequest * option gerror) :=
  match keys with
  | [] => Ret (r, None)
  | k :: keys =>
      '(r, err) ← patchRequest r (Some (mkApplyOptions false true)) (NewRemove ("/" +:+ k));
      match err with
      | Some e => Ret (r, Some e)
      | None => RemoveParamKeys r keys
      end
  end.
End WithPatch.

(** ** Reading the request *)

(** The jsonpath library (k8s.io/client-go/util/jsonpath), missing keys
    allowed: a parsed body rendered at a template, or an error. *)
Class JSONPath := jsonpath : option (gmap string json) -> string -> string + string.

(** A field name that needs no quoting in a template. *)
Definition ident_byte (c : ascii) : bool :=
  let n := Ascii.nat_of_ascii c in
  (Nat.leb 48 n && Nat.leb n 57 || Nat.leb 65 n && Nat.leb n 90 || Nat.eqb n 95 || Nat.leb 97 n && Nat.leb n 122)%bool.
Fixpoint plain_field (k : string) : bool :=
  match k with EmptyString => true | String c k => ident_byte c && plain_field k end.

(** What the gateway relies on for the field [k] of the root object. *)
Class JSONPathLaws `{JSONPath} : Prop := {
  jsonpath_missing p k : plain_field k = true -> lookup_parsed p k = None ->
    jsonpath p ("{ ." +:+ k +:+ " }") = inl "";
  jsonpath_string p k s : plain_field k = true -> lookup_parsed p k = Some (JStr s) ->
    jsonpath p ("{ ." +:+ k +:+ " }") = inl s;
  jsonpath_bool p k b : plain_field k = true -> lookup_parsed p k = Some (JBool b) ->
    jsonpath p ("{ ." +:+ k +:+ " }") = inl (if b : bool then "true" else "false") }.

(** An engine for the dotted paths the gateway uses, exact on strings and
    booleans, that has these laws. *)
Definition template_path (template : string) : list string :=
  Split "." (TrimSuffix1 (TrimSuffix1 (string_drop 3 template) "}") " ").

Fixpoint lookup_path (p : option (gmap string json)) (path : list string) : option json :=
  match path with
  | [] => None
  | [k] => lookup_parsed p k
  | k :: path => lookup_path (as_object (lookup_parsed p k)) path
  end.

Definition render (v : option json) : string :=
  match v with
  | Some (JStr s) => s
  | Some (JBool b) => if b then "true" else "false"
  | _ => ""
  end.

#[local] Instance dotted_paths : JSONPath :=
  fun p template => inl (render (lookup_path p (template_path template))).

Lemma plain_field_no_dot k : plain_field k = true -> ContainsByte k "." = false.
Proof.
  induction k as [|c k IH]; [done|]. cbn [plain_field ContainsByte]. intros [Hc Hk]%andb_true_iff.
  rewrite IH by done. destruct (Ascii.eqb_spec c "."); [by subst|done].
Qed.

Lemma template_path_field k : plain_field k = true -> template_path ("{ ." +:+ k +:+ " }") = [k].
Proof.
  intros Hk. unfold template_path. change ("{ ." +:+ k +:+ " }") with ("{ ." +:+ (k +:+ " }")).
  change 3%nat with (String.length "{ ."). rewrite string_drop_app.
  change (k +:+ " }") with (k +:+ (" " +:+ "}")). rewrite string_app_assoc.
  rewrite (TrimSuffix1_app (k +:+ " ") "}"), (TrimSuffix1_app k " ").
  apply Split_no_sep. by apply plain_field_no_dot.
Qed.

#[local] Instance dotted_paths_laws : JSONPathLaws.
Proof.
  split; intros p k; intros; unfold jsonpath, dotted_paths; rewrite template_path_field by done; simpl.
  - by rewrite H0.
  - by rewrite H0.
  - by rewrite H0.
Qed.

(** [json.Unmarshal] of a text into an [any]. *)
Class JSONText := Unmarshal : string -> option json.

(** [utils.FromString] at [*float64]. *)
Definition FromString_float_ptr `{FloatText} (s : string) : option f64 + string :=
  if isEmptyString s then inl None else match ParseFloat s with inl f => inl (Some f) | inr e => inr e end.

Section Reading.
Context `{JSONPatch} `{JSONPath}.

(** [utils.GetByJSONPath] at the types used: errors give the zero value. *)
Definition GetByJSONPath_string (p : option (gmap string json)) (template : string) : string :=
  match jsonpath p template with inl s => FromString_string s | inr _ => "" end.
Definition GetByJSONPath_string_ptr (p : option (gmap string json)) (template : string) : option string :=
  match jsonpath p template with inl s => FromString_string_ptr s | inr _ => None end.
Definition GetByJSONPath_bool (p : option (gmap string json)) (template : string) : bool :=
  match jsonpath p template with
  | inl s => match FromString_bool s with Some b => b | None => false end
  | inr _ => false
  end.

Definition GetByJSONPath_bool_ptr (p : option (gmap string json)) (template : string) : option bool :=
  match jsonpath p template with
  | inl s => match FromString_bool_ptr s with Some b => b | None => None end
  | inr _ => None
  end.
Definition GetByJSONPath_int_ptr (p : option (gmap string json)) (template : string) : option Z :=
  match jsonpath p template with
  | inl s => match FromString_signed_ptr 64 s with inl z => z | inr _ => None end
  | inr _ => None
  end.
Definition GetByJSONPath_float_ptr `{FloatText} (p : option (gmap string json)) (template : string) : option f64 :=
  match jsonpath p template with
  | inl s => match FromString_float_ptr s with inl f => f | inr _ => None end
  | inr _ => None
  end.
Definition GetByJSONPath_map `{JSONText} (p : option (gmap string json)) (template : string)
    : option (gmap string json) :=
  match jsonpath p template with
  | inl s => if isEmptyString s then None else as_object (Unmarshal s)
  | inr _ => None
  end.

(** [body] is the decoded request body, [None] when reading or decoding it
    failed ([utils.ReadAsJSONWithClose]). *)
Definition ReadAsJSON (body : option json) : (json * option (gmap string json)) + gerror :=
  match body with
  | None => inr (EPlain "invalid JSON")
  | Some doc => match decode_object doc with inl m => inl (doc, m) | inr e => inr e end
  end.

Definition includeUsage : json := JObj {[ "include_usage" := JBool true ]}.

Definition NewChatCompletionRequest (type : RequestType) (body : option json)
    : outcome (LLMRequest + gerror) :=
  match ReadAsJSON body with
  | inr _ => Ret (inr (EOpenAI NewErrorInvalidBody))
  | inl (buffer, parsed) =>
      let stream := GetByJSONPath_bool parsed "{ .stream }" in
      let req := mkLLMRequest type (GetByJSONPath_string parsed "{ .model }") stream
                   (Some buffer) parsed None None None None in
      if stream && negb (GetByJSONPath_bool parsed "{ .stream_options.include_usage }") then
        '(req, err) ← patchRequest req None (NewAdd "/stream_options" includeUsage);
        match err with
        | Some e => Ret (inr e)
        | None => Ret (inl req)
        end
      else Ret (inl req)
  end.

Definition NewCompletionsRequest (body : option json) : outcome (LLMRequest + gerror) :=
  NewChatCompletionRequest RequestTypeCompletions body.

Definition NewImageGenerationsRequest (body : option json) : LLMRequest + gerror :=
  match ReadAsJSON body with
  | inr _ => inr (EOpenAI NewErrorInvalidBody)
  | inl (buffer, parsed) =>
      let req size := mkLLMRequest RequestTypeImageGenerations (GetByJSONPath_string parsed "{ .model }") false
                        (Some buffer) parsed size
                        (GetByJSONPath_string_ptr parsed "{ .style }")
                        (GetByJSONPath_string_ptr parsed "{ .quality }") None in
      match GetByJSONPath_string_ptr parsed "{ .size }" with
      | None => inl (req (Some (mkSize defaultImageGenerationRequestSizeWidth
                                       defaultImageGenerationRequestSizeHeight)))
      | Some size =>
          match parseImageGenerationsSizeString (Some size) with
          | inl size => inl (req size)
          | inr e => inr e
          end
      end
  end.

Definition NewTextToSpeechRequest `{JSONText} `{FloatText} (body : option json) : LLMRequest + gerror :=
  match ReadAsJSON body with
  | inr _ => inr (EOpenAI NewErrorInvalidBody)
  | inl (buffer, parsed) =>
      inl (mkLLMRequest RequestTypeTextToSpeech (GetByJSONPath_string parsed "{ .model }") false
             (Some buffer) parsed None None None
             (Some (mkSpeech (GetByJSONPath_string parsed "{ .input }") (GetByJSONPath_string parsed "{ .voice }")
                      (GetByJSONPath_string_ptr parsed "{ .response_format }") (GetByJSONPath_float_ptr parsed "{ .speed }")
                      (GetByJSONPath_map parsed "{ .extra_body }"))))
  end.
End Reading.

(** ** Image sizes: what is printed is parsed back *)

(** A [WxH] size string denotes exactly its two numbers, for every pair of
    64-bit unsigned values. *)
Theorem parseImageGenerationsSizeString_roundtrip w h :
  in_u 64 w -> in_u 64 h ->
  parseImageGenerationsSizeString (Some (Itoa w +:+ "x" +:+ Itoa h)) = inl (Some (mkSize w h)).
Proof.
  unfold in_u. intros Hw Hh. unfold parseImageGenerationsSizeString.
  destruct (String.eqb_spec (Itoa w +:+ "x" +:+ Itoa h) "") as [E|_].
  { by destruct (Itoa w). }
  change ("x" +:+ Itoa h) with (String "x" (Itoa h)).
  rewrite Split_app by (apply Itoa_digits; [lia|done]).
  rewrite Split_no_sep by (apply Itoa_digits; [lia|done]).
  by rewrite !ParseUint_Itoa.
Qed.

Lemma parseImageGenerationsSizeString_roundtrip_witness :
  parseImageGenerationsSizeString (Some "1792x1024") = inl (Some (mkSize 1792 1024)).
Proof. apply (parseImageGenerationsSizeString_roundtrip 1792 1024); split; by vm_compute. Defined.

(** ** The body through the parameter setters *)

(** The bytes and the parsed form denote the same object [m]. *)
Definition synced (r : LLMRequest) (m : gmap string json) : Prop :=
  req_body r = Some (JObj m) /\ req_parsed r = Some m.

(** What the setters keep. *)
Definition same_request (r r' : LLMRequest) : Prop :=
  req_type r' = req_type r /\ req_stream r' = req_stream r /\ req_style r' = req_style r /\
  req_quality r' = req_quality r /\ req_speech r' = req_speech r.

#[export] Instance same_request_preorder : PreOrder same_request.
Proof. split; [done|]. unfold same_request. intros ??? ??. intuition congruence. Qed.

(** Every image size in the parameters is a size. *)
Definition sizes_ok (r : LLMRequest) (params : list (string * json)) : Prop :=
  req_type r = RequestTypeImageGenerations ->
  forall v, ("size", v) ∈ params ->
  exists size, parseImageGenerationsSizeString (Some (GetStringValue v)) = inl size.

(** The setters touch the body, the model and the size, whatever the patch
    library does and whether they succeed or not. *)
Section Kept.
Context `{JSONPatch}.

Lemma patchRequest_same r opt op r' e : patchRequest r opt op = Ret (r', e) -> same_request r r'.
Proof. unfold patchRequest. by intros ([[body parsed] err] & _ & [= <- <-])%outcome_bind_Ret. Qed.

Lemma SetModel_same r model r' e : SetModel r model = Ret (r', e) -> same_request r r'.
Proof.
  unfold SetModel. intros ([r1 err] & H1%patchRequest_same & E)%outcome_bind_Ret.
  destruct err; injection E as <- <-; done.
Qed.

Lemma refreshModel_same r : same_request r (refreshModel r).
Proof. unfold refreshModel. destruct (lookup_parsed _ _) as [[]|]; try done. by destruct (String.eqb _ _). Qed.

Lemma refreshSize_same r k v : same_request r (refreshSize r k v).1.
Proof.
  unfold refreshSize. destruct (req_type r); try done. destruct (String.eqb k "size"); [|done].
  by destruct (parseImageGenerationsSizeString _).
Qed.

Lemma SetDefaultParams_loop_same params : forall r r' e,
  SetDefaultParams_loop r params = Ret (r', e) -> same_request r r'.
Proof.
  induction params as [|[k v] params IH]; intros r r' e; simpl; [by intros [= <- _]|].
  destruct (lookup_parsed _ k); [apply IH|].
  intros ([r1 [err|]] & H1%patchRequest_same & E)%outcome_bind_Ret; [by injection E as <- _|].
  pose proof (refreshSize_same r1 k v) as H2. destruct (refreshSize r1 k v) as [r2 [err|]]; simpl in *.
  - injection E as <- _. by transitivity r1.
  - transitivity r2; [by transitivity r1|]. by eapply IH.
Qed.

Lemma SetDefaultParams_same r params r' e : SetDefaultParams r params = Ret (r', e) -> same_request r r'.
Proof.
  intros ([r1 [err|]] & H1%SetDefaultParams_loop_same & E)%outcome_bind_Ret; injection E as <- _; [done|].
  transitivity r1; [done|]. apply refreshModel_same.
Qed.

Lemma SetOverrideParams_loop_same params : forall r r' e,
  SetOverrideParams_loop r params = Ret (r', e) -> same_request r r'.
Proof.
  induction params as [|[k v] params IH]; intros r r' e; simpl; [by intros [= <- _]|].
  intros ([r1 [err|]] & H1%patchRequest_same & E)%outcome_bind_Ret; [by injection E as <- _|].
  pose proof (refreshSize_same r1 k v) as H2. destruct (refreshSize r1 k v) as [r2 [err|]]; simpl in *.
  - injection E as <- _. by transitivity r1.
  - transitivity r2; [by transitivity r1|]. by eapply IH.
Qed.

Lemma SetOverrideParams_same r params r' e : SetOverrideParams r params = Ret (r', e) -> same_request r r'.
Proof.
  intros ([r1 [err|]] & H1%SetOverrideParams_loop_same & E)%outcome_bind_Ret; injection E as <- _; [done|].
  transitivity r1; [done|]. apply refreshModel_same.
Qed.

Lemma RemoveParamKeys_same keys : forall r r' e, RemoveParamKeys r keys = Ret (r', e) -> same_request r r'.
Proof.
  induction keys as [|k keys IH]; intros r r' e; simpl; [by intros [= <- _]|].
  intros ([r1 [err|]] & H1%patchRequest_same & E)%outcome_bind_Ret; [by injection E as <- _|].
  transitivity r1; [done|]. by eapply IH.
Qed.
End Kept.

Section Setters.
Context `{JSONPatchLaws}.

Lemma patch_add_synced r m opt k v :
  synced r m -> plain_key k = true ->
  exists r', patchRequest r opt (NewAdd ("/" +:+ k) v) = Ret (r', None) /\
    synced r' (<[k := v]> m) /\ same_request r r' /\ req_model r' = req_model r.
Proof.
  intros [Hb Hp] Hk. unfold patchRequest, modifyBufferBodyAndParsed, NewAdd. rewrite Hb.
  rewrite patch_add by done. by eexists.
Qed.

Lemma patch_remove_synced r m k :
  synced r m -> plain_key k = true ->
  exists r', patchRequest r (Some (mkApplyOptions false true)) (NewRemove ("/" +:+ k)) = Ret (r', None) /\
    synced r' (delete k m) /\ same_request r r' /\ req_model r' = req_model r.
Proof.
  intros [Hb Hp] Hk. unfold patchRequest, modifyBufferBodyAndParsed, NewRemove. rewrite Hb.
  rewrite patch_remove by done. by eexists.
Qed.

Lemma SetModel_synced r m model :
  synced r m -> is_Some (m !! "model") ->
  exists r', SetModel r model = Ret (r', None) /\
    synced r' (<["model" := JStr model]> m) /\ same_request r r' /\ req_model r' = model.
Proof.
  intros [Hb Hp] Hk. unfold SetModel, patchRequest, modifyBufferBodyAndParsed, NewReplace. rewrite Hb.
  change "/model" with ("/" +:+ "model"). rewrite patch_replace by done. by eexists.
Qed.

Lemma refreshSize_ok r m k v :
  synced r m ->
  (req_type r = RequestTypeImageGenerations -> k = "size" ->
   exists size, parseImageGenerationsSizeString (Some (GetStringValue v)) = inl size) ->
  exists r', refreshSize r k v = (r', None) /\ synced r' m /\ same_request r r' /\ req_model r' = req_model r.
Proof.
  intros Hs Hz. unfold refreshSize. destruct (req_type r) eqn:Et; try by exists r.
  destruct (String.eqb_spec k "size") as [->|]; [|by exists r].
  destruct Hz as [size ->]; [done..|]. eexists. split; [done|]. split; [done|]. split; [split; done|done].
Qed.

Lemma sizes_ok_cons r r' kv params :
  same_request r r' -> sizes_ok r (kv :: params) -> sizes_ok r' params.
Proof. intros [E _] H' Ht v Hv. apply (H' ltac:(congruence) v). by right. Qed.

Lemma SetDefaultParams_loop_spec params : forall r m,
  synced r m -> Forall (fun kv => plain_key (fst kv) = true) params -> NoDup params.*1 -> sizes_ok r params ->
  exists r', SetDefaultParams_loop r params = Ret (r', None) /\
    synced r' (m ∪ list_to_map params) /\ same_request r r' /\ req_model r' = req_model r.
Proof.
  induction params as [|[k v] params IH]; intros r m Hs Hk Hnd Hz; simpl in *.
  { exists r. by rewrite map_union_empty. }
  apply Forall_cons in Hk as [Hk Hks]. apply NoDup_cons in Hnd as [Hnin Hnd]. simpl in *.
  destruct Hs as [Hb Hp]. rewrite Hp. simpl. destruct (m !! k) as [v'|] eqn:Em.
  - destruct (IH r m) as (r' & E & Hs' & ?); [done..| |].
    { by apply (sizes_ok_cons r r (k, v)). }
    exists r'. split; [done|]. split; [|done].
    assert (m ∪ <[k := v]> (list_to_map params) = m ∪ list_to_map params) as -> ; [|done].
    apply map_eq. intros i. rewrite !lookup_union. destruct (decide (i = k)) as [->|].
    + rewrite Em. by destruct (<[k := v]> (list_to_map params : gmap string json) !! k), (list_to_map params !! k).
    + by rewrite lookup_insert_ne.
  - destruct (patch_add_synced r m None k v) as (r1 & E1 & Hs1 & Hsame1 & Hm1); [by split|done|].
    cbn [NewAdd] in *. rewrite E1. cbn [mbind outcome_bind].
    destruct (refreshSize_ok r1 (<[k := v]> m) k v) as (r2 & E2 & Hs2 & Hsame2 & Hm2); [done| |].
    { intros Ht ->. apply Hz; [destruct Hsame1; congruence|by left]. }
    rewrite E2. destruct (IH r2 (<[k := v]> m)) as (r' & E & Hs' & Hsame & Hm); [done..| |].
    { apply (sizes_ok_cons r r2 (k, v)); [by transitivity r1|done]. }
    exists r'. split; [done|]. split; [|split; [by transitivity r2; [transitivity r1|]|congruence]].
    assert (m ∪ <[k := v]> (list_to_map params) = <[k := v]> m ∪ list_to_map params) as -> ; [|done].
    rewrite <- insert_union_l, <- insert_union_r by done. done.
Qed.

Lemma SetOverrideParams_loop_spec params : forall r m,
  synced r m -> Forall (fun kv => plain_key (fst kv) = true) params -> NoDup params.*1 -> sizes_ok r params ->
  exists r', SetOverrideParams_loop r params = Ret (r', None) /\
    synced r' (list_to_map params ∪ m) /\ same_request r r' /\ req_model r' = req_model r.
Proof.
  induction params as [|[k v] params IH]; intros r m Hs Hk Hnd Hz; simpl in *.
  { exists r. by rewrite map_empty_union. }
  apply Forall_cons in Hk as [Hk Hks]. apply NoDup_cons in Hnd as [Hnin Hnd]. simpl in *.
  destruct (patch_add_synced r m (Some (mkApplyOptions true false)) k v) as (r1 & E1 & Hs1 & Hsame1 & Hm1); [done..|].
  rewrite E1. cbn [mbind outcome_bind].
  destruct (refreshSize_ok r1 (<[k := v]> m) k v) as (r2 & E2 & Hs2 & Hsame2 & Hm2); [done| |].
  { intros Ht ->. apply Hz; [destruct Hsame1; congruence|by left]. }
  rewrite E2. destruct (IH r2 (<[k := v]> m)) as (r' & E & Hs' & Hsame & Hm); [done..| |].
  { apply (sizes_ok_cons r r2 (k, v)); [by transitivity r1|done]. }
  exists r'. split; [done|]. split; [|split; [by transitivity r2; [transitivity r1|]|congruence]].
  rewrite <- insert_union_l. rewrite <- insert_union_r in Hs'; [done|].
  by apply not_elem_of_list_to_map_1.
Qed.

(** The size of an image request after its parameters were set: that of the
    parameter, when there is one. *)
Definition asked_size (size : option ImageGenerationsRequestSize) (params : gmap string json) : option ImageGenerationsRequestSize :=
  match params !! "size" with
  | Some v => match parseImageGenerationsSizeString (Some (GetStringValue v)) with inl s => s | inr _ => None end
  | None => size
  end.

Lemma patchRequest_size r opt op r' e : patchRequest r opt op = Ret (r', e) -> req_size r' = req_size r.
Proof. unfold patchRequest. by intros ([[body parsed] err] & _ & [= <- <-])%outcome_bind_Ret. Qed.

Lemma refreshModel_size r : req_size (refreshModel r) = req_size r.
Proof. unfold refreshModel. destruct (lookup_parsed _ _) as [[]|]; try done. by destruct (String.eqb _ _). Qed.

Lemma refreshSize_size r k v r' params :
  req_type r = RequestTypeImageGenerations -> k ∉ params.*1 -> refreshSize r k v = (r', None) ->
  asked_size (req_size r') (list_to_map params) = asked_size (req_size r) (list_to_map ((k, v) :: params)).
Proof.
  intros Ht Hk. unfold refreshSize, asked_size. rewrite Ht. cbn [list_to_map foldr uncurry fst snd].
  destruct (String.eqb_spec k "size") as [->|Hne].
  - apply not_elem_of_list_to_map_1 in Hk as ->. rewrite lookup_insert_eq.
    destruct (parseImageGenerationsSizeString _); [|done]. by intros [= <-].
  - intros [= <-]. by rewrite lookup_insert_ne.
Qed.

Lemma SetOverrideParams_loop_size params : forall r r',
  NoDup params.*1 -> req_type r = RequestTypeImageGenerations -> SetOverrideParams_loop r params = Ret (r', None) ->
  req_size r' = asked_size (req_size r) (list_to_map params).
Proof.
  induction params as [|[k v] params IH]; intros r r' Hnd Ht; [by intros [= <-]|].
  apply NoDup_cons in Hnd as [Hnin Hnd]. cbn [SetOverrideParams_loop].
  intros ([r1 [err|]] & H1 & E)%outcome_bind_Ret; [done|]. pose proof (patchRequest_size _ _ _ _ _ H1) as Hs1.
  apply patchRequest_same in H1 as [Ht1 _]. pose proof (refreshSize_same r1 k v) as Hr.
  destruct (refreshSize r1 k v) as [r2 [err|]] eqn:E2; [done|]. rewrite (IH r2 r' Hnd); [|destruct Hr; simpl in *; congruence|done].
  rewrite <- Hs1. apply (refreshSize_size r1 k v); [congruence|done|done].
Qed.

Lemma SetDefaultParams_loop_size params : forall r m r',
  synced r m -> Forall (fun kv => plain_key (fst kv) = true) params -> NoDup params.*1 ->
  req_type r = RequestTypeImageGenerations -> SetDefaultParams_loop r params = Ret (r', None) ->
  req_size r' = match m !! "size" with Some _ => req_size r | None => asked_size (req_size r) (list_to_map params) end.
Proof.
  induction params as [|[k v] params IH]; intros r m r' Hs Hk Hnd Ht; [intros [= <-]; by destruct (m !! "size")|].
  apply Forall_cons in Hk as [Hk Hks]. apply NoDup_cons in Hnd as [Hnin Hnd]. cbn [SetDefaultParams_loop fst] in *.
  rewrite (proj2 Hs). cbn [lookup_parsed]. destruct (m !! k) as [v'|] eqn:Em.
  { intros E. rewrite (IH r m r') by done. destruct (m !! "size") eqn:Es; [done|]. unfold asked_size. cbn.
    rewrite lookup_insert_ne; [done|]. intros ->. congruence. }
  destruct (patch_add_synced r m None k v Hs Hk) as (r1 & E1 & Hs1 & [Ht1 _] & _). cbn [NewAdd] in *.
  rewrite E1. cbn [mbind outcome_bind]. pose proof (patchRequest_size _ _ _ _ _ E1) as Hz1.
  pose proof (refreshSize_same r1 k v) as Hr. destruct (refreshSize r1 k v) as [r2 [err|]] eqn:E2; [done|]. intros E.
  assert (synced r2 (<[k := v]> m)) as Hs2.
  { revert E2. unfold refreshSize. rewrite Ht1, Ht. destruct (String.eqb k "size"); [|by intros [= <-]].
    destruct (parseImageGenerationsSizeString _); [|done]. by intros [= <-]. }
  rewrite (IH r2 _ r' Hs2 Hks Hnd) by (try done; destruct Hr; simpl in *; congruence).
  pose proof (refreshSize_size r1 k v r2 params ltac:(congruence) Hnin E2) as Hz. rewrite Hz1 in Hz.
  destruct (decide (k = "size")) as [->|Hne].
  - rewrite lookup_insert_eq, Em, <- Hz. unfold asked_size. by rewrite (not_elem_of_list_to_map_1 _ _ Hnin).
  - rewrite lookup_insert_ne by done. destruct (m !! "size"); [|exact Hz].
    revert E2. unfold refreshSize. rewrite Ht1, Ht. apply String.eqb_neq in Hne as ->. by intros [= <-].
Qed.

Lemma RemoveParamKeys_size keys : forall r r' e, RemoveParamKeys r keys = Ret (r', e) -> req_size r' = req_size r.
Proof.
  induction keys as [|k keys IH]; intros r r' e; cbn [RemoveParamKeys]; [by intros [= <- _]|].
  intros ([r1 [err|]] & H1%patchRequest_size & E)%outcome_bind_Ret; [by injection E as <- _|]. apply IH in E. congruence.
Qed.

Lemma RemoveParamKeys_spec keys : forall r m,
  synced r m -> Forall (fun k => plain_key k = true) keys ->
  exists r', RemoveParamKeys r keys = Ret (r', None) /\
    synced r' (foldl (fun m k => delete k m) m keys) /\ same_request r r' /\ req_model r' = req_model r.
Proof.
  induction keys as [|k keys IH]; intros r m Hs Hk; simpl in *; [by exists r|].
  apply Forall_cons in Hk as [Hk Hks].
  destruct (patch_remove_synced r m k) as (r1 & E1 & Hs1 & Hsame1 & Hm1); [done..|].
  rewrite E1. cbn [mbind outcome_bind].
  destruct (IH r1 (delete k m)) as (r' & E & Hs' & Hsame & Hm); [done..|].
  exists r'. split; [done|]. split; [done|]. split; [by transitivity r1|congruence].
Qed.

Lemma refreshModel_synced r m : synced r m ->
  synced (refreshModel r) m /\ same_request r (refreshModel r) /\
  req_model (refreshModel r) = match m !! "model" with Some (JStr s) => s | _ => req_model r end.
Proof.
  intros [Hb Hp]. unfold refreshModel. rewrite Hp. simpl.
  destruct (m !! "model") as [[]|]; try by repeat split.
  destruct (String.eqb_spec (req_model r) s); [|by repeat split]. subst. by repeat split.
Qed.
End Setters.

Lemma foldl_delete_lookup {A} keys (m : gmap string A) k :
  foldl (fun m k => delete k m) m keys !! k = if decide (k ∈ keys) then None else m !! k.
Proof.
  revert m. induction keys as [|k' keys IH]; intros m; simpl; [done|].
  rewrite IH. destruct (decide (k ∈ keys)); [by rewrite decide_True by (by right)|].
  destruct (decide (k = k')) as [->|Hne].
  - rewrite lookup_delete_eq. by rewrite decide_True by left.
  - rewrite lookup_delete_ne by done. rewrite decide_False; [done|].
    intros [->|?]%elem_of_cons; done.
Qed.
