(* ===== verification/FromString.v ===== *)
(** * pkg/utils/string.go: FromString at every type

    The switch of [FromString] over its type parameter, with the types and
    their values described by data; the conversions that the rest of the
    gateway uses ([Utils], [Request]) are instances. *)
From Stdlib Require Import Ascii.
From S2P Require Import Prelude Strconv Utils GoFloat Json Request.

(** ** UTF-8

    What [[]rune(s)] makes of the bytes of a string: unicode/utf8's table of
    first bytes and accept ranges; a byte that starts no encoding is U+FFFD. *)
Definition byteval (c : ascii) : Z := Z.of_nat (nat_of_ascii c).
Definition bytes_of (s : string) : list Z := map byteval (list_ascii_of_string s).

Definition RuneError : Z := 65533.

Definition between (lo hi b : Z) : bool := (lo <=? b) && (b <=? hi).
Definition accept_lo (b0 : Z) : Z := if b0 =? 224 then 160 else if b0 =? 240 then 144 else 128.
Definition accept_hi (b0 : Z) : Z := if b0 =? 237 then 159 else if b0 =? 244 then 143 else 191.
Definition second (b0 b1 : Z) : bool := between (accept_lo b0) (accept_hi b0) b1.
Definition continuation (b : Z) : bool := between 128 191 b.

Fixpoint decodeRunes (bs : list Z) : list Z :=
  match bs with
  | [] => []
  | b0 :: t0 =>
      if b0 <? 128 then b0 :: decodeRunes t0
      else if between 194 223 b0 then
        match t0 with
        | b1 :: t1 => if second b0 b1 then (b0 - 192) * 64 + (b1 - 128) :: decodeRunes t1 else RuneError :: decodeRunes t0
        | _ => RuneError :: decodeRunes t0
        end
      else if between 224 239 b0 then
        match t0 with
        | b1 :: ((b2 :: t2) as t1) =>
            if second b0 b1 && continuation b2
            then (b0 - 224) * 4096 + (b1 - 128) * 64 + (b2 - 128) :: decodeRunes t2 else RuneError :: decodeRunes t0
        | _ => RuneError :: decodeRunes t0
        end
      else if between 240 244 b0 then
        match t0 with
        | b1 :: ((b2 :: ((b3 :: t3) as t2)) as t1) =>
            if second b0 b1 && continuation b2 && continuation b3
            then (b0 - 240) * 262144 + (b1 - 128) * 4096 + (b2 - 128) * 64 + (b3 - 128) :: decodeRunes t3
            else RuneError :: decodeRunes t0
        | _ => RuneError :: decodeRunes t0
        end
      else RuneError :: decodeRunes t0
  end.

Definition runesOf (s : string) : list Z := decodeRunes (bytes_of s).

(** ** The types of the switch *)
Inductive IntSize : Type := SNative | S8 | S16 | S32 | S64.

Inductive GoScalar : Type :=
| GString
| GInt (size : IntSize)
| GUint (size : IntSize)
| GFloat32 | GFloat64
| GComplex64 | GComplex128
| GBool.

(** Any other type, with its name, its zero value and [json.Unmarshal] into
    it. *)
Inductive GoType : Type :=
| GScalar (s : GoScalar)
| GPtr (s : GoScalar)
| GBytes | GRunes | GBuilder
| GOther (name : string) (T : Type) (zero : T) (unmarshal : string -> T + string).

Definition scalar_val (s : GoScalar) : Type :=
  match s with
  | GString => string
  | GInt _ | GUint _ => Z
  | GFloat32 | GFloat64 => f64
  | GComplex64 | GComplex128 => f64 * f64
  | GBool => bool
  end.

(** A slice and a pointer may be nil; a builder is what it has built. *)
Definition go_val (t : GoType) : Type :=
  match t with
  | GScalar s => scalar_val s
  | GPtr s => option (scalar_val s)
  | GBytes => option string
  | GRunes => option (list Z)
  | GBuilder => option string
  | GOther _ T _ _ => T
  end.

Definition f64_zero : f64 := f64_of_int 0.
Definition scalar_zero (s : GoScalar) : scalar_val s :=
  match s with
  | GString => ""
  | GInt _ | GUint _ => 0
  | GFloat32 | GFloat64 => f64_zero
  | GComplex64 | GComplex128 => (f64_zero, f64_zero)
  | GBool => false
  end.

(** [var empty T] *)
Definition empty_val (t : GoType) : go_val t :=
  match t with
  | GScalar s => scalar_zero s
  | GPtr _ | GBytes | GRunes | GBuilder => None
  | GOther _ _ zero _ => zero
  end.

(** The bit size handed to strconv, where 0 stands for that of the platform,
    and [%T]. *)
Definition int_bits (size : IntSize) : Z := match size with SNative | S64 => 64 | S8 => 8 | S16 => 16 | S32 => 32 end.
Definition size_name (size : IntSize) : string :=
  match size with SNative => "" | S8 => "8" | S16 => "16" | S32 => "32" | S64 => "64" end.
Definition scalar_name (s : GoScalar) : string :=
  match s with
  | GString => "string"
  | GInt w => "int" +:+ size_name w
  | GUint w => "uint" +:+ size_name w
  | GFloat32 => "float32" | GFloat64 => "float64"
  | GComplex64 => "complex64" | GComplex128 => "complex128"
  | GBool => "bool"
  end.
Definition type_name (t : GoType) : string :=
  match t with
  | GScalar s => scalar_name s
  | GPtr s => "*" +:+ scalar_name s
  | GBytes => "[]uint8" | GRunes => "[]int32" | GBuilder => "*strings.Builder"
  | GOther name _ _ _ => name
  end.

(** [strconv.ParseFloat] at 32 bits, as a float64, and [strconv.ParseComplex]
    at 64 and at 128; an error is its text. *)
Class Float32Text := ParseFloat32 : string -> f64 + string.
Class ComplexText := {
  ParseComplex64 : string -> f64 * f64 + string;
  ParseComplex128 : string -> f64 * f64 + string }.

(** ** FromString *)
Section FromString.
Context `{FloatText} `{Float32Text} `{ComplexText}.

(** [NumError.Error] *)
Definition numError (func str : string) (e : NumError) : string :=
  "strconv." +:+ func +:+ ": parsing " +:+ Quote str +:+ ": "
  +:+ match e with ErrSyntax => "invalid syntax" | ErrRange => "value out of range" end.

Definition numResult {A} (func str : string) (r : A + NumError) : A + string :=
  match r with inl a => inl a | inr e => inr (numError func str e) end.

Definition parseScalar (s : GoScalar) (str : string) : scalar_val s + string :=
  match s return scalar_val s + string with
  | GString => inl str
  | GInt size => numResult "ParseInt" str (ParseInt str (int_bits size))
  | GUint size => numResult "ParseUint" str (ParseUint str (int_bits size))
  | GFloat32 => ParseFloat32 str
  | GFloat64 => ParseFloat str
  | GComplex64 => ParseComplex64 str
  | GComplex128 => ParseComplex128 str
  | GBool => match ParseBool str with Some b => inl b | None => inr (numError "ParseBool" str ErrSyntax) end
  end.

Definition errFailedToConvertStringToType (t : GoType) (err : string) : string :=
  "failed to convert string to type " +:+ type_name t +:+ ": " +:+ err.

Definition FromString (t : GoType) (str : string) : go_val t + string :=
  let fails {A} (r : A + string) : A + string :=
    match r with inl a => inl a | inr e => inr (errFailedToConvertStringToType t e) end in
  if String.eqb str "" then
    inl (match t return go_val t with
         | GBytes => Some ""
         | GRunes => Some []
         | GBuilder => Some ""
         | t => empty_val t
         end)
  else if String.eqb str "null" then inl (empty_val t)
  else if String.eqb str "<nil>" then inl (empty_val t)
  else
    match t return (forall A, A + string -> A + string) -> go_val t + string with
    | GScalar s => fun fails => fails _ (parseScalar s str)
    | GPtr s => fun fails => fails _ (match parseScalar s str with inl v => inl (Some v) | inr e => inr e end)
    | GBytes => fun _ => inl (Some str)
    | GRunes => fun _ => inl (Some (runesOf str))
    | GBuilder => fun _ => inl (Some str)
    | GOther _ _ _ unmarshal => fun fails => fails _ (unmarshal str)
    end (@fails).

Definition FromStringOrEmpty (t : GoType) (str : string) : go_val t :=
  match FromString t str with inl v => v | inr _ => empty_val t end.

Definition IsNumber (str : string) : bool := match ParseFloat str with inl _ => true | inr _ => false end.

(** json.go *)
Definition GetByJSONPath `{JSONPath} (t : GoType) (input : option (gmap string json)) (template : string) : go_val t :=
  match jsonpath input template with inl result => FromStringOrEmpty t result | inr _ => empty_val t end.
End FromString.

(** ** Encoding runes *)
Definition encodeRune (r : Z) : list Z :=
  if r <? 128 then [r]
  else if r <? 2048 then [192 + r / 64; 128 + r mod 64]
  else if r <? 65536 then [224 + r / 4096; 128 + (r / 64) mod 64; 128 + r mod 64]
  else [240 + r / 262144; 128 + (r / 4096) mod 64; 128 + (r / 64) mod 64; 128 + r mod 64].
Definition encodeRunes (rs : list Z) : list Z := concat (map encodeRune rs).

(** A Unicode scalar value. *)
Definition valid_rune (r : Z) : Prop := 0 <= r < 1114112 /\ ~ 55296 <= r < 57344.

Definition string_of (bs : list Z) : string := string_of_list_ascii (map (fun b => ascii_of_nat (Z.to_nat b)) bs).

Lemma bytes_of_string_of bs : Forall (fun b => 0 <= b < 256) bs -> bytes_of (string_of bs) = bs.
Proof.
  unfold bytes_of, string_of. rewrite list_ascii_of_string_of_list_ascii, map_map.
  induction 1 as [|b bs Hb _ IH]; [done|]. cbn [map]. f_equal; [|done]. unfold byteval. rewrite nat_ascii_embedding; lia.
Qed.

(** The six-bit groups of a number put together again. *)
Lemma groups r : 0 <= r -> r = r / 64 * 64 + r mod 64 /\ r / 64 = r / 4096 * 64 + (r / 64) mod 64 /\
  r / 4096 = r / 262144 * 64 + (r / 4096) mod 64 /\ 0 <= r mod 64 < 64 /\ 0 <= (r / 64) mod 64 < 64 /\ 0 <= (r / 4096) mod 64 < 64.
Proof.
  intros Hr. change 4096 with (64 * 64). change 262144 with (64 * 64 * 64). rewrite <- !Z.div_div by lia.
  pose proof (Z.div_mod r 64 ltac:(lia)). pose proof (Z.div_mod (r / 64) 64 ltac:(lia)). pose proof (Z.div_mod (r / 64 / 64) 64 ltac:(lia)).
  pose proof (Z.mod_pos_bound r 64 ltac:(lia)). pose proof (Z.mod_pos_bound (r / 64) 64 ltac:(lia)).
  pose proof (Z.mod_pos_bound (r / 64 / 64) 64 ltac:(lia)). lia.
Qed.

Lemma between_spec lo hi b : between lo hi b = true <-> lo <= b <= hi.
Proof. unfold between. rewrite andb_true_iff. lia. Qed.

Lemma between_true lo hi b : lo <= b <= hi -> between lo hi b = true.
Proof. apply between_spec. Qed.
Lemma between_false lo hi b : ~ lo <= b <= hi -> between lo hi b = false.
Proof. intros Hb. apply not_true_iff_false. by rewrite between_spec. Qed.

(** The accept range of the second byte only matters at four first bytes. *)
Lemma second_true b0 b1 :
  128 <= b1 < 192 -> (b0 = 224 -> 160 <= b1) -> (b0 = 240 -> 144 <= b1) -> (b0 = 237 -> b1 < 160) -> (b0 = 244 -> b1 < 144) ->
  second b0 b1 = true.
Proof.
  intros Hb H224 H240 H237 H244. unfold second, accept_lo, accept_hi. apply between_true.
  destruct (Z.eqb_spec b0 224), (Z.eqb_spec b0 240), (Z.eqb_spec b0 237), (Z.eqb_spec b0 244); lia.
Qed.

Lemma continuation_true x : 0 <= x < 64 -> continuation (128 + x) = true.
Proof. intros Hx. apply between_true. lia. Qed.

Lemma decode_encode r bs : valid_rune r -> decodeRunes (encodeRune r ++ bs) = r :: decodeRunes bs.
Proof.
  intros [Hr Hs]. destruct (groups r) as (E1 & E2 & E3 & H1 & H2 & H3); [lia|]. unfold encodeRune.
  destruct (Z.ltb_spec r 128); [cbn [app decodeRunes]; by rewrite (proj2 (Z.ltb_lt r 128))|].
  destruct (Z.ltb_spec r 2048); [|destruct (Z.ltb_spec r 65536)]; cbn [app decodeRunes]; rewrite (proj2 (Z.ltb_ge _ 128)) by lia.
  - rewrite between_true by lia. rewrite second_true by lia. f_equal. lia.
  - rewrite between_false, between_true by lia. rewrite second_true, continuation_true by lia. cbn [andb]. f_equal. lia.
  - rewrite !between_false, between_true by lia. rewrite second_true, !continuation_true by lia. cbn [andb]. f_equal. lia.
Qed.

Lemma runes_encodeRunes rs : Forall valid_rune rs -> decodeRunes (encodeRunes rs) = rs.
Proof.
  unfold encodeRunes. induction 1 as [|r rs Hr _ IH]; [done|]. cbn [map concat]. rewrite decode_encode by done. by rewrite IH.
Qed.

Lemma encodeRune_bytes r : valid_rune r -> Forall (fun b => 0 <= b < 256) (encodeRune r).
Proof.
  intros [Hr _]. destruct (groups r) as (E1 & E2 & E3 & H1 & H2 & H3); [lia|]. unfold encodeRune.
  destruct (Z.ltb_spec r 128); [|destruct (Z.ltb_spec r 2048); [|destruct (Z.ltb_spec r 65536)]]; repeat constructor; lia.
Qed.

Lemma encodeRunes_bytes rs : Forall valid_rune rs -> Forall (fun b => 0 <= b < 256) (encodeRunes rs).
Proof.
  unfold encodeRunes. induction 1 as [|r rs Hr _ IH]; [constructor|]. cbn [map concat]. apply Forall_app. split; [by apply encodeRune_bytes|done].
Qed.

Lemma runesOf_encoded rs : Forall valid_rune rs -> runesOf (string_of (encodeRunes rs)) = rs.
Proof. intros Hv. unfold runesOf. rewrite bytes_of_string_of by (by apply encodeRunes_bytes). by apply runes_encodeRunes. Qed.

(** ** What is read back *)
Section Reading.
Context `{FloatText} `{Float32Text} `{ComplexText}.

(** The decimal, boolean or plain text of a value; none for the floating-point
    types, whose conversions are parameters. *)
Definition scalar_text (s : GoScalar) : scalar_val s -> option string :=
  match s return scalar_val s -> option string with
  | GString => fun v => Some v
  | GInt _ | GUint _ => fun v => Some (Itoa v)
  | GBool => fun v : bool => Some (if v then "true" else "false")
  | _ => fun _ => None
  end.
Definition text_of (t : GoType) : go_val t -> option string :=
  match t return go_val t -> option string with
  | GScalar s => scalar_text s
  | GPtr s => fun v => match v with Some v => scalar_text s v | None => Some "<nil>" end
  | GBytes | GBuilder => fun v => v
  | GRunes => fun v => match v with Some rs => Some (string_of (encodeRunes rs)) | None => None end
  | GOther _ _ _ _ => fun _ => None
  end.

(** The values of a type: integers in its range, runes that are characters. *)
Definition scalar_fits (s : GoScalar) : scalar_val s -> Prop :=
  match s return scalar_val s -> Prop with
  | GInt size => in_s (int_bits size)
  | GUint size => fun v => 0 <= v < 2 ^ int_bits size
  | _ => fun _ => True
  end.
Definition fits (t : GoType) : go_val t -> Prop :=
  match t return go_val t -> Prop with
  | GScalar s => scalar_fits s
  | GPtr s => fun v => match v with Some v => scalar_fits s v | None => True end
  | GRunes => fun v => match v with Some rs => Forall valid_rune rs | None => True end
  | _ => fun _ => True
  end.

Lemma int_bits_pos size : 0 < int_bits size.
Proof. by destruct size. Qed.

Lemma parseScalar_text s v str : scalar_text s v = Some str -> scalar_fits s v -> parseScalar s str = inl v.
Proof.
  destruct s as [|size|size| | | | |]; cbn [scalar_text scalar_fits parseScalar scalar_val] in *; try done; intros [= <-] Hf.
  - done.
  - rewrite ParseInt_Itoa by apply int_bits_pos. by rewrite decide_True.
  - rewrite ParseUint_Itoa; [done|apply int_bits_pos|done].
  - by destruct v.
Qed.

Lemma isEmptyString_false str : isEmptyString str = false ->
  String.eqb str "" = false /\ String.eqb str "null" = false /\ String.eqb str "<nil>" = false.
Proof. unfold isEmptyString. by intros [[? ?]%orb_false_iff ?]%orb_false_iff. Qed.

Lemma FromString_plain t v str :
  isEmptyString str = false -> text_of t v = Some str -> fits t v -> FromString t str = inl v.
Proof.
  intros Hp Htext Hfits. destruct (isEmptyString_false str Hp) as (E1 & E2 & E3). unfold FromString. rewrite E1, E2, E3.
  destruct t as [s|s| | | |]; cbn [text_of fits go_val] in *.
  - by rewrite (parseScalar_text s v str Htext Hfits).
  - destruct v as [v|]; [by rewrite (parseScalar_text s v str Htext Hfits)|]. by injection Htext as <-.
  - by rewrite Htext.
  - destruct v as [rs|]; [|done]. assert (str = string_of (encodeRunes rs)) as -> by congruence. by rewrite runesOf_encoded.
  - by rewrite Htext.
  - done.
Qed.

(** What the empty text stands for: a slice or a builder with nothing in it,
    and else the empty value. *)
Definition empty_read (t : GoType) : go_val t :=
  match t return go_val t with
  | GBytes | GBuilder => Some ""
  | GRunes => Some []
  | t => empty_val t
  end.

(** C36: FromString reads back what a value is written as, at every type of its
    switch whose text is its own: integers of every width, signed and
    unsigned, booleans, strings, bytes, builders, runes as UTF-8, and pointers
    to them. At every type at all, floats, complex numbers and those left to
    encoding/json among them, the texts that stand for nothing are never
    parsed: [null] and [<nil>] are read as the empty value, a nil slice, builder
    or pointer, and the empty text as that too, except that it is a slice or a
    builder with nothing in it rather than a nil one. *)
Theorem FromString_reads_back (t : GoType) :
  (forall v str, text_of t v = Some str -> fits t v -> isEmptyString str = false \/ v = empty_val t ->
     FromString t str = inl v) /\
  FromString t "null" = inl (empty_val t) /\ FromString t "<nil>" = inl (empty_val t) /\ FromString t "" = inl (empty_read t).
Proof.
  split; [|repeat split; by destruct t]. intros v str Htext Hfits Hplain.
  destruct (isEmptyString str) eqn:Hp; [|by apply FromString_plain]. destruct Hplain as [?| ->]; [done|].
  unfold isEmptyString in Hp. rewrite !orb_true_iff, !String.eqb_eq in Hp. destruct Hp as [[-> | ->] | ->]; [|done..].
  by destruct t as [[]|[]| | | |].
Qed.

(** No integer is misread: the decimal text of any integer is read at an
    integer type of any width as that integer if it fits, and else refused,
    with the range error of strconv (an unsigned type refuses the sign as a
    syntax error); nothing wraps around. *)
Theorem FromString_exact (signed : bool) (size : IntSize) (z : Z) :
  FromString (GScalar (if signed then GInt size else GUint size)) (Itoa z)
  = match signed return go_val (GScalar (if signed then GInt size else GUint size)) + string with
    | true => if decide (in_s (int_bits size) z) then inl z
              else inr (errFailedToConvertStringToType (GScalar (GInt size)) (numError "ParseInt" (Itoa z) ErrRange))
    | false => if decide (in_u (int_bits size) z) then inl z
               else inr (errFailedToConvertStringToType (GScalar (GUint size))
                           (numError "ParseUint" (Itoa z) (if z <? 0 then ErrSyntax else ErrRange)))
    end.
Proof.
  destruct (isEmptyString_false (Itoa z) (isEmptyString_Itoa z)) as (E1 & E2 & E3). pose proof (int_bits_pos size) as Hw.
  destruct signed; unfold FromString; rewrite E1, E2, E3; cbn [parseScalar].
  - rewrite ParseInt_Itoa by done. by case_decide.
  - destruct (Z.ltb_spec z 0) as [Hneg|Hpos].
    + rewrite decide_False by (unfold in_u; lia). rewrite <- (Z.opp_involutive z), Itoa_neg by lia. reflexivity.
    + unfold in_u. case_decide; [by rewrite ParseUint_Itoa|]. by rewrite ParseUint_Itoa_overflow by lia.
Qed.

(** The conversions that the other files use are instances. *)
Lemma FromString_string_is s : FromStringOrEmpty (GScalar GString) s = FromString_string s.
Proof.
  unfold FromStringOrEmpty, FromString, FromString_string, isEmptyString.
  destruct (String.eqb_spec s "") as [->|]; [done|]. destruct (String.eqb_spec s "null"); [done|]. by destruct (String.eqb_spec s "<nil>").
Qed.
Lemma FromString_string_ptr_is s : FromStringOrEmpty (GPtr GString) s = FromString_string_ptr s.
Proof.
  unfold FromStringOrEmpty, FromString, FromString_string_ptr, isEmptyString.
  destruct (String.eqb_spec s "") as [->|]; [done|]. destruct (String.eqb_spec s "null"); [done|]. by destruct (String.eqb_spec s "<nil>").
Qed.

Context `{JSONPath}.
Lemma GetByJSONPath_string_is p template : GetByJSONPath (GScalar GString) p template = GetByJSONPath_string p template.
Proof. unfold GetByJSONPath, GetByJSONPath_string. destruct (jsonpath p template); [apply FromString_string_is|done]. Qed.
Lemma GetByJSONPath_string_ptr_is p template : GetByJSONPath (GPtr GString) p template = GetByJSONPath_string_ptr p template.
Proof. unfold GetByJSONPath, GetByJSONPath_string_ptr. destruct (jsonpath p template); [apply FromString_string_ptr_is|done]. Qed.

Lemma GetByJSONPath_int_ptr_is p template : GetByJSONPath (GPtr (GInt SNative)) p template = GetByJSONPath_int_ptr p template.
Proof.
  unfold GetByJSONPath, GetByJSONPath_int_ptr. destruct (jsonpath p template) as [s|]; [|done].
  unfold FromString_signed_ptr, FromStringOrEmpty, FromString, isEmptyString.
  destruct (String.eqb s ""); [done|]. destruct (String.eqb s "null"); [done|]. destruct (String.eqb s "<nil>"); [done|].
  cbn [parseScalar int_bits]. by destruct (ParseInt s 64).
Qed.
Lemma GetByJSONPath_float_ptr_is p template : GetByJSONPath (GPtr GFloat64) p template = GetByJSONPath_float_ptr p template.
Proof.
  unfold GetByJSONPath, GetByJSONPath_float_ptr. destruct (jsonpath p template) as [s|]; [|done].
  unfold FromString_float_ptr, FromStringOrEmpty, FromString, isEmptyString.
  destruct (String.eqb s ""); [done|]. destruct (String.eqb s "null"); [done|]. destruct (String.eqb s "<nil>"); [done|].
  cbn [parseScalar]. by destruct (ParseFloat s).
Qed.
Lemma GetByJSONPath_bool_ptr_is p template : GetByJSONPath (GPtr GBool) p template = GetByJSONPath_bool_ptr p template.
Proof.
  unfold GetByJSONPath, GetByJSONPath_bool_ptr. destruct (jsonpath p template) as [s|]; [|done].
  unfold FromString_bool_ptr, FromStringOrEmpty, FromString, isEmptyString.
  destruct (String.eqb s ""); [done|]. destruct (String.eqb s "null"); [done|]. destruct (String.eqb s "<nil>"); [done|].
  cbn [parseScalar]. by destruct (ParseBool s).
Qed.
End Reading.

(** ** Examples *)
#[local] Instance no_floats : FloatText := fun _ => inr "invalid syntax".
#[local] Instance no_floats32 : Float32Text := fun _ => inr "invalid syntax".
#[local] Instance no_complex : ComplexText := {| ParseComplex64 _ := inr "invalid syntax"; ParseComplex128 _ := inr "invalid syntax" |}.

(** Of the repository's own tests (string_test.go). *)
Example invalid_int8_ptr :
  FromString (GPtr (GInt S8)) "invalid"
  = inr ("failed to convert string to type *int8: strconv.ParseInt: parsing " +:+ Quote "invalid" +:+ ": invalid syntax").
Proof. reflexivity. Qed.
Example empty_bytes : FromString GBytes "" = inl (Some "") /\ FromString GRunes "" = inl (Some []) /\ FromString (GPtr GString) "" = inl None.
Proof. done. Qed.

(** A euro sign, and a byte that begins no encoding. *)
Example runes_mixed : runesOf (string_of [226; 130; 172; 255; 65]) = [8364; RuneError; 65].
Proof. vm_compute. reflexivity. Qed.

Lemma FromString_reads_back_witness :
  FromString GRunes (string_of (encodeRunes [72; 228; 8364; 128512])) = inl (Some [72; 228; 8364; 128512]) /\
  FromString (GPtr (GInt SNative)) "<nil>" = inl None.
Proof.
  split.
  - apply (proj1 (FromString_reads_back GRunes) (Some [72; 228; 8364; 128512]) _ eq_refl); [|left; vm_compute; reflexivity].
    repeat constructor; unfold valid_rune; lia.
  - apply (proj1 (FromString_reads_back (GPtr (GInt SNative))) None "<nil>" eq_refl); [exact I|by right].
Defined.
