(* ===== verification/RequestTypes.v ===== *)
(** * pkg/types/openai: the request types one by one

    The handlers see a request through the interface [object.LLMRequest]; its
    implementations each have their own fields and their own copies of the
    methods.  The rest of the development works with the one record
    [Request.LLMRequest] and one definition per method.  Here the types are
    written as the code has them, as instances of the interface
    [RequestMethods], and [RequestView] says that the shared record is what is
    seen of each: every method of a type does to the view what the shared
    definition does. *)
From S2P Require Import Prelude Strconv Utils GoFloat Json Errors Request FromString.

(** pkg/object/completion.go: LLMRequest.  [range] over a map is the list of
    its entries in the order of the visit. *)
Class RequestMethods (R : Type) : Type := mkRequestMethods {
  m_MarshalJSON : R -> outcome json;
  m_IsStream : R -> bool;
  m_GetModel : R -> string;
  m_GetRequestType : R -> RequestType;
  m_SetModel : R -> string -> outcome (R * option gerror);
  m_SetDefaultParams : R -> list (string * json) -> outcome (R * option gerror);
  m_SetOverrideParams : R -> list (string * json) -> outcome (R * option gerror);
  m_RemoveParamKeys : R -> list string -> outcome (R * option gerror) }.

(** A method's result, seen through [f]. *)
Definition seen {R R'} (f : R -> R') (o : outcome (R * option gerror)) : outcome (R' * option gerror) :=
  '(r, err) ← o; Ret (f r, err).

(** [r.bodyBuffer.Bytes()] *)
Definition bufferBytes (body : option json) : outcome json :=
  match body with Some doc => Ret doc | None => Panic nil_deref end.

Section Methods.
Context `{JSONPatch}.

Class RequestView (R : Type) `{RequestMethods R} : Type := mkRequestView {
  view : R -> LLMRequest;
  view_MarshalJSON r : m_MarshalJSON r = bufferBytes (req_body (view r));
  view_IsStream r : IsStream (view r) = m_IsStream r;
  view_GetModel r : GetModel (view r) = m_GetModel r;
  view_GetRequestType r : GetRequestType (view r) = m_GetRequestType r;
  view_SetModel r model : SetModel (view r) model = seen view (m_SetModel r model);
  view_SetDefaultParams r params : SetDefaultParams (view r) params = seen view (m_SetDefaultParams r params);
  view_SetOverrideParams r params : SetOverrideParams (view r) params = seen view (m_SetOverrideParams r params);
  view_RemoveParamKeys r keys : RemoveParamKeys (view r) keys = seen view (m_RemoveParamKeys r keys) }.

Definition onAdd : option ApplyOptions := Some (mkApplyOptions true false).
Definition onRemove : option ApplyOptions := Some (mkApplyOptions false true).

(** ** chat_completions_request.go *)
Record ChatCompletionsRequest : Type := mkChat {
  ch_Model : string;
  ch_Stream : bool;
  ch_IncludeUsage : bool;                      (* StreamOptions.IncludeUsage *)
  ch_bodyParsed : option (gmap string json);
  ch_bodyBuffer : option json }.

Definition Chat_patch (r : ChatCompletionsRequest) (opt : option ApplyOptions) (op : JSONPatchOperationObject)
    : outcome (ChatCompletionsRequest * option gerror) :=
  '(body, parsed, err) ← modifyBufferBodyAndParsed (ch_bodyBuffer r) opt op;
  Ret (mkChat (ch_Model r) (ch_Stream r) (ch_IncludeUsage r) parsed body, err).
Definition Chat_setModel (r : ChatCompletionsRequest) (model : string) : ChatCompletionsRequest :=
  mkChat model (ch_Stream r) (ch_IncludeUsage r) (ch_bodyParsed r) (ch_bodyBuffer r).

Definition Chat_SetModel (r : ChatCompletionsRequest) (model : string) : outcome (ChatCompletionsRequest * option gerror) :=
  '(r, err) ← Chat_patch r None (NewReplace "/model" (JStr model));
  match err with Some e => Ret (r, Some e) | None => Ret (Chat_setModel r model, None) end.

Definition Chat_changedModel (r : ChatCompletionsRequest) : ChatCompletionsRequest :=
  match lookup_parsed (ch_bodyParsed r) "model" with
  | Some (JStr model) => if String.eqb (ch_Model r) model then r else Chat_setModel r model
  | _ => r
  end.

Fixpoint Chat_SetDefaultParams (r : ChatCompletionsRequest) (params : list (string * json))
    : outcome (ChatCompletionsRequest * option gerror) :=
  match params with
  | [] => Ret (Chat_changedModel r, None)
  | (k, v) :: params =>
      match lookup_parsed (ch_bodyParsed r) k with
      | Some _ => Chat_SetDefaultParams r params
      | None =>
          '(r, err) ← Chat_patch r None (NewAdd ("/" +:+ k) v);
          match err with
          | Some e => Ret (r, Some (EWrap ("failed to add key " +:+ k) e))
          | None => Chat_SetDefaultParams r params
          end
      end
  end.

Fixpoint Chat_SetOverrideParams (r : ChatCompletionsRequest) (params : list (string * json))
    : outcome (ChatCompletionsRequest * option gerror) :=
  match params with
  | [] => Ret (Chat_changedModel r, None)
  | (k, v) :: params =>
      '(r, err) ← Chat_patch r onAdd (NewAdd ("/" +:+ k) v);
      match err with
      | Some e => Ret (r, Some e)
      | None => Chat_SetOverrideParams r params
      end
  end.

Fixpoint Chat_RemoveParamKeys (r : ChatCompletionsRequest) (keys : list string)
    : outcome (ChatCompletionsRequest * option gerror) :=
  match keys with
  | [] => Ret (r, None)
  | k :: keys =>
      '(r, err) ← Chat_patch r onRemove (NewRemove ("/" +:+ k));
      match err with Some e => Ret (r, Some e) | None => Chat_RemoveParamKeys r keys end
  end.

#[export] Instance Chat_methods : RequestMethods ChatCompletionsRequest := {|
  m_MarshalJSON r := bufferBytes (ch_bodyBuffer r);
  m_IsStream := ch_Stream;
  m_GetModel := ch_Model;
  m_GetRequestType _ := RequestTypeChatCompletions;
  m_SetModel := Chat_SetModel;
  m_SetDefaultParams := Chat_SetDefaultParams;
  m_SetOverrideParams := Chat_SetOverrideParams;
  m_RemoveParamKeys := Chat_RemoveParamKeys |}.

(** A [CompletionsRequest] embeds a chat request and has a type of its own. *)
Record CompletionsRequest : Type := mkCompletions { cr_ChatCompletionsRequest : ChatCompletionsRequest }.

#[export] Instance Completions_methods : RequestMethods CompletionsRequest := {|
  m_MarshalJSON r := m_MarshalJSON (cr_ChatCompletionsRequest r);
  m_IsStream r := m_IsStream (cr_ChatCompletionsRequest r);
  m_GetModel r := m_GetModel (cr_ChatCompletionsRequest r);
  m_GetRequestType _ := RequestTypeCompletions;
  m_SetModel r model := seen mkCompletions (m_SetModel (cr_ChatCompletionsRequest r) model);
  m_SetDefaultParams r params := seen mkCompletions (m_SetDefaultParams (cr_ChatCompletionsRequest r) params);
  m_SetOverrideParams r params := seen mkCompletions (m_SetOverrideParams (cr_ChatCompletionsRequest r) params);
  m_RemoveParamKeys r keys := seen mkCompletions (m_RemoveParamKeys (cr_ChatCompletionsRequest r) keys) |}.

(** ** image_generations_request.go *)
Record ImageGenerationsRequest : Type := mkImage {
  im_Model : string;
  im_N : option Z;                             (* uint64 *)
  im_Quality : option string;
  im_Style : option string;
  im_Size : option ImageGenerationsRequestSize;
  im_bodyParsed : option (gmap string json);
  im_bodyBuffer : option json }.

Definition Image_patch (r : ImageGenerationsRequest) (opt : option ApplyOptions) (op : JSONPatchOperationObject)
    : outcome (ImageGenerationsRequest * option gerror) :=
  '(body, parsed, err) ← modifyBufferBodyAndParsed (im_bodyBuffer r) opt op;
  Ret (mkImage (im_Model r) (im_N r) (im_Quality r) (im_Style r) (im_Size r) parsed body, err).
Definition Image_setModel (r : ImageGenerationsRequest) (model : string) : ImageGenerationsRequest :=
  mkImage model (im_N r) (im_Quality r) (im_Style r) (im_Size r) (im_bodyParsed r) (im_bodyBuffer r).
Definition Image_setSize (r : ImageGenerationsRequest) (size : option ImageGenerationsRequestSize) : ImageGenerationsRequest :=
  mkImage (im_Model r) (im_N r) (im_Quality r) (im_Style r) size (im_bodyParsed r) (im_bodyBuffer r).

Definition Image_SetModel (r : ImageGenerationsRequest) (model : string) : outcome (ImageGenerationsRequest * option gerror) :=
  '(r, err) ← Image_patch r None (NewReplace "/model" (JStr model));
  match err with Some e => Ret (r, Some e) | None => Ret (Image_setModel r model, None) end.

Definition Image_changedModel (r : ImageGenerationsRequest) : ImageGenerationsRequest :=
  match lookup_parsed (im_bodyParsed r) "model" with
  | Some (JStr model) => if String.eqb (im_Model r) model then r else Image_setModel r model
  | _ => r
  end.

Fixpoint Image_SetDefaultParams (r : ImageGenerationsRequest) (params : list (string * json))
    : outcome (ImageGenerationsRequest * option gerror) :=
  match params with
  | [] => Ret (Image_changedModel r, None)
  | (k, v) :: params =>
      match lookup_parsed (im_bodyParsed r) k with
      | Some _ => Image_SetDefaultParams r params
      | None =>
          '(r, err) ← Image_patch r None (NewAdd ("/" +:+ k) v);
          match err with
          | Some e => Ret (r, Some (EWrap ("failed to add key " +:+ k) e))
          | None =>
              if String.eqb k "size" then
                match parseImageGenerationsSizeString (Some (GetStringValue v)) with
                | inl size => Image_SetDefaultParams (Image_setSize r size) params
                | inr e => Ret (Image_setSize r None, Some e)
                end
              else Image_SetDefaultParams r params
          end
      end
  end.

Fixpoint Image_SetOverrideParams (r : ImageGenerationsRequest) (params : list (string * json))
    : outcome (ImageGenerationsRequest * option gerror) :=
  match params with
  | [] => Ret (Image_changedModel r, None)
  | (k, v) :: params =>
      '(r, err) ← Image_patch r onAdd (NewAdd ("/" +:+ k) v);
      match err with
      | Some e => Ret (r, Some e)
      | None =>
          if String.eqb k "size" then
            match parseImageGenerationsSizeString (Some (GetStringValue v)) with
            | inl size => Image_SetOverrideParams (Image_setSize r size) params
            | inr e => Ret (Image_setSize r None, Some e)
            end
          else Image_SetOverrideParams r params
      end
  end.

Fixpoint Image_RemoveParamKeys (r : ImageGenerationsRequest) (keys : list string)
    : outcome (ImageGenerationsRequest * option gerror) :=
  match keys with
  | [] => Ret (r, None)
  | k :: keys =>
      '(r, err) ← Image_patch r onRemove (NewRemove ("/" +:+ k));
      match err with Some e => Ret (r, Some e) | None => Image_RemoveParamKeys r keys end
  end.

#[export] Instance Image_methods : RequestMethods ImageGenerationsRequest := {|
  m_MarshalJSON r := bufferBytes (im_bodyBuffer r);
  m_IsStream _ := false;
  m_GetModel := im_Model;
  m_GetRequestType _ := RequestTypeImageGenerations;
  m_SetModel := Image_SetModel;
  m_SetDefaultParams := Image_SetDefaultParams;
  m_SetOverrideParams := Image_SetOverrideParams;
  m_RemoveParamKeys := Image_RemoveParamKeys |}.

(** ** text_to_speech_request.go *)
Record TextToSpeechRequest : Type := mkTTS {
  ts_Model : string;
  ts_fields : SpeechFields;                    (* Input to ExtraBody *)
  ts_bodyParsed : option (gmap string json);
  ts_bodyBuffer : option json }.

Definition TTS_patch (r : TextToSpeechRequest) (opt : option ApplyOptions) (op : JSONPatchOperationObject)
    : outcome (TextToSpeechRequest * option gerror) :=
  '(body, parsed, err) ← modifyBufferBodyAndParsed (ts_bodyBuffer r) opt op;
  Ret (mkTTS (ts_Model r) (ts_fields r) parsed body, err).
Definition TTS_setModel (r : TextToSpeechRequest) (model : string) : TextToSpeechRequest :=
  mkTTS model (ts_fields r) (ts_bodyParsed r) (ts_bodyBuffer r).

Definition GetSpeed (r : TextToSpeechRequest) : option f64 := sp_Speed (ts_fields r).
Definition GetBodyBuffer (r : TextToSpeechRequest) : option json := ts_bodyBuffer r.

Definition TTS_SetModel (r : TextToSpeechRequest) (model : string) : outcome (TextToSpeechRequest * option gerror) :=
  '(r, err) ← TTS_patch r None (NewReplace "/model" (JStr model));
  match err with Some e => Ret (r, Some e) | None => Ret (TTS_setModel r model, None) end.

Definition TTS_changedModel (r : TextToSpeechRequest) : TextToSpeechRequest :=
  match lookup_parsed (ts_bodyParsed r) "model" with
  | Some (JStr model) => if String.eqb (ts_Model r) model then r else TTS_setModel r model
  | _ => r
  end.

Fixpoint TTS_SetDefaultParams (r : TextToSpeechRequest) (params : list (string * json))
    : outcome (TextToSpeechRequest * option gerror) :=
  match params with
  | [] => Ret (TTS_changedModel r, None)
  | (k, v) :: params =>
      match lookup_parsed (ts_bodyParsed r) k with
      | Some _ => TTS_SetDefaultParams r params
      | None =>
          '(r, err) ← TTS_patch r None (NewAdd ("/" +:+ k) v);
          match err with
          | Some e => Ret (r, Some (EWrap ("failed to add key " +:+ k) e))
          | None => TTS_SetDefaultParams r params
          end
      end
  end.

Fixpoint TTS_SetOverrideParams (r : TextToSpeechRequest) (params : list (string * json))
    : outcome (TextToSpeechRequest * option gerror) :=
  match params with
  | [] => Ret (TTS_changedModel r, None)
  | (k, v) :: params =>
      '(r, err) ← TTS_patch r onAdd (NewAdd ("/" +:+ k) v);
      match err with
      | Some e => Ret (r, Some e)
      | None => TTS_SetOverrideParams r params
      end
  end.

Fixpoint TTS_RemoveParamKeys (r : TextToSpeechRequest) (keys : list string)
    : outcome (TextToSpeechRequest * option gerror) :=
  match keys with
  | [] => Ret (r, None)
  | k :: keys =>
      '(r, err) ← TTS_patch r onRemove (NewRemove ("/" +:+ k));
      match err with Some e => Ret (r, Some e) | None => TTS_RemoveParamKeys r keys end
  end.

#[export] Instance TTS_methods : RequestMethods TextToSpeechRequest := {|
  m_MarshalJSON r := bufferBytes (ts_bodyBuffer r);
  m_IsStream _ := false;
  m_GetModel := ts_Model;
  m_GetRequestType _ := RequestTypeTextToSpeech;
  m_SetModel := TTS_SetModel;
  m_SetDefaultParams := TTS_SetDefaultParams;
  m_SetOverrideParams := TTS_SetOverrideParams;
  m_RemoveParamKeys := TTS_RemoveParamKeys |}.

(** ** What the handlers see *)
Definition chat_view (t : RequestType) (r : ChatCompletionsRequest) : LLMRequest :=
  mkLLMRequest t (ch_Model r) (ch_Stream r) (ch_bodyBuffer r) (ch_bodyParsed r) None None None None.
Definition image_view (r : ImageGenerationsRequest) : LLMRequest :=
  mkLLMRequest RequestTypeImageGenerations (im_Model r) false (im_bodyBuffer r) (im_bodyParsed r)
    (im_Size r) (im_Style r) (im_Quality r) None.
Definition speech_view (r : TextToSpeechRequest) : LLMRequest :=
  mkLLMRequest RequestTypeTextToSpeech (ts_Model r) false (ts_bodyBuffer r) (ts_bodyParsed r) None None None
    (Some (ts_fields r)).

(** The methods all go through a patch, which the view commutes with. *)
Lemma seen_bind {R R' S S'} (f : R -> R') (g : S -> S') (o : outcome (R * option gerror))
    (k : R * option gerror -> outcome (S * option gerror)) (k' : R' * option gerror -> outcome (S' * option gerror)) :
  (forall r err, k' (f r, err) = seen g (k (r, err))) ->
  (seen f o ≫= k') = seen g (o ≫= k).
Proof. intros Hk. destruct o as [[r err]|s]; [apply Hk|done]. Qed.

Lemma chat_patch t r opt op : patchRequest (chat_view t r) opt op = seen (chat_view t) (Chat_patch r opt op).
Proof. unfold patchRequest, Chat_patch. cbn [req_body chat_view]. by destruct (modifyBufferBodyAndParsed _ _ _) as [[[]]|]. Qed.
Lemma image_patch r opt op : patchRequest (image_view r) opt op = seen image_view (Image_patch r opt op).
Proof. unfold patchRequest, Image_patch. cbn [req_body image_view]. by destruct (modifyBufferBodyAndParsed _ _ _) as [[[]]|]. Qed.
Lemma speech_patch r opt op : patchRequest (speech_view r) opt op = seen speech_view (TTS_patch r opt op).
Proof. unfold patchRequest, TTS_patch. cbn [req_body speech_view]. by destruct (modifyBufferBodyAndParsed _ _ _) as [[[]]|]. Qed.

(** The shared loops, one turn at a time. *)
Lemma SetDefaultParams_cons r k v params :
  SetDefaultParams r ((k, v) :: params)
  = match lookup_parsed (req_parsed r) k with
    | Some _ => SetDefaultParams r params
    | None =>
        '(r, err) ← patchRequest r None (NewAdd ("/" +:+ k) v);
        match err with
        | Some e => Ret (r, Some (EWrap ("failed to add key " +:+ k) e))
        | None =>
            let '(r, err) := refreshSize r k v in
            match err with Some e => Ret (r, Some e) | None => SetDefaultParams r params end
        end
    end.
Proof.
  unfold SetDefaultParams. cbn [SetDefaultParams_loop]. destruct (lookup_parsed _ k); [done|].
  destruct (patchRequest _ _ _) as [[r1 [e|]]|]; [done| |done]. cbn. by destruct (refreshSize r1 k v) as [r2 [e|]].
Qed.

Lemma SetOverrideParams_cons r k v params :
  SetOverrideParams r ((k, v) :: params)
  = ('(r, err) ← patchRequest r onAdd (NewAdd ("/" +:+ k) v);
     match err with
     | Some e => Ret (r, Some e)
     | None =>
         let '(r, err) := refreshSize r k v in
         match err with Some e => Ret (r, Some e) | None => SetOverrideParams r params end
     end).
Proof.
  unfold SetOverrideParams, onAdd. cbn [SetOverrideParams_loop].
  destruct (patchRequest _ _ _) as [[r1 [e|]]|]; [done| |done]. cbn. by destruct (refreshSize r1 k v) as [r2 [e|]].
Qed.

Lemma image_refreshSize r k v :
  refreshSize (image_view r) k v
  = if String.eqb k "size" then
      match parseImageGenerationsSizeString (Some (GetStringValue v)) with
      | inl size => (image_view (Image_setSize r size), None)
      | inr e => (image_view (Image_setSize r None), Some e)
      end
    else (image_view r, None).
Proof. done. Qed.

Lemma chat_refreshSize t r k v : t <> RequestTypeImageGenerations -> refreshSize (chat_view t r) k v = (chat_view t r, None).
Proof. intros Ht. unfold refreshSize. cbn. by destruct t. Qed.

Lemma speech_refreshSize r k v : refreshSize (speech_view r) k v = (speech_view r, None).
Proof. done. Qed.

(** [turn patch IH]: one turn of a loop, or the whole of [SetModel]: the same
    patch, then the same case of its result. *)
Ltac turn patch IH :=
  rewrite patch; apply seen_bind; intros ? [?|]; [done|]; rewrite ?image_refreshSize, ?speech_refreshSize, ?chat_refreshSize by done;
  repeat case_match; simplify_eq; first [done | apply IH].

Lemma chat_SetModel t r model : SetModel (chat_view t r) model = seen (chat_view t) (Chat_SetModel r model).
Proof. unfold SetModel, Chat_SetModel. turn chat_patch I. Qed.
Lemma chat_SetDefaultParams t params : t <> RequestTypeImageGenerations -> forall r,
  SetDefaultParams (chat_view t r) params = seen (chat_view t) (Chat_SetDefaultParams r params).
Proof.
  intros Ht.
  induction params as [|[k v] params IH]; intros r.
  - cbn. unfold refreshModel, Chat_changedModel. cbn. by repeat case_match.
  - rewrite SetDefaultParams_cons. cbn [Chat_SetDefaultParams req_parsed chat_view].
    destruct (lookup_parsed _ k); [apply IH|]. turn chat_patch IH.
Qed.
Lemma chat_SetOverrideParams t params : t <> RequestTypeImageGenerations -> forall r,
  SetOverrideParams (chat_view t r) params = seen (chat_view t) (Chat_SetOverrideParams r params).
Proof.
  intros Ht.
  induction params as [|[k v] params IH]; intros r.
  - cbn. unfold refreshModel, Chat_changedModel. cbn. by repeat case_match.
  - rewrite SetOverrideParams_cons. cbn [Chat_SetOverrideParams]. turn chat_patch IH.
Qed.
Lemma chat_RemoveParamKeys t keys : forall r,
  RemoveParamKeys (chat_view t r) keys = seen (chat_view t) (Chat_RemoveParamKeys r keys).
Proof. induction keys as [|k keys IH]; intros r; [done|]. cbn [RemoveParamKeys Chat_RemoveParamKeys]. turn chat_patch IH. Qed.

Lemma image_SetModel r model : SetModel (image_view r) model = seen image_view (Image_SetModel r model).
Proof. unfold SetModel, Image_SetModel. turn image_patch I. Qed.
Lemma image_SetDefaultParams params : forall r,
  SetDefaultParams (image_view r) params = seen image_view (Image_SetDefaultParams r params).
Proof.
  induction params as [|[k v] params IH]; intros r.
  - cbn. unfold refreshModel, Image_changedModel. cbn. by repeat case_match.
  - rewrite SetDefaultParams_cons. cbn [Image_SetDefaultParams req_parsed image_view].
    destruct (lookup_parsed _ k); [apply IH|]. turn image_patch IH.
Qed.
Lemma image_SetOverrideParams params : forall r,
  SetOverrideParams (image_view r) params = seen image_view (Image_SetOverrideParams r params).
Proof.
  induction params as [|[k v] params IH]; intros r.
  - cbn. unfold refreshModel, Image_changedModel. cbn. by repeat case_match.
  - rewrite SetOverrideParams_cons. cbn [Image_SetOverrideParams]. turn image_patch IH.
Qed.
Lemma image_RemoveParamKeys keys : forall r,
  RemoveParamKeys (image_view r) keys = seen image_view (Image_RemoveParamKeys r keys).
Proof. induction keys as [|k keys IH]; intros r; [done|]. cbn [RemoveParamKeys Image_RemoveParamKeys]. turn image_patch IH. Qed.

Lemma speech_SetModel r model : SetModel (speech_view r) model = seen speech_view (TTS_SetModel r model).
Proof. unfold SetModel, TTS_SetModel. turn speech_patch I. Qed.
Lemma speech_SetDefaultParams params : forall r,
  SetDefaultParams (speech_view r) params = seen speech_view (TTS_SetDefaultParams r params).
Proof.
  induction params as [|[k v] params IH]; intros r.
  - cbn. unfold refreshModel, TTS_changedModel. cbn. by repeat case_match.
  - rewrite SetDefaultParams_cons. cbn [TTS_SetDefaultParams req_parsed speech_view].
    destruct (lookup_parsed _ k); [apply IH|]. turn speech_patch IH.
Qed.
Lemma speech_SetOverrideParams params : forall r,
  SetOverrideParams (speech_view r) params = seen speech_view (TTS_SetOverrideParams r params).
Proof.
  induction params as [|[k v] params IH]; intros r.
  - cbn. unfold refreshModel, TTS_changedModel. cbn. by repeat case_match.
  - rewrite SetOverrideParams_cons. cbn [TTS_SetOverrideParams]. turn speech_patch IH.
Qed.
Lemma speech_RemoveParamKeys keys : forall r,
  RemoveParamKeys (speech_view r) keys = seen speech_view (TTS_RemoveParamKeys r keys).
Proof. induction keys as [|k keys IH]; intros r; [done|]. cbn [RemoveParamKeys TTS_RemoveParamKeys]. turn speech_patch IH. Qed.

Lemma seen_seen {R R' R''} (f : R -> R') (g : R' -> R'') o : seen g (seen f o) = seen (fun r => g (f r)) o.
Proof. by destruct o as [[r err]|]. Qed.

#[export] Instance Chat_view : RequestView ChatCompletionsRequest := {|
  view := chat_view RequestTypeChatCompletions;
  view_MarshalJSON _ := eq_refl; view_IsStream _ := eq_refl; view_GetModel _ := eq_refl; view_GetRequestType _ := eq_refl;
  view_SetModel r model := chat_SetModel _ r model;
  view_SetDefaultParams r params := chat_SetDefaultParams RequestTypeChatCompletions params ltac:(done) r;
  view_SetOverrideParams r params := chat_SetOverrideParams RequestTypeChatCompletions params ltac:(done) r;
  view_RemoveParamKeys r keys := chat_RemoveParamKeys _ keys r |}.

#[export] Instance Completions_view : RequestView CompletionsRequest.
Proof.
  refine (mkRequestView _ _ (fun r => chat_view RequestTypeCompletions (cr_ChatCompletionsRequest r)) _ _ _ _ _ _ _ _); try done.
  all: intros [r] x; etransitivity; [|symmetry; apply (seen_seen mkCompletions)]; cbn [cr_ChatCompletionsRequest].
  - apply chat_SetModel.
  - by apply chat_SetDefaultParams.
  - by apply chat_SetOverrideParams.
  - apply chat_RemoveParamKeys.
Defined.

#[export] Instance Image_view : RequestView ImageGenerationsRequest := {|
  view := image_view;
  view_MarshalJSON _ := eq_refl; view_IsStream _ := eq_refl; view_GetModel _ := eq_refl; view_GetRequestType _ := eq_refl;
  view_SetModel r model := image_SetModel r model;
  view_SetDefaultParams r params := image_SetDefaultParams params r;
  view_SetOverrideParams r params := image_SetOverrideParams params r;
  view_RemoveParamKeys r keys := image_RemoveParamKeys keys r |}.

#[export] Instance TTS_view : RequestView TextToSpeechRequest := {|
  view := speech_view;
  view_MarshalJSON _ := eq_refl; view_IsStream _ := eq_refl; view_GetModel _ := eq_refl; view_GetRequestType _ := eq_refl;
  view_SetModel r model := speech_SetModel r model;
  view_SetDefaultParams r params := speech_SetDefaultParams params r;
  view_SetOverrideParams r params := speech_SetOverrideParams params r;
  view_RemoveParamKeys r keys := speech_RemoveParamKeys keys r |}.
End Methods.

(** ** The constructors *)
Section Constructors.
Context `{JSONPatch} `{JSONPath} `{JSONText} `{FloatText}.

(** [utils.GetByJSONPath] at [*uint64]. *)
Definition GetByJSONPath_uint_ptr (p : option (gmap string json)) (template : string) : option Z :=
  match jsonpath p template with
  | inl s => match FromString_unsigned_ptr 64 s with inl z => z | inr _ => None end
  | inr _ => None
  end.

Definition Chat_New (body : option json) : outcome (ChatCompletionsRequest + gerror) :=
  match ReadAsJSON body with
  | inr _ => Ret (inr (EOpenAI NewErrorInvalidBody))
  | inl (buffer, parsed) =>
      let req := mkChat (GetByJSONPath_string parsed "{ .model }") (GetByJSONPath_bool parsed "{ .stream }")
                   (GetByJSONPath_bool parsed "{ .stream_options.include_usage }") parsed (Some buffer) in
      if ch_Stream req && negb (ch_IncludeUsage req) then
        '(req, err) ← Chat_patch req None (NewAdd "/stream_options" includeUsage);
        match err with
        | Some e => Ret (inr e)
        | None => Ret (inl (mkChat (ch_Model req) (ch_Stream req) true (ch_bodyParsed req) (ch_bodyBuffer req)))
        end
      else Ret (inl req)
  end.

Definition Completions_New (body : option json) : outcome (CompletionsRequest + gerror) :=
  req ← Chat_New body;
  match req with inr e => Ret (inr e) | inl req => Ret (inl (mkCompletions req)) end.

Definition Image_New (body : option json) : ImageGenerationsRequest + gerror :=
  match ReadAsJSON body with
  | inr _ => inr (EOpenAI NewErrorInvalidBody)
  | inl (buffer, parsed) =>
      let req size := mkImage (GetByJSONPath_string parsed "{ .model }") (GetByJSONPath_uint_ptr parsed "{ .n }")
                        (GetByJSONPath_string_ptr parsed "{ .quality }") (GetByJSONPath_string_ptr parsed "{ .style }")
                        size parsed (Some buffer) in
      match GetByJSONPath_string_ptr parsed "{ .size }" with
      | None => inl (req (Some (mkSize defaultImageGenerationRequestSizeWidth defaultImageGenerationRequestSizeHeight)))
      | Some size =>
          match parseImageGenerationsSizeString (Some size) with inl size => inl (req size) | inr e => inr e end
      end
  end.

Definition TTS_New (body : option json) : TextToSpeechRequest + gerror :=
  match ReadAsJSON body with
  | inr _ => inr (EOpenAI NewErrorInvalidBody)
  | inl (buffer, parsed) =>
      inl (mkTTS (GetByJSONPath_string parsed "{ .model }")
             (mkSpeech (GetByJSONPath_string parsed "{ .input }") (GetByJSONPath_string parsed "{ .voice }")
                (GetByJSONPath_string_ptr parsed "{ .response_format }") (GetByJSONPath_float_ptr parsed "{ .speed }")
                (GetByJSONPath_map parsed "{ .extra_body }"))
             parsed (Some buffer))
  end.

(** What a constructor gives, seen by the handlers. *)
Definition made {R} (f : R -> LLMRequest) (o : R + gerror) : LLMRequest + gerror :=
  match o with inl r => inl (f r) | inr e => inr e end.

Definition madeBy {R} (f : R -> LLMRequest) (o : outcome (R + gerror)) : outcome (LLMRequest + gerror) :=
  match o with Ret r => Ret (made f r) | Panic s => Panic s end.

Lemma chat_made t body : NewChatCompletionRequest t body = madeBy (chat_view t) (Chat_New body).
Proof.
  unfold NewChatCompletionRequest, Chat_New. destruct (ReadAsJSON body) as [[buffer parsed]|e]; [|done].
  cbv zeta. cbn [ch_Stream ch_IncludeUsage]. destruct (_ && _); [|done].
  unfold patchRequest, Chat_patch. cbn [req_body ch_bodyBuffer].
  by destruct (modifyBufferBodyAndParsed (Some buffer) None _) as [[[b p] [e|]]|].
Qed.

(** ** Handling a request: the constructor, then calls of its methods up to
    the first that fails. *)
Inductive call : Type :=
| CallSetModel (model : string)
| CallSetDefaultParams (params : list (string * json))
| CallSetOverrideParams (params : list (string * json))
| CallRemoveParamKeys (keys : list string).

Section Calls.
Context {R : Type} (invoke : R -> call -> outcome (R * option gerror)).

Fixpoint invokeAll (r : R) (calls : list call) : outcome (R * option gerror) :=
  match calls with
  | [] => Ret (r, None)
  | c :: calls =>
      '(r, err) ← invoke r c;
      match err with Some e => Ret (r, Some e) | None => invokeAll r calls end
  end.

Definition handle (f : R -> LLMRequest) (new : outcome (R + gerror)) (calls : list call)
    : outcome (LLMRequest * option gerror + gerror) :=
  r ← new;
  match r with
  | inr e => Ret (inr e)
  | inl r => '(r, err) ← invokeAll r calls; Ret (inl (f r, err))
  end.
End Calls.

Definition invoke_method {R} `{RequestMethods R} (r : R) (c : call) : outcome (R * option gerror) :=
  match c with
  | CallSetModel model => m_SetModel r model
  | CallSetDefaultParams params => m_SetDefaultParams r params
  | CallSetOverrideParams params => m_SetOverrideParams r params
  | CallRemoveParamKeys keys => m_RemoveParamKeys r keys
  end.

Definition invoke_shared (r : LLMRequest) (c : call) : outcome (LLMRequest * option gerror) :=
  match c with
  | CallSetModel model => SetModel r model
  | CallSetDefaultParams params => SetDefaultParams r params
  | CallSetOverrideParams params => SetOverrideParams r params
  | CallRemoveParamKeys keys => RemoveParamKeys r keys
  end.

Lemma view_calls {R} `{!RequestMethods R} `{!RequestView R} calls : forall r : R,
  invokeAll invoke_shared (view r) calls = seen view (invokeAll invoke_method r calls).
Proof.
  induction calls as [|c calls IH]; intros r; [done|]. cbn [invokeAll].
  assert (invoke_shared (view r) c = seen view (invoke_method r c)) as ->.
  { destruct c; [apply view_SetModel|apply view_SetDefaultParams|apply view_SetOverrideParams|apply view_RemoveParamKeys]. }
  apply seen_bind. intros r' [e|]; [done|apply IH].
Qed.

Lemma view_handle {R} `{!RequestMethods R} `{!RequestView R} (new : outcome (R + gerror)) calls :
  handle invoke_shared id (madeBy view new) calls = handle invoke_method view new calls.
Proof.
  destruct new as [[r|e]|s]; [|done..]. unfold handle. cbn. rewrite view_calls. by destruct (invokeAll _ _ _) as [[]|].
Qed.

(** The one record and its definitions are a refinement of the four types of
    the code: whatever a request's body is, and whatever the handlers call on
    it, the code's type gives what the shared record gives, seen by the
    handlers. *)
Theorem request_types_refine (body : option json) (calls : list call) :
  handle invoke_shared id (NewChatCompletionRequest RequestTypeChatCompletions body) calls
  = handle invoke_method view (Chat_New body) calls /\
  handle invoke_shared id (NewCompletionsRequest body) calls = handle invoke_method view (Completions_New body) calls /\
  handle invoke_shared id (Ret (NewImageGenerationsRequest body)) calls
  = handle invoke_method view (Ret (Image_New body)) calls /\
  handle invoke_shared id (Ret (NewTextToSpeechRequest body)) calls = handle invoke_method view (Ret (TTS_New body)) calls.
Proof.
  rewrite <- !view_handle. repeat split; f_equal.
  - apply chat_made.
  - unfold NewCompletionsRequest, Completions_New. rewrite chat_made. by destruct (Chat_New body) as [[r|e]|].
  - cbn. f_equal. unfold NewImageGenerationsRequest, Image_New. destruct (ReadAsJSON body) as [[buffer parsed]|e]; [|done].
    cbv zeta. destruct (GetByJSONPath_string_ptr parsed "{ .size }"); [|done]. by destruct (parseImageGenerationsSizeString _).
  - cbn. f_equal. unfold NewTextToSpeechRequest, TTS_New. by destruct (ReadAsJSON body) as [[buffer parsed]|e].
Qed.
End Constructors.
