(* ===== verification/Response.v ===== *)
(** * pkg/types/openai and pkg/types/tts responses

    The responses of the upstreams: their usage, their error and their body;
    the recognition of the upstreams' error shapes; image metering. *)
From S2P Require Import Prelude Strconv Utils GoFloat Json Api Errors Request.

(** ** Usage (usage.go) *)
Record ChatCompletionsUsage : Type := mkChatUsage {
  TotalTokens : Z;            (* uint64 *)
  CompletionTokens : Z;
  PromptTokens : Z }.

Record ImageGenerationsUsageImage : Type := mkUsageImage {
  ui_Width : Z;               (* uint64 *)
  ui_Height : Z;
  ui_Style : string;
  ui_Quality : string }.

(** The [LLMUsage] interface; both implementations also implement
    [LLMTokensUsage] and [LLMImagesUsage]. *)
Inductive LLMUsage : Type :=
| ChatUsage (u : ChatCompletionsUsage)
| ImagesUsage (images : list ImageGenerationsUsageImage).

Definition GetPromptTokens (u : LLMUsage) : Z :=
  match u with ChatUsage u => PromptTokens u | ImagesUsage _ => 0 end.
Definition GetCompletionTokens (u : LLMUsage) : Z :=
  match u with ChatUsage u => CompletionTokens u | ImagesUsage _ => 0 end.
Definition GetTotalTokens (u : LLMUsage) : Z :=
  match u with ChatUsage u => TotalTokens u | ImagesUsage _ => 0 end.
Definition GetOutputImages (u : LLMUsage) : list ImageGenerationsUsageImage :=
  match u with ChatUsage _ => [] | ImagesUsage images => images end.

(** ** Responses *)
Inductive ResponseKind : Type := KChat | KImages | KAudio | KStream.

(** The response types behind [object.LLMResponse]; [resp_body] is the
    document of [responseBody], [None] for the types that keep none. *)
Record LLMResponse : Type := mkLLMResponse {
  resp_kind : ResponseKind;
  resp_status : Z;
  resp_model : string;
  resp_usage : option LLMUsage;
  resp_error : option LLMError;
  resp_body : option json }.

Definition resp_IsStream (r : LLMResponse) : bool :=
  match resp_kind r with KStream => true | _ => false end.

Definition AudioResponse_GetStatus (status : Z) : Z := if status =? 0 then StatusOK else status.

Record HTTPResponse : Type := mkHTTPResponse {
  http_StatusCode : Z;
  http_Status : string;                 (* "502 Bad Gateway" *)
  http_ContentType : string;
  http_Body : option string }.          (* None: reading it fails *)

Section Responses.
Context `{JSONPatch} `{JSONPath} `{JSONText}.

Definition GetByJSONPath_maps (p : option (gmap string json)) (template : string) : list (gmap string json) :=
  match jsonpath p template with
  | inl s =>
      if isEmptyString s then []
      else match Unmarshal s with
           | Some (JArr l) =>
               FromPtrOr (mapM (fun v => match v with JObj m => Some m | JNull => Some ∅ | _ => None end) l) []
           | _ => []
           end
  | inr _ => []
  end.

(** [utils.FromMap[ErrorResponse]]: nil for an empty map. *)
Definition FromMap_ErrorResponse (m : option (gmap string json)) : option ErrorResponse + gerror :=
  match m with
  | None => inl None
  | Some m =>
      if bool_decide (m = ∅) then inl None
      else match ErrorResponse_UnmarshalJSON (mkErrorResponse 0 false "" None None)
                   (Error_UnmarshalJSON (inl (jsonpath (Some m)))) with
           | inl e => inl (Some e)
           | inr e => inr e
           end
  end.

Definition fromUpstream (e : ErrorResponse) (status : Z) (bs : string) : ErrorResponse :=
  mkErrorResponse status true bs (er_body e) (er_cause e).

Definition upstreamError (status : Z) (bs message : string) : ErrorResponse :=
  mkErrorResponse status true bs (Some (mkError None message None "")) (Some (EPlain "unknown error")).

(** common.go *)
Definition unmarshalErrorResponseFromParsedBody (body : option (gmap string json))
    (response : HTTPResponse) (bs : string) : outcome (option ErrorResponse + gerror) :=
  let respErrMap := GetByJSONPath_map body "{ .error }" in
  let respErrMetadataRaw := GetByJSONPath_map body "{ .error.metadata.raw }" in
  let errorString := GetByJSONPath_string body "{ .error }" in
  let objectString := GetByJSONPath_string body "{ .object }" in
  let nonempty m := match m with Some m => negb (bool_decide (m = ∅)) | None => false end in
  if nonempty respErrMetadataRaw then
    let message := GetByJSONPath_string respErrMetadataRaw "{ .error.message }" in
    let param := GetByJSONPath_string respErrMetadataRaw "{ .error.param }" in
    let code := GetByJSONPath_string_ptr respErrMetadataRaw "{ .error.code }" in
    match FromMap_ErrorResponse respErrMap with
    | inr e => Ret (inr (EWrap "failed to unmarshal error" e))
    | inl respErr =>
        match respErr ≫= er_body with
        | None => Panic nil_deref
        | Some b =>
            Ret (inl (Some (mkErrorResponse (http_StatusCode response) true bs
              (Some (mkError code message (Some param) (err_type b)))
              (match respErr with Some e => er_cause e | None => None end))))
        end
    end
  else if nonempty respErrMap then
    match FromMap_ErrorResponse respErrMap with
    | inr e => Ret (inr (EWrap "failed to unmarshal error" e))
    | inl None => Panic nil_deref
    | inl (Some respErr) => Ret (inl (Some (fromUpstream respErr (http_StatusCode response) bs)))
    end
  else if negb (String.eqb errorString "") then
    Ret (inl (Some (upstreamError (http_StatusCode response) bs ("upstream error: " +:+ errorString))))
  else if (400 <=? http_StatusCode response) && (http_StatusCode response <? 600) then
    if String.eqb objectString "error" then
      match lookup_parsed body "message" with
      | Some (JStr "") => Ret (inl None)
      | _ =>
          Ret (inl (Some (mkErrorResponse (http_StatusCode response) true bs
            (Some (mkError (GetByJSONPath_string_ptr body "{ .code }")
                           (GetByJSONPath_string body "{ .message }")
                           (GetByJSONPath_string_ptr body "{ .param }")
                           (GetByJSONPath_string body "{ .type }"))) None)))
      end
    else Ret (inl (Some (upstreamError (http_StatusCode response) bs
                           ("upstream unknown error: " +:+ http_Status response))))
  else Ret (inl None).

Definition ParseErrorResponse (response : option HTTPResponse) (bs : string)
    : outcome (option ErrorResponse + gerror) :=
  match response with
  | None => Ret (inr (EPlain "response is nil"))
  | Some response =>
      match Unmarshal bs with
      | None => Ret (inr (EPlain "invalid JSON"))
      | Some doc =>
          match decode_object doc with
          | inr e => Ret (inr e)
          | inl body => unmarshalErrorResponseFromParsedBody body response bs
          end
      end
  end.

(** *** The usage object, decoded into its struct

    The map is marshalled and decoded again, so a number is what its decimal
    text denotes.  Field names are the exact ones ([encoding/json] also
    accepts them in another case). *)
Definition decode_error (field : string) : gerror :=
  EPlain ("json: cannot unmarshal into Go struct field " +:+ field +:+ " of type uint64").

Definition decode_uint64 (m : gmap string json) (field : string) : Z + gerror :=
  match m !! field with
  | None | Some JNull => inl 0
  | Some (JNum (SpecFloat.S754_zero true)) => inr (decode_error field)      (* marshalled as -0 *)
  | Some (JNum f) =>
      match f64_trunc f with
      | Some z => if f64_eqb f (f64_of_int z) && (0 <=? z) && (z <? 2 ^ 64) then inl z else inr (decode_error field)
      | None => inr (decode_error field)
      end
  | Some _ => inr (decode_error field)
  end.

(** The details objects are decoded too, so they can fail; nothing reads them. *)
Fixpoint decode_details (m : gmap string json) (fields : list string) : option gerror :=
  match fields with
  | [] => None
  | f :: fields => match decode_uint64 m f with inr e => Some e | inl _ => decode_details m fields end
  end.

Definition decode_details_of (m : gmap string json) (field : string) (fields : list string) : option gerror :=
  match m !! field with
  | None | Some JNull => None
  | Some (JObj d) => decode_details d fields
  | Some _ => Some (decode_error field)
  end.

(** [utils.FromMap[ChatCompletionsUsage]] *)
Definition FromMap_ChatCompletionsUsage (m : option (gmap string json)) : option ChatCompletionsUsage + gerror :=
  match m with
  | None => inl None
  | Some m =>
      if bool_decide (m = ∅) then inl None
      else match decode_uint64 m "total_tokens", decode_uint64 m "completion_tokens", decode_uint64 m "prompt_tokens" with
           | inl t, inl c, inl p =>
               match decode_details_of m "completion_tokens_details"
                       ["accepted_prediction_tokens"; "audio_tokens"; "reasoning_tokens"; "rejected_prediction_tokens"],
                     decode_details_of m "prompt_tokens_details" ["audio_tokens"; "cached_tokens"] with
               | None, None => inl (Some (mkChatUsage t c p))
               | Some e, _ => inr e
               | _, Some e => inr e
               end
           | inr e, _, _ => inr e
           | _, inr e, _ => inr e
           | _, _, inr e => inr e
           end
  end.

(** *** chat_completions_response.go *)
Definition ChatCompletionsResponse_processBytes (bs : string) (response : HTTPResponse)
    : outcome (LLMResponse + gerror) :=
  match Unmarshal bs with
  | None => Ret (inr (EWrap "failed to unmarshal response body" (EPlain "invalid JSON")))
  | Some doc =>
      match decode_object doc with
      | inr e => Ret (inr (EWrap "failed to unmarshal response body" e))
      | inl body =>
          let model := GetByJSONPath_string body "{ .model }" in
          match FromMap_ChatCompletionsUsage (GetByJSONPath_map body "{ .usage }") with
          | inr e => Ret (inr (EWrap "failed to unmarshal usage" e))
          | inl usage =>
              errorResponse ← unmarshalErrorResponseFromParsedBody body response bs;
              match errorResponse with
              | inr e => Ret (inr e)
              | inl err =>
                  Ret (inl (mkLLMResponse KChat (http_StatusCode response) model
                              (ChatUsage <$> usage) (LOpenAI <$> err) (Some doc)))
              end
          end
      end
  end.

Definition NewChatCompletionResponse (response : HTTPResponse) : outcome (LLMResponse + gerror) :=
  match http_Body response with
  | None => Ret (inr (EPlain "read error"))
  | Some bs =>
      r ← ChatCompletionsResponse_processBytes bs response;
      match r with
      | inl resp => Ret (inl resp)
      | inr e => Ret (inr (EWrapf "failed to unmarshal response" e (", body: " +:+ bs)))
      end
  end.

Definition modifyBytesBodyAndParsed (body : option json) (op : JSONPatchOperationObject)
    : option json + gerror :=
  match body with
  | None => inr (EPlain "unexpected end of JSON input")
  | Some doc =>
      match applyPatch NewApplyOptions op doc with
      | inr e => inr (EPlain e)
      | inl patched =>
          match decode_object patched with inr e => inr e | inl _ => inl (Some patched) end
      end
  end.

(** [SetModel] of the response types: a chat response without an error has
    its body rewritten too (both are lost when that fails). *)
Definition resp_SetModel (r : LLMResponse) (model : string) : LLMResponse * option gerror :=
  let set body := mkLLMResponse (resp_kind r) (resp_status r) model (resp_usage r) (resp_error r) body in
  match resp_kind r, resp_error r with
  | KChat, None =>
      match modifyBytesBodyAndParsed (resp_body r) (NewReplace "/model" (JStr model)) with
      | inr e => (mkLLMResponse (resp_kind r) (resp_status r) (resp_model r) (resp_usage r) (resp_error r) None, Some e)
      | inl body => (set body, None)
      end
  | _, _ => (set (resp_body r), None)
  end.

(** *** pkg/types/tts/errors.go *)
Definition ParseUpstreamError (resp : option HTTPResponse) (body : string) : outcome BaseLLMError :=
  match resp with
  | None => NewErrorBadGateway (Some (EPlain "upstream response is nil"))
  | Some resp =>
      match Unmarshal body with
      | None => NewErrorBadGateway (Some (EPlain "invalid JSON"))
      | Some doc =>
          match decode_object doc with
          | inr e => NewErrorBadGateway (Some e)
          | inl parsed =>
              match as_object (lookup_parsed parsed "error") with
              | Some errorMap =>
                  let code := as_string (errorMap !! "code") in
                  let message := match as_string (errorMap !! "message") with
                                 | Some msg => if String.eqb msg "" then http_Status resp else msg
                                 | None => http_Status resp
                                 end in
                  Ret (mkBaseLLMError (http_StatusCode resp) (Some (mkBaseError code message)))
              | None => NewErrorBadGateway (Some (EPlain ("upstream error: " +:+ http_Status resp)))
              end
          end
      end
  end.
End Responses.

(** ** Image responses (image_generations_response.go) *)
Record ImageGenerationsImage : Type := mkImage {
  img_Base64JSON : string;
  img_URL : string;
  img_RevisedPrompt : string;
  img_Width : Z;               (* ImageConfig.Width, an int *)
  img_Height : Z;
  img_Format : string }.

Section Images.
Context `{JSONPatch} `{JSONPath} `{JSONText}.

(** Decoding or fetching the picture: its width, height and format.  The
    argument is the base64 text or the URL. *)
Variable decodeBase64 fetchURL : string -> (Z * Z * string) + gerror.

Definition NewImageGenerationsImage (data : gmap string json) : option ImageGenerationsImage :=
  let base64JSON := GetByJSONPath_string (Some data) "{ .b64_json }" in
  let url := GetByJSONPath_string (Some data) "{ .url }" in
  let revisedPrompt := GetByJSONPath_string (Some data) "{ .revised_prompt }" in
  if String.eqb base64JSON "" && String.eqb url "" then None
  else Some (mkImage base64JSON url revisedPrompt 0 0 "").

Definition resolveImage (i : ImageGenerationsImage) : ImageGenerationsImage + gerror :=
  let resolve r :=
    match r with
    | inr e => inr e
    | inl (w, h, format) =>
        inl (mkImage (img_Base64JSON i) (img_URL i) (img_RevisedPrompt i) w h format)
    end in
  if negb (String.eqb (img_Base64JSON i) "") then resolve (decodeBase64 (img_Base64JSON i))
  else if negb (String.eqb (img_URL i) "") then resolve (fetchURL (img_URL i))
  else inl i.

(** The goroutines write distinct images and distinct error slots: the
    result does not depend on their order.  [errors.Join] joins the errors
    in the order of the images. *)
Definition batchResolveImages (images : list ImageGenerationsImage)
    : list ImageGenerationsImage * list gerror :=
  (map (fun i => match resolveImage i with inl i => i | inr _ => i end) images,
   omap (fun i => match resolveImage i with inl _ => None | inr e => Some e end) images).

Fixpoint errorsJoin_text (errs : list gerror) : outcome string :=
  match errs with
  | [] => Ret ""
  | [e] => ErrorText e
  | e :: errs => t ← ErrorText e; ts ← errorsJoin_text errs; Ret (t +:+ String (Ascii.ascii_of_nat 10) ts)
  end.

Definition errorsJoin (errs : list gerror) : outcome (option gerror) :=
  match errs with
  | [] => Ret None
  | _ => t ← errorsJoin_text errs; Ret (Some (EPlain t))
  end.

(** The usage of one image before metering. *)
Definition requestUsage (request : LLMRequest) : ImageGenerationsUsageImage :=
  let '(w, h) := match req_size request with
                 | Some s => (size_Width s, size_Height s)
                 | None => (0, 0)
                 end in
  mkUsageImage w h (FromPtrOr (req_style request) "") (FromPtrOr (req_quality request) "").

(** The closure mapped over the usage of the images, for one image. *)
Definition meterImage (sizeFrom : SizeFrom) (request : LLMRequest)
    (resolved : ImageGenerationsImage) (image : ImageGenerationsUsageImage) : ImageGenerationsUsageImage :=
  match sizeFrom with
  | SIZE_FROM_OUTPUT =>
      mkUsageImage (uint64 (img_Width resolved)) (uint64 (img_Height resolved)) (ui_Style image) (ui_Quality image)
  | SIZE_FROM_GREATEST =>
      match req_size request with
      | Some s =>
          let requestResolution := uint64 (size_Width s * size_Height s) in
          let responseResolution := uint64 (ui_Width image * ui_Height image) in
          if responseResolution <? requestResolution
          then mkUsageImage (size_Width s) (size_Height s) (ui_Style image) (ui_Quality image)
          else image
      | None => image
      end
  | _ => image
  end.

(** The images after resolution and their usage. *)
Definition resolveUsage (meteringPolicy : option ClusterMeteringPolicy) (request : LLMRequest)
    (images : list ImageGenerationsImage)
    : outcome ((list ImageGenerationsImage * list ImageGenerationsUsageImage) + gerror) :=
  match req_type request with
  | RequestTypeImageGenerations =>
      let usage := map (fun _ => requestUsage request) images in
      match GetSizeFrom <$> meteringPolicy with
      | Some (SIZE_FROM_OUTPUT as f) | Some (SIZE_FROM_GREATEST as f) =>
          let '(images, errs) := batchResolveImages images in
          err ← errorsJoin errs;
          match err with
          | Some e => Ret (inr e)
          | None => Ret (inl (images, zip_with (meterImage f request) images usage))
          end
      | _ => Ret (inl (images, usage))
      end
  | _ => Ret (inr (EPlain "failed to cast request to ImageGenerationsRequest"))
  end.

Definition ImageGenerationsResponse_processBytes (meteringPolicy : option ClusterMeteringPolicy)
    (bs : string) (request : LLMRequest) (response : HTTPResponse) : outcome (LLMResponse + gerror) :=
  match Unmarshal bs with
  | None => Ret (inr (EWrap "failed to unmarshal response body" (EPlain "invalid JSON")))
  | Some doc =>
      match decode_object doc with
      | inr e => Ret (inr (EWrap "failed to unmarshal response body" e))
      | inl body =>
          let images := omap NewImageGenerationsImage (GetByJSONPath_maps body "{ .data }") in
          usage ← resolveUsage meteringPolicy request images;
          match usage with
          | inr e => Ret (inr e)
          | inl (_, usage) =>
              errorResponse ← unmarshalErrorResponseFromParsedBody body response bs;
              match errorResponse with
              | inr e => Ret (inr e)
              | inl err =>
                  Ret (inl (mkLLMResponse KImages (http_StatusCode response) ""
                              (Some (ImagesUsage usage)) (LOpenAI <$> err) (Some doc)))
              end
          end
      end
  end.

Definition NewImageGenerationsResponse (meteringPolicy : option ClusterMeteringPolicy)
    (request : LLMRequest) (response : HTTPResponse) : outcome (LLMResponse + gerror) :=
  match http_Body response with
  | None => Ret (inr (EPlain "read error"))
  | Some bs =>
      r ← ImageGenerationsResponse_processBytes meteringPolicy bs request response;
      match r with
      | inl resp => Ret (inl resp)
      | inr e => Ret (inr (EWrap "failed to unmarshal response" e))
      end
  end.
End Images.

(** ** Upstream errors are recognised *)

(** The one shape of an error body that is not taken for an error: an object
    marked [error] whose message is the empty string. *)
Definition silent_error `{JSONPath} (body : option (gmap string json)) : bool :=
  String.eqb (GetByJSONPath_string body "{ .object }") "error" &&
  match lookup_parsed body "message" with Some (JStr m) => String.eqb m "" | _ => false end.

(** An upstream response with an error status is never taken for a
    success: it yields an error from upstream with that status, a body and the
    upstream's text, fails to be read, or has the silent shape with no [error]
    member at all. *)
Theorem upstream_error_recognised `{JSONPath, JSONText} body response bs r :
  400 <= http_StatusCode response < 600 ->
  unmarshalErrorResponseFromParsedBody body response bs = Ret (inl r) ->
  (exists e b, r = Some e /\ er_status e = http_StatusCode response /\ er_from_upstream e = true /\
     er_upstream_body e = bs /\ er_body e = Some b) \/
  (r = None /\ silent_error body = true /\ GetByJSONPath_string body "{ .error }" = "").
Proof.
  intros Hs. unfold unmarshalErrorResponseFromParsedBody, silent_error.
  destruct (match GetByJSONPath_map body "{ .error.metadata.raw }" with Some m => negb (bool_decide (m = ∅)) | None => false end).
  { destruct (FromMap_ErrorResponse _) as [[e|]|]; simpl; [|done..].
    destruct (er_body e); [|done]. intros [= <-]. left. by do 2 eexists. }
  destruct (match GetByJSONPath_map body "{ .error }" with Some m => negb (bool_decide (m = ∅)) | None => false end).
  { unfold FromMap_ErrorResponse, ErrorResponse_UnmarshalJSON.
    destruct (GetByJSONPath_map body "{ .error }") as [m|]; [|done].
    destruct (bool_decide (m = ∅)); [done|].
    destruct (Error_UnmarshalJSON (inl (jsonpath (Some m)))) as [b|]; [|done].
    intros [= <-]. left. by do 2 eexists. }
  destruct (String.eqb_spec (GetByJSONPath_string body "{ .error }") "") as [He|_]; simpl.
  2:{ intros [= <-]. left. by do 2 eexists. }
  rewrite (proj2 (Z.leb_le _ _)), (proj2 (Z.ltb_lt _ _)) by lia. simpl.
  destruct (String.eqb (GetByJSONPath_string body "{ .object }") "error"); simpl.
  2:{ intros [= <-]. left. by do 2 eexists. }
  destruct (lookup_parsed body "message") as [[| | |[|c m]| |]|];
    try (intros [= <-]; left; by do 2 eexists).
  intros [= <-]. right. done.
Qed.

(** No text is decoded by this instance: enough for bodies without nested
    objects rendered as text. *)
#[local] Instance no_nested_text : JSONText := fun _ => None.

Lemma upstream_error_recognised_witness :
  let body := Some ({[ "message" := JStr "overloaded" ]} : gmap string json) in
  let response := mkHTTPResponse 503 "503 Service Unavailable" "application/json" (Some "text") in
  exists r, @unmarshalErrorResponseFromParsedBody dotted_paths no_nested_text body response "text" = Ret (inl r) /\
  ((exists e b, r = Some e /\ er_status e = http_StatusCode response /\ er_from_upstream e = true /\
     er_upstream_body e = "text" /\ er_body e = Some b) \/
   (r = None /\ @silent_error dotted_paths body = true /\ @GetByJSONPath_string dotted_paths body "{ .error }" = "")).
Proof.
  intros body response. eexists. split; [vm_compute; reflexivity|].
  apply (@upstream_error_recognised dotted_paths no_nested_text body response "text"); [simpl; lia | vm_compute; reflexivity].
Defined.

(** ** Image metering *)

(** The size accounted for one image, by what the policy says. *)
Definition metered (sizeFrom : SizeFrom) (request : LLMRequest) (i : ImageGenerationsImage) : ImageGenerationsUsageImage :=
  match sizeFrom with
  | SIZE_FROM_OUTPUT =>
      mkUsageImage (uint64 (img_Width i)) (uint64 (img_Height i)) (FromPtrOr (req_style request) "") (FromPtrOr (req_quality request) "")
  | _ => requestUsage request
  end.

Lemma meterImage_metered f request i :
  meterImage f request i (requestUsage request) = metered f request i.
Proof.
  unfold meterImage, metered, requestUsage. destruct f; try by destruct (req_size request).
  destruct (req_size request) as [s|]; [|done]. simpl.
  by rewrite (proj2 (Z.ltb_ge _ _)) by lia.
Qed.

(** The usage of an image response has one entry per image, of the size
    of the picture itself under the output policy and of the size the request
    asked for under every other policy, the greatest one included. *)
Theorem resolveUsage_metered decodeBase64 fetchURL policy request images images' usage :
  resolveUsage decodeBase64 fetchURL policy request images = Ret (inl (images', usage)) ->
  usage = map (metered (FromPtrOr (GetSizeFrom <$> policy) SIZE_FROM_UNSPECIFIED) request) images' /\
  length images' = length images.
Proof.
  assert (forall f (l : list ImageGenerationsImage) (k : list ImageGenerationsImage), length k = length l ->
    zip_with (meterImage f request) k (map (fun _ => requestUsage request) l) = map (metered f request) k) as Hz.
  { intros f l. induction l as [|i l IH]; intros [|j k] [=]; simpl; [done|]. by rewrite meterImage_metered, IH. }
  unfold resolveUsage. destruct (req_type request); try done.
  assert (forall f, 
    (err ← errorsJoin (snd (batchResolveImages decodeBase64 fetchURL images));
     match err with
     | Some e => Ret (inr e)
     | None => Ret (inl (fst (batchResolveImages decodeBase64 fetchURL images),
         zip_with (meterImage f request) (fst (batchResolveImages decodeBase64 fetchURL images))
           (map (fun _ => requestUsage request) images)))
     end) = Ret (inl (images', usage)) ->
    usage = map (metered f request) images' /\ length images' = length images) as Hb.
  { intros f. destruct (errorsJoin _) as [[e|]|]; [done| |done]. intros [= <- <-].
    split; [apply Hz|]; by rewrite length_map. }
  destruct (GetSizeFrom <$> policy) as [[| | | |n]|]; try apply Hb;
    intros [= <- <-]; (split; [by apply map_ext|done]).
Qed.

Lemma resolveUsage_metered_witness :
  let request := mkLLMRequest RequestTypeImageGenerations "dall-e-3" false None None (Some (mkSize 256 256)) None None None in
  let image := mkImage "" "http://host/a.png" "" 0 0 "" in
  let fetch := fun _ : string => inl (1024, 1024, "png") in
  exists images' usage,
  resolveUsage fetch fetch (Some (mkMeteringPolicy (Some SIZE_FROM_GREATEST))) request [image] = Ret (inl (images', usage)) /\
  usage = map (metered SIZE_FROM_GREATEST request) images' /\ length images' = 1%nat.
Proof.
  intros request image fetch. do 2 eexists. split; [reflexivity|].
  exact (resolveUsage_metered fetch fetch (Some (mkMeteringPolicy (Some SIZE_FROM_GREATEST))) request [image] _ _ eq_refl).
Defined.
