(* ===== verification/Effects.v ===== *)
(** * The state a request is handled in

    Handlers share the request's metadata (pkg/metadata) and the request
    object itself by pointer, and read or change the rest of the world: the
    filters' own state, remote services, the clock.  A handler is a function of
    that state that may panic. *)
From S2P Require Import Prelude GoFloat Json Api Errors Request Response.

(** ** pkg/metadata

    The time stamps and the upstream's headers are left out: only the access
    log reads the stamps (AccessLog.v), and nothing the headers. *)
Record RequestMetadata : Type := mkMeta {
  RequestModel : string;
  ResponseModel : string;
  StatusCode : Z;
  ErrorMessage : string;
  EnabledAuthFilter : bool;
  AuthInfo : option APIKeyAuthResponse;
  SelectedCluster : option string;
  UpstreamProvider : ClusterProvider;
  UpstreamResponseStatusCode : Z;
  UpstreamResponseErrorMessage : string;
  UpstreamRequestModel : string;
  UpstreamResponseModel : string;
  LLMUpstreamTokensUsage : option LLMUsage;
  LLMUpstreamImagesUsage : option LLMUsage;
  MatchedRoute : option string }.

(** [metadata.InitMetadataContext] *)
Definition InitMetadata : RequestMetadata :=
  mkMeta "" "" 0 "" false None None CLUSTER_PROVIDER_UNSPECIFIED 0 "" "" "" None None None.

Definition setRequestModel (s : string) (m : RequestMetadata) : RequestMetadata :=
  mkMeta s (ResponseModel m) (StatusCode m) (ErrorMessage m) (EnabledAuthFilter m) (AuthInfo m) (SelectedCluster m) (UpstreamProvider m) (UpstreamResponseStatusCode m) (UpstreamResponseErrorMessage m) (UpstreamRequestModel m) (UpstreamResponseModel m) (LLMUpstreamTokensUsage m) (LLMUpstreamImagesUsage m) (MatchedRoute m).
Definition setResponseModel (s : string) (m : RequestMetadata) : RequestMetadata :=
  mkMeta (RequestModel m) s (StatusCode m) (ErrorMessage m) (EnabledAuthFilter m) (AuthInfo m) (SelectedCluster m) (UpstreamProvider m) (UpstreamResponseStatusCode m) (UpstreamResponseErrorMessage m) (UpstreamRequestModel m) (UpstreamResponseModel m) (LLMUpstreamTokensUsage m) (LLMUpstreamImagesUsage m) (MatchedRoute m).
Definition setStatus (code : Z) (message : string) (m : RequestMetadata) : RequestMetadata :=
  mkMeta (RequestModel m) (ResponseModel m) code message (EnabledAuthFilter m) (AuthInfo m) (SelectedCluster m) (UpstreamProvider m) (UpstreamResponseStatusCode m) (UpstreamResponseErrorMessage m) (UpstreamRequestModel m) (UpstreamResponseModel m) (LLMUpstreamTokensUsage m) (LLMUpstreamImagesUsage m) (MatchedRoute m).
Definition setStatusCode (code : Z) (m : RequestMetadata) : RequestMetadata := setStatus code (ErrorMessage m) m.
Definition setAuth (enabled : bool) (info : option APIKeyAuthResponse) (m : RequestMetadata) : RequestMetadata :=
  mkMeta (RequestModel m) (ResponseModel m) (StatusCode m) (ErrorMessage m) enabled info (SelectedCluster m) (UpstreamProvider m) (UpstreamResponseStatusCode m) (UpstreamResponseErrorMessage m) (UpstreamRequestModel m) (UpstreamResponseModel m) (LLMUpstreamTokensUsage m) (LLMUpstreamImagesUsage m) (MatchedRoute m).
Definition setSelectedCluster (c : string) (m : RequestMetadata) : RequestMetadata :=
  mkMeta (RequestModel m) (ResponseModel m) (StatusCode m) (ErrorMessage m) (EnabledAuthFilter m) (AuthInfo m) (Some c) (UpstreamProvider m) (UpstreamResponseStatusCode m) (UpstreamResponseErrorMessage m) (UpstreamRequestModel m) (UpstreamResponseModel m) (LLMUpstreamTokensUsage m) (LLMUpstreamImagesUsage m) (MatchedRoute m).
Definition setUpstreamProvider (p : ClusterProvider) (m : RequestMetadata) : RequestMetadata :=
  mkMeta (RequestModel m) (ResponseModel m) (StatusCode m) (ErrorMessage m) (EnabledAuthFilter m) (AuthInfo m) (SelectedCluster m) p (UpstreamResponseStatusCode m) (UpstreamResponseErrorMessage m) (UpstreamRequestModel m) (UpstreamResponseModel m) (LLMUpstreamTokensUsage m) (LLMUpstreamImagesUsage m) (MatchedRoute m).
Definition setUpstreamStatus (code : Z) (m : RequestMetadata) : RequestMetadata :=
  mkMeta (RequestModel m) (ResponseModel m) (StatusCode m) (ErrorMessage m) (EnabledAuthFilter m) (AuthInfo m) (SelectedCluster m) (UpstreamProvider m) code (UpstreamResponseErrorMessage m) (UpstreamRequestModel m) (UpstreamResponseModel m) (LLMUpstreamTokensUsage m) (LLMUpstreamImagesUsage m) (MatchedRoute m).
Definition setUpstreamErrorMessage (s : string) (m : RequestMetadata) : RequestMetadata :=
  mkMeta (RequestModel m) (ResponseModel m) (StatusCode m) (ErrorMessage m) (EnabledAuthFilter m) (AuthInfo m) (SelectedCluster m) (UpstreamProvider m) (UpstreamResponseStatusCode m) s (UpstreamRequestModel m) (UpstreamResponseModel m) (LLMUpstreamTokensUsage m) (LLMUpstreamImagesUsage m) (MatchedRoute m).
Definition setUpstreamRequestModel (s : string) (m : RequestMetadata) : RequestMetadata :=
  mkMeta (RequestModel m) (ResponseModel m) (StatusCode m) (ErrorMessage m) (EnabledAuthFilter m) (AuthInfo m) (SelectedCluster m) (UpstreamProvider m) (UpstreamResponseStatusCode m) (UpstreamResponseErrorMessage m) s (UpstreamResponseModel m) (LLMUpstreamTokensUsage m) (LLMUpstreamImagesUsage m) (MatchedRoute m).
Definition setUpstreamResponseModel (s : string) (m : RequestMetadata) : RequestMetadata :=
  mkMeta (RequestModel m) (ResponseModel m) (StatusCode m) (ErrorMessage m) (EnabledAuthFilter m) (AuthInfo m) (SelectedCluster m) (UpstreamProvider m) (UpstreamResponseStatusCode m) (UpstreamResponseErrorMessage m) (UpstreamRequestModel m) s (LLMUpstreamTokensUsage m) (LLMUpstreamImagesUsage m) (MatchedRoute m).
Definition setTokensUsage (u : LLMUsage) (m : RequestMetadata) : RequestMetadata :=
  mkMeta (RequestModel m) (ResponseModel m) (StatusCode m) (ErrorMessage m) (EnabledAuthFilter m) (AuthInfo m) (SelectedCluster m) (UpstreamProvider m) (UpstreamResponseStatusCode m) (UpstreamResponseErrorMessage m) (UpstreamRequestModel m) (UpstreamResponseModel m) (Some u) (LLMUpstreamImagesUsage m) (MatchedRoute m).
Definition setImagesUsage (u : LLMUsage) (m : RequestMetadata) : RequestMetadata :=
  mkMeta (RequestModel m) (ResponseModel m) (StatusCode m) (ErrorMessage m) (EnabledAuthFilter m) (AuthInfo m) (SelectedCluster m) (UpstreamProvider m) (UpstreamResponseStatusCode m) (UpstreamResponseErrorMessage m) (UpstreamRequestModel m) (UpstreamResponseModel m) (LLMUpstreamTokensUsage m) (Some u) (MatchedRoute m).
Definition setMatchedRoute (s : string) (m : RequestMetadata) : RequestMetadata :=
  mkMeta (RequestModel m) (ResponseModel m) (StatusCode m) (ErrorMessage m) (EnabledAuthFilter m) (AuthInfo m) (SelectedCluster m) (UpstreamProvider m) (UpstreamResponseStatusCode m) (UpstreamResponseErrorMessage m) (UpstreamRequestModel m) (UpstreamResponseModel m) (LLMUpstreamTokensUsage m) (LLMUpstreamImagesUsage m) (Some s).

(** ** Computations *)
Record World (X : Type) : Type := mkWorld {
  w_meta : RequestMetadata;
  w_req : LLMRequest;
  w_ext : X }.
Arguments mkWorld {X}.
Arguments w_meta {X}.
Arguments w_req {X}.
Arguments w_ext {X}.

Definition Eff (X A : Type) : Type := World X -> outcome (World X * A).

#[export] Instance Eff_ret X : MRet (Eff X) := fun A a w => Ret (w, a).
#[export] Instance Eff_bind X : MBind (Eff X) := fun A B f m w =>
  match m w with Ret (w, a) => f a w | Panic s => Panic s end.

Section Operations.
Context {X : Type}.

Definition getMeta : Eff X RequestMetadata := fun w => Ret (w, w_meta w).
Definition modifyMeta (f : RequestMetadata -> RequestMetadata) : Eff X unit :=
  fun w => Ret (mkWorld (f (w_meta w)) (w_req w) (w_ext w), tt).
Definition getReq : Eff X LLMRequest := fun w => Ret (w, w_req w).
Definition putReq (r : LLMRequest) : Eff X unit := fun w => Ret (mkWorld (w_meta w) r (w_ext w), tt).
Definition getExt : Eff X X := fun w => Ret (w, w_ext w).
Definition putExt (x : X) : Eff X unit := fun w => Ret (mkWorld (w_meta w) (w_req w) x, tt).
Definition lift {A} (m : outcome A) : Eff X A :=
  fun w => match m with Ret a => Ret (w, a) | Panic s => Panic s end.
Definition panic {A} (msg : string) : Eff X A := fun _ => Panic msg.
End Operations.

Lemma Eff_bind_Ret {X A B} (m : Eff X A) (f : A -> Eff X B) w w' a :
  m w = Ret (w', a) -> (m ≫= f) w = f a w'.
Proof. intros H. unfold mbind, Eff_bind. by rewrite H. Qed.

(** A computation that goes on as another one does. *)
Lemma Eff_bind_cong {X A B} (m m' : Eff X A) (f : A -> Eff X B) w w' : m w = m' w' -> (m ≫= f) w = (m' ≫= f) w'.
Proof. intros E. unfold mbind, Eff_bind. by rewrite E. Qed.

(** ** Contexts

    What a handler finds behind its [ctx]: the request's context carries the
    metadata; the one that a stream makes for its own end (a child of
    [context.Background()]) does not. *)
Inductive Ctx : Type := RequestCtx | EOFCtx.

Definition RequestMetadataFromCtx {X} (ctx : Ctx) : Eff X (option RequestMetadata) :=
  match ctx with
  | RequestCtx => rMeta ← getMeta; mret (Some rMeta)
  | EOFCtx => mret None
  end.

(** [run_eff]: execute the primitive operations of a handler on its world. *)
Ltac run_eff :=
  cbv beta iota zeta delta [RequestMetadataFromCtx mbind mret Eff_bind Eff_ret getMeta modifyMeta getReq putReq getExt putExt lift panic];
  cbn [w_meta w_req w_ext].
