(* ===== verification/Stream.v ===== *)
(** * Streaming: chat_completions_stream.go, sse/event.go, listener/common.go

    Reading the upstream's event stream line by line, and writing it to the
    client as server-sent events. *)
From S2P Require Import Prelude Strconv Utils GoFloat Json Api Errors Request Response Effects.

(** ** Server-sent events (pkg/types/sse/event.go) *)
Definition NL : ascii := Ascii.ascii_of_nat 10.
Definition nl : string := String NL "".

Record Event : Type := mkEvent {
  ev_ID : string;
  ev_Data : string;
  ev_Event : string;
  ev_Retry : string;
  ev_Comment : string }.

(** The writes of [MarshalTo], in order; the first write that fails ends it. *)
Definition MarshalTo_writes (ev : Event) : list string :=
  let field name value := if String.eqb value "" then [] else [name +:+ value +:+ nl] in
  if String.eqb (ev_Data ev) "" && String.eqb (ev_Comment ev) "" then []
  else
    (if String.eqb (ev_Data ev) "" then []
     else field "id: " (ev_ID ev)
          ++ map (fun line => "data: " +:+ line +:+ nl) (Split NL (ev_Data ev))
          ++ field "event: " (ev_Event ev)
          ++ field "retry: " (ev_Retry ev))
    ++ field ": " (ev_Comment ev)
    ++ [nl].

Fixpoint concat_strings (l : list string) : string :=
  match l with [] => "" | s :: l => s +:+ concat_strings l end.

Lemma concat_strings_app l k : concat_strings (l ++ k) = concat_strings l +:+ concat_strings k.
Proof. induction l as [|s l IH]; [done|]. simpl. by rewrite IH, string_app_assoc. Qed.

(** The receiving side, as the event stream format defines it: the data of an
    event are its data lines, joined by newlines. *)
Fixpoint event_lines (ls : list string) : list string :=
  match ls with
  | [] => []
  | l :: ls => if HasPrefix l "data: " then TrimPrefix l "data: " :: event_lines ls else event_lines ls
  end.

Definition event_data (text : string) : string := Join nl (event_lines (Split NL text)).

(** ** Chunks *)
Record Chunk : Type := mkChunk {
  ck_Model : string;
  ck_Usage : option ChatCompletionsUsage;
  ck_body : option (gmap string json);      (* bodyParsed *)
  ck_isEmpty : bool;
  ck_isDone : bool;
  ck_isUsage : bool;
  ck_isFirst : bool }.

(** ** ChatCompletionStreamResponse

    [sr_input] is what the upstream is still to send and [sr_end] how its body
    ends (io.EOF or a read error); [sr_cancelled] is [eofCancelFunc] called. *)
Record StreamResponse : Type := mkStream {
  sr_Model : string;
  sr_Usage : option ChatCompletionsUsage;
  sr_input : string;
  sr_end : gerror;
  sr_hasErrorPrefix : bool;
  sr_errorEventBuffer : string;
  sr_isDone : bool;
  sr_chunkNum : Z;                           (* int *)
  sr_cancelled : bool }.

Definition NewChatCompletionStreamResponse (input : string) (ending : gerror) : StreamResponse :=
  mkStream "" None input ending false "" false 0 false.

Definition sr_IsFirst (r : StreamResponse) : bool := sr_chunkNum r =? 1.

Definition sr_cancel (r : StreamResponse) : StreamResponse :=
  mkStream (sr_Model r) (sr_Usage r) (sr_input r) (sr_end r) (sr_hasErrorPrefix r) (sr_errorEventBuffer r)
    (sr_isDone r) (sr_chunkNum r) true.
Definition sr_setInput (r : StreamResponse) (input : string) : StreamResponse :=
  mkStream (sr_Model r) (sr_Usage r) input (sr_end r) (sr_hasErrorPrefix r) (sr_errorEventBuffer r)
    (sr_isDone r) (sr_chunkNum r) (sr_cancelled r).
Definition sr_setErrorPrefix (r : StreamResponse) : StreamResponse :=
  mkStream (sr_Model r) (sr_Usage r) (sr_input r) (sr_end r) true (sr_errorEventBuffer r)
    (sr_isDone r) (sr_chunkNum r) (sr_cancelled r).
Definition sr_buffer (r : StreamResponse) (bs : string) : StreamResponse :=
  mkStream (sr_Model r) (sr_Usage r) (sr_input r) (sr_end r) (sr_hasErrorPrefix r)
    (sr_errorEventBuffer r +:+ bs) (sr_isDone r) (sr_chunkNum r) (sr_cancelled r).
Definition sr_count (r : StreamResponse) : StreamResponse :=
  mkStream (sr_Model r) (sr_Usage r) (sr_input r) (sr_end r) (sr_hasErrorPrefix r) (sr_errorEventBuffer r)
    (sr_isDone r) (int64 (sr_chunkNum r + 1)) (sr_cancelled r).
Definition sr_done (r : StreamResponse) : StreamResponse :=
  mkStream (sr_Model r) (sr_Usage r) (sr_input r) (sr_end r) (sr_hasErrorPrefix r) (sr_errorEventBuffer r)
    true (sr_chunkNum r) true.
Definition sr_setUsage (r : StreamResponse) (u : option ChatCompletionsUsage) : StreamResponse :=
  mkStream (sr_Model r) u (sr_input r) (sr_end r) (sr_hasErrorPrefix r) (sr_errorEventBuffer r)
    (sr_isDone r) (sr_chunkNum r) (sr_cancelled r).
Definition sr_SetModel (r : StreamResponse) (model : string) : StreamResponse :=
  mkStream model (sr_Usage r) (sr_input r) (sr_end r) (sr_hasErrorPrefix r) (sr_errorEventBuffer r)
    (sr_isDone r) (sr_chunkNum r) (sr_cancelled r).

(** [bufio.Reader.ReadBytes('\n')]: a line with its newline and the rest, or
    [None] when the input ends first. *)
Fixpoint ReadLine (input : string) : option (string * string) :=
  match input with
  | EmptyString => None
  | String c input =>
      if Ascii.eqb c NL then Some (String c "", input)
      else match ReadLine input with
           | Some (line, rest) => Some (String c line, rest)
           | None => None
           end
  end.

(** [bytes.TrimSpace]: Unicode's white space, in UTF-8 ([unicode.IsSpace]:
    the ASCII ones, U+0085, U+00A0, U+1680, U+2000 to U+200A, U+2028, U+2029,
    U+202F, U+205F, U+3000). *)
Definition space1 (a : nat) : bool := (Nat.leb 9 a && Nat.leb a 13 || Nat.eqb a 32)%bool.
Definition space2 (a b : nat) : bool := (Nat.eqb a 194 && (Nat.eqb b 133 || Nat.eqb b 160))%bool.
Definition space3 (a b c : nat) : bool :=
  (Nat.eqb a 225 && Nat.eqb b 154 && Nat.eqb c 128
   || Nat.eqb a 226 && Nat.eqb b 128
      && (Nat.leb 128 c && Nat.leb c 138 || Nat.eqb c 168 || Nat.eqb c 169 || Nat.eqb c 175)
   || Nat.eqb a 226 && Nat.eqb b 129 && Nat.eqb c 159
   || Nat.eqb a 227 && Nat.eqb b 128 && Nat.eqb c 128)%bool.

(** Drop the encoded spaces at the front; the tests get the bytes in the order
    they are met. *)
Fixpoint trim_front (s1 : nat -> bool) (s2 : nat -> nat -> bool) (s3 : nat -> nat -> nat -> bool)
    (s : string) : string :=
  match s with
  | String a ra =>
      if s1 (Ascii.nat_of_ascii a) then trim_front s1 s2 s3 ra else
      match ra with
      | String b rb =>
          if s2 (Ascii.nat_of_ascii a) (Ascii.nat_of_ascii b) then trim_front s1 s2 s3 rb else
          match rb with
          | String c rc =>
              if s3 (Ascii.nat_of_ascii a) (Ascii.nat_of_ascii b) (Ascii.nat_of_ascii c)
              then trim_front s1 s2 s3 rc else s
          | EmptyString => s
          end
      | EmptyString => s
      end
  | EmptyString => EmptyString
  end.

Fixpoint string_rev_app (s acc : string) : string :=
  match s with EmptyString => acc | String c s => string_rev_app s (String c acc) end.
Definition string_rev (s : string) : string := string_rev_app s "".

Definition TrimLeftSpace (s : string) : string := trim_front space1 space2 space3 s.
Definition TrimRightSpace (s : string) : string :=
  string_rev (trim_front space1 (fun b a => space2 a b) (fun c b a => space3 a b c) (string_rev s)).
Definition TrimSpace (s : string) : string := TrimRightSpace (TrimLeftSpace s).

Definition headerData : string := "data: ".
Definition errorPrefix : string := "data: {" +:+ quote +:+ "error" +:+ quote +:+ ":".
Definition usageCompletionTokens : string := quote +:+ "completion_tokens" +:+ quote +:+ ":".

Section Streaming.
Context `{JSONPath} `{JSONText}.

(** [json.Marshal] of a parsed body. *)
Variable Marshal : json -> string.

Definition NewEmptyChatCompletionStreamChunk (r : StreamResponse) : Chunk :=
  mkChunk "" None None true false false (sr_IsFirst r).

Definition NewDoneChatCompletionStreamChunk (r : StreamResponse) : Chunk :=
  mkChunk "" None None false true false false.

(** [processBytes]: the parsed body of a chunk. *)
Definition chunk_processBytes (bs : string) : option (gmap string json) + gerror :=
  match Unmarshal bs with
  | None => inr (EWrapf "failed to unmarshal response body" (EPlain "invalid JSON") (", body: " +:+ bs))
  | Some doc => match decode_object doc with
                | inl m => inl m
                | inr e => inr (EWrapf "failed to unmarshal response body" e (", body: " +:+ bs))
                end
  end.

Definition NewChatCompletionStreamChunk (r : StreamResponse) (bs : string)
    : StreamResponse * Chunk * option gerror :=
  match chunk_processBytes bs with
  | inr e => (r, NewEmptyChatCompletionStreamChunk r, Some e)
  | inl body =>
      let model := GetByJSONPath_string body "{ .model }" in
      let chunk := mkChunk model None body false false false (sr_IsFirst r) in
      (if String.eqb (sr_Model r) "" then sr_SetModel r model else r, chunk, None)
  end.

(** On an error the caller drops the chunk. *)
Definition NewUsageChatCompletionStreamChunk (r : StreamResponse) (bs : string)
    : (StreamResponse * Chunk) + gerror :=
  match chunk_processBytes bs with
  | inr e => inr e
  | inl body =>
      let model := GetByJSONPath_string body "{ .model }" in
      match FromMap_ChatCompletionsUsage (GetByJSONPath_map body "{ .usage }") with
      | inr e => inr e
      | inl usage =>
          inl (if String.eqb (sr_Model r) "" then sr_SetModel r model else r,
               mkChunk model usage body false false true (sr_IsFirst r))
      end
  end.

(** The body of [NextChunk]; the returned chunk is nil ([None]) when the
    usage chunk cannot be read.  Writing to the buffer never fails. *)
Definition NextChunk (r : StreamResponse) : StreamResponse * option Chunk * option gerror :=
  match ReadLine (sr_input r) with
  | None =>
      let r := sr_cancel (sr_setInput r "") in
      (r, Some (NewEmptyChatCompletionStreamChunk r), Some (sr_end r))
  | Some (line, rest) =>
      let r := sr_setInput r rest in
      if sr_hasErrorPrefix r then
        let r := sr_cancel r in (r, Some (NewEmptyChatCompletionStreamChunk r), None)
      else
        let noSpaceLine := TrimSpace line in
        let r := if HasPrefix noSpaceLine errorPrefix then sr_setErrorPrefix r else r in
        if negb (HasPrefix noSpaceLine headerData) || sr_hasErrorPrefix r then
          let noSpaceLine := if sr_hasErrorPrefix r then TrimPrefix noSpaceLine headerData else noSpaceLine in
          let r := sr_buffer r noSpaceLine in
          (r, Some (NewEmptyChatCompletionStreamChunk r), None)
        else
          let r := sr_count r in
          let noPrefixLine := TrimPrefix noSpaceLine headerData in
          if String.eqb noPrefixLine "[DONE]" then
            let r := sr_done r in
            (r, Some (NewDoneChatCompletionStreamChunk r), Some EEOF)
          else if Contains noPrefixLine usageCompletionTokens then
            match NewUsageChatCompletionStreamChunk r noPrefixLine with
            | inr e => (sr_cancel r, None, Some e)
            | inl (r, chunk) => (sr_setUsage r (ck_Usage chunk), Some chunk, None)
            end
          else
            let '(r, chunk, err) := NewChatCompletionStreamChunk r noPrefixLine in
            match err with
            | Some e => (sr_cancel r, Some chunk, Some e)
            | None => (r, Some chunk, None)
            end
  end.

(** [MarshalJSON] and [ToServerSentEvent]. *)
Definition chunk_data (c : Chunk) : string :=
  if ck_isDone c then "[DONE]"
  else Marshal (match ck_body c with Some m => JObj m | None => JNull end).

Definition ToServerSentEvent (c : Chunk) : Event := mkEvent "" (chunk_data c) "" "" "".

Definition as_response (r : StreamResponse) : LLMResponse :=
  mkLLMResponse KStream 0 (sr_Model r) (ChatUsage <$> sr_Usage r) None None.
End Streaming.

(** ** Piping the stream to the client (listener/common.go) *)
Section Piping.
Context `{JSONPath} `{JSONText} {X : Type}.
Variable Marshal : json -> string.

(** Whether a write to the client succeeds, given all that was written. *)
Variable write_ok : string -> string -> bool.

(** An [OnChunk] callback gets the stream's context, the stream and the chunk,
    nil included. *)
Definition Callback : Type := Ctx -> StreamResponse -> option Chunk -> Eff X unit.

Fixpoint runCallbacks (cbs : list Callback) (r : StreamResponse) (chunk : option Chunk) : Eff X unit :=
  match cbs with
  | [] => mret tt
  | cb :: cbs => _ ← cb EOFCtx r chunk; runCallbacks cbs r chunk
  end.

(** The client's connection is the text written so far. *)
Fixpoint writeAll (out : string) (writes : list string) : string * bool :=
  match writes with
  | [] => (out, true)
  | s :: writes => if write_ok out s then writeAll (out +:+ s) writes else (out, false)
  end.

Definition MarshalTo (ev : Event) (out : string) : string * bool := writeAll out (MarshalTo_writes ev).

Definition handleChunk (chunk : Chunk) (out : string) : string * bool :=
  MarshalTo (ToServerSentEvent Marshal chunk) out.

(** The metadata that a chunk sets. *)
Definition noteChunk (chunk : Chunk) : RequestMetadata -> RequestMetadata := fun m =>
  let m := match ck_isUsage chunk, ck_Usage chunk with
           | true, Some u => setTokensUsage (ChatUsage u) m
           | _, _ => m
           end in
  if ck_isFirst chunk then setUpstreamResponseModel (ck_Model chunk) m else m.

(** The loop; the result is the stream at the end and what the client got. *)
Fixpoint pipe_loop (fuel : nat) (cbs : list Callback) (r : StreamResponse) (out : string)
    : Eff X (option (StreamResponse * string)) :=
  match fuel with
  | O => mret None
  | S fuel =>
      let '(r, chunk, err) := NextChunk r in
      _ ← runCallbacks cbs r chunk;
      match err with
      | Some e =>
          if IsEOFError e then
            match chunk with
            | Some chunk => let '(out, _) := handleChunk chunk out in mret (Some (r, out))
            | None => panic nil_deref
            end
          else mret (Some (r, out))
      | None =>
          match chunk with
          | None => panic nil_deref
          | Some chunk =>
              if ck_isEmpty chunk then pipe_loop fuel cbs r out
              else
                _ ← modifyMeta (noteChunk chunk);
                let '(out, ok) := handleChunk chunk out in
                if ok : bool then pipe_loop fuel cbs r out else mret (Some (r, out))
          end
      end
  end.

(** Every iteration but the last consumes a byte. *)
Definition pipeCompletionsStream (cbs : list Callback) (r : StreamResponse)
    : Eff X (option (StreamResponse * string)) :=
  pipe_loop (S (String.length (sr_input r))) cbs r "".
End Piping.

(** ** Lines *)
Lemma ReadLine_app line rest :
  ContainsByte line NL = false -> ReadLine (line +:+ nl +:+ rest) = Some (line +:+ nl, rest).
Proof.
  induction line as [|c line IH]; intros Hl; [done|].
  simpl in Hl. apply orb_false_iff in Hl as [Hc Hl].
  change ((String c line) +:+ nl +:+ rest) with (String c (line +:+ nl +:+ rest)).
  cbn [ReadLine]. rewrite Hc, IH by done. done.
Qed.

Lemma ReadLine_shorter s line rest : ReadLine s = Some (line, rest) -> (String.length rest < String.length s)%nat.
Proof.
  revert line. induction s as [|c s IH]; intros line; simpl; [done|].
  destruct (Ascii.eqb c NL); [intros [= _ <-]; lia|].
  destruct (ReadLine s) as [[l r]|]; [|done]. intros [= _ <-]. specialize (IH l eq_refl). lia.
Qed.

Lemma NextChunk_input `{JSONPath, JSONText} r r' chunk :
  NextChunk r = (r', chunk, None) -> (String.length (sr_input r') < String.length (sr_input r))%nat /\ is_Some chunk.
Proof.
  unfold NextChunk. destruct (ReadLine (sr_input r)) as [[line rest]|] eqn:E; [|done].
  apply ReadLine_shorter in E. cbn [sr_hasErrorPrefix sr_setInput].
  destruct (sr_hasErrorPrefix r) eqn:He; [intros [= <- <-]; split; [exact E | by eexists]|].
  destruct (HasPrefix (TrimSpace line) errorPrefix), (HasPrefix (TrimSpace line) headerData);
    cbn [negb orb sr_setErrorPrefix sr_setInput sr_hasErrorPrefix]; rewrite ?He; try (intros [= <- <-]; split; [exact E | by eexists]).
  all: destruct (String.eqb _ "[DONE]"); [by intros [=]|]; destruct (Contains _ usageCompletionTokens).
  all: unfold NewUsageChatCompletionStreamChunk, NewChatCompletionStreamChunk;
    destruct (chunk_processBytes _); try (by intros [=]).
  all: try (destruct (FromMap_ChatCompletionsUsage _); try (by intros [=])); destruct (String.eqb _ "");
    intros [= <- <-]; (split; [exact E | by eexists]).
Qed.

(** ** The event format *)
Definition one_line (s : string) : bool := negb (ContainsByte s NL).

(** The lines of an event. *)
Definition event_fields (ev : Event) : list string :=
  let field name value := if String.eqb value "" then [] else [name +:+ value] in
  (if String.eqb (ev_Data ev) "" then []
   else field "id: " (ev_ID ev) ++ map (fun line => "data: " +:+ line) (Split NL (ev_Data ev))
        ++ field "event: " (ev_Event ev) ++ field "retry: " (ev_Retry ev))
  ++ field ": " (ev_Comment ev) ++ [""].

Lemma MarshalTo_writes_lines ev :
  String.eqb (ev_Data ev) "" && String.eqb (ev_Comment ev) "" = false ->
  MarshalTo_writes ev = map (fun l => l +:+ nl) (event_fields ev).
Proof.
  intros H. unfold MarshalTo_writes, event_fields. rewrite H.
  assert (forall name v, (if String.eqb v "" then [] else [name +:+ v +:+ nl])
    = map (fun l => l +:+ nl) (if String.eqb v "" then [] else [name +:+ v])) as Hf.
  { intros name v. destruct (String.eqb v ""); [done|]. simpl. by rewrite string_app_assoc. }
  assert (map (fun line => "data: " +:+ line +:+ nl) (Split NL (ev_Data ev))
    = map (fun l => l +:+ nl) (map (fun line => "data: " +:+ line) (Split NL (ev_Data ev)))) as Hm.
  { rewrite map_map. apply map_ext. intros l. by rewrite string_app_assoc. }
  destruct (String.eqb (ev_Data ev) ""); by rewrite !map_app, !Hf, ?Hm.
Qed.

Lemma Split_lines ls :
  Forall (fun l => one_line l = true) ls ->
  Split NL (concat_strings (map (fun l => l +:+ nl) ls)) = ls ++ [""].
Proof.
  induction 1 as [|l ls Hl Hls IH]; [done|]. simpl.
  rewrite <- string_app_assoc. change (nl +:+ ?s) with (String NL s).
  rewrite Split_app by (unfold one_line in Hl; by apply negb_true_iff in Hl).
  by rewrite IH.
Qed.

Lemma Split_one_line sep s : Forall (fun l => ContainsByte l sep = false) (Split sep s).
Proof.
  induction s as [|c s IH]; simpl; [by constructor|].
  destruct (Ascii.eqb_spec c sep); [by constructor|].
  destruct (Split sep s) as [|p ps]; [constructor; [|done]; simpl; by destruct (Ascii.eqb_spec c sep)|].
  apply Forall_cons in IH as [Hp Hps]. constructor; [|done]. simpl. rewrite Hp.
  by destruct (Ascii.eqb_spec c sep).
Qed.

Lemma event_lines_app l k : event_lines (l ++ k) = event_lines l ++ event_lines k.
Proof. induction l as [|s l IH]; [done|]. simpl. destruct (HasPrefix s "data: "); simpl; by rewrite IH. Qed.

Lemma event_lines_data ls : event_lines (map (fun line => "data: " +:+ line) ls) = ls.
Proof.
  induction ls as [|l ls IH]; [done|]. simpl map. cbn [event_lines].
  by rewrite HasPrefix_app, TrimPrefix_app, IH.
Qed.

Lemma event_lines_field name v :
  HasPrefix name "data: " = false -> (forall t, HasPrefix (name +:+ t) "data: " = false) ->
  event_lines (if String.eqb v "" then [] else [name +:+ v]) = [].
Proof. intros _ H. destruct (String.eqb v ""); [done|]. simpl. by rewrite H. Qed.

(** What the client decodes from a written event is the event's data,
    newlines included: the other fields, the comment and the framing neither
    add to it nor cut it. *)
Theorem event_roundtrip ev :
  ev_Data ev <> "" ->
  one_line (ev_ID ev) = true -> one_line (ev_Event ev) = true ->
  one_line (ev_Retry ev) = true -> one_line (ev_Comment ev) = true ->
  event_data (concat_strings (MarshalTo_writes ev)) = ev_Data ev.
Proof.
  intros Hd Hi He Hr Hc. apply String.eqb_neq in Hd.
  rewrite MarshalTo_writes_lines by (by rewrite Hd). unfold event_data.
  assert (forall name v, one_line name = true -> one_line v = true ->
    Forall (fun l => one_line l = true) (if String.eqb v "" then [] else [name +:+ v])) as Hf.
  { intros name v Hn Hv. destruct (String.eqb v ""); [constructor|]. constructor; [|constructor].
    unfold one_line in *. rewrite ContainsByte_app. by apply negb_true_iff in Hn as ->. }
  rewrite Split_lines.
  - unfold event_fields. rewrite Hd, !event_lines_app, event_lines_data.
    rewrite !event_lines_field by done. simpl. rewrite !app_nil_r. apply Join_Split.
  - unfold event_fields. rewrite Hd. rewrite !Forall_app. repeat split; try by apply Hf.
    + apply Forall_map. eapply Forall_impl; [apply Split_one_line|]. intros l Hl. unfold one_line.
      rewrite ContainsByte_app. simpl. by rewrite Hl.
    + by constructor.
Qed.

Lemma event_roundtrip_witness :
  event_data (concat_strings (MarshalTo_writes (mkEvent "7" ("first" +:+ nl +:+ "second") "delta" "" "ping")))
  = "first" +:+ nl +:+ "second".
Proof. apply (event_roundtrip (mkEvent "7" ("first" +:+ nl +:+ "second") "delta" "" "ping")); done. Defined.

(** ** A well-formed upstream stream *)
Section Wellformed.
Context `{JSONPath} `{JSONText} {X : Type}.
Variable Marshal : json -> string.

(** A data line [b] that carries the object [m]: one line, nothing to trim,
    not the error or the end mark, and with a readable usage if it has one. *)
Record good_body (b : string) (m : gmap string json) : Prop := {
  good_line : one_line b = true;
  good_trim : TrimSpace (headerData +:+ b +:+ nl) = headerData +:+ b;
  good_prefix : HasPrefix (headerData +:+ b) errorPrefix = false;
  good_not_done : String.eqb b "[DONE]" = false;
  good_json : Unmarshal b = Some (JObj m);
  good_usage : Contains b usageCompletionTokens = true ->
    exists u, FromMap_ChatCompletionsUsage (GetByJSONPath_map (Some m) "{ .usage }") = inl u }.

(** The upstream's text: the data lines, each followed by a blank line, the
    end mark, and anything after it. *)
Definition upstream_text (bs : list string) (rest : string) : string :=
  concat_strings (map (fun b => headerData +:+ b +:+ nl +:+ nl) bs)
  +:+ headerData +:+ "[DONE]" +:+ nl +:+ rest.

Definition frame (data : string) : string := "data: " +:+ data +:+ nl +:+ nl.

(** The usage that a chunk reports, if any. *)
Definition reported (old : option LLMUsage) (b : string) (m : gmap string json) : option LLMUsage :=
  if Contains b usageCompletionTokens then
    match FromMap_ChatCompletionsUsage (GetByJSONPath_map (Some m) "{ .usage }") with
    | inl (Some u) => Some (ChatUsage u)
    | _ => old
    end
  else old.

Fixpoint reported_all (old : option LLMUsage) (bs : list string) (ms : list (gmap string json)) : option LLMUsage :=
  match bs, ms with
  | b :: bs, m :: ms => reported_all (reported old b m) bs ms
  | _, _ => old
  end.

Lemma ReadLine_data b rest :
  one_line b = true ->
  ReadLine (headerData +:+ b +:+ nl +:+ rest) = Some (headerData +:+ b +:+ nl, rest).
Proof.
  intros Hb. rewrite (string_app_assoc headerData b (nl +:+ rest)), (string_app_assoc headerData b nl).
  apply ReadLine_app. rewrite ContainsByte_app.
  unfold one_line in Hb. by apply negb_true_iff in Hb as ->.
Qed.

Lemma NextChunk_data r b m rest :
  good_body b m -> sr_hasErrorPrefix r = false -> sr_input r = headerData +:+ b +:+ nl +:+ rest ->
  exists r' chunk, NextChunk r = (r', Some chunk, None) /\
    sr_hasErrorPrefix r' = false /\ sr_input r' = rest /\ ck_isEmpty chunk = false /\
    chunk_data Marshal chunk = Marshal (JObj m) /\
    ck_isUsage chunk = Contains b usageCompletionTokens /\
    (ck_isUsage chunk = true ->
      FromMap_ChatCompletionsUsage (GetByJSONPath_map (Some m) "{ .usage }") = inl (ck_Usage chunk)).
Proof.
  intros [Hl Ht Hp Hd Hj Hu] He Hi. unfold NextChunk. rewrite Hi, ReadLine_data by done.
  cbn [sr_setInput sr_hasErrorPrefix]. rewrite He, Ht, Hp.
  assert (HasPrefix (headerData +:+ b) headerData = true) as -> by apply HasPrefix_app.
  cbn [negb orb sr_setInput sr_hasErrorPrefix]. rewrite He, TrimPrefix_app, Hd.
  destruct (Contains b usageCompletionTokens) eqn:Hc.
  - destruct (Hu eq_refl) as [u Eu].
    unfold NewUsageChatCompletionStreamChunk, chunk_processBytes. rewrite Hj. cbn [decode_object]. rewrite Eu.
    do 2 eexists. split; [reflexivity|]. cbn. destruct (String.eqb _ ""); cbn; done.
  - unfold NewChatCompletionStreamChunk, chunk_processBytes. rewrite Hj. cbn [decode_object].
    do 2 eexists. split; [reflexivity|]. cbn. destruct (String.eqb _ ""); cbn; done.
Qed.

Lemma NextChunk_blank r rest :
  sr_hasErrorPrefix r = false -> sr_input r = nl +:+ rest ->
  exists r' chunk, NextChunk r = (r', Some chunk, None) /\
    sr_hasErrorPrefix r' = false /\ sr_input r' = rest /\ ck_isEmpty chunk = true.
Proof.
  intros He Hi. unfold NextChunk. rewrite Hi. change (ReadLine (nl +:+ rest)) with (Some (nl, rest)).
  cbn [sr_setInput sr_hasErrorPrefix]. rewrite He.
  change (TrimSpace nl) with "". cbn [HasPrefix negb orb].
  do 2 eexists. split; [reflexivity|]. done.
Qed.

Lemma NextChunk_done r rest :
  sr_hasErrorPrefix r = false -> sr_input r = headerData +:+ "[DONE]" +:+ nl +:+ rest ->
  exists r' chunk, NextChunk r = (r', Some chunk, Some EEOF) /\
    sr_isDone r' = true /\ sr_cancelled r' = true /\ chunk_data Marshal chunk = "[DONE]".
Proof.
  intros He Hi. unfold NextChunk. rewrite Hi, ReadLine_data by done.
  cbn [sr_setInput sr_hasErrorPrefix]. rewrite He.
  change (TrimSpace (headerData +:+ "[DONE]" +:+ nl)) with (headerData +:+ "[DONE]").
  change (HasPrefix (headerData +:+ "[DONE]") errorPrefix) with false.
  change (HasPrefix (headerData +:+ "[DONE]") headerData) with true.
  cbn [negb orb sr_setInput sr_hasErrorPrefix]. rewrite He.
  do 2 eexists. split; [reflexivity|]. done.
Qed.

Lemma writeAll_ok write_ok writes : (forall out s, write_ok out s = true) ->
  forall out, writeAll write_ok out writes = (out +:+ concat_strings writes, true).
Proof.
  intros Hw. induction writes as [|s ws IH]; intros out; simpl; [by rewrite string_app_nil_r|].
  by rewrite Hw, IH, string_app_assoc.
Qed.

Lemma handleChunk_frame write_ok chunk out d :
  (forall out s, write_ok out s = true) -> chunk_data Marshal chunk = d -> d <> "" -> one_line d = true ->
  handleChunk Marshal write_ok chunk out = (out +:+ frame d, true).
Proof.
  intros Hw Hc Hd Hl. unfold handleChunk, MarshalTo. rewrite writeAll_ok by done.
  unfold ToServerSentEvent, MarshalTo_writes. rewrite Hc. cbn [ev_Data ev_ID ev_Event ev_Retry ev_Comment].
  apply String.eqb_neq in Hd. rewrite Hd. cbn [String.eqb andb app].
  rewrite Split_no_sep by (unfold one_line in Hl; by apply negb_true_iff in Hl).
  simpl. unfold frame. rewrite string_app_nil_r.
  by rewrite <- !string_app_assoc.
Qed.
End Wellformed.

Section Pipe.
Context `{JSONPath} `{JSONText} {X : Type}.
Variable Marshal : json -> string.
Variable write_ok : string -> string -> bool.

(** The callbacks that return normally and leave the metadata alone. *)
Definition quiet_callback (cb : Callback) : Prop :=
  forall ctx r chunk (w : World X), chunk <> None -> exists x, cb ctx r chunk w = Ret (mkWorld (w_meta w) (w_req w) x, tt).

Lemma runCallbacks_quiet cbs r chunk (w : World X) :
  Forall quiet_callback cbs ->
  exists x, runCallbacks cbs r (Some chunk) w = Ret (mkWorld (w_meta w) (w_req w) x, tt).
Proof.
  intros Hq. revert w. induction Hq as [|cb cbs Hcb Hcbs IH]; intros w.
  - exists (w_ext w). by destruct w.
  - destruct (Hcb EOFCtx r (Some chunk) w) as [x E]; [done|]. cbn [runCallbacks].
    rewrite (Eff_bind_Ret _ _ _ _ _ E). destruct (IH (mkWorld (w_meta w) (w_req w) x)) as [x' ->]. by exists x'.
Qed.

Lemma pipe_step cbs fuel r r' chunk out (w : World X) :
  Forall quiet_callback cbs -> NextChunk r = (r', Some chunk, None) ->
  exists x, pipe_loop Marshal write_ok (S fuel) cbs r out w
  = if ck_isEmpty chunk then pipe_loop Marshal write_ok fuel cbs r' out (mkWorld (w_meta w) (w_req w) x)
    else let '(out, ok) := handleChunk Marshal write_ok chunk out in
         (if ok : bool then pipe_loop Marshal write_ok fuel cbs r' out else mret (Some (r', out)))
         (mkWorld (noteChunk chunk (w_meta w)) (w_req w) x).
Proof.
  intros Hq Hn. destruct (runCallbacks_quiet cbs r' chunk w Hq) as [x Ex]. exists x.
  cbn [pipe_loop]. rewrite Hn. rewrite (Eff_bind_Ret _ _ _ _ _ Ex).
  destruct (ck_isEmpty chunk); [done|]. cbn.
  destruct (handleChunk Marshal write_ok chunk out) as [out' []]; done.
Qed.

Lemma pipe_loop_wellformed cbs rest bs ms : forall fuel r out (w : World X),
  Forall quiet_callback cbs ->
  (forall out s, write_ok out s = true) ->
  (forall m, Marshal (JObj m) <> "" /\ one_line (Marshal (JObj m)) = true) ->
  Forall2 good_body bs ms ->
  sr_hasErrorPrefix r = false -> sr_input r = upstream_text bs rest ->
  (String.length (sr_input r) < fuel)%nat ->
  exists w' r', pipe_loop Marshal write_ok fuel cbs r out w
    = Ret (w', Some (r', out +:+ concat_strings (map (fun m => frame (Marshal (JObj m))) ms) +:+ frame "[DONE]")) /\
    sr_isDone r' = true /\ w_req w' = w_req w /\
    LLMUpstreamTokensUsage (w_meta w') = reported_all (LLMUpstreamTokensUsage (w_meta w)) bs ms.
Proof.
  intros fuel r out w Hq Hw HM Hg. revert fuel r out w.
  induction Hg as [|b m bs ms Hb Hbs IH]; intros fuel r out w He Hi Hf.
  - destruct (NextChunk_done Marshal r rest He Hi) as (r' & chunk & Hn & Hd & Hc & Hdata).
    destruct fuel as [|fuel]; [lia|].
    destruct (runCallbacks_quiet cbs r' chunk w Hq) as [x Ex].
    exists (mkWorld (w_meta w) (w_req w) x), r'. cbn [pipe_loop]. rewrite Hn, (Eff_bind_Ret _ _ _ _ _ Ex).
    cbn [IsEOFError]. rewrite (handleChunk_frame Marshal write_ok chunk out "[DONE]") by done. done.
  - unfold upstream_text in Hi. simpl in Hi. rewrite <- !string_app_assoc in Hi.
    destruct (NextChunk_data Marshal r b m _ Hb He Hi) as (r1 & c1 & Hn1 & He1 & Hi1 & Hemp & Hdata & HisU & HU).
    destruct (NextChunk_blank r1 (upstream_text bs rest) He1) as (r2 & c2 & Hn2 & He2 & Hi2 & Hemp2).
    { rewrite Hi1. unfold upstream_text. by rewrite ?string_app_assoc. }
    pose proof (NextChunk_input _ _ _ Hn1) as [Hl1 _]. pose proof (NextChunk_input _ _ _ Hn2) as [Hl2 _].
    destruct fuel as [|[|fuel]]; [lia..|].
    destruct (pipe_step cbs (S fuel) r r1 c1 out w Hq Hn1) as [x1 ->]. rewrite Hemp.
    destruct (HM m) as [HMne HMl].
    rewrite (handleChunk_frame Marshal write_ok c1 out (Marshal (JObj m))) by done.
    destruct (pipe_step cbs fuel r1 r2 c2 (out +:+ frame (Marshal (JObj m))) (mkWorld (noteChunk c1 (w_meta w)) (w_req w) x1) Hq Hn2) as [x2 ->].
    rewrite Hemp2.
    destruct (IH fuel r2 (out +:+ frame (Marshal (JObj m)))
      (mkWorld (noteChunk c1 (w_meta w)) (w_req w) x2) He2 Hi2) as (w' & r' & E & Hdone & Hreq & Huse); [lia|].
    exists w', r'. cbn [w_meta w_req]. rewrite E. split; [|split; [done|split; [done|]]].
    + do 4 f_equal. simpl. by rewrite <- !string_app_assoc.
    + rewrite Huse. cbn [reported_all w_meta]. f_equal. unfold noteChunk, reported.
      rewrite HisU in HU |- *. destruct (Contains b usageCompletionTokens).
      * rewrite (HU eq_refl). destruct (ck_Usage c1), (ck_isFirst c1); done.
      * destruct (ck_isFirst c1); done.
Qed.

(** Callbacks that do nothing leave the surroundings alone. *)
Definition idle_callback (cb : Callback) : Prop := forall ctx r chunk (w : World X), cb ctx r chunk w = Ret (w, tt).

Lemma idle_quiet cb : idle_callback cb -> quiet_callback cb.
Proof. intros Hi ctx r chunk w _. exists (w_ext w). rewrite Hi. by destruct w. Qed.

Lemma runCallbacks_idle cbs r chunk (w : World X) : Forall idle_callback cbs -> runCallbacks cbs r chunk w = Ret (w, tt).
Proof.
  intros Hi. induction Hi as [|cb cbs Hcb Hcbs IH]; [done|]. cbn [runCallbacks].
  by rewrite (Eff_bind_Ret _ _ w w tt (Hcb _ _ _ _)).
Qed.

Lemma pipe_loop_idle_ext cbs fuel : Forall idle_callback cbs -> forall r out w w' res,
  pipe_loop Marshal write_ok fuel cbs r out w = Ret (w', res) -> w_ext w' = w_ext w.
Proof.
  intros Hi. induction fuel as [|fuel IH]; intros r out w w' res; cbn [pipe_loop]; [by intros [= <- <-]|].
  destruct (NextChunk r) as [[r' chunk] err]. rewrite (Eff_bind_Ret _ _ w w tt (runCallbacks_idle cbs r' chunk w Hi)).
  destruct err as [e|].
  - destruct (IsEOFError e); [|by intros [= <- <-]]. destruct chunk as [chunk|]; [|done].
    destruct (handleChunk Marshal write_ok chunk out). by intros [= <- <-].
  - destruct chunk as [chunk|]; [|done]. destruct (ck_isEmpty chunk); [apply IH|].
    unfold mbind, Eff_bind, modifyMeta. destruct (handleChunk Marshal write_ok chunk out) as [out' []].
    + apply (IH r' out' (mkWorld (noteChunk chunk (w_meta w)) (w_req w) (w_ext w))).
    + by intros [= <- <-].
Qed.

(** C15: a well-formed upstream stream reaches the client complete and in
    order: every data line's object as one event, then the end mark, nothing
    else; the pipe terminates, the stream is marked done, and the metadata
    hold the last usage the upstream reported. *)
Theorem pipe_wellformed cbs rest ending bs ms (w : World X) :
  Forall quiet_callback cbs ->
  (forall out s, write_ok out s = true) ->
  (forall m, Marshal (JObj m) <> "" /\ one_line (Marshal (JObj m)) = true) ->
  Forall2 good_body bs ms ->
  exists w' r', pipeCompletionsStream Marshal write_ok cbs
      (NewChatCompletionStreamResponse (upstream_text bs rest) ending) w
    = Ret (w', Some (r', concat_strings (map (fun m => frame (Marshal (JObj m))) ms) +:+ frame "[DONE]")) /\
    sr_isDone r' = true /\ w_req w' = w_req w /\
    LLMUpstreamTokensUsage (w_meta w') = reported_all (LLMUpstreamTokensUsage (w_meta w)) bs ms.
Proof.
  intros Hq Hw HM Hg.
  apply (pipe_loop_wellformed cbs rest bs ms _ (NewChatCompletionStreamResponse (upstream_text bs rest) ending) "");
    done || simpl; lia.
Qed.

(** C31: the pipe always ends: whatever the upstream sends and however
    callbacks and writes behave, the loop stops within one iteration per
    byte received plus one, by returning or by a panic. *)
Theorem pipe_terminates cbs r (w : World X) :
  match pipeCompletionsStream Marshal write_ok cbs r w with
  | Ret (_, res) => is_Some res
  | Panic _ => True
  end.
Proof.
  unfold pipeCompletionsStream. generalize "" at 1.
  assert (forall fuel r out w, (String.length (sr_input r) < fuel)%nat ->
    match pipe_loop Marshal write_ok fuel cbs r out w with Ret (_, res) => is_Some res | Panic _ => True end) as Hgen.
  { clear r w. induction fuel as [|fuel IH]; intros r out w Hf; [lia|].
    cbn [pipe_loop]. destruct (NextChunk r) as [[r' chunk] [e|]] eqn:Hn.
    - unfold mbind, Eff_bind. destruct (runCallbacks cbs r' chunk w) as [[w1 []]|]; [|done].
      destruct (IsEOFError e); [|by eexists]. destruct chunk as [chunk|]; [|done].
      destruct (handleChunk Marshal write_ok chunk out). by eexists.
    - destruct (NextChunk_input _ _ _ Hn) as [Hlt [c ->]].
      unfold mbind, Eff_bind. destruct (runCallbacks cbs r' (Some c) w) as [[w1 []]|]; [|done].
      destruct (ck_isEmpty c); [apply IH; lia|]. cbn.
      destruct (handleChunk Marshal write_ok c out) as [out' []]; [apply IH; lia|by eexists]. }
  intros out. apply Hgen. lia.
Qed.

(** When the upstream closes the stream without the end mark, what
    follows its last newline is dropped and the client is sent an event with
    the JSON form of a nil body in place of the end mark. *)
Theorem pipe_without_done cbs r (w : World X) :
  Forall quiet_callback cbs ->
  (forall out s, write_ok out s = true) ->
  Marshal JNull <> "" -> one_line (Marshal JNull) = true ->
  ReadLine (sr_input r) = None -> sr_end r = EEOF ->
  exists w' r', pipeCompletionsStream Marshal write_ok cbs r w = Ret (w', Some (r', frame (Marshal JNull))) /\
    w_meta w' = w_meta w /\ sr_isDone r' = sr_isDone r.
Proof.
  intros Hq Hw HM1 HM2 Hl He. unfold pipeCompletionsStream. cbn [pipe_loop].
  unfold NextChunk. rewrite Hl. cbv zeta. change (sr_end (sr_cancel (sr_setInput r ""))) with (sr_end r). rewrite He.
  set (r1 := sr_cancel (sr_setInput r "")). set (c := NewEmptyChatCompletionStreamChunk r1).
  destruct (runCallbacks_quiet cbs r1 c w Hq) as [x Ex].
  rewrite (Eff_bind_Ret _ _ _ _ _ Ex). cbn [IsEOFError].
  rewrite (handleChunk_frame Marshal write_ok c "" (Marshal JNull)) by done.
  by do 2 eexists.
Qed.
End Pipe.

(** A concrete codec for the witnesses: two bodies. *)
Definition ex_body1 : string := "{" +:+ quote +:+ "model" +:+ quote +:+ ":" +:+ quote +:+ "m" +:+ quote +:+ "}".
Definition ex_obj1 : gmap string json := {[ "model" := JStr "m" ]}.
Definition ex_Unmarshal : JSONText := fun s => if String.eqb s ex_body1 then Some (JObj ex_obj1) else None.
Definition ex_Marshal (j : json) : string := match j with JNull => "null" | _ => ex_body1 end.
Definition ex_request : LLMRequest := mkLLMRequest RequestTypeChatCompletions "m" true None None None None None None.
Definition ex_world : World unit := mkWorld InitMetadata ex_request tt.

Lemma ex_good : @good_body dotted_paths ex_Unmarshal ex_body1 ex_obj1.
Proof. split; try (vm_compute; reflexivity). vm_compute. discriminate. Qed.

Lemma pipe_wellformed_witness :
  exists w' r', @pipeCompletionsStream dotted_paths ex_Unmarshal unit ex_Marshal (fun _ _ => true) []
      (NewChatCompletionStreamResponse (upstream_text [ex_body1; ex_body1] "") EEOF) ex_world
    = Ret (w', Some (r', concat_strings (map (fun m => frame (ex_Marshal (JObj m))) [ex_obj1; ex_obj1]) +:+ frame "[DONE]")) /\
    sr_isDone r' = true /\ w_req w' = w_req ex_world /\
    LLMUpstreamTokensUsage (w_meta w')
    = @reported_all dotted_paths ex_Unmarshal (LLMUpstreamTokensUsage (w_meta ex_world)) [ex_body1; ex_body1] [ex_obj1; ex_obj1].
Proof.
  apply (@pipe_wellformed dotted_paths ex_Unmarshal unit ex_Marshal (fun _ _ => true) [] "" EEOF [ex_body1; ex_body1] [ex_obj1; ex_obj1] ex_world).
  - constructor.
  - reflexivity.
  - intros m. split; [discriminate | reflexivity].
  - apply Forall2_cons. split; [exact ex_good|]. apply Forall2_cons. split; [exact ex_good|]. apply Forall2_nil. done.
Defined.

Lemma pipe_without_done_witness :
  exists w' r', @pipeCompletionsStream dotted_paths ex_Unmarshal unit ex_Marshal (fun _ _ => true) []
      (NewChatCompletionStreamResponse "data: trunc" EEOF) ex_world
    = Ret (w', Some (r', frame (ex_Marshal JNull))) /\
    w_meta w' = w_meta ex_world /\ sr_isDone r' = false.
Proof.
  apply (@pipe_without_done dotted_paths ex_Unmarshal unit ex_Marshal (fun _ _ => true) []
    (NewChatCompletionStreamResponse "data: trunc" EEOF) ex_world); try reflexivity; [constructor | discriminate].
Defined.
