(* ===== verification/Filters.v ===== *)
(** * pkg/filters: the interfaces of request filters

    A filter implements some of the hook interfaces; a type assertion on it
    is a field that is [Some]. *)
From S2P Require Import Prelude Strconv Utils GoFloat Json Api Errors Request Response Effects Stream.

(** ** HTTP requests, as far as they are read *)

(** [textproto.CanonicalMIMEHeaderKey] *)
Definition token_byte (c : ascii) : bool :=
  let n := Ascii.nat_of_ascii c in
  (Nat.leb 48 n && Nat.leb n 57 || Nat.leb 65 n && Nat.leb n 90 || Nat.leb 97 n && Nat.leb n 122
   || existsb (Nat.eqb n) [33; 35; 36; 37; 38; 39; 42; 43; 45; 46; 94; 95; 96; 124; 126])%nat%bool.
Fixpoint all_bytes (f : ascii -> bool) (s : string) : bool :=
  match s with EmptyString => true | String c s => f c && all_bytes f s end.
Definition lower_ascii (c : ascii) : ascii :=
  let n := Ascii.nat_of_ascii c in
  if (Nat.leb 65 n && Nat.leb n 90)%bool then Ascii.ascii_of_nat (n + 32) else c.
Fixpoint canonical_loop (upper : bool) (s : string) : string :=
  match s with
  | EmptyString => EmptyString
  | String c s =>
      String (if upper then upper_ascii c else lower_ascii c) (canonical_loop (Ascii.eqb c "-") s)
  end.
Definition CanonicalHeaderKey (k : string) : string :=
  if all_bytes token_byte k then canonical_loop true k else k.

Definition Header : Type := gmap string string.
Definition Header_Get (h : Header) (k : string) : string := FromPtrOr (h !! CanonicalHeaderKey k) "".
Definition Header_Set (h : Header) (k v : string) : Header := <[CanonicalHeaderKey k := v]> h.

(** A body: a JSON document, or any other text. *)
Inductive Payload : Type :=
| BodyJSON (doc : json)
| BodyText (text : string).

Record HTTPRequest : Type := mkHTTPRequest {
  hr_Method : string;
  hr_URL : string;
  hr_Header : Header;
  hr_Body : Payload }.

(** ** Results *)
Definition ListenerFilterResultTypeSucceeded := 0.
Definition ListenerFilterResultTypeFailed := 1.
Definition ListenerFilterResultTypeSkipped := 2.

Record RequestFilterResult : Type := mkResult {
  frr_Type : Z;
  frr_Error : option gerror }.

Definition IsFailed (r : RequestFilterResult) : bool := frr_Type r =? ListenerFilterResultTypeFailed.
Definition IsSkipped (r : RequestFilterResult) : bool := frr_Type r =? ListenerFilterResultTypeSkipped.
Definition IsSSucceeded (r : RequestFilterResult) : bool := frr_Type r =? ListenerFilterResultTypeSucceeded.
Definition NewOK : RequestFilterResult := mkResult ListenerFilterResultTypeSucceeded None.
Definition NewFailed (err : gerror) : RequestFilterResult := mkResult ListenerFilterResultTypeFailed (Some err).

(** ** Filters and their hooks *)
Record RequestFilter (X : Type) : Type := mkFilter {
  OnRequestPre : option (HTTPRequest -> Eff X RequestFilterResult);
  OnCompletionRequest : option (HTTPRequest -> Eff X RequestFilterResult);
  OnImageGenerationsRequest : option (HTTPRequest -> Eff X RequestFilterResult);
  OnCompletionResponse : option (LLMResponse -> Eff X RequestFilterResult);
  OnCompletionStreamResponse : option (Ctx -> StreamResponse -> option Chunk -> Eff X RequestFilterResult);
  OnImageGenerationsResponse : option (LLMResponse -> Eff X RequestFilterResult);
  OnResponsePost : option (option LLMResponse -> option gerror -> Eff X unit) }.
Arguments mkFilter {X}.
Arguments OnRequestPre {X}.
Arguments OnCompletionRequest {X}.
Arguments OnImageGenerationsRequest {X}.
Arguments OnCompletionResponse {X}.
Arguments OnCompletionStreamResponse {X}.
Arguments OnImageGenerationsResponse {X}.
Arguments OnResponsePost {X}.

Section Hooks.
Context {X : Type}.

Definition OnRequestPreFilters (r : list (RequestFilter X)) := TypeAssertFrom OnRequestPre r.
Definition OnCompletionRequestFilters (r : list (RequestFilter X)) := TypeAssertFrom OnCompletionRequest r.
Definition OnImageGenerationsRequestFilters (r : list (RequestFilter X)) := TypeAssertFrom OnImageGenerationsRequest r.
Definition OnCompletionResponseFilters (r : list (RequestFilter X)) := TypeAssertFrom OnCompletionResponse r.
Definition OnCompletionStreamResponseFilters (r : list (RequestFilter X)) := TypeAssertFrom OnCompletionStreamResponse r.
Definition OnImageGenerationsResponseFilters (r : list (RequestFilter X)) := TypeAssertFrom OnImageGenerationsResponse r.
Definition OnResponsePostFilters (r : list (RequestFilter X)) := TypeAssertFrom OnResponsePost r.

(** [for _, f := range hooks { if f(...).IsFailed() { return ..., Error } }]:
    the result of the first hook that fails. *)
Fixpoint firstFailure {A} (hooks : list (A -> Eff X RequestFilterResult)) (a : A)
    : Eff X (option RequestFilterResult) :=
  match hooks with
  | [] => mret None
  | f :: hooks =>
      fResult ← f a;
      if IsFailed fResult then mret (Some fResult) else firstFailure hooks a
  end.

(** The response hooks all run; their failures are only logged. *)
Fixpoint runAll {A} (hooks : list (A -> Eff X RequestFilterResult)) (a : A) : Eff X unit :=
  match hooks with
  | [] => mret tt
  | f :: hooks => _ ← f a; runAll hooks a
  end.

(** The callback a stream is given: every stream hook, in order. *)
Definition streamCallback (filters : list (RequestFilter X)) : Callback :=
  fun ctx r chunk =>
    runAll (map (fun h x => h ctx (fst x) (snd x)) (OnCompletionStreamResponseFilters filters)) (r, chunk).

(** The hooks of [firstFailure] that were reached. *)
Lemma firstFailure_app {A} (l k : list (A -> Eff X RequestFilterResult)) a w :
  firstFailure (l ++ k) a w =
  match firstFailure l a w with
  | Ret (w', None) => firstFailure k a w'
  | r => r
  end.
Proof.
  revert w. induction l as [|f l IH]; intros w; [done|]. simpl.
  unfold mbind, Eff_bind. destruct (f a w) as [[w' r]|]; [|done].
  destruct (IsFailed r); [done | apply IH].
Qed.
End Hooks.
