(* ===== verification/Auth.v ===== *)
(** * pkg/filters/auth: API keys and model access

    The glob matcher (doublestar) and the remote authorization service are
    parameters. *)
From S2P Require Import Prelude Strconv Utils GoFloat Json Api Errors Request Response Effects Stream Filters.

(** The status of a failed gRPC call. *)
Inductive grpcCode : Type :=
| codes_NotFound
| codes_Unauthenticated
| codes_PermissionDenied
| codes_Unavailable
| codes_other (n : Z).

(** [BearerMarshal], on the value of the Authorization header. *)
Definition BearerMarshal (request : HTTPRequest) : string + gerror :=
  let authHeader := Header_Get (hr_Header request) "Authorization" in
  if String.eqb authHeader "" then inr (EPlain "missing Authorization header")
  else if negb (HasPrefix authHeader "Bearer ") then inr (EPlain "invalid Authorization header format")
  else
    let token := TrimPrefix authHeader "Bearer " in
    if String.eqb token "" then inr (EPlain "missing API Key in Authorization header")
    else inl token.

Section Access.
(** [doublestar.Match(rule, name)]: [None] for a malformed pattern. *)
Variable Match : string -> string -> option bool.

Definition ruleMatches (requestModel rule : string) : bool :=
  match Match rule requestModel with Some matched => matched | None => false end.

Definition IsDenied (requestModel : string) (denyModels : list string) : bool :=
  match denyModels with
  | [] => false
  | _ => existsb (ruleMatches requestModel) denyModels
  end.

Definition IsGranted (requestModel : string) (allowModels : list string) : bool :=
  match allowModels with
  | [] => true
  | _ => existsb (ruleMatches requestModel) allowModels
  end.

Definition CanAccessModelFromValues (isDenied isGranted : bool) : bool := negb isDenied && isGranted.

Definition CanAccessModel (requestModel : string) (allowModels denyModels : list string) : bool :=
  CanAccessModelFromValues (IsDenied requestModel denyModels) (IsGranted requestModel allowModels).
End Access.

Section AuthFilter.
Context {X : Type}.
Variable Match : string -> string -> option bool.

(** The remote [APIKeyAuth] call on a key: a response, or an error with its
    gRPC status when it has one. *)
Variable APIKeyAuth : string -> Eff X (APIKeyAuthResponse + (gerror * option grpcCode)).

Definition AuthFilter_OnRequestPre (sourceHTTPRequest : HTTPRequest) : Eff X RequestFilterResult :=
  rMeta ← getMeta;
  _ ← modifyMeta (setAuth true (AuthInfo rMeta));
  match BearerMarshal sourceHTTPRequest with
  | inr _ => mret (NewFailed (EBase NewErrorMissingAPIKey))
  | inl apiKey =>
      response ← APIKeyAuth apiKey;
      match response with
      | inr (err, code) =>
          match code with
          | None => mret (NewFailed err)
          | Some codes_NotFound => mret (NewFailed (EBase (NewErrorIncorrectAPIKey apiKey)))
          | Some codes_Unauthenticated => mret (NewFailed (EBase (NewErrorIncorrectAPIKey apiKey)))
          | Some codes_PermissionDenied => mret (NewFailed (EBase (NewErrorIncorrectAPIKey apiKey)))
          | Some codes_Unavailable => mret (NewFailed (EBase NewErrorServiceUnavailable))
          | Some (codes_other _) => mret (NewFailed err)
          end
      | inl response =>
          _ ← modifyMeta (fun m => setAuth (EnabledAuthFilter m) (Some response) m);
          if negb (auth_is_valid response)
          then mret (NewFailed (EBase (NewErrorIncorrectAPIKey apiKey)))
          else mret NewOK
      end
  end.

Definition AuthFilter_OnCompletionRequest (_ : HTTPRequest) : Eff X RequestFilterResult :=
  rMeta ← getMeta;
  match AuthInfo rMeta with
  | None => mret (NewFailed (EPlain "missing auth info in context"))
  | Some authInfo =>
      request ← getReq;
      let accessModel := GetModel request in
      if String.eqb accessModel "" then mret (NewFailed (EBase NewErrorMissingModel))
      else
        let denied := IsDenied Match accessModel (auth_deny_models authInfo) in
        let granted := IsGranted Match accessModel (auth_allow_models authInfo) in
        if negb (CanAccessModelFromValues denied granted) then
          if denied then mret (NewFailed (EBase (NewErrorModelAccessDenied accessModel)))
          else if negb granted then mret (NewFailed (EBase (NewErrorModelNotFoundOrNotAccessible accessModel)))
          else mret NewOK
        else mret NewOK
  end.

(** The same statements on an image request. *)
Definition AuthFilter_OnImageGenerationsRequest (_ : HTTPRequest) : Eff X RequestFilterResult :=
  rMeta ← getMeta;
  match AuthInfo rMeta with
  | None => mret (NewFailed (EPlain "missing auth info in context"))
  | Some authInfo =>
      request ← getReq;
      let accessModel := GetModel request in
      if String.eqb accessModel "" then mret (NewFailed (EBase NewErrorMissingModel))
      else
        let denied := IsDenied Match accessModel (auth_deny_models authInfo) in
        let granted := IsGranted Match accessModel (auth_allow_models authInfo) in
        if negb (CanAccessModelFromValues denied granted) then
          if denied then mret (NewFailed (EBase (NewErrorModelAccessDenied accessModel)))
          else if negb granted then mret (NewFailed (EBase (NewErrorModelNotFoundOrNotAccessible accessModel)))
          else mret NewOK
        else mret NewOK
  end.

Definition AuthFilter : RequestFilter X :=
  mkFilter (Some AuthFilter_OnRequestPre) (Some AuthFilter_OnCompletionRequest)
    (Some AuthFilter_OnImageGenerationsRequest) None None None None.
End AuthFilter.

(** [auth.NewWithConfig]: the address must be set; a timeout that is not
    positive becomes the default (3 s). *)
Definition defaultAuthServerTimeout : Z := 3 * 1000000000.

Definition Auth_NewWithConfig (url : string) (timeout : Z) : (string * Z) + gerror :=
  if String.eqb url "" then inr (EPlain "invalid auth server url")
  else inl (url, if timeout <=? 0 then defaultAuthServerTimeout else timeout).

(** ** Who gets through *)
Lemma ruleMatches_true Match model rule : ruleMatches Match model rule = true <-> Match rule model = Some true.
Proof. unfold ruleMatches. destruct (Match rule model) as [[]|]; split; congruence. Qed.

Lemma IsDenied_true Match model deny :
  IsDenied Match model deny = true <-> exists rule, rule ∈ deny /\ Match rule model = Some true.
Proof.
  assert (IsDenied Match model deny = existsb (ruleMatches Match model) deny) as -> by by destruct deny.
  rewrite existsb_exists. split; intros (rule & Hin & H); exists rule; split;
    try (by apply list_elem_of_In); by apply ruleMatches_true.
Qed.

Lemma IsGranted_true Match model allow :
  IsGranted Match model allow = true <-> allow = [] \/ exists rule, rule ∈ allow /\ Match rule model = Some true.
Proof.
  destruct allow as [|a l]; [split; [by left|done]|].
  change (IsGranted Match model (a :: l)) with (existsb (ruleMatches Match model) (a :: l)).
  rewrite existsb_exists. split.
  - intros (rule & Hin & H). right. exists rule. split; [by apply list_elem_of_In | by apply ruleMatches_true].
  - intros [|(rule & Hin & H)]; [done|]. exists rule. split; [by apply list_elem_of_In | by apply ruleMatches_true].
Qed.

(** What the access rules promise. *)
Definition may_access (Match : string -> string -> option bool) (info : APIKeyAuthResponse) (model : string) : Prop :=
  model <> "" /\
  (forall rule, rule ∈ auth_deny_models info -> Match rule model <> Some true) /\
  (auth_allow_models info = [] \/ exists rule, rule ∈ auth_allow_models info /\ Match rule model = Some true).

Lemma CanAccessModel_spec Match info model :
  model <> "" ->
  CanAccessModel Match model (auth_allow_models info) (auth_deny_models info) = true <-> may_access Match info model.
Proof.
  intros Hm. unfold CanAccessModel, CanAccessModelFromValues, may_access.
  rewrite andb_true_iff, negb_true_iff, IsGranted_true, <- not_true_iff_false, IsDenied_true.
  split.
  - intros [Hd Hg]. split; [done|]. split; [|done]. intros rule Hr E. apply Hd. by exists rule.
  - intros (_ & Hd & Hg). split; [|done]. intros (rule & Hr & E). by apply (Hd rule Hr).
Qed.

Lemma auth_completion_decides {X} Match http (w : World X) info :
  AuthInfo (w_meta w) = Some info ->
  exists r, AuthFilter_OnCompletionRequest Match http w = Ret (w, r) /\
    (IsFailed r = false <-> may_access Match info (GetModel (w_req w))) /\
    (IsFailed r = true -> exists e, frr_Error r = Some (EBase e) /\
      ble_status e = (if decide (GetModel (w_req w) = "") then StatusNotFound
                      else if IsDenied Match (GetModel (w_req w)) (auth_deny_models info)
                           then StatusForbidden else StatusNotFound)).
Proof.
  intros Hi. unfold AuthFilter_OnCompletionRequest. run_eff. rewrite Hi.
  destruct (String.eqb_spec (GetModel (w_req w)) "") as [E|E].
  { eexists. split; [done|]. split; [|intros _; eexists; split; [done|]; by rewrite decide_True].
    split; [done|]. intros [Hne _]. by destruct Hne. }
  rewrite decide_False by done. pose proof (CanAccessModel_spec Match info _ E) as Hc.
  unfold CanAccessModel in Hc.
  destruct (CanAccessModelFromValues _ _) eqn:Ea; cbn [negb].
  { eexists. split; [done|]. split; [|done]. split; [intros _; by apply Hc | done]. }
  assert (~ may_access Match info (GetModel (w_req w))) as Hno by (intros H; apply Hc in H; done).
  unfold CanAccessModelFromValues in Ea.
  destruct (IsDenied Match (GetModel (w_req w)) (auth_deny_models info)).
  { eexists. split; [done|]. split; [by split|]. intros _. by eexists. }
  simpl in Ea. rewrite Ea. cbn [negb].
  eexists. split; [done|]. split; [by split|]. intros _. by eexists.
Qed.

(** A completion request passes the authorization filter exactly when the
    key's rules give access to its model: no deny rule matches, even one that
    an allow rule matches too, and some allow rule does unless there is none;
    a refusal says 403 when a deny rule matches, 404 otherwise, and nothing of
    the request is changed. *)
Theorem auth_completion_decision {X} Match http (w : World X) info :
  AuthInfo (w_meta w) = Some info ->
  exists r, AuthFilter_OnCompletionRequest Match http w = Ret (w, r) /\
    (IsFailed r = false <-> may_access Match info (GetModel (w_req w))) /\
    (IsFailed r = true -> exists e, frr_Error r = Some (EBase e) /\
      ble_status e = (if decide (GetModel (w_req w) = "") then StatusNotFound
                      else if IsDenied Match (GetModel (w_req w)) (auth_deny_models info)
                           then StatusForbidden else StatusNotFound)).
Proof. apply auth_completion_decides. Qed.

(** The same on an image request: the statements are the same. *)
Lemma auth_image_decides {X} Match http (w : World X) :
  AuthFilter_OnImageGenerationsRequest Match http w = AuthFilter_OnCompletionRequest Match http w.
Proof. done. Qed.

(** What a request hook of the filter lets pass. *)
Lemma auth_completion_passes {X} Match http (w w' : World X) r :
  AuthFilter_OnCompletionRequest Match http w = Ret (w', r) -> IsFailed r = false ->
  exists info, AuthInfo (w_meta w) = Some info /\ may_access Match info (GetModel (w_req w)).
Proof.
  intros E Hr. destruct (AuthInfo (w_meta w)) as [info|] eqn:Hi.
  - exists info. split; [done|]. destruct (auth_completion_decides Match http w info Hi) as (r' & E' & Hd & _).
    rewrite E in E'. injection E' as -> <-. by apply Hd.
  - revert E. unfold AuthFilter_OnCompletionRequest. run_eff. rewrite Hi. by intros [= <- <-].
Qed.

Definition exact_match (rule name : string) : option bool := Some (String.eqb rule name || String.eqb rule "**").
Definition ex_info : APIKeyAuthResponse := mkAPIKeyAuthResponse true ["**"] "key-1" "user-1" ["secret"].
Definition ex_auth_world (model : string) : World unit :=
  mkWorld (setAuth true (Some ex_info) InitMetadata)
    (mkLLMRequest RequestTypeChatCompletions model false None None None None None None) tt.

Lemma auth_completion_decision_witness :
  exists r, AuthFilter_OnCompletionRequest exact_match (mkHTTPRequest "POST" "/" ∅ (BodyText "")) (ex_auth_world "secret")
      = Ret (ex_auth_world "secret", r) /\
    (IsFailed r = false <-> may_access exact_match ex_info "secret") /\
    (IsFailed r = true -> exists e, frr_Error r = Some (EBase e) /\
      ble_status e = (if decide ("secret" = "") then StatusNotFound
                      else if IsDenied exact_match "secret" (auth_deny_models ex_info)
                           then StatusForbidden else StatusNotFound)).
Proof. apply (auth_completion_decision exact_match _ (ex_auth_world "secret") ex_info). reflexivity. Defined.

(** A request authenticates only with a bearer key that the
    authorization service accepted: whenever the filter lets a request pass,
    its header is [Bearer key] with a non-empty key, the service was asked
    about that key, and the service's valid answer is what later filters see. *)
Lemma auth_pre_sound {X} (APIKeyAuth : string -> Eff X (APIKeyAuthResponse + (gerror * option grpcCode))) http w w' r :
  AuthFilter_OnRequestPre APIKeyAuth http w = Ret (w', r) -> IsFailed r = false ->
  exists key w0 w1 info,
    Header_Get (hr_Header http) "Authorization" = "Bearer " +:+ key /\ key <> "" /\
    APIKeyAuth key w0 = Ret (w1, inl info) /\ auth_is_valid info = true /\
    AuthInfo (w_meta w') = Some info.
Proof.
  unfold AuthFilter_OnRequestPre. run_eff. unfold BearerMarshal.
  destruct (String.eqb_spec (Header_Get (hr_Header http) "Authorization") ""); [by intros [= <- <-]|].
  destruct (HasPrefix (Header_Get (hr_Header http) "Authorization") "Bearer ") eqn:Hp; [|by intros [= <- <-]]. cbn [negb].
  apply HasPrefix_spec in Hp as [key Hkey]. rewrite Hkey, TrimPrefix_app.
  destruct (String.eqb_spec key ""); [by intros [= <- <-]|].
  set (w0 := mkWorld _ _ _). destruct (APIKeyAuth key w0) as [[w1 [info|[err [[| | | |code]|]]]]|] eqn:Ek; try (by intros [= <- <-]).
  - destruct (auth_is_valid info) eqn:Hv; intros [= <- <-]; [|done].
    intros _. exists key, w0, w1, info. done.
Qed.

Lemma auth_pre_sound_witness :
  let service := fun (k : string) (w : World unit) => Ret (w, inl ex_info : APIKeyAuthResponse + (gerror * option grpcCode)) in
  let http := mkHTTPRequest "POST" "/v1/chat/completions" {[ "Authorization" := "Bearer sk-1" ]} (BodyText "") in
  exists w' r, AuthFilter_OnRequestPre service http (ex_auth_world "m") = Ret (w', r) /\
  exists key w0 w1 info,
    Header_Get (hr_Header http) "Authorization" = "Bearer " +:+ key /\ key <> "" /\
    service key w0 = Ret (w1, inl info) /\ auth_is_valid info = true /\ AuthInfo (w_meta w') = Some info.
Proof.
  intros service http. do 2 eexists. split; [vm_compute; reflexivity|].
  apply (auth_pre_sound service http (ex_auth_world "m") _ NewOK); vm_compute; reflexivity.
Defined.
