(* ===== verification/Usage.v ===== *)
(** * pkg/filters/usage: reporting usage to the metering service *)
From S2P Require Import Prelude Strconv Utils GoFloat Json Api Errors Request Response Effects Stream Filters.

(** [service.UsageReportRequest]: tokens, or the output images. *)
Inductive ReportedUsage : Type :=
| ReportTokens (input output : Z)
| ReportImages (width height numbers : Z) (style quality : string).

Record UsageReportRequest : Type := mkReport {
  ur_ApiKeyId : string;
  ur_UserModelName : string;
  ur_UpstreamModelName : string;
  ur_Usage : ReportedUsage }.

Section UsageFilter.
Context {X : Type}.

(** The remote call; its error is only logged. *)
Variable UsageReport : UsageReportRequest -> Eff X (option gerror).

(** [usage] and [upstreamModel] are [response.GetUsage()] (nil pointers
    included as [None]) and [response.GetModel()]. *)
Definition usageReport (ctx : Ctx) (usage : option LLMUsage) (upstreamModel : string) : Eff X unit :=
  match usage with
  | None => mret tt
  | Some usage =>
      rMeta ← RequestMetadataFromCtx ctx;
      request ← getReq;
      match rMeta ≫= AuthInfo with
      | None => mret tt
      | Some info =>
          let apiKeyID := auth_api_key_id info in
          match GetRequestType request with
          | RequestTypeChatCompletions | RequestTypeCompletions =>
              _ ← UsageReport (mkReport apiKeyID (GetModel request) upstreamModel
                                 (ReportTokens (GetPromptTokens usage) (GetCompletionTokens usage)));
              mret tt
          | RequestTypeImageGenerations =>
              match GetOutputImages usage with
              | [] => mret tt
              | image :: _ =>
                  _ ← UsageReport (mkReport apiKeyID (GetModel request) upstreamModel
                                     (ReportImages (ui_Width image) (ui_Height image)
                                        (uint64 (len (GetOutputImages usage))) (ui_Style image) (ui_Quality image)));
                  mret tt
              end
          | RequestTypeTextToSpeech => mret tt
          end
      end
  end.

Definition UsageFilter_OnCompletionResponse (response : LLMResponse) : Eff X RequestFilterResult :=
  _ ← usageReport RequestCtx (resp_usage response) (resp_model response); mret NewOK.

(** A nil chunk is dereferenced. *)
Definition UsageFilter_OnCompletionStreamResponse (ctx : Ctx) (response : StreamResponse) (chunk : option Chunk)
    : Eff X RequestFilterResult :=
  match chunk with
  | None => panic nil_deref
  | Some chunk =>
      if negb (ck_isUsage chunk) then mret NewOK
      else _ ← usageReport ctx (ChatUsage <$> sr_Usage response) (sr_Model response); mret NewOK
  end.

Definition UsageFilter_OnImageGenerationsResponse (response : LLMResponse) : Eff X RequestFilterResult :=
  _ ← usageReport RequestCtx (resp_usage response) (resp_model response); mret NewOK.

Definition UsageFilter : RequestFilter X :=
  mkFilter None None None (Some UsageFilter_OnCompletionResponse)
    (Some UsageFilter_OnCompletionStreamResponse) (Some UsageFilter_OnImageGenerationsResponse) None.
End UsageFilter.

Definition defaultUsageServerTimeout : Z := 3 * 1000000000.

(** [usage.NewWithConfig] *)
Definition Usage_NewWithConfig (url : string) (timeout : Z) : (string * Z) + gerror :=
  if String.eqb url "" then inr (EPlain "invalid auth server url")
  else inl (url, if timeout <=? 0 then defaultUsageServerTimeout else timeout).

(** ** What is billed

    A service that records what it receives. *)
Definition recorder : UsageReportRequest -> Eff (list UsageReportRequest) (option gerror) :=
  fun r w => Ret (mkWorld (w_meta w) (w_req w) (w_ext w ++ [r]), None).

(** The reports a response should cause. *)
Definition expected_reports (w : World (list UsageReportRequest)) (usage : option LLMUsage) (model : string)
    : list UsageReportRequest :=
  match usage, AuthInfo (w_meta w) with
  | Some u, Some info =>
      let report x := [mkReport (auth_api_key_id info) (GetModel (w_req w)) model x] in
      match req_type (w_req w), u with
      | (RequestTypeChatCompletions | RequestTypeCompletions), ChatUsage c =>
          report (ReportTokens (PromptTokens c) (CompletionTokens c))
      | (RequestTypeChatCompletions | RequestTypeCompletions), ImagesUsage _ => report (ReportTokens 0 0)
      | RequestTypeImageGenerations, ImagesUsage (i :: images) =>
          report (ReportImages (ui_Width i) (ui_Height i) (uint64 (len (i :: images))) (ui_Style i) (ui_Quality i))
      | _, _ => []
      end
  | _, _ => []
  end.

(** A response is metered once: with an authenticated key and a usage,
    one report goes out, under that key, with the response's own token counts
    or its number of images; otherwise none; and the request goes on
    unchanged. *)
Theorem usage_reported_once response (w : World (list UsageReportRequest)) :
  UsageFilter_OnCompletionResponse recorder response w
  = Ret (mkWorld (w_meta w) (w_req w)
           (w_ext w ++ expected_reports w (resp_usage response) (resp_model response)), NewOK).
Proof.
  destruct w as [meta req log].
  unfold UsageFilter_OnCompletionResponse, usageReport, expected_reports, GetRequestType, recorder.
  destruct (resp_usage response) as [usage|]; [|run_eff; by rewrite app_nil_r].
  run_eff. simpl. destruct (AuthInfo meta) as [info|]; simpl; [|by rewrite app_nil_r].
  destruct (req_type req), usage as [c|[|i images]]; simpl; try done; by rewrite app_nil_r.
Qed.

(** One malformed usage line from the upstream is enough to panic the
    handler of a metered stream: the chunk is dropped and the usage filter's
    callback dereferences nil. *)
Theorem malformed_usage_panics `{JSONPath, JSONText} {X} Marshal write_ok
    (service : UsageReportRequest -> Eff X (option gerror)) b rest ending (w : World X) :
  one_line b = true ->
  TrimSpace (headerData +:+ b +:+ nl) = headerData +:+ b ->
  HasPrefix (headerData +:+ b) errorPrefix = false -> String.eqb b "[DONE]" = false ->
  Contains b usageCompletionTokens = true -> Unmarshal b = None ->
  pipeCompletionsStream Marshal write_ok [streamCallback [UsageFilter service]]
    (NewChatCompletionStreamResponse (headerData +:+ b +:+ nl +:+ rest) ending) w = Panic nil_deref.
Proof.
  intros Hl Ht Hp Hd Hc Hu. unfold pipeCompletionsStream. cbn [pipe_loop]. unfold NextChunk.
  cbn [sr_input NewChatCompletionStreamResponse]. rewrite ReadLine_data by done.
  cbn [sr_setInput sr_hasErrorPrefix]. rewrite Ht, Hp.
  assert (HasPrefix (headerData +:+ b) headerData = true) as -> by apply HasPrefix_app.
  cbn [negb orb sr_hasErrorPrefix]. rewrite TrimPrefix_app, Hd, Hc.
  unfold NewUsageChatCompletionStreamChunk, chunk_processBytes. by rewrite Hu.
Qed.

Definition ex_bad_usage : string := "{" +:+ quote +:+ "completion_tokens" +:+ quote +:+ ":".

Lemma malformed_usage_panics_witness :
  @pipeCompletionsStream dotted_paths ex_Unmarshal unit ex_Marshal (fun _ _ => true)
    [streamCallback [UsageFilter (fun _ w => Ret (w, None))]]
    (NewChatCompletionStreamResponse (headerData +:+ ex_bad_usage +:+ nl +:+ "") EEOF) ex_world = Panic nil_deref.
Proof. apply (@malformed_usage_panics dotted_paths ex_Unmarshal); vm_compute; reflexivity. Defined.

(** ** What is not billed *)
Section Streams.
Context `{JSONPath} `{JSONText} {X : Type}.
Variable service : UsageReportRequest -> Eff X (option gerror).

(** Without metadata behind the context there is no key to report under. *)
Lemma usageReport_no_metadata usage model (w : World X) : usageReport service EOFCtx usage model w = Ret (w, tt).
Proof. by destruct usage. Qed.

Lemma usage_callback_idle r chunk (w : World X) :
  runCallbacks [streamCallback [UsageFilter service]] r (Some chunk) w = Ret (w, tt).
Proof.
  cbn [runCallbacks]. unfold streamCallback, OnCompletionStreamResponseFilters, TypeAssertFrom. cbn.
  unfold mbind, Eff_bind, UsageFilter_OnCompletionStreamResponse.
  destruct (ck_isUsage chunk); cbn; [|done].
  unfold mbind, Eff_bind. by rewrite usageReport_no_metadata.
Qed.

Lemma pipe_loop_idle Marshal write_ok fuel : forall r out (w : World X),
  match pipe_loop Marshal write_ok fuel [streamCallback [UsageFilter service]] r out w with
  | Ret (w', res) => pipe_loop Marshal write_ok fuel [] r out w = Ret (w', res) /\ w_ext w' = w_ext w
  | Panic _ => True
  end.
Proof.
  induction fuel as [|fuel IH]; intros r out w; [done|]. cbn [pipe_loop].
  destruct (NextChunk r) as [[r' [chunk|]] err]; [|done].
  rewrite (Eff_bind_Ret _ _ _ _ _ (usage_callback_idle r' chunk w)), (Eff_bind_Ret (runCallbacks [] r' (Some chunk)) _ w w tt) by done.
  destruct err as [e|].
  - destruct (IsEOFError e); [|done]. by destruct (handleChunk Marshal write_ok chunk out).
  - destruct (ck_isEmpty chunk); [apply IH|].
    unfold mbind, Eff_bind, modifyMeta. destruct (handleChunk Marshal write_ok chunk out) as [out' []]; [|done].
    specialize (IH r' out' (mkWorld (noteChunk chunk (w_meta w)) (w_req w) (w_ext w))).
    exact IH.
Qed.

(** A streamed answer is never metered: its callbacks get the stream's own
    context, which has no metadata and so no key; with the usage filter
    attached, whatever the upstream sends and whatever the usage service is,
    the pipe panics or does what it does without the filter, and the service
    is never called. *)
Theorem stream_never_metered Marshal write_ok r (w : World X) :
  match pipeCompletionsStream Marshal write_ok [streamCallback [UsageFilter service]] r w with
  | Ret (w', res) => pipeCompletionsStream Marshal write_ok [] r w = Ret (w', res) /\ w_ext w' = w_ext w
  | Panic _ => True
  end.
Proof. apply pipe_loop_idle. Qed.
End Streams.
