(* ===== verification/RateLimit.v ===== *)
(** * pkg/filters/ratelimit: the token buckets

    Times are nanoseconds since the epoch, durations nanoseconds; bucket
    quantities are int64 fixed-point numbers with three decimals.  Every
    operation of a bucket happens under its shard's lock, so an interleaving
    of requests is a sequence of these steps. *)
From S2P Require Import Prelude Strconv Utils GoFloat Json Api Errors Request Response Effects Stream Filters.

Definition maxTTL : Z := 5 * 60 * nanosPerSecond.
Definition ttlRate : Z := 2.
Definition numShards : Z := 64.
Definition maxBucketsPerShard : Z := 10000.
Definition precision : Z := 1000.
Definition defaultDuration : Z := 60 * nanosPerSecond.
Definition defaultServerPrefix : string := "knoway-rate-limit".

(** ** local.go *)
Record tokenBucket : Type := mkBucket {
  tokens : Z;          (* tokens * precision *)
  capacity : Z;        (* capacity * precision *)
  rate : Z;            (* tokens per second * precision *)
  lastUpdate : Z;
  oldLimit : Z;
  expireAt : Z }.

Record rateLimitShard : Type := mkShard {
  buckets : gmap string tokenBucket;
  lastAccessTime : gmap string Z }.

Record RateLimiter : Type := mkRateLimiter {
  rl_shards : list (option rateLimitShard);   (* nil pointers in redis mode *)
  rl_numShards : Z;
  pluginPolicies : list RateLimitPolicy;
  rl_mode : RateLimitMode;
  serverPrefix : string }.

(** hash/fnv: New32a, Write, Sum32. *)
Fixpoint fnv32a_from (h : Z) (s : string) : Z :=
  match s with
  | EmptyString => h
  | String c s => fnv32a_from (uint32 (Z.lxor h (Z.of_nat (Ascii.nat_of_ascii c)) * 16777619)) s
  end.
Definition fnv32a (s : string) : Z := fnv32a_from 2166136261 s.

Definition shardIndex (rl : RateLimiter) (key : string) : Z := Z.rem (fnv32a key) (uint32 (rl_numShards rl)).

(** [evictOldestBucket]: [order] lists the keys of [lastAccessTime] in the
    order the [range] visits them. *)
Fixpoint findOldest (times : gmap string Z) (order : list string) (oldestKey : string) (oldestTime : Z) : string :=
  match order with
  | [] => oldestKey
  | k :: order =>
      match times !! k with
      | Some t => if t <? oldestTime then findOldest times order k t
                  else findOldest times order oldestKey oldestTime
      | None => findOldest times order oldestKey oldestTime
      end
  end.

Definition evictOldestBucket (shard : rateLimitShard) (order : list string) (now : Z) : rateLimitShard :=
  let oldestKey := findOldest (lastAccessTime shard) order "" now in
  mkShard (delete oldestKey (buckets shard)) (delete oldestKey (lastAccessTime shard)).

Definition initBucket (shard : rateLimitShard) (order : list string) (key : string)
    (limit newCapacity newRate now expireAt : Z) : rateLimitShard * tokenBucket :=
  let shard := if maxBucketsPerShard <=? Z.of_nat (size (buckets shard))
               then evictOldestBucket shard order now else shard in
  let bucket := mkBucket newCapacity newCapacity newRate now limit expireAt in
  (mkShard (<[key := bucket]> (buckets shard)) (lastAccessTime shard), bucket).

Definition updateBucket (shard : rateLimitShard) (order : list string) (bucket : tokenBucket) (key : string)
    (limit newCapacity newRate now newExpireAt : Z) : rateLimitShard * tokenBucket :=
  if expireAt bucket <? now then
    let shard := mkShard (delete key (buckets shard)) (delete key (lastAccessTime shard)) in
    initBucket shard order key limit newCapacity newRate now newExpireAt
  else
    let bucket :=
      if negb (oldLimit bucket =? limit)
      then mkBucket (tokens bucket) newCapacity newRate (lastUpdate bucket) limit (expireAt bucket)
      else bucket in
    let bucket := mkBucket (tokens bucket) (capacity bucket) (rate bucket) (lastUpdate bucket) (oldLimit bucket) newExpireAt in
    (mkShard (<[key := bucket]> (buckets shard)) (lastAccessTime shard), bucket).

(** [Time.Sub]: saturating at the limits of a Duration. *)
Definition Sub (t u : Z) : Z := Z.max (- 2 ^ 63) (Z.min (2 ^ 63 - 1) (t - u)).

Section Local.
(** The platform's result for an int64 conversion out of range. *)
Variable invalid : Z.

Definition tryConsume (bucket : tokenBucket) (now : Z) : tokenBucket * bool :=
  let elapsed := Seconds (Sub now (lastUpdate bucket)) in
  let tokensToAdd := int64 (int64_of_f64 invalid elapsed * rate bucket) in
  let bucket :=
    if tokensToAdd >? 0 then
      let newTokens := Z.min (int64 (tokens bucket + tokensToAdd)) (capacity bucket) in
      mkBucket newTokens (capacity bucket) (rate bucket) now (oldLimit bucket) (expireAt bucket)
    else bucket in
  if precision <=? tokens bucket then
    (mkBucket (int64 (tokens bucket + - precision)) (capacity bucket) (rate bucket)
       (lastUpdate bucket) (oldLimit bucket) (expireAt bucket), true)
  else (bucket, false).

(** [checkBucketLocal] on the shard of the key; the bucket is a pointer into
    the shard's map, so what [tryConsume] does to it is stored there. *)
Definition checkShard (shard : rateLimitShard) (order : list string) (key : string)
    (window limit now : Z) : rateLimitShard * bool :=
  let shard := mkShard (buckets shard) (<[key := now]> (lastAccessTime shard)) in
  let ttl := Z.max maxTTL (int64 (window * ttlRate)) in
  let expireAt := int64 (now + ttl) in
  let newCapacity := int64 (limit * precision) in
  let newRate := int64_of_f64 invalid (f64_div (f64_of_int newCapacity) (Seconds window)) in
  let '(shard, bucket) :=
    match buckets shard !! key with
    | None => initBucket shard order key limit newCapacity newRate now expireAt
    | Some bucket => updateBucket shard order bucket key limit newCapacity newRate now expireAt
    end in
  let '(bucket, allowed) := tryConsume bucket now in
  (mkShard (<[key := bucket]> (buckets shard)) (lastAccessTime shard), allowed).

Definition checkBucketLocal (rl : RateLimiter) (order : list string) (key : string)
    (window limit now : Z) : outcome (RateLimiter * bool) :=
  shard ← index (rl_shards rl) (shardIndex rl key);
  match shard with
  | None => Panic nil_deref
  | Some shard =>
      let '(shard, allowed) := checkShard shard order key window limit now in
      Ret (mkRateLimiter (<[Z.to_nat (shardIndex rl key) := Some shard]> (rl_shards rl))
             (rl_numShards rl) (pluginPolicies rl) (rl_mode rl) (serverPrefix rl), allowed)
  end.

(** One tick of [cleanupLoop]. *)
Definition cleanupShard (now : Z) (shard : rateLimitShard) : rateLimitShard :=
  let expired := filter (fun kb => expireAt (snd kb) < now) (buckets shard) in
  mkShard (buckets shard ∖ expired) (filter (fun kt => expired !! fst kt = None) (lastAccessTime shard)).

Definition cleanup (rl : RateLimiter) (now : Z) : RateLimiter :=
  mkRateLimiter (map (fmap (cleanupShard now)) (rl_shards rl))
    (rl_numShards rl) (pluginPolicies rl) (rl_mode rl) (serverPrefix rl).
End Local.

(** ** rate_limit.go *)
Definition RateLimit_NewWithConfig (cfg : RateLimitConfig) : RateLimiter :=
  let prefix := if String.eqb (rlc_server_prefix cfg) "" then defaultServerPrefix else rlc_server_prefix cfg in
  let mode := match rlc_model cfg with RATE_LIMIT_MODEL_UNSPECIFIED => LOCAL | m => m end in
  let shard := match mode with REDIS => None | _ => Some (mkShard ∅ ∅) end in
  mkRateLimiter (replicate (Z.to_nat numShards) shard) numShards (rlc_policies cfg) mode prefix.

Definition RateLimitBaseOn_String (b : RateLimitBaseOn) : string :=
  match b with
  | BASE_ON_UNSPECIFIED => "RATE_LIMIT_BASE_ON_UNSPECIFIED"
  | USER_ID => "USER_ID"
  | API_KEY => "API_KEY"
  | BASE_ON_other n => Itoa n
  end.

Definition buildKey (rl : RateLimiter) (baseOn : RateLimitBaseOn) (value routeName : string) : string :=
  serverPrefix rl +:+ ":" +:+ RateLimitBaseOn_String baseOn +:+ ":" +:+ value +:+ ":" +:+ routeName.

(** The value a policy applies to. *)
Definition policyValue (apiKey userName : string) (policy : RateLimitPolicy) : option string :=
  match rlp_based_on policy with
  | API_KEY => Some apiKey
  | USER_ID => Some userName
  | BASE_ON_UNSPECIFIED => None
  | BASE_ON_other _ => None
  end.

Definition policyMatches (policy : RateLimitPolicy) (value : string) : bool :=
  match rlp_match policy with
  | None => true
  | Some _ =>
      String.eqb (GetExact (rlp_match policy)) value
      || (negb (String.eqb (GetPrefix (rlp_match policy)) "") && HasPrefix value (GetPrefix (rlp_match policy)))
  end.

Fixpoint findMatchingPolicy (apiKey userName : string) (policies : list RateLimitPolicy) : option RateLimitPolicy :=
  match policies with
  | [] => None
  | policy :: policies =>
      match policyValue apiKey userName policy with
      | None => findMatchingPolicy apiKey userName policies
      | Some value =>
          if policyMatches policy value then Some policy else findMatchingPolicy apiKey userName policies
      end
  end.

(** What a rate limiter asks of its surroundings. *)
Record Surroundings (X : Type) : Type := mkSurroundings {
  getRL : X -> RateLimiter;                    (* this filter's own state *)
  setRL : RateLimiter -> X -> X;
  clock : Eff X (Z * list string);             (* the time, and the order of a range over a map *)
  redisEval : string -> list string -> Eff X (Z + gerror) }.   (* the script on a key and its arguments *)
Arguments mkSurroundings {X}.
Arguments getRL {X}.
Arguments setRL {X}.
Arguments clock {X}.
Arguments redisEval {X}.

Section RateLimitFilter.
Context {X : Type}.
Variable invalid : Z.
Variable env : Surroundings X.

(** redis.go: [window.Milliseconds()] truncates. *)
Definition checkBucketRedis (key : string) (window limit : Z) : Eff X (bool + gerror) :=
  '(now, _) ← clock env;
  let windowMs := Z.quot window 1000000 in
  result ← redisEval env key [Itoa limit; Itoa windowMs; Itoa (Z.div now 1000000); Itoa precision];
  match result with
  | inr err => mret (inr err)
  | inl allowed => mret (inl (negb (allowed =? 0)))
  end.

Definition checkBucket (key : string) (window limit : Z) : Eff X (bool + gerror) :=
  if limit =? 0 then mret (inl true)
  else
    let window := if f64_eqb (Seconds window) (f64_of_int 0) then defaultDuration else window in
    x ← getExt;
    match rl_mode (getRL env x) with
    | REDIS => checkBucketRedis key window limit
    | _ =>
        '(now, order) ← clock env;
        x ← getExt;
        '(rl, allowed) ← lift (checkBucketLocal invalid (getRL env x) order key window limit now);
        _ ← putExt (setRL env rl x);
        mret (inl allowed)
    end.

Definition allowRequest (apiKey userName modelName : string) (policy : RateLimitPolicy) : Eff X (bool + gerror) :=
  match policyValue apiKey userName policy with
  | None => mret (inl true)
  | Some value =>
      if negb (policyMatches policy value) then mret (inl true)
      else if rlp_limit policy =? 0 then mret (inl true)
      else
        let duration := if rlp_duration policy =? 0 then defaultDuration else rlp_duration policy in
        x ← getExt;
        let key := buildKey (getRL env x) (rlp_based_on policy) value modelName in
        checkBucket key duration (rlp_limit policy)
  end.

Definition onRequest : Eff X RequestFilterResult :=
  rMeta ← getMeta;
  request ← getReq;
  x ← getExt;
  let apiKey := GetApiKeyId (AuthInfo rMeta) in
  let userName := GetUserId (AuthInfo rMeta) in
  if String.eqb apiKey "" && String.eqb userName "" then mret NewOK
  else
    match findMatchingPolicy apiKey userName (pluginPolicies (getRL env x)) with
    | None => mret NewOK
    | Some fPolicy =>
        allow ← allowRequest apiKey userName (GetModel request) fPolicy;
        match allow with
        | inr err => mret (NewFailed err)
        | inl allow => if negb allow then mret (NewFailed (EBase NewErrorRateLimitExceeded)) else mret NewOK
        end
    end.

Definition RateLimitFilter : RequestFilter X :=
  mkFilter None (Some (fun _ => onRequest)) (Some (fun _ => onRequest)) None None None None.
End RateLimitFilter.

(** ** Sharding *)
Lemma fnv32a_range key : 0 <= fnv32a key < 2 ^ 32.
Proof.
  unfold fnv32a. assert (forall h, 0 <= h < 2 ^ 32 -> 0 <= fnv32a_from h key < 2 ^ 32) as Hg.
  { induction key as [|c key IH]; intros h Hh; simpl; [done|]. apply IH. apply wrap_u_range. lia. }
  apply Hg. lia.
Qed.

(** The limiter of the local mode: 64 shards, all allocated. *)
Definition local_wf (rl : RateLimiter) : Prop :=
  rl_numShards rl = numShards /\ length (rl_shards rl) = Z.to_nat numShards /\
  Forall (fun s => s <> None) (rl_shards rl).

Definition shardOf (key : string) : nat := Z.to_nat (Z.rem (fnv32a key) numShards).

Lemma shardOf_lt key : (shardOf key < Z.to_nat numShards)%nat.
Proof.
  unfold shardOf, numShards. pose proof (fnv32a_range key). rewrite Z.rem_mod_nonneg by lia.
  pose proof (Z.mod_pos_bound (fnv32a key) 64). lia.
Qed.

Lemma shardIndex_eq rl key : local_wf rl -> shardIndex rl key = Z.of_nat (shardOf key).
Proof.
  intros (Hn & _ & _). unfold shardIndex, shardOf. rewrite Hn. change (uint32 numShards) with numShards.
  unfold numShards. pose proof (fnv32a_range key). rewrite Z.rem_mod_nonneg by lia.
  pose proof (Z.mod_pos_bound (fnv32a key) 64). lia.
Qed.

Lemma shard_exists rl key : local_wf rl -> exists shard, rl_shards rl !! shardOf key = Some (Some shard).
Proof.
  intros (_ & Hl & Hs). destruct (lookup_lt_is_Some_2 (rl_shards rl) (shardOf key)) as [s E].
  { rewrite Hl. apply shardOf_lt. }
  rewrite Forall_forall in Hs. pose proof (Hs s (list_elem_of_lookup_2 _ _ _ E)).
  destruct s; [by eexists|done].
Qed.

(** The bucket of a key. *)
Definition bucketOf (rl : RateLimiter) (key : string) : option tokenBucket :=
  match rl_shards rl !! shardOf key with
  | Some (Some shard) => buckets shard !! key
  | _ => None
  end.

Definition allKeys (rl : RateLimiter) : gset string :=
  ⋃ map (fun s => match s with Some s => dom (buckets s) | None => ∅ end) (rl_shards rl).

Lemma checkBucketLocal_shard invalid rl order key window limit now shard :
  local_wf rl -> rl_shards rl !! shardOf key = Some (Some shard) ->
  let '(shard', allowed) := checkShard invalid shard order key window limit now in
  checkBucketLocal invalid rl order key window limit now =
  Ret (mkRateLimiter (<[shardOf key := Some shard']> (rl_shards rl)) (rl_numShards rl)
         (pluginPolicies rl) (rl_mode rl) (serverPrefix rl), allowed).
Proof.
  intros Hwf Hs. destruct (checkShard _ _ _ _ _ _ _) as [shard' allowed] eqn:E.
  unfold checkBucketLocal. rewrite (shardIndex_eq rl key Hwf), (index_Some _ _ _ Hs).
  cbn [mbind outcome_bind]. by rewrite E, Nat2Z.id.
Qed.

(** ** A shard below its maximum evicts nothing *)
Lemma initBucket_room shard order key limit c r now e :
  Z.of_nat (size (buckets shard)) < maxBucketsPerShard ->
  initBucket shard order key limit c r now e
  = (mkShard (<[key := mkBucket c c r now limit e]> (buckets shard)) (lastAccessTime shard), mkBucket c c r now limit e).
Proof. intros H. unfold initBucket. by rewrite (proj2 (Z.leb_gt _ _)). Qed.

(** The room a key needs: the other keys' buckets leave a place. *)
Definition room (shard : rateLimitShard) (key : string) : Prop :=
  Z.of_nat (size (delete key (buckets shard))) < maxBucketsPerShard.

Definition freshBucket (limit c r now e : Z) : tokenBucket := mkBucket c c r now limit e.

(** The bucket that [tryConsume] works on. *)
Definition currentBucket (b : option tokenBucket) (limit c r now e : Z) : tokenBucket :=
  match b with
  | None => freshBucket limit c r now e
  | Some b =>
      if expireAt b <? now then freshBucket limit c r now e
      else if oldLimit b =? limit then mkBucket (tokens b) (capacity b) (rate b) (lastUpdate b) (oldLimit b) e
      else mkBucket (tokens b) c r (lastUpdate b) limit e
  end.

Definition newExpireAt (window now : Z) : Z := int64 (now + Z.max maxTTL (int64 (window * ttlRate))).
Definition newRateOf (invalid window limit : Z) : Z :=
  int64_of_f64 invalid (f64_div (f64_of_int (int64 (limit * precision))) (Seconds window)).

Lemma checkShard_room invalid shard order key window limit now :
  room shard key ->
  let b := currentBucket (buckets shard !! key) limit (int64 (limit * precision))
             (newRateOf invalid window limit) now (newExpireAt window now) in
  let '(b', allowed) := tryConsume invalid b now in
  exists times, checkShard invalid shard order key window limit now
  = (mkShard (<[key := b']> (buckets shard)) times, allowed).
Proof.
  intros Hroom. cbv zeta. destruct (tryConsume _ _ _) as [b' allowed] eqn:Et.
  unfold checkShard, newExpireAt, newRateOf in *. cbn [buckets lastAccessTime].
  destruct (buckets shard !! key) as [b|] eqn:Eb; cbn [currentBucket] in Et.
  - unfold updateBucket. destruct (expireAt b <? now) eqn:Ee.
    + rewrite initBucket_room by (cbn [buckets]; exact Hroom). unfold freshBucket in Et. rewrite Et.
      cbn [buckets]. eexists. by rewrite insert_insert_eq, insert_delete_eq.
    + destruct (oldLimit b =? limit) eqn:El; cbn [negb]; cbn [tokens capacity rate lastUpdate oldLimit] in *; rewrite Et;
        cbn [buckets]; eexists; by rewrite insert_insert_eq.
  - rewrite initBucket_room.
    + unfold freshBucket in Et. rewrite Et. cbn [buckets]. eexists. by rewrite insert_insert_eq.
    + cbn [buckets]. unfold room in Hroom. by rewrite delete_id in Hroom.
Qed.

(** ** One bucket under one limit: [L] requests per window of [w] seconds *)
Section Bucket.
Variables (invalid L w : Z).
Hypothesis HL : 0 < L < 2 ^ 31.
Hypothesis Hw : 0 < w <= 2 ^ 31.

Let W : Z := w * nanosPerSecond.
Let cap : Z := L * precision.

Lemma newCapacity_eq : int64 (L * precision) = cap.
Proof. unfold cap, precision. apply int64_id. lia. Qed.

Lemma newRate_eq : newRateOf invalid W L = cap / w.
Proof.
  unfold newRateOf. rewrite newCapacity_eq. unfold int64_of_f64.
  assert (0 <= cap < 2 ^ 42) as Hc by (unfold cap, precision; lia).
  unfold W. rewrite rate_trunc by lia.
  assert (0 <= cap / w <= cap) by (split; [apply Z.div_pos | apply Z.div_le_upper_bound]; nia).
  rewrite (proj2 (Z.leb_le _ _)), (proj2 (Z.ltb_lt _ _)) by lia. done.
Qed.

Lemma newExpireAt_ge now : 0 <= now < 2 ^ 61 -> now + 2 * W <= newExpireAt W now.
Proof.
  intros Hn. unfold newExpireAt, ttlRate, maxTTL, nanosPerSecond in *. subst W. unfold nanosPerSecond.
  rewrite (int64_id (w * 1000000000 * 2)) by lia. rewrite int64_id by lia. lia.
Qed.

(** What a bucket holds at time [t] when [a] of the key's requests were
    allowed since [t0]: the requests, and the tokens left, were earned by one
    full bucket and the time up to [lastUpdate]. *)
Record bucket_ok (t0 t a : Z) (b : tokenBucket) : Prop := {
  ok_capacity : capacity b = cap;
  ok_rate : rate b = cap / w;
  ok_limit : oldLimit b = L;
  ok_tokens : 0 <= tokens b <= cap;
  ok_last : t0 <= lastUpdate b <= t;
  ok_expire : lastUpdate b + 2 * W <= expireAt b;
  ok_balance : (a * precision + tokens b) * W <= cap * (W + lastUpdate b - t0) }.

Definition entry_ok (t0 t a : Z) (b : option tokenBucket) : Prop :=
  match b with
  | Some b => bucket_ok t0 t a b
  | None => a * precision * W <= cap * (t - t0)
  end.

Lemma W_pos : 0 < W.
Proof. unfold W, nanosPerSecond. lia. Qed.
Lemma cap_pos : 0 < cap.
Proof. unfold cap, precision. lia. Qed.

Lemma entry_ok_later t0 t t' a b : t <= t' -> entry_ok t0 t a b -> entry_ok t0 t' a b.
Proof.
  pose proof cap_pos. intros Ht. destruct b as [b|]; simpl.
  - intros []. split; try done. lia.
  - nia.
Qed.

(** A bucket that expired was idle for two windows: starting over with a
    full one gives nothing that was not earned. *)
Lemma expired_ok t0 t a b now : bucket_ok t0 t a b -> expireAt b < now -> entry_ok t0 now a None.
Proof.
  pose proof cap_pos. pose proof W_pos. intros [] He. simpl. unfold precision in *. nia.
Qed.

Lemma fresh_ok t0 a now e :
  t0 <= now -> now + 2 * W <= e -> entry_ok t0 now a None -> bucket_ok t0 now a (freshBucket L cap (cap / w) now e).
Proof.
  pose proof cap_pos. pose proof W_pos. intros Ht He Ha. unfold freshBucket. simpl in Ha.
  split; simpl; try done; try lia; nia.
Qed.

Lemma current_ok t0 t a b now e :
  t0 <= t <= now -> now + 2 * W <= e -> entry_ok t0 t a b ->
  bucket_ok t0 now a (currentBucket b L cap (cap / w) now e) /\
  now + 2 * W <= expireAt (currentBucket b L cap (cap / w) now e).
Proof.
  intros Ht He Ha. unfold currentBucket. destruct b as [b|]; [cbn [entry_ok] in Ha|].
  - destruct (Z.ltb_spec (expireAt b) now) as [Hx|Hx].
    + split; [|done]. apply fresh_ok; [lia|done|]. by apply (expired_ok t0 t a b).
    + destruct Ha. rewrite ok_limit0, Z.eqb_refl. split; [split|]; simpl; try done; lia.
  - split; [|done]. apply fresh_ok; [lia|done|]. apply (entry_ok_later t0 t); [lia|done].
Qed.

Lemma tryConsume_ok t0 a b now :
  0 <= t0 -> now < 2 ^ 61 -> now - t0 < 2 ^ 22 * nanosPerSecond ->
  bucket_ok t0 now a b -> now + 2 * W <= expireAt b ->
  let '(b', allowed) := tryConsume invalid b now in
  bucket_ok t0 now (a + if allowed then 1 else 0) b'.
Proof.
  pose proof cap_pos as Hcap. pose proof W_pos as HW. intros H0 Hn Hd [] He. unfold tryConsume.
  set (d := now - lastUpdate b).
  assert (0 <= d < 2 ^ 22 * nanosPerSecond) as Hdb by (unfold d; lia).
  assert (Sub now (lastUpdate b) = d) as -> by (unfold Sub, d, nanosPerSecond in *; lia).
  set (s := d / nanosPerSecond).
  assert (0 <= s < 2 ^ 22 /\ s * nanosPerSecond <= d) as [Hs Hsd].
  { unfold s, nanosPerSecond in *. pose proof (Z.div_mod d 1000000000). pose proof (Z.mod_pos_bound d 1000000000). lia. }
  assert (int64_of_f64 invalid (Seconds d) = s) as ->.
  { unfold int64_of_f64. rewrite Seconds_trunc by done.
    rewrite (proj2 (Z.leb_le _ _)), (proj2 (Z.ltb_lt _ _)) by (fold s; lia). done. }
  rewrite ok_rate0, ok_capacity0.
  assert (0 <= cap / w /\ (cap / w) * w <= cap) as [Hr0 Hr].
  { split; [apply Z.div_pos; lia|]. rewrite Z.mul_comm. apply Z.mul_div_le. lia. }
  assert (cap < 2 ^ 31 * 1000) as Hcap2 by (unfold cap, precision; lia).
  assert (s * (cap / w) < 9007199254740992000) as Hprod by nia.
  rewrite (int64_id (s * (cap / w))) by nia.
  assert (s * (cap / w) * W <= cap * d) as Hearn.
  { unfold W. assert (s * (cap / w) * (w * nanosPerSecond) = (s * nanosPerSecond) * ((cap / w) * w)) as -> by lia.
    unfold nanosPerSecond in *. nia. }
  set (b1 := if s * (cap / w) >? 0 then _ else b).
  assert (bucket_ok t0 now a b1) as [].
  { unfold b1. rewrite Z.gtb_ltb. destruct (Z.ltb_spec 0 (s * (cap / w))); [|split; done].
    rewrite int64_id by lia.
    split; simpl; try done; try lia.
    etransitivity; [apply (Z.mul_le_mono_nonneg_r _ (a * precision + tokens b + s * (cap / w))); lia|].
    rewrite Z.mul_add_distr_r. replace (W + now - t0) with (W + lastUpdate b - t0 + d) by (unfold d; lia).
    rewrite (Z.mul_add_distr_l cap). lia. }
  destruct (Z.leb_spec precision (tokens b1)) as [Hp|Hp].
  - rewrite int64_id by (unfold precision in *; lia).
    split; simpl; try done; unfold precision in *; lia.
  - rewrite Z.add_0_r. by split.
Qed.

(** A whole request: the entry as the limiter finds it, to the bucket it
    leaves. *)
Lemma consume_ok t0 t a b now :
  0 <= t0 <= t -> t <= now -> now < 2 ^ 61 -> now - t0 < 2 ^ 22 * nanosPerSecond -> entry_ok t0 t a b ->
  let cur := currentBucket b L (int64 (L * precision)) (newRateOf invalid W L) now (newExpireAt W now) in
  bucket_ok t0 now (a + if snd (tryConsume invalid cur now) then 1 else 0) (fst (tryConsume invalid cur now)).
Proof.
  intros H0 Ht Hn Hd He. cbv zeta.
  assert (currentBucket b L (int64 (L * precision)) (newRateOf invalid W L) now (newExpireAt W now)
          = currentBucket b L cap (cap / w) now (newExpireAt W now)) as ->
    by (f_equal; [apply newCapacity_eq|apply newRate_eq]).
  destruct (current_ok t0 t a b now (newExpireAt W now)) as [Hb Hex]; [lia|apply newExpireAt_ge; lia|done|].
  pose proof (tryConsume_ok t0 a _ now ltac:(lia) Hn Hd Hb Hex) as H. by destruct (tryConsume _ _ _).
Qed.
End Bucket.

(** ** Runs of the limiter: requests and cleanup ticks, of any keys *)
Inductive rl_event : Type :=
| EvRequest (key : string) (window limit now : Z) (order : list string)
| EvCleanup (now : Z).

Definition ev_time (e : rl_event) : Z :=
  match e with EvRequest _ _ _ now _ => now | EvCleanup now => now end.

(** The answers are listed with their keys. *)
Fixpoint rl_run (invalid : Z) (rl : RateLimiter) (evs : list rl_event)
    : outcome (RateLimiter * list (string * bool)) :=
  match evs with
  | [] => Ret (rl, [])
  | EvRequest key window limit now order :: evs =>
      '(rl, allowed) ← checkBucketLocal invalid rl order key window limit now;
      '(rl, answers) ← rl_run invalid rl evs;
      Ret (rl, (key, allowed) :: answers)
  | EvCleanup now :: evs => rl_run invalid (cleanup rl now) evs
  end.

(** How many requests of a key were allowed. *)
Fixpoint granted (k : string) (answers : list (string * bool)) : Z :=
  match answers with
  | [] => 0
  | (key, allowed) :: answers => (if String.eqb key k && allowed then 1 else 0) + granted k answers
  end.

(** Times do not go back. *)
Fixpoint in_order (t : Z) (evs : list rl_event) : Prop :=
  match evs with
  | [] => True
  | e :: evs => t <= ev_time e /\ in_order (ev_time e) evs
  end.

Definition last_time (t : Z) (evs : list rl_event) : Z := foldl (fun _ e => ev_time e) t evs.

Definition within (S : gset string) (rl : RateLimiter) : Prop :=
  Forall (fun s => match s with Some s => dom (buckets s) ⊆ S | None => True end) (rl_shards rl).

Lemma room_within (S : gset string) shard key :
  dom (buckets shard) ⊆ S -> key ∈ S -> Z.of_nat (size S) <= maxBucketsPerShard -> room shard key.
Proof.
  intros Hd Hk HS. unfold room.
  assert (size (delete key (buckets shard)) <= size (S ∖ {[key]}))%nat as Hle.
  { rewrite <- size_dom. apply subseteq_size. rewrite dom_delete_L. set_solver. }
  assert (size (S ∖ {[key]}) < size S)%nat by (apply subset_size; set_solver). lia.
Qed.

Lemma shards_update rl key shard : local_wf rl ->
  local_wf (mkRateLimiter (<[shardOf key := Some shard]> (rl_shards rl)) (rl_numShards rl) (pluginPolicies rl) (rl_mode rl) (serverPrefix rl)).
Proof.
  intros (Hn & Hl & Hs). split; [done|]. simpl. split; [by rewrite length_insert|].
  by apply Forall_insert.
Qed.

Lemma bucketOf_update rl key shard b times k :
  local_wf rl -> rl_shards rl !! shardOf key = Some (Some shard) ->
  bucketOf (mkRateLimiter (<[shardOf key := Some (mkShard (<[key := b]> (buckets shard)) times)]> (rl_shards rl))
              (rl_numShards rl) (pluginPolicies rl) (rl_mode rl) (serverPrefix rl)) k
  = if decide (key = k) then Some b else bucketOf rl k.
Proof.
  intros Hwf Hs. unfold bucketOf. simpl. pose proof (lookup_lt_Some _ _ _ Hs) as Hlt.
  destruct (decide (shardOf key = shardOf k)) as [E|E].
  - rewrite <- E, list_lookup_insert_eq, Hs by done. simpl. case_decide as Ek.
    + subst. by rewrite lookup_insert_eq.
    + by rewrite lookup_insert_ne.
  - rewrite list_lookup_insert_ne by done. rewrite decide_False; [done|]. by intros ->.
Qed.

Lemma cleanup_wf rl now : local_wf rl -> local_wf (cleanup rl now).
Proof.
  intros (Hn & Hl & Hs). split; [done|]. simpl. split; [by rewrite length_map|].
  apply Forall_map. eapply Forall_impl; [exact Hs|]. by intros [].
Qed.

Lemma cleanupShard_bucket now shard k :
  buckets (cleanupShard now shard) !! k =
  match buckets shard !! k with
  | Some b => if expireAt b <? now then None else Some b
  | None => None
  end.
Proof.
  unfold cleanupShard. cbn [buckets]. rewrite lookup_difference, map_lookup_filter.
  destruct (buckets shard !! k) as [b|]; simpl; [|done].
  destruct (Z.ltb_spec (expireAt b) now).
  - by rewrite option_guard_True.
  - rewrite option_guard_False; [done|]. simpl. lia.
Qed.

Lemma cleanup_bucketOf rl now k :
  bucketOf (cleanup rl now) k =
  match bucketOf rl k with
  | Some b => if expireAt b <? now then None else Some b
  | None => None
  end.
Proof.
  unfold bucketOf, cleanup. simpl. rewrite list_lookup_fmap.
  destruct (rl_shards rl !! shardOf k) as [[shard|]|]; simpl; [|done..]. apply cleanupShard_bucket.
Qed.

Lemma cleanup_within S rl now : within S rl -> within S (cleanup rl now).
Proof.
  intros H. apply Forall_map. eapply Forall_impl; [exact H|]. intros [shard|] Hd; simpl; [|done].
  unfold cleanupShard. cbn [buckets]. intros k Hk. apply Hd. apply elem_of_dom in Hk as [b Hb]. apply lookup_difference_Some in Hb as [Hb _]. by apply elem_of_dom_2 in Hb.
Qed.

(** ** Runs whose keys all have room *)
Section Runs.
Variables (invalid : Z) (S : gset string).
Hypothesis HS : Z.of_nat (size S) <= maxBucketsPerShard.

(** A request changes the entry of its own key only. *)
Lemma request_step rl key window limit now order :
  local_wf rl -> within S rl -> key ∈ S ->
  let b := currentBucket (bucketOf rl key) limit (int64 (limit * precision))
             (newRateOf invalid window limit) now (newExpireAt window now) in
  exists rl',
    checkBucketLocal invalid rl order key window limit now = Ret (rl', snd (tryConsume invalid b now)) /\
    local_wf rl' /\ within S rl' /\
    bucketOf rl' key = Some (fst (tryConsume invalid b now)) /\
    forall k, k <> key -> bucketOf rl' k = bucketOf rl k.
Proof.
  intros Hwf Hin Hk. cbv zeta. destruct (shard_exists rl key Hwf) as [shard Es].
  assert (bucketOf rl key = buckets shard !! key) as -> by (unfold bucketOf; by rewrite Es).
  pose proof (proj1 (Forall_forall _ _) Hin (Some shard) (list_elem_of_lookup_2 _ _ _ Es)) as Hd. cbn in Hd.
  pose proof (room_within S shard key Hd Hk HS) as Hr.
  pose proof (checkShard_room invalid shard order key window limit now Hr) as H. cbv zeta in H.
  destruct (tryConsume _ _ _) as [b' allowed]. destruct H as [times Ec]. cbn [fst snd].
  pose proof (checkBucketLocal_shard invalid rl order key window limit now shard Hwf Es) as E. rewrite Ec in E.
  eexists. split; [exact E|]. split; [by apply shards_update|]. split.
  - unfold within. cbn [rl_shards]. apply Forall_insert; [exact Hin|]. cbn [buckets].
    rewrite dom_insert_L. set_solver.
  - split; [|intros k Hne]; rewrite bucketOf_update by done; [by rewrite decide_True|by rewrite decide_False].
Qed.

Section Key.
Variables (L w : Z) (k : string) (t0 : Z).
Hypothesis HL : 0 < L < 2 ^ 31.
Hypothesis Hw : 0 < w <= 2 ^ 31.
Hypothesis Ht0 : 0 <= t0.

Let W : Z := w * nanosPerSecond.

(** The events of a run: any keys of the set under any policies, the key
    [k] always under the same one. *)
Definition ev_fine (e : rl_event) : Prop :=
  ev_time e < 2 ^ 61 /\ ev_time e - t0 < 2 ^ 22 * nanosPerSecond /\
  match e with
  | EvRequest key window limit _ _ => key ∈ S /\ (key = k -> window = W /\ limit = L)
  | EvCleanup _ => True
  end.

Lemma run_balance evs : forall rl t a,
  local_wf rl -> within S rl -> t0 <= t -> in_order t evs -> Forall ev_fine evs ->
  entry_ok L w t0 t a (bucketOf rl k) ->
  exists rl' answers, rl_run invalid rl evs = Ret (rl', answers) /\
    entry_ok L w t0 (last_time t evs) (a + granted k answers) (bucketOf rl' k).
Proof.
  induction evs as [|e evs IH]; intros rl t a Hwf Hin Ht Ho Hf He.
  { exists rl, []. split; [done|]. cbn. by rewrite Z.add_0_r. }
  destruct Ho as [Hte Ho]. apply Forall_cons in Hf as [(Hn & Hd & Hfe) Hf].
  destruct e as [key window limit now order|now]; cbn [ev_time] in *; cbn [rl_run last_time foldl].
  - destruct Hfe as [Hk Hpol].
    destruct (request_step rl key window limit now order Hwf Hin Hk) as (rl1 & E & Hwf1 & Hin1 & Eb & Eo).
    rewrite E. cbn [mbind outcome_bind].
    set (b := currentBucket _ _ _ _ _ _) in *.
    assert (entry_ok L w t0 now (a + if String.eqb key k && snd (tryConsume invalid b now) then 1 else 0)
              (bucketOf rl1 k)) as He1.
    { destruct (String.eqb_spec key k) as [->|Hne]; cbn [andb].
      - rewrite Eb. cbn [entry_ok]. destruct (Hpol eq_refl) as [-> ->].
        by apply (consume_ok invalid L w HL Hw t0 t a).
      - rewrite Z.add_0_r, Eo by done. by apply (entry_ok_later L w HL t0 t). }
    destruct (IH rl1 now _ Hwf1 Hin1 ltac:(lia) Ho Hf He1) as (rl' & answers & Er & Hr).
    exists rl', ((key, snd (tryConsume invalid b now)) :: answers). rewrite Er. split; [done|].
    cbn [granted]. by rewrite Z.add_assoc.
  - destruct (IH (cleanup rl now) now a) as (rl' & answers & Er & Hr); try done; try lia.
    + by apply cleanup_wf.
    + by apply cleanup_within.
    + rewrite cleanup_bucketOf. destruct (bucketOf rl k) as [b|] eqn:Eb; [|by apply (entry_ok_later L w HL t0 t)].
      destruct (Z.ltb_spec (expireAt b) now); [by apply (expired_ok L w HL Hw t0 t a b)|].
      by apply (entry_ok_later L w HL t0 t now a (Some b)).
    + by exists rl', answers.
Qed.

(** ** A rate that rounds to nothing *)

(** Every event comes within two windows of the last request of the key. *)
Fixpoint persistent (last : option Z) (evs : list rl_event) : Prop :=
  match evs with
  | [] => True
  | e :: evs =>
      match last with Some t => ev_time e <= t + 2 * W | None => True end /\
      persistent (match e with
                  | EvRequest key _ _ now _ => if String.eqb key k then Some now else last
                  | EvCleanup _ => last
                  end) evs
  end.

Definition starved_entry (last : option Z) (a : Z) (b : option tokenBucket) : Prop :=
  match last, b with
  | None, None => a = 0
  | Some t, Some b => capacity b = L * precision /\ rate b = 0 /\ oldLimit b = L /\
                      tokens b = (L - a) * precision /\ 0 <= a <= L /\ t + 2 * W <= expireAt b
  | _, _ => False
  end.

Hypothesis Hzero : L * precision < w.

Lemma starved_consume last a b now :
  0 <= now < 2 ^ 61 -> starved_entry last a b ->
  match last with Some t => now <= t + 2 * W | None => True end ->
  let cur := currentBucket b L (int64 (L * precision)) (newRateOf invalid W L) now (newExpireAt W now) in
  snd (tryConsume invalid cur now) = (a <? L) /\
  starved_entry (Some now) (a + if a <? L then 1 else 0) (Some (fst (tryConsume invalid cur now))).
Proof.
  intros Hn He Hg. cbv zeta. pose proof (newExpireAt_ge L w Hw now Hn) as Hx.
  assert (currentBucket b L (int64 (L * precision)) (newRateOf invalid W L) now (newExpireAt W now)
          = currentBucket b L (L * precision) 0 now (newExpireAt W now)) as ->.
  { f_equal; [by apply (newCapacity_eq L w)|]. unfold W.
    rewrite (newRate_eq invalid L w HL Hw). apply Z.div_small. unfold precision in *. lia. }
  set (cur := currentBucket _ _ _ _ _ _).
  assert (starved_entry (Some now) a (Some cur)) as (Ec & Er & El & Et & Ha & Ee).
  { unfold cur, currentBucket, freshBucket. destruct last, b as [b|]; simpl in He; try done.
    - destruct He as (H1 & H2 & H3 & H4 & H5 & H6). rewrite (proj2 (Z.ltb_ge _ _)), H3, Z.eqb_refl by lia. done.
    - subst a. cbn. rewrite Z.sub_0_r. repeat split; try done; lia. }
  unfold tryConsume. rewrite Er, Z.mul_0_r. change (int64 0 >? 0) with false. cbv iota zeta.
  rewrite Et. unfold precision in *. destruct (Z.ltb_spec a L) as [Hl|Hl].
  - rewrite (proj2 (Z.leb_le _ _)) by lia. cbn. rewrite int64_id by lia. repeat split; try done; unfold precision; lia.
  - rewrite (proj2 (Z.leb_gt _ _)) by lia. cbn. rewrite Z.add_0_r. repeat split; try done; lia.
Qed.

(** The requests of the key in a run. *)
Fixpoint requests (evs : list rl_event) : Z :=
  match evs with
  | EvRequest key _ _ _ _ :: evs => (if String.eqb key k then 1 else 0) + requests evs
  | EvCleanup _ :: evs => requests evs
  | [] => 0
  end.

Lemma requests_nonneg evs : 0 <= requests evs.
Proof. induction evs as [|[key ? ? ? ?|] evs IH]; cbn; [done|destruct (String.eqb key k)|]; lia. Qed.

Lemma run_starved evs : forall rl t last a,
  local_wf rl -> within S rl -> t0 <= t -> in_order t evs -> Forall ev_fine evs -> persistent last evs ->
  0 <= a <= L -> starved_entry last a (bucketOf rl k) ->
  exists rl' answers, rl_run invalid rl evs = Ret (rl', answers) /\
    a + granted k answers = Z.min L (a + requests evs).
Proof.
  induction evs as [|e evs IH]; intros rl t last a Hwf Hin Ht Ho Hf Hp Ha He.
  { exists rl, []. split; [done|]. cbn. lia. }
  destruct Ho as [Hte Ho]. apply Forall_cons in Hf as [(Hn & Hd & Hfe) Hf]. destruct Hp as [Hg Hp].
  destruct e as [key window limit now order|now]; cbn [ev_time] in *; cbn [rl_run requests].
  - destruct Hfe as [Hk Hpol].
    destruct (request_step rl key window limit now order Hwf Hin Hk) as (rl1 & E & Hwf1 & Hin1 & Eb & Eo).
    rewrite E. cbn [mbind outcome_bind].
    destruct (String.eqb_spec key k) as [->|Hne].
    + destruct (Hpol eq_refl) as [-> ->].
      destruct (starved_consume last a (bucketOf rl k) now ltac:(lia) He Hg) as [Es Hs].
      rewrite <- Eb in Hs.
      assert (0 <= a + (if a <? L then 1 else 0) <= L) as Ha1 by (destruct (Z.ltb_spec a L); lia).
      destruct (IH rl1 now _ _ Hwf1 Hin1 ltac:(lia) Ho Hf Hp Ha1 Hs)
        as (rl' & answers & Er & Hr).
      eexists rl', (_ :: answers). rewrite Er. split; [done|]. cbn [granted]. rewrite Es, String.eqb_refl. cbn [andb].
      pose proof (requests_nonneg evs). destruct (Z.ltb_spec a L); lia.
    + destruct (IH rl1 now _ a Hwf1 Hin1 ltac:(lia) Ho Hf Hp Ha ltac:(by rewrite Eo))
        as (rl' & answers & Er & Hr).
      eexists rl', (_ :: answers). rewrite Er. split; [done|]. cbn [granted].
      rewrite (proj2 (String.eqb_neq _ _) Hne). cbn [andb]. lia.
  - apply (IH (cleanup rl now) now last a); try done; try lia.
    + by apply cleanup_wf.
    + by apply cleanup_within.
    + rewrite cleanup_bucketOf. destruct last as [tl|], (bucketOf rl k) as [b|]; try done.
      destruct He as (H1 & H2 & H3 & H4 & H5 & H6). rewrite (proj2 (Z.ltb_ge _ _)) by lia. done.
Qed.
End Key.
End Runs.

Lemma entry_ok_bound L w t0 t a b :
  0 < L < 2 ^ 31 -> 0 < w <= 2 ^ 31 -> t0 <= t -> entry_ok L w t0 t a b ->
  a * (w * nanosPerSecond) <= L * (w * nanosPerSecond + t - t0).
Proof.
  intros HL Hw Ht. destruct b as [b|]; cbn [entry_ok].
  - intros []. unfold precision, nanosPerSecond in *. nia.
  - unfold precision, nanosPerSecond. nia.
Qed.

Lemma last_time_ge t evs : in_order t evs -> t <= last_time t evs.
Proof.
  revert t. induction evs as [|e evs IH]; intros t; [done|]. intros [H1 H2]. etransitivity; [exact H1|]. by apply IH.
Qed.

(** The limiter that [NewWithConfig] returns in the local mode. *)
Lemma NewWithConfig_local cfg S :
  rlc_model cfg <> REDIS ->
  local_wf (RateLimit_NewWithConfig cfg) /\ within S (RateLimit_NewWithConfig cfg) /\
  forall k, bucketOf (RateLimit_NewWithConfig cfg) k = None.
Proof.
  intros Hm. unfold RateLimit_NewWithConfig.
  set (shard := match _ with REDIS => _ | _ => _ end).
  assert (shard = Some (mkShard ∅ ∅)) as -> by (unfold shard; by destruct (rlc_model cfg)).
  split; [split; [done|split]|split].
  - apply length_replicate.
  - by apply Forall_replicate.
  - apply Forall_replicate. cbn. set_solver.
  - intros k. unfold bucketOf. cbn [rl_shards]. pose proof (shardOf_lt k).
    rewrite lookup_replicate_2 by done. apply lookup_empty.
Qed.

(** * Properties *)

(** C10: a limit of [L] requests per [w] seconds holds over every interval: in
    a run of requests and cleanup ticks of a local limiter, whatever other
    keys ask under their own policies, no request panics and the requests of a
    key that are allowed from its start to its end never exceed the requests
    of one full window plus the share of the elapsed time.  This is so for runs
    of at most 10000 different keys, so that no shard is full and evicts a
    bucket, which would forget what its key has used; for a key that keeps one
    policy, of 1 to 2^31 requests in a window of 1 to 2^31 whole seconds; and for
    runs of less than 2^22 seconds (48 days) before the year 2043, whose times
    and tokens fit 64 bits. *)
Theorem rate_limit_bound (invalid : Z) (cfg : RateLimitConfig) (S : gset string) (L w t0 : Z) (k : string)
    (evs : list rl_event) (Hlocal : rlc_model cfg <> REDIS) (HS : Z.of_nat (size S) <= maxBucketsPerShard)
    (HL : 0 < L < 2 ^ 31) (Hw : 0 < w <= 2 ^ 31) (Ht0 : 0 <= t0)
    (Horder : in_order t0 evs) (Hfine : Forall (ev_fine S L w k t0) evs) :
  exists rl answers,
    rl_run invalid (RateLimit_NewWithConfig cfg) evs = Ret (rl, answers) /\
    granted k answers * (w * nanosPerSecond) <= L * (w * nanosPerSecond + last_time t0 evs - t0).
Proof.
  destruct (NewWithConfig_local cfg S Hlocal) as (Hwf & Hin & Hb).
  destruct (run_balance invalid S HS L w k t0 HL Hw Ht0 evs _ t0 0 Hwf Hin ltac:(lia) Horder Hfine)
    as (rl & answers & E & H).
  { rewrite Hb. cbn. lia. }
  exists rl, answers. split; [done|]. rewrite Z.add_0_l in H. by apply entry_ok_bound in H; [|..|apply last_time_ge].
Qed.

(** When a policy allows less than one request per 1000 seconds, the
    integer token rate is 0 and the bucket never refills: a client that keeps
    asking at least once every two windows gets its first [L] requests and no
    other, for as long as it asks. *)
Theorem rate_limit_starves (invalid : Z) (cfg : RateLimitConfig) (S : gset string) (L w t0 : Z) (k : string)
    (evs : list rl_event) (Hlocal : rlc_model cfg <> REDIS) (HS : Z.of_nat (size S) <= maxBucketsPerShard)
    (HL : 0 < L < 2 ^ 31) (Hw : 0 < w <= 2 ^ 31) (Ht0 : 0 <= t0) (Hzero : L * precision < w)
    (Horder : in_order t0 evs) (Hfine : Forall (ev_fine S L w k t0) evs) (Hask : persistent w k None evs) :
  exists rl answers,
    rl_run invalid (RateLimit_NewWithConfig cfg) evs = Ret (rl, answers) /\
    granted k answers = Z.min L (requests k evs).
Proof.
  destruct (NewWithConfig_local cfg S Hlocal) as (Hwf & Hin & Hb).
  apply (run_starved invalid S HS L w k t0 HL Hw Ht0 Hzero evs _ t0 None 0 Hwf Hin ltac:(lia) Horder Hfine Hask ltac:(lia)).
  by rewrite Hb.
Qed.

Definition ex_rlc : RateLimitConfig := mkRateLimitConfig [] LOCAL "".
Definition ex_keys : gset string := {["a"; "b"]}.
Definition sec (t : Z) : Z := t * nanosPerSecond.
Definition ex_run : list rl_event :=
  [EvRequest "a" (sec 60) 1 (sec 1000) []; EvRequest "a" (sec 60) 1 (sec 1001) []; EvRequest "b" (sec 60) 9 (sec 1002) [];
   EvCleanup (sec 1060); EvRequest "a" (sec 60) 1 (sec 1063) []].

Lemma rate_limit_bound_witness :
  exists rl answers,
    rl_run 0 (RateLimit_NewWithConfig ex_rlc) ex_run = Ret (rl, answers) /\
    granted "a" answers * (60 * nanosPerSecond)
    <= 1 * (60 * nanosPerSecond + last_time (sec 1000) ex_run - sec 1000).
Proof.
  apply (rate_limit_bound 0 ex_rlc ex_keys 1 60 (sec 1000) "a" ex_run); [done|by vm_compute|lia|lia|by vm_compute|by vm_compute|].
  repeat (apply Forall_cons; split); try apply Forall_nil; try done; (split; [by vm_compute|split; [by vm_compute|]]).
  all: try done; split; [set_solver|]; intros; by split || discriminate.
Defined.

Definition ex_slow_run : list rl_event :=
  [EvRequest "a" (sec 7200) 1 (sec 1000) []; EvRequest "a" (sec 7200) 1 (sec 9000) []; EvRequest "a" (sec 7200) 1 (sec 18000) []].

Lemma rate_limit_starves_witness :
  exists rl answers,
    rl_run 0 (RateLimit_NewWithConfig ex_rlc) ex_slow_run = Ret (rl, answers) /\
    granted "a" answers = Z.min 1 (requests "a" ex_slow_run).
Proof.
  apply (rate_limit_starves 0 ex_rlc ex_keys 1 7200 (sec 1000) "a" ex_slow_run); [done|by vm_compute|lia|lia|by vm_compute|by vm_compute|by vm_compute| |by vm_compute].
  repeat (apply Forall_cons; split); try apply Forall_nil; try done; (split; [by vm_compute|split; [by vm_compute|]]).
  all: split; [set_solver|]; by intros.
Defined.
