(* ===== verification/RedisLimit.v ===== *)
(** * pkg/filters/ratelimit/redis.go: the buckets kept in Redis

    In the Redis mode every check is one run of a Lua script on the server,
    which holds a bucket per key as a hash with a time to live.  Lua's numbers
    are binary64 floats; Redis stores them as texts.  The server and Lua's
    conversions between numbers and texts are parameters with their documented
    behaviour; the script is a definition.  Any number of gateways share the
    server: the server runs one script at a time, so what they do is a sequence
    of checks.

    Time is kept twice: the script is given the gateway's clock, the server
    removes a bucket by its own. *)
From S2P Require Import Prelude Strconv GoFloat Canonical Utils Json Api Errors Request Response Effects RateLimit.
From Stdlib Require Import SpecFloat Sorted.

(** ** Lua *)

(** [redis.call] passes a number as its text with 17 digits; [tonumber] reads
    one, nil when the text is no number. *)
Class LuaNumbers : Type := mkLuaNumbers {
  number_text : f64 -> string;
  tonumber : string -> option f64 }.

Class LuaNumbersLaws `{LuaNumbers} : Prop := mkLuaNumbersLaws {
  tonumber_text f U k : valid f -> f64_in f 0 U k -> tonumber (number_text f) = Some f;
  text_of_int z : 0 <= z < 2 ^ 53 -> number_text (f64_of_int z) = Itoa z }.

(** [math.min] and [math.max] of two numbers, [math.ceil]. *)
Definition luaMin (a x : f64) : f64 := if f64_ltb x a then x else a.
Definition luaMax (a x : f64) : f64 := if f64_ltb a x then x else a.

Definition f64_ceil (f : f64) : f64 :=
  match f with
  | S754_finite s m e =>
      if 0 <=? e then f
      else
        let a := Zpos m / 2 ^ (- e) in
        let r := Zpos m mod 2 ^ (- e) in
        if s then match a with 0 => S754_zero true | _ => f64_of_int (- a) end
        else f64_of_int (if r =? 0 then a else a + 1)
  | _ => f
  end.

(** ** The server's commands *)
Class Redis (D : Type) : Type := mkRedis {
  HGETALL : string -> D -> list string + string;                       (* fields and values in turn; an error *)
  HMSET : string -> list (string * string) -> D -> D * option string;
  PEXPIRE : string -> string -> D -> D * option string;
  elapse : Z -> D -> D }.                                              (* the server's clock advances, in ms *)

(** What a key holds; the time to live that is left, in milliseconds. *)
Inductive content : Type :=
| Absent
| Hash (fields : gmap string string) (ttl : option Z)
| Other.

Definition pairs_of (l : list (string * string)) : list string := flat_map (fun '(f, v) => [f; v]) l.

Class RedisLaws (D : Type) `{Redis D} : Type := mkRedisLaws {
  entry : D -> string -> content;
  hgetall_absent d k : entry d k = Absent -> HGETALL k d = inl [];
  hgetall_hash d k h ttl :
    entry d k = Hash h ttl ->
    exists l, HGETALL k d = inl (pairs_of l) /\ NoDup l.*1 /\ list_to_map l = h;
  hmset_absent d k l :
    entry d k = Absent -> l <> [] -> NoDup l.*1 ->
    exists d', HMSET k l d = (d', None) /\ entry d' k = Hash (list_to_map l) None;
  hmset_hash d k l h ttl :
    entry d k = Hash h ttl -> l <> [] -> NoDup l.*1 ->
    exists d', HMSET k l d = (d', None) /\ entry d' k = Hash (list_to_map l ∪ h) ttl;
  hmset_other d k l k' : k' <> k -> entry (fst (HMSET k l d)) k' = entry d k';
  pexpire_hash d k h ttl n :
    entry d k = Hash h ttl -> 0 < n < 2 ^ 62 ->
    exists d', PEXPIRE k (Itoa n) d = (d', None) /\ entry d' k = Hash h (Some n);
  pexpire_other d k t k' : k' <> k -> entry (fst (PEXPIRE k t d)) k' = entry d k';
  elapse_entry d k n :
    0 <= n ->
    entry (elapse n d) k = match entry d k with
                           | Hash h (Some r) => if r <=? n then Absent else Hash h (Some (r - n))
                           | c => c
                           end }.

(** Integers keep their value, and the larger of two is the larger float. *)
Lemma f64_ceil_int z : 0 <= z < 2 ^ 53 -> f64_ceil (f64_of_int z) = f64_of_int z.
Proof.
  intros Hz. pose proof (f64_of_int_in z Hz) as Iz. destruct (f64_of_int z) as [[]|[]| |[] p e] eqn:E; cbn [f64_in] in Iz; try done.
  cbn [f64_ceil]. destruct Iz as (He & Hl & Hu). rewrite Z.sub_0_l in *. assert (Zpos p = z * 2 ^ (- e)) as -> by lia.
  destruct (Z.leb_spec 0 e); [done|]. assert (0 < 2 ^ (- e)) by (apply Z.pow_pos_nonneg; lia).
  by rewrite Z.div_mul, Z.mod_mul, Z.eqb_refl by lia.
Qed.

Lemma luaMax_int a b : 0 <= a < 2 ^ 53 -> 0 <= b < 2 ^ 53 -> luaMax (f64_of_int a) (f64_of_int b) = f64_of_int (Z.max a b).
Proof. intros Ha Hb. unfold luaMax. rewrite ltb_int by done. destruct (Z.ltb_spec a b); f_equal; lia. Qed.

Section Script.
Context {D : Type} `{!LuaNumbers} `{!Redis D}.

(** ** The script *)
Definition init_bucket (limit now : f64) : gmap string f64 :=
  <["tokens" := limit]> (<["last_update" := now]> {["limit" := limit]}).

(** [state[bucket[i]] = tonumber(bucket[i + 1])] over the reply; assigning nil
    removes the field. *)
Fixpoint readState (bucket : list string) (state : gmap string f64) : gmap string f64 :=
  match bucket with
  | field :: value :: bucket =>
      readState bucket (match tonumber value with
                        | Some n => <[field := n]> state
                        | None => delete field state
                        end)
  | [field] => delete field state
  | [] => state
  end.

(** The bucket the key has under this capacity. *)
Definition bucketState (bucket : list string) (capacity now : f64) : gmap string f64 :=
  match bucket with
  | [] => init_bucket capacity now
  | _ =>
      let state := readState bucket ∅ in
      match state !! "limit" with
      | Some limit => if f64_eqb limit capacity then state else init_bucket capacity now
      | None => init_bucket capacity now
      end
  end.

Definition luaNil : string := "attempt to perform arithmetic on a nil value".

(** The last part: the state is written back, the time to live renewed. *)
Definition storeBucket (key : string) (new_tokens now capacity window_ms : f64) (allowed : Z) (d : D)
    : D * (Z + string) :=
  let ttl := luaMax (f64_of_int 300000) (f64_ceil (f64_mul window_ms (f64_of_int 2))) in
  match HMSET key [("tokens", number_text new_tokens); ("last_update", number_text now);
                   ("limit", number_text capacity)] d with
  | (d, Some err) => (d, inr err)
  | (d, None) =>
      match PEXPIRE key (number_text ttl) d with
      | (d, Some err) => (d, inr err)
      | (d, None) => (d, inl allowed)
      end
  end.

Definition redisRateLimitScript (key : string) (ARGV : list string) (d : D) : D * (Z + string) :=
  let number i := ARGV !! i ≫= tonumber in
  match number 0%nat, number 1%nat, number 2%nat, number 3%nat with
  | Some limit, Some window_ms, Some now, Some precision =>
      let capacity := f64_mul limit precision in
      let fill_rate := f64_div capacity window_ms in
      match HGETALL key d with
      | inr err => (d, inr err)
      | inl bucket =>
          let state := bucketState bucket capacity now in
          match state !! "last_update", state !! "tokens" with
          | Some last_update, Some tokens =>
              let elapsed_ms := f64_sub now last_update in
              let new_tokens := luaMin capacity (f64_add tokens (f64_mul elapsed_ms fill_rate)) in
              if f64_leb precision new_tokens
              then storeBucket key (f64_sub new_tokens precision) now capacity window_ms 1 d
              else storeBucket key new_tokens now capacity window_ms 0 d
          | _, _ => (d, inr luaNil)
          end
      end
  | _, _, _, _ => (d, inr luaNil)
  end.

(** ** Checks through the gateways *)

(** The connection may fail before the script runs, or before its answer
    arrives. *)
Inductive fate : Type := Answered | AnswerLost | NotSent.

Record RedisWorld : Type := mkRedisWorld {
  rw_db : D;
  rw_now : Z;            (* the gateway's clock, in nanoseconds *)
  rw_rl : RateLimiter }.

Definition redisError (text : string) : gerror := EPlain text.

Definition sendScript (f : fate) (key : string) (args : list string) : Eff RedisWorld (Z + gerror) :=
  match f with
  | NotSent => mret (inr (redisError "connection refused"))
  | _ =>
      x ← getExt;
      let '(d, reply) := redisRateLimitScript key args (rw_db x) in
      _ ← putExt (mkRedisWorld d (rw_now x) (rw_rl x));
      mret (match f, reply with
            | Answered, inl n => inl n
            | Answered, inr text => inr (redisError text)
            | _, _ => inr (redisError "connection reset")
            end)
  end.

Definition redisEnv (f : fate) : Surroundings RedisWorld :=
  mkSurroundings rw_rl (fun rl x => mkRedisWorld (rw_db x) (rw_now x) rl)
    (x ← getExt; mret (rw_now x, [])) (sendScript f).

Record check : Type := mkCheck {
  ch_key : string; ch_window : Z; ch_limit : Z;
  ch_now : Z;                (* the gateway's clock, in nanoseconds *)
  ch_server : Z;             (* the server's clock, in milliseconds *)
  ch_fate : fate }.

(** The checks of any number of gateways, in the order the server runs them;
    what each of them answers. *)
Fixpoint redisRun (server : Z) (checks : list check) : Eff RedisWorld (list (string * bool)) :=
  match checks with
  | [] => mret []
  | c :: checks =>
      x ← getExt;
      _ ← putExt (mkRedisWorld (elapse (ch_server c - server) (rw_db x)) (ch_now c) (rw_rl x));
      result ← checkBucketRedis (redisEnv (ch_fate c)) (ch_key c) (ch_window c) (ch_limit c);
      answers ← redisRun (ch_server c) checks;
      mret ((ch_key c, match result with inl allowed => allowed | inr _ => false end) :: answers)
  end.
End Script.
Arguments RedisWorld : clear implicits.

(** ** Reading back what was stored *)
Section Texts.
Context `{LuaNumbersLaws}.

Lemma tonumber_Itoa z : 0 <= z < 2 ^ 53 -> tonumber (Itoa z) = Some (f64_of_int z).
Proof. intros Hz. rewrite <- text_of_int by done. apply (tonumber_text _ z 0); [auto with knoway|]. apply (f64_in_weaken _ z z); [by apply f64_of_int_in|lia..]. Qed.

Lemma readState_lookup l : forall state f,
  NoDup l.*1 ->
  readState (pairs_of l) state !! f
  = match (list_to_map l : gmap string string) !! f with Some v => tonumber v | None => state !! f end.
Proof.
  induction l as [|[g v] l IH]; intros state f Hl; [done|]. cbn [fmap list_fmap fst] in Hl. apply NoDup_cons in Hl as [Hg Hl].
  cbn [pairs_of flat_map app readState]. fold (pairs_of l). rewrite IH by done. cbn [list_to_map foldr].
  assert ((list_to_map l : gmap string string) !! g = None) as Eg by by apply not_elem_of_list_to_map.
  destruct (decide (g = f)) as [->|Hne].
  - rewrite Eg, lookup_insert_eq. cbn [snd]. destruct (tonumber v); [by rewrite lookup_insert_eq|by rewrite lookup_delete_eq].
  - rewrite lookup_insert_ne by done. destruct (list_to_map l !! f); [done|].
    destruct (tonumber v); [by rewrite lookup_insert_ne|by rewrite lookup_delete_ne].
Qed.
End Texts.

(** ** One bucket under one limit: [L] requests per window of [w] ms

    Quantities are counted in units of [2^-20] of a thousandth of a request;
    with limits below [2^22] every float of the script is a multiple of a unit
    or is rounded to less than one more. *)
Definition unit : Z := -20.
Definition S20 : Z := 2 ^ 20.

Section Bucket.
Variables (L w : Z).
Hypothesis HL : 0 < L <= 2 ^ 22.
Hypothesis Hw : 0 < w <= 2 ^ 44.

Let cap : Z := L * precision * S20.
Let capacity : f64 := f64_mul (f64_of_int L) (f64_of_int precision).
Let rate : f64 := f64_div capacity (f64_of_int w).

Lemma cap_bound : 0 < cap <= 1000 * 2 ^ 42.
Proof. unfold cap, precision, S20. lia. Qed.

Lemma int_in n : 0 <= n < 2 ^ 33 -> f64_in (f64_of_int n) (n * S20) (n * S20) unit.
Proof. intros Hn. apply (f64_of_int_at n unit); unfold unit; lia. Qed.

Lemma capacity_int : f64_in capacity (L * precision) (L * precision) 0.
Proof.
  apply (f64_mul_in _ _ L L 0 precision precision 0); try (apply f64_of_int_in); unfold precision; lia.
Qed.

Lemma capacity_is : capacity = f64_of_int (L * precision).
Proof. apply mul_int; unfold precision; lia. Qed.

Lemma capacity_in : f64_in capacity cap cap unit.
Proof. rewrite capacity_is. apply int_in. unfold precision. lia. Qed.

Lemma capacity_valid : valid capacity.
Proof. rewrite capacity_is. auto with knoway. Qed.

(** The rate is at most the exact one, rounded up to a unit. *)
Definition rateBound : Z := (cap + w - 1) / w.

Lemma rateBound_spec : 0 <= rateBound /\ cap <= rateBound * w /\ rateBound * w < cap + w.
Proof.
  pose proof cap_bound. unfold rateBound. pose proof (Z.mod_pos_bound (cap + w - 1) w ltac:(lia)).
  pose proof (Z.div_mod (cap + w - 1) w ltac:(lia)). split; [apply Z.div_pos; lia|]. nia.
Qed.

Lemma rate_in : f64_in rate 0 rateBound unit.
Proof.
  pose proof cap_bound. pose proof rateBound_spec as (H0 & H1 & H2). unfold rate.
  apply (f64_div_in _ _ (L * precision) w); [apply capacity_int|apply f64_of_int_in; lia| |lia| | | |].
  - unfold precision. lia.
  - change (2 ^ (- unit)) with S20. fold cap. lia.
  - unfold unit. lia.
  - unfold precision, unit. nia.
  - nia.
Qed.

Lemma rate_valid : valid rate.
Proof. unfold rate, capacity. auto 10 with knoway. Qed.

(** Some tokens, of which there are at most [T] units. *)
Definition holds (f : f64) (T : Z) : Prop := valid f /\ f64_in f 0 T unit /\ T <= cap.

Lemma holds_ordered f T : holds f T -> 0 <= T.
Proof. intros (_ & H & _). by apply f64_in_ordered in H. Qed.

Lemma holds_full : holds capacity cap.
Proof.
  pose proof cap_bound. split; [apply capacity_valid|]. split; [|lia].
  apply (f64_in_weaken _ cap cap); [apply capacity_in|lia|lia].
Qed.

(** Whatever the sum is, it is some nonnegative number: nothing overflows. *)
Lemma sum_coarse f T e :
  holds f T -> 0 <= e < 2 ^ 53 -> f64_in (f64_add f (f64_mul (f64_of_int e) rate)) 0 2 85.
Proof.
  intros (Hv & Hf & HT) He. pose proof cap_bound. pose proof rateBound_spec.
  assert (rateBound <= cap + w) by nia.
  apply (f64_add_in _ _ 0 1 0 1 85); [| |lia..].
  - apply (f64_in_coarser f T unit); [done|unfold unit; lia|]. unfold unit. cbn. lia.
  - apply (f64_mul_in _ _ 0 1 53 0 1 32); [| |lia..].
    + apply (f64_in_coarser _ e 0); [|lia|lia]. apply (f64_in_weaken _ e e); [by apply f64_of_int_in|lia..].
    + apply (f64_in_coarser _ rateBound unit); [apply rate_in|unfold unit; lia|]. unfold unit. cbn. lia.
Qed.

Lemma sum_fine f T e :
  holds f T -> 0 <= e < w -> f64_in (f64_add f (f64_mul (f64_of_int e) rate)) 0 (T + e * rateBound) unit.
Proof.
  intros (Hv & Hf & HT) He. pose proof cap_bound. pose proof rateBound_spec.
  assert (e * rateBound <= cap + w) by nia.
  apply (f64_add_in _ _ 0 T 0 (e * rateBound) unit); [done| |lia|lia| |unfold unit; lia].
  - apply (f64_mul_in _ _ 0 e 0 0 rateBound unit); [|apply rate_in|lia|lia|lia|unfold unit; lia].
    apply (f64_in_weaken _ e e); [apply f64_of_int_in|..]; lia.
  - lia.
Qed.

(** What [e] milliseconds earn: their share of a window, rounded up to [e]
    units, and never more than a full bucket. *)
Lemma earned f T e :
  holds f T -> 0 <= e < 2 ^ 53 ->
  exists T', holds (luaMin capacity (f64_add f (f64_mul (f64_of_int e) rate))) T' /\
    T' * w <= T * w + (cap + w) * e.
Proof.
  intros Hf He. pose proof cap_bound. pose proof rateBound_spec as (H0 & H1 & H2). pose proof (holds_ordered _ _ Hf).
  pose proof (sum_coarse f T e Hf He) as Hc. set (y := f64_add f _) in *.
  assert (valid y) as Hy.
  { unfold y. destruct Hf. apply valid_add, valid_mul; auto using rate_valid with knoway. }
  pose proof capacity_valid as Hcv. pose proof capacity_in as Hci. unfold luaMin.
  assert (e < w -> f64_in y 0 (T + e * rateBound) unit) as Hfine.
  { intros. unfold y. apply (sum_fine f T e Hf). lia. }
  assert ((if f64_ltb y capacity then y else capacity) = y /\ f64_in y 0 cap unit
          \/ (if f64_ltb y capacity then y else capacity) = capacity /\ (e < w -> cap <= T + e * rateBound)) as Hm.
  { destruct (f64_ltb y capacity) eqn:El; [left|right]; (split; [done|]).
    - apply (f64_leb_under y capacity cap cap unit 2 85); try done. by apply f64_ltb_leb.
    - intros Hlt%Hfine. pose proof (f64_ltb_false y capacity _ _ _ _ unit Hy Hcv Hlt Hci El) as Hle.
      destruct (f64_leb_in capacity y cap cap _ _ unit Hcv Hy Hle Hci Hlt) as [Hi _]. by apply f64_in_ordered in Hi. }
  destruct (Z.lt_ge_cases e w) as [Hlt|Hge].
  - specialize (Hfine Hlt). destruct Hm as [[-> Hin]|[-> Hle]].
    + exists (Z.min cap (T + e * rateBound)). split; [|nia]. split; [done|]. split; [|lia].
      destruct (Z.min_spec cap (T + e * rateBound)) as [[_ ->]|[_ ->]]; done.
    + exists cap. split; [apply holds_full|]. specialize (Hle Hlt). nia.
  - exists cap. split; [|nia]. destruct Hm as [[-> Hin]|[-> _]]; [by split|apply holds_full].
Qed.

(** A request that is let through takes its thousand thousandths. *)
Lemma consumed f T :
  holds f T -> f64_leb (f64_of_int precision) f = true -> holds (f64_sub f (f64_of_int precision)) (T - precision * S20).
Proof.
  intros (Hv & Hf & HT) Hle. pose proof cap_bound.
  assert (f64_in (f64_of_int precision) (precision * S20) (precision * S20) unit) as Hp by by apply int_in.
  destruct (f64_leb_in _ f _ _ 0 T unit (valid_of_int _) Hv Hle Hp Hf) as [_ Hge].
  split; [by auto with knoway|]. split; [|unfold precision, S20 in *; lia].
  apply (f64_in_weaken _ (precision * S20 - precision * S20) (T - precision * S20)); [|lia|lia].
  apply (f64_sub_in f _ (precision * S20) T (precision * S20) (precision * S20) unit);
    try done; unfold unit, precision, S20 in *; lia.
Qed.

(** ** What a check does to the bucket *)
Context {D : Type} `{LuaNumbersLaws} `{RedisLaws D}.

(** The hash of a bucket of this limit, last changed at [u]. *)
Definition stored (h : gmap string string) (u T : Z) : Prop :=
  exists f, holds f T /\ h !! "tokens" = Some (number_text f) /\
    h !! "last_update" = Some (Itoa u) /\ h !! "limit" = Some (Itoa (L * precision)).

Definition ttl : Z := Z.max 300000 (2 * w).

Lemma ttl_text : number_text (luaMax (f64_of_int 300000) (f64_ceil (f64_mul (f64_of_int w) (f64_of_int 2)))) = Itoa ttl.
Proof.
  rewrite mul_int, f64_ceil_int, luaMax_int, text_of_int by lia. unfold ttl. by rewrite (Z.mul_comm w).
Qed.

Lemma storeBucket_ok key f n d T a :
  holds f T -> 0 <= n < 2 ^ 53 -> entry d key <> Other ->
  exists d' h, storeBucket key f (f64_of_int n) capacity (f64_of_int w) a d = (d', inl a) /\
    entry d' key = Hash h (Some ttl) /\ stored h n T.
Proof.
  intros Hf Hn Hd. unfold storeBucket. rewrite ttl_text, capacity_is, !text_of_int by (unfold precision; lia).
  set (l := [("tokens", _); _; _]). assert (NoDup l.*1) as Hl by (apply (bool_decide_unpack _); by vm_compute).
  assert (exists d1 h t, HMSET key l d = (d1, None) /\ entry d1 key = Hash (list_to_map l ∪ h) t) as (d1 & h & t & -> & E1).
  { destruct (entry d key) as [|h t|] eqn:E; [| |done].
    - destruct (hmset_absent d key l E ltac:(done) Hl) as (d1 & -> & E1). exists d1, ∅, None. by rewrite map_union_empty.
    - destruct (hmset_hash d key l h t E ltac:(done) Hl) as (d1 & -> & E1). by exists d1, h, t. }
  destruct (pexpire_hash d1 key _ t ttl E1) as (d2 & -> & E2); [unfold ttl; lia|].
  exists d2, (list_to_map l ∪ h). split; [done|]. split; [done|]. exists f. split; [done|].
  repeat split; apply lookup_union_Some_l; done.
Qed.

(** The bucket a check finds: what is stored, or a full one. *)
Definition finds (c : content) (n u T : Z) : Prop :=
  match c with
  | Absent => u = n /\ T = cap
  | Hash h _ => stored h u T
  | Other => False
  end.

Lemma finds_state d key n u T :
  finds (entry d key) n u T -> 0 <= u <= n -> n < 2 ^ 53 ->
  exists bucket f, HGETALL key d = inl bucket /\ holds f T /\
    bucketState bucket capacity (f64_of_int n) !! "last_update" = Some (f64_of_int u) /\
    bucketState bucket capacity (f64_of_int n) !! "tokens" = Some f.
Proof.
  intros Hf Hu Hn. destruct (entry d key) as [|h t|] eqn:E; [| |done]; cbn [finds] in Hf.
  - destruct Hf as [-> ->]. exists [], capacity. rewrite (hgetall_absent d key E).
    repeat split; [apply capacity_valid|apply holds_full..].
  - destruct Hf as (f & Hf & Ht & Hl & Hc). destruct (hgetall_hash d key h t E) as (l & El & Hd & <-).
    exists (pairs_of l), f. split; [done|]. split; [done|].
    assert (bucketState (pairs_of l) capacity (f64_of_int n) = readState (pairs_of l) ∅) as ->.
    { destruct l as [|[g v] l]; [done|]. cbn [pairs_of flat_map app bucketState]. fold (pairs_of l).
      change (g :: v :: pairs_of l) with (pairs_of ((g, v) :: l)). rewrite readState_lookup, Hc by done.
      rewrite tonumber_Itoa, capacity_is by (unfold precision; lia).
      by rewrite (f64_in_eqb _ _ _ 0 (f64_of_int_in (L * precision) ltac:(unfold precision; lia))). }
    rewrite !readState_lookup, Hl, Ht by done. rewrite tonumber_Itoa by lia.
    destruct Hf as (Hv & Hi & HT). by rewrite (tonumber_text f T unit).
Qed.

Lemma script_ok d key n u T :
  finds (entry d key) n u T -> 0 <= u <= n -> n < 2 ^ 53 ->
  exists d' h (x : bool) T',
    redisRateLimitScript key [Itoa L; Itoa w; Itoa n; Itoa precision] d = (d', inl (if x then 1 else 0)) /\
    entry d' key = Hash h (Some ttl) /\ stored h n T' /\
    (T' + if x then precision * S20 else 0) * w <= T * w + (cap + w) * (n - u).
Proof.
  intros Hf Hu Hn. destruct (finds_state d key n u T Hf Hu Hn) as (bucket & f & E & Hh & El & Et).
  unfold redisRateLimitScript. cbn [lookup list_lookup mbind option_bind].
  rewrite !tonumber_Itoa by (unfold precision; lia). cbv zeta. fold capacity. fold rate. rewrite E, El, Et.
  rewrite sub_int by lia. destruct (earned f T (n - u) Hh ltac:(lia)) as (T' & Hh' & HT').
  set (x := luaMin _ _) in *. assert (entry d key <> Other) as Ho by by destruct (entry d key).
  destruct (f64_leb (f64_of_int precision) x) eqn:Ex.
  - pose proof (consumed x T' Hh' Ex) as Hc. destruct (storeBucket_ok key _ n d _ 1 Hc ltac:(lia) Ho) as (d' & h & Es & Ee & Hs).
    exists d', h, true, (T' - precision * S20). repeat split; [done..|lia].
  - destruct (storeBucket_ok key _ n d _ 0 Hh' ltac:(lia) Ho) as (d' & h & Es & Ee & Hs).
    exists d', h, false, T'. repeat split; [done..|lia].
Qed.

(** ** Runs of checks *)

(** A check of another key leaves the bucket alone, whatever it does. *)
Lemma script_other key args d k : k <> key -> entry (fst (redisRateLimitScript key args d)) k = entry d k.
Proof.
  intros Hk. unfold redisRateLimitScript. cbv zeta.
  assert (forall x n c wm a d, entry (fst (storeBucket key x n c wm a d)) k = entry d k) as Hs.
  { intros x n c wm a d0. unfold storeBucket. set (l := [_; _; _]). set (t := number_text _).
    pose proof (hmset_other d0 key l k Hk) as E1. destruct (HMSET key l d0) as [d1 [err|]]; [done|]. cbn in E1.
    pose proof (pexpire_other d1 key t k Hk) as E2. destruct (PEXPIRE key t d1) as [d2 [err|]]; cbn in *; congruence. }
  repeat (case_match; try done).
Qed.

Definition ch_ms (c : check) : Z := ch_now c / 1000000.
Definition stamp (c : check) : Z * Z := (ch_ms c, ch_server c).

(** Neither clock goes back, and between two checks the server's advances at
    most twice as fast as the gateways', up to their resolution. *)
Definition clocks_agree (p q : Z * Z) : Prop :=
  fst p <= fst q /\ snd p <= snd q /\ snd q - snd p <= 2 * (fst q - fst p) + 1.

(** The entry of the key when [a] of its requests were allowed since [t0],
    the gateways' clocks being at [n] and the server's at [s]. *)
Definition balanced (t0 n s a : Z) (future : list (Z * Z)) (c : content) : Prop :=
  match c with
  | Absent => a * (precision * S20) * w <= (cap + w) * (n - t0)
  | Hash h (Some r) =>
      exists u su T, stored h u T /\ t0 <= u <= n /\ r = su + ttl - s /\ Forall (clocks_agree (u, su)) future /\
        (a * (precision * S20) + T) * w <= cap * w + (cap + w) * (u - t0)
  | _ => False
  end.

Lemma stored_nonneg h u T : stored h u T -> 0 <= T.
Proof. intros (f & Hf & _). by apply holds_ordered in Hf. Qed.

(** The server's clock advances: a bucket that is removed had two windows to
    fill by the server's clock, one by the gateways'. *)
Lemma balanced_elapse t0 n s a future d k n' s' :
  balanced t0 n s a ((n', s') :: future) (entry d k) -> clocks_agree (n, s) (n', s') ->
  balanced t0 n' s' a future (entry (elapse (s' - s) d) k).
Proof.
  intros Hb (Hn & Hs & _). cbn [fst snd] in *. pose proof cap_bound. rewrite elapse_entry by lia.
  destruct (entry d k) as [|h [r|]|]; cbn [balanced] in *; try done; [nia|].
  destruct Hb as (u & su & T & Hst & Hu & -> & Hf & Hb). apply Forall_cons in Hf as [(Hun & _ & Ha) Hf]. cbn [fst snd] in *.
  pose proof (stored_nonneg _ _ _ Hst). destruct (Z.leb_spec (su + ttl - s) (s' - s)); cbn [balanced].
  - assert (w <= n' - u) by (unfold ttl in *; lia). nia.
  - exists u, su, T. repeat split; try done; lia.
Qed.

Lemma balanced_finds t0 n s a future c :
  balanced t0 n s a future c -> t0 <= n ->
  exists u T, finds c n u T /\ t0 <= u <= n /\
    (a * (precision * S20) + T) * w <= cap * w + (cap + w) * (u - t0).
Proof.
  intros Hb Hn. destruct c as [|h [r|]|]; cbn [balanced] in Hb; try done.
  - exists n, cap. cbn. repeat split; lia.
  - destruct Hb as (u & su & T & Hst & Hu & _ & _ & Hb). by exists u, T.
Qed.

Lemma balanced_bound t0 n s a future c :
  balanced t0 n s a future c -> t0 <= n -> a * (precision * S20) * w <= cap * w + (cap + w) * (n - t0).
Proof.
  intros Hb Hn. pose proof cap_bound. destruct c as [|h [r|]|]; cbn [balanced] in Hb; try done; [nia|].
  destruct Hb as (u & su & T & Hst & Hu & _ & _ & Hb). pose proof (stored_nonneg _ _ _ Hst). nia.
Qed.

(** A check, wherever its connection fails. *)
Definition afterScript (c : check) (d : D) : D * (Z + string) :=
  redisRateLimitScript (ch_key c)
    [Itoa (ch_limit c); Itoa (Z.quot (ch_window c) 1000000); Itoa (ch_ms c); Itoa precision] d.

Definition allowedBy (c : check) (d : D) : bool :=
  match ch_fate c, snd (afterScript c d) with Answered, inl n => negb (n =? 0) | _, _ => false end.

Definition dbAfter (c : check) (d : D) : D :=
  match ch_fate c with NotSent => d | _ => fst (afterScript c d) end.

Lemma redisRun_cons s c checks m r x :
  redisRun s (c :: checks) (mkWorld m r x)
  = let d := elapse (ch_server c - s) (rw_db x) in
    match redisRun (ch_server c) checks (mkWorld m r (mkRedisWorld (dbAfter c d) (ch_now c) (rw_rl x))) with
    | Ret (w', answers) => Ret (w', (ch_key c, allowedBy c d) :: answers)
    | Panic s => Panic s
    end.
Proof.
  cbn [redisRun]. unfold checkBucketRedis, redisEnv, sendScript, allowedBy, dbAfter, afterScript, ch_ms. run_eff. cbn [clock redisEval].
  destruct (ch_fate c); run_eff; cbv zeta; cbn [rw_db rw_now rw_rl].
  3: repeat case_match; by simplify_eq.
  all: destruct (redisRateLimitScript _ _ _) as [d' [n|e]]; cbn; repeat case_match; by simplify_eq.
Qed.

(** The checks of the key ask for [L] requests per [w] milliseconds. *)
Definition ch_fine (k : string) (c : check) : Prop :=
  0 <= ch_ms c < 2 ^ 53 /\ (ch_key c = k -> Z.quot (ch_window c) 1000000 = w /\ ch_limit c = L).

Lemma check_balanced t0 s a future k c d :
  0 <= t0 <= ch_ms c -> ch_fine k c -> Forall (clocks_agree (stamp c)) future ->
  s = ch_server c -> balanced t0 (ch_ms c) s a future (entry d k) ->
  balanced t0 (ch_ms c) s (a + if String.eqb (ch_key c) k && allowedBy c d then 1 else 0) future (entry (dbAfter c d) k).
Proof.
  intros Ht (Hn & Hpol) Hfut Hs Hb. pose proof cap_bound. unfold allowedBy, dbAfter. destruct (String.eqb_spec (ch_key c) k) as [Ek|Hne].
  2: { rewrite Z.add_0_r. destruct (ch_fate c); [..|done]; unfold afterScript; by rewrite script_other by congruence. }
  cbn [andb]. destruct (Hpol Ek) as [Ew El].
  destruct (balanced_finds _ _ _ _ _ _ Hb ltac:(lia)) as (u & T & Hfi & Hu & Hle).
  assert (exists d' h (x : bool) T', afterScript c d = (d', inl (if x then 1 else 0)) /\ entry d' k = Hash h (Some ttl) /\
    stored h (ch_ms c) T' /\ (T' + if x then precision * S20 else 0) * w <= T * w + (cap + w) * (ch_ms c - u))
    as (d' & h & x & T' & Es & Ee & Hst & HT).
  { unfold afterScript. rewrite Ew, El, Ek. apply script_ok; [done|lia|lia]. }
  rewrite Es. cbn [fst snd]. destruct (ch_fate c); [| |by rewrite Z.add_0_r].
  all: rewrite Ee; cbn [balanced]; exists (ch_ms c), (ch_server c), T'.
  all: assert (0 <= precision * S20) by (unfold precision, S20; lia); repeat split; try done; try lia.
  all: destruct x; cbn [Z.eqb negb]; nia.
Qed.

Lemma redisRun_balanced checks : forall t0 n s a k m r x,
  0 <= t0 <= n -> StronglySorted clocks_agree ((n, s) :: map stamp checks) -> Forall (ch_fine k) checks ->
  balanced t0 n s a (map stamp checks) (entry (rw_db x) k) ->
  exists w' answers, redisRun s checks (mkWorld m r x) = Ret (w', answers) /\
    (a + granted k answers) * (precision * S20) * w
    <= cap * w + (cap + w) * (foldl (fun _ c => ch_ms c) n checks - t0).
Proof.
  induction checks as [|c checks IH]; intros t0 n s a k m r x Ht Hs Hf Hb.
  { exists (mkWorld m r x), []. split; [done|]. cbn [granted foldl]. rewrite Z.add_0_r. eapply balanced_bound; [done|lia]. }
  apply Forall_cons in Hf as [Hc Hf]. cbn [map] in Hs, Hb.
  apply StronglySorted_inv in Hs as [Hs Hag]. apply Forall_cons in Hag as [Hag _].
  pose proof Hs as [_ Hnext]%StronglySorted_inv. pose proof Hag as (Hn & _). cbn [fst] in Hn.
  pose proof (balanced_elapse _ _ _ _ _ _ _ _ _ Hb Hag) as Hb1. cbn [stamp fst] in Hn.
  set (d := elapse (ch_server c - s) (rw_db x)) in *.
  pose proof (check_balanced t0 _ a _ k c d ltac:(lia) Hc Hnext eq_refl Hb1) as Hb2.
  destruct (IH t0 (ch_ms c) (ch_server c) _ k m r (mkRedisWorld (dbAfter c d) (ch_now c) (rw_rl x))
    ltac:(lia) Hs Hf Hb2) as (w' & answers & Er & Hle).
  exists w', ((ch_key c, allowedBy c d) :: answers). rewrite redisRun_cons. fold d. cbv zeta. rewrite Er.
  split; [done|]. cbn [granted foldl]. by rewrite Z.add_assoc.
Qed.
End Bucket.

(** * Properties *)


(** ** A server and its texts *)
#[export] Instance spec_float_eq_dec : EqDecision spec_float.
Proof. solve_decision. Defined.

(** Integers as Lua prints them; other numbers by mantissa and exponent. *)
Definition ex_text (f : f64) : string :=
  match f64_trunc f with
  | Some z =>
      if (0 <=? z) && (z <? 2 ^ 53) && bool_decide (f64_of_int z = f) then Itoa z
      else match f with S754_finite false p e => Itoa (Zpos p) +:+ String "p" (Itoa e) | _ => "nan" end
  | None => "nan"
  end.

Definition ex_number (s : string) : option f64 :=
  match map (fun t => ParseInt t 64) (Split "p" s) with
  | [inl z] => Some (f64_of_int z)
  | [inl p; inl e] => Some (S754_finite false (Z.to_pos p) e)
  | _ => None
  end.

#[export] Instance ex_lua : LuaNumbers := mkLuaNumbers ex_text ex_number.

Lemma Itoa_no_p z : ContainsByte (Itoa z) "p" = false.
Proof.
  destruct (Z.le_gt_cases 0 z); [by apply Itoa_digits|].
  replace z with (- - z) by lia. rewrite Itoa_neg by lia. cbn. apply Itoa_digits; [lia|done].
Qed.

Lemma ex_number_int z : in_s 64 z -> ex_number (Itoa z) = Some (f64_of_int z).
Proof.
  intros Hz. unfold ex_number. rewrite (Split_no_sep _ _ (Itoa_no_p z)). cbn [map].
  by rewrite ParseInt_Itoa, decide_True.
Qed.

#[export] Instance ex_lua_laws : LuaNumbersLaws.
Proof.
  split.
  - intros f U k Hv Hf. cbn [number_text tonumber ex_lua]. unfold ex_text. destruct (f64_trunc f) as [z|] eqn:Et.
    2: { by destruct f as [[]|[]| |[] p e]. }
    destruct (_ && _ && _) eqn:Ec.
    + rewrite !andb_true_iff, Z.leb_le, Z.ltb_lt, bool_decide_eq_true in Ec. destruct Ec as [Hz <-].
      apply ex_number_int. unfold in_s. lia.
    + destruct f as [[]|[]| |[] p e]; try done; [by injection Et as <-|].
      pose proof (canonical_bounds _ _ _ Hv) as (Hp & He & _).
      assert (e <= 971) by (unfold valid, valid_binary, bounded in Hv; apply andb_true_iff in Hv as [_ Hv]; by apply Z.leb_le in Hv).
      unfold ex_number. rewrite Split_app, (Split_no_sep _ _ (Itoa_no_p e)) by apply Itoa_no_p. cbn [map].
      by rewrite !ParseInt_Itoa, !decide_True by (done || unfold in_s; lia).
  - intros z Hz. cbn [number_text ex_lua]. unfold ex_text.
    rewrite (f64_trunc_in _ z z 0 z) by (try (by apply f64_of_int_in); lia).
    by rewrite (proj2 (Z.leb_le _ _)), (proj2 (Z.ltb_lt _ _)), bool_decide_true by (done || lia).
Qed.

Abbreviation ex_store := (gmap string (gmap string string * option Z)).


#[export] Instance ex_redis : Redis ex_store := {|
  HGETALL k d := inl (match d !! k with Some (h, _) => pairs_of (map_to_list h) | None => [] end);
  HMSET k l d :=
    (<[k := match d !! k with Some (h, t) => (list_to_map l ∪ h, t) | None => (list_to_map l, None) end]> d, None);
  PEXPIRE k t d :=
    match ParseInt t 64 with
    | inl n => (match d !! k with
                | Some (h, _) => if 0 <? n then <[k := (h, Some n)]> d else delete k d
                | None => d
                end, None)
    | inr _ => (d, Some "ERR value is not an integer or out of range")
    end;
  elapse n d :=
    omap (fun ht => match ht with
                    | (h, Some r) => if r <=? n then None else Some (h, Some (r - n))
                    | (h, None) => Some (h, None)
                    end) d |}.

Definition ex_entry (d : ex_store) (k : string) : content :=
  match d !! k with Some (h, t) => Hash h t | None => Absent end.

#[export] Instance ex_redis_laws : RedisLaws ex_store.
Proof.
  refine (mkRedisLaws _ _ ex_entry _ _ _ _ _ _ _ _); unfold ex_entry; cbn.
  - intros d k. destruct (d !! k) as [[h t]|]; [discriminate|done].
  - intros d k h t. destruct (d !! k) as [[h' t']|]; [intros [= -> ->]|discriminate].
    exists (map_to_list h). split; [done|]. split; [apply NoDup_fst_map_to_list|apply list_to_map_to_list].
  - intros d k l. destruct (d !! k) as [[h t]|]; [discriminate|]. intros. eexists. split; [done|]. by rewrite lookup_insert_eq.
  - intros d k l h t. destruct (d !! k) as [[h' t']|]; [intros [= -> ->]|discriminate]. intros. eexists. split; [done|]. by rewrite lookup_insert_eq.
  - intros d k l k' Hk. by rewrite lookup_insert_ne.
  - intros d k h t n. destruct (d !! k) as [[h' t']|]; [intros [= -> ->]|discriminate]. intros Hn.
    rewrite ParseInt_Itoa, decide_True by (unfold in_s; lia). rewrite (proj2 (Z.ltb_lt _ _)) by lia.
    eexists. split; [done|]. by rewrite lookup_insert_eq.
  - intros d k t k' Hk. destruct (ParseInt t 64) as [n|]; [|done]. cbn. destruct (d !! k) as [[h t']|]; [|done].
    destruct (0 <? n); [by rewrite lookup_insert_ne|by rewrite lookup_delete_ne].
  - intros d k n Hn. rewrite lookup_omap. destruct (d !! k) as [[h [r|]]|]; cbn; try done. by destruct (r <=? n).
Defined.

(** Two requests a minute from two gateways whose clocks are a little apart
    from the server's; one answer is lost, and after 6 minutes the server has
    dropped the bucket. *)
Definition at_ms (key : string) (window limit ms server : Z) (f : fate) : check :=
  mkCheck key (window * nanosPerSecond) limit (ms * 1000000) server f.

Definition ex_checks : list check :=
  [at_ms "a" 60 2 1000000 5000 Answered; at_ms "a" 60 2 1000100 5101 AnswerLost; at_ms "b" 1 7 1000200 5200 Answered;
   at_ms "a" 60 2 1000300 5300 Answered; at_ms "a" 60 2 1030200 35200 Answered; at_ms "a" 60 2 1030300 35300 NotSent;
   at_ms "a" 60 2 1400000 405000 Answered].

Definition ex_rw : RedisWorld ex_store := mkRedisWorld ∅ 0 (RateLimit_NewWithConfig (mkRateLimitConfig [] REDIS "")).
Definition ex_req : LLMRequest := mkLLMRequest RequestTypeChatCompletions "public" false None None None None None None.

Lemma ex_answers :
  match redisRun 4000 ex_checks (mkWorld InitMetadata ex_req ex_rw) with Ret (_, answers) => map snd answers | Panic _ => [] end
  = [true; false; true; false; true; false; true].
Proof. by vm_compute. Qed.


(** A window shorter than a millisecond is sent as 0: the rate is infinite or
    no number, [math.min] leaves a full bucket, and nothing is refused. *)
Lemma redis_window_below_ms :
  match redisRun 0 (replicate 5 (mkCheck "a" 500000 1 1000000000 0 Answered)) (mkWorld InitMetadata ex_req ex_rw) with
  | Ret (_, answers) => map snd answers
  | Panic _ => []
  end = replicate 5 true.
Proof. by vm_compute. Qed.

(** Rounding can cost a request: an empty bucket of 65 requests a minute is
    not full again after exactly one minute. *)
Lemma redis_refill_short :
  match redisRun 0 (replicate 65 (at_ms "a" 60 65 1000 0 Answered) ++ replicate 65 (at_ms "a" 60 65 61000 60000 Answered))
    (mkWorld InitMetadata ex_req ex_rw) with
  | Ret (_, answers) => granted "a" answers
  | Panic _ => 0
  end = 129.
Proof. by vm_compute. Qed.
