(* ===== verification/ClusterFilters.v ===== *)
(** * pkg/clusters/filters, pkg/registry/config: the filters of a cluster

    The hooks that an upstream call goes through, the two handlers that
    implement them (openai/request.go and openai/response.go) and the registry
    that builds filters from their configuration. *)
From S2P Require Import Prelude Strconv Utils GoFloat Json Api Errors Request Response Effects Stream Filters.

(** ** What a cluster receives *)

(** The upstream's answer: [raw_Text] is what the shared [bufio.Reader] is
    still to give, [raw_End] how it ends (io.EOF or a read error). *)
Record RawResponse : Type := mkRaw {
  raw_StatusCode : Z;
  raw_Status : string;
  raw_ContentType : string;
  raw_Text : string;
  raw_End : gerror }.

(** Reading all of it. *)
Definition buffered (raw : RawResponse) : HTTPResponse :=
  mkHTTPResponse (raw_StatusCode raw) (raw_Status raw) (raw_ContentType raw)
    (if IsEOFError (raw_End raw) then Some (raw_Text raw) else None).
Definition drained (raw : RawResponse) : RawResponse :=
  mkRaw (raw_StatusCode raw) (raw_Status raw) (raw_ContentType raw) "" (raw_End raw).

(** [object.LLMResponse]: a whole response or a stream. *)
Inductive AnyResponse : Type :=
| Whole (r : LLMResponse)
| Streaming (r : StreamResponse).

Definition any_IsStream (r : AnyResponse) : bool :=
  match r with Whole r => resp_IsStream r | Streaming _ => true end.
Definition any_GetModel (r : AnyResponse) : string :=
  match r with Whole r => resp_model r | Streaming r => sr_Model r end.
(** The [Error] field of a stream is never set. *)
Definition any_GetError (r : AnyResponse) : option LLMError :=
  match r with Whole r => resp_error r | Streaming _ => None end.
Definition any_GetUsage (r : AnyResponse) : option LLMUsage :=
  match r with Whole r => resp_usage r | Streaming r => ChatUsage <$> sr_Usage r end.

(** ** pkg/clusters/filters/config.go *)

(** The request is the one of the world: every filter of the repository
    returns the pointer it was given. *)
Record ClusterFilter (X : Type) : Type := mkClusterFilter {
  RequestPreflight : option (Eff X (option gerror));
  RequestModifier : option (Cluster -> Eff X (option gerror));
  SelectEndpoint : option (list string -> Eff X string);
  MarshalUpstreamRequest : option (Cluster -> option HTTPRequest -> Eff X (option HTTPRequest + gerror));
  UnmarshalResponseBody : option (Cluster -> RawResponse -> option AnyResponse ->
                                  Eff X (RawResponse * (option AnyResponse + gerror)));
  ResponseModifier : option (Cluster -> option AnyResponse -> Eff X (option AnyResponse + gerror));
  ResponseComplete : option (option AnyResponse -> Eff X (option gerror)) }.
Arguments mkClusterFilter {X}.
Arguments RequestPreflight {X}.
Arguments RequestModifier {X}.
Arguments SelectEndpoint {X}.
Arguments MarshalUpstreamRequest {X}.
Arguments UnmarshalResponseBody {X}.
Arguments ResponseModifier {X}.
Arguments ResponseComplete {X}.

Section Chains.
Context {X : Type}.

Definition RequestPreflights (c : list (ClusterFilter X)) := TypeAssertFrom RequestPreflight c.
Definition RequestModifiers (c : list (ClusterFilter X)) := TypeAssertFrom RequestModifier c.
Definition EndpointSelectors (c : list (ClusterFilter X)) := TypeAssertFrom SelectEndpoint c.
Definition UpstreamRequestMarshallers (c : list (ClusterFilter X)) := TypeAssertFrom MarshalUpstreamRequest c.
Definition ResponseUnmarshallers (c : list (ClusterFilter X)) := TypeAssertFrom UnmarshalResponseBody c.
Definition ResponseModifiers (c : list (ClusterFilter X)) := TypeAssertFrom ResponseModifier c.
Definition ResponseCompleters (c : list (ClusterFilter X)) := TypeAssertFrom ResponseComplete c.

(** [for _, f := range fs { if err := f(...); err != nil { return err } }] *)
Fixpoint untilError (fs : list (Eff X (option gerror))) : Eff X (option gerror) :=
  match fs with
  | [] => mret None
  | f :: fs =>
      err ← f;
      match err with Some e => mret (Some e) | None => untilError fs end
  end.

(** The same, passing a value along. *)
Fixpoint threadUntilError {A} (fs : list (A -> Eff X (A + gerror))) (a : A) : Eff X (A + gerror) :=
  match fs with
  | [] => mret (inl a)
  | f :: fs =>
      r ← f a;
      match r with inl a => threadUntilError fs a | inr e => mret (inr e) end
  end.

Definition ForEachRequestPreflight (c : list (ClusterFilter X)) : Eff X (option gerror) :=
  untilError (RequestPreflights c).

Definition ForEachRequestModifier (c : list (ClusterFilter X)) (cluster : Cluster) : Eff X (option gerror) :=
  untilError (map (fun f => f cluster) (RequestModifiers c)).

Fixpoint firstSelected (fs : list (list string -> Eff X string)) (endpoints : list string) : Eff X string :=
  match fs with
  | [] => mret ""
  | f :: fs =>
      selected ← f endpoints;
      if String.eqb selected "" then firstSelected fs endpoints else mret selected
  end.

Definition ForEachEndpointSelector (c : list (ClusterFilter X)) (endpoints : list string) : Eff X string :=
  firstSelected (EndpointSelectors c) endpoints.

Definition ForEachUpstreamRequestMarshaller (c : list (ClusterFilter X)) (cluster : Cluster)
    (request : option HTTPRequest) : Eff X (HTTPRequest + gerror) :=
  r ← threadUntilError (map (fun f => f cluster) (UpstreamRequestMarshallers c)) request;
  match r with
  | inr e => mret (inr e)
  | inl None =>
      panic "ClusterFilterUpstreamRequestMarshaller iterated, but returned nil request or no filters found"
  | inl (Some request) => mret (inl request)
  end.

(** The reader is shared: what one filter reads is gone for the next. *)
Fixpoint unmarshalLoop (fs : list (Cluster -> RawResponse -> option AnyResponse ->
                                   Eff X (RawResponse * (option AnyResponse + gerror))))
    (cluster : Cluster) (raw : RawResponse) (pre : option AnyResponse)
    : Eff X (RawResponse * (option AnyResponse + gerror)) :=
  match fs with
  | [] => mret (raw, inl pre)
  | f :: fs =>
      '(raw, r) ← f cluster raw pre;
      match r with inl pre => unmarshalLoop fs cluster raw pre | inr e => mret (raw, inr e) end
  end.

Definition ForEachResponseUnmarshaller (c : list (ClusterFilter X)) (cluster : Cluster)
    (raw : RawResponse) (pre : option AnyResponse) : Eff X (RawResponse * (option AnyResponse + gerror)) :=
  unmarshalLoop (ResponseUnmarshallers c) cluster raw pre.

Definition ForEachResponseModifier (c : list (ClusterFilter X)) (cluster : Cluster)
    (response : option AnyResponse) : Eff X (option AnyResponse + gerror) :=
  threadUntilError (map (fun f => f cluster) (ResponseModifiers c)) response.

Definition ForEachResponseComplete (c : list (ClusterFilter X)) (response : option AnyResponse)
    : Eff X (option gerror) :=
  untilError (map (fun f => f response) (ResponseCompleters c)).
End Chains.

(** ** pkg/clusters/filters/openai *)
Section OpenAI.
Context `{JSONPatch} `{JSONPath} `{JSONText} {X : Type}.

(** [url.Parse]: the URL as it prints, or the error's text. *)
Variable url_Parse : string -> string + string.

(** The [BuildSpeechRequest] of a provider's package: the URL, the
    authorization, the request, the cluster's and the client's headers. *)
Variable BuildSpeechRequest : ClusterProvider -> string -> string -> LLMRequest -> Header -> option Header ->
                              outcome (HTTPRequest + gerror).

Variable decodeBase64 fetchURL : string -> (Z * Z * string) + gerror.

(** request.go *)
Definition requestHandler_RequestModifier (cluster : Cluster) : Eff X (option gerror) :=
  let step (set : LLMRequest -> outcome (LLMRequest * option gerror)) : Eff X (option gerror) :=
    request ← getReq;
    '(request, err) ← lift (set request);
    _ ← putReq request;
    mret err in
  err ← step (fun r => SetModel r (cl_name cluster));
  match err with Some e => mret (Some e) | None =>
  err ← step (fun r => SetDefaultParams r (up_defaultParams (GetUpstream cluster)));
  match err with Some e => mret (Some e) | None =>
  err ← step (fun r => SetOverrideParams r (up_overrideParams (GetUpstream cluster)));
  match err with Some e => mret (Some e) | None =>
  step (fun r => RemoveParamKeys r (up_removeParamKeys (GetUpstream cluster)))
  end end end.

Definition setHeaders (headers : list (string * string)) (h : Header) : Header :=
  foldl (fun h kv => Header_Set h (fst kv) (snd kv)) h headers.

(** The providers that a speech request can be built for. *)
Definition speechProvider (p : ClusterProvider) : option gerror :=
  match p with
  | OPEN_AI_V1_SPEECH | OPEN_AI | DEEPGRAM_WEBSOCKET_V1 | ELEVEN_LABS_V1 | KOEMOTION_V1
  | VOLCENGINE_SEED_SPEECH_V1 | MICROSOFT_SPEECH_SERVICE_V1 => None
  | ALIBABA_COSY_VOICE_SERVICE => Some (EPlain "provider requires websocket execution")
  | _ => Some (EOpenAI (WithMessage NewErrorBadRequest "unsupported TTS provider"))
  end.

Definition marshalSpeechRequest (cluster : Cluster) (ttsReq : LLMRequest) (request : option HTTPRequest)
    : outcome (HTTPRequest + gerror) :=
  let headers := up_headers (GetUpstream cluster) in
  let authHeader := match request with Some r => Header_Get (hr_Header r) "Authorization" | None => "" end in
  let upstreamHeaders := setHeaders headers ∅ in
  let downstreamHeaders := hr_Header <$> request in
  match speechProvider (cl_provider cluster) with
  | Some e => Ret (inr e)
  | None =>
      r ← BuildSpeechRequest (cl_provider cluster) (up_url (GetUpstream cluster)) authHeader ttsReq
            upstreamHeaders downstreamHeaders;
      match r with
      | inr e => Ret (inr e)
      | inl ttsRequest =>
          let h := setHeaders headers (hr_Header ttsRequest) in
          let h := match downstreamHeaders with
                   | Some down =>
                       foldl (fun h kv => let value := Header_Get down (fst kv) in
                                          if String.eqb value "" then h else Header_Set h (fst kv) value) h headers
                   | None => h
                   end in
          Ret (inl (mkHTTPRequest (hr_Method ttsRequest) (hr_URL ttsRequest) h (hr_Body ttsRequest)))
      end
  end.

(** The path of a request type; [None] for speech. *)
Definition upstreamPath (t : RequestType) : option string :=
  match t with
  | RequestTypeChatCompletions => Some "/chat/completions"
  | RequestTypeCompletions => Some "/completions"
  | RequestTypeImageGenerations => Some "/images/generations"
  | RequestTypeTextToSpeech => None
  end.

Definition streamHeaders (stream : bool) (h : Header) : Header :=
  if stream
  then Header_Set (Header_Set (Header_Set h "Accept" "text/event-stream") "Cache-Control" "no-cache")
         "Connection" "keep-alive"
  else h.

Definition requestHandler_MarshalUpstreamRequest (cluster : Cluster) (request : option HTTPRequest)
    : Eff X (option HTTPRequest + gerror) :=
  llmRequest ← getReq;
  match upstreamPath (GetRequestType llmRequest) with
  | None =>
      r ← lift (marshalSpeechRequest cluster llmRequest request);
      mret (match r with inl r => inl (Some r) | inr e => inr e end)
  | Some path =>
      let upstreamURL := TrimSuffix1 (up_url (GetUpstream cluster)) "/" +:+ path in
      match url_Parse upstreamURL with
      | inr e => mret (inr (EPlain e))
      | inl parsedUpstreamURL =>
          match req_body llmRequest with
          | None => panic nil_deref
          | Some jsonBody =>
              let h := match request with Some r => hr_Header r | None => ∅ end in
              let h := Header_Set h "Content-Type" "application/json" in
              let h := streamHeaders (IsStream llmRequest) h in
              let h := setHeaders (up_headers (GetUpstream cluster)) h in
              mret (inl (Some (mkHTTPRequest "POST" parsedUpstreamURL h (BodyJSON jsonBody))))
          end
      end
  end.

Definition NewRequestHandlerWithConfig : ClusterFilter X :=
  mkClusterFilter None (Some requestHandler_RequestModifier) None (Some requestHandler_MarshalUpstreamRequest)
    None None None.

(** response.go *)

(** [NewErrorBadGateway().WithMessage(...)], marked as the upstream's. *)
Definition upstreamStatusError (raw : RawResponse) (upstreamBody : string) : gerror :=
  let errMsg := "upstream returned status code " +:+ Itoa (raw_StatusCode raw) in
  let errMsg := if String.eqb upstreamBody "" then errMsg else errMsg +:+ " with body " +:+ upstreamBody in
  let newErr := WithMessage openai_NewErrorBadGateway errMsg in
  EOpenAI (mkErrorResponse (er_status newErr) true upstreamBody (er_body newErr) (er_cause newErr)).

Definition NewAudioResponseFromHTTP (raw : RawResponse) (model : string) : LLMResponse :=
  mkLLMResponse KAudio (raw_StatusCode raw) model None None None.

Definition unmarshalSpeech (model : string) (raw : RawResponse)
    : outcome (RawResponse * (option AnyResponse + gerror)) :=
  if StatusBadRequest <=? raw_StatusCode raw then
    match http_Body (buffered raw) with
    | None => Ret (drained raw, inr (EWrap "failed to read body" (raw_End raw)))
    | Some body =>
        errResp ← ParseErrorResponse (Some (buffered raw)) body;
        Ret (drained raw,
             inr (match errResp with
                  | inl (Some errResp) => EOpenAI errResp
                  | _ => upstreamStatusError raw body
                  end))
    end
  else Ret (raw, inl (Some (Whole (NewAudioResponseFromHTTP raw model)))).

(** What is left after the switch: no response type claimed the body. *)
Definition unclaimed (raw : RawResponse) : RawResponse * (option AnyResponse + gerror) :=
  if StatusBadRequest <=? raw_StatusCode raw then
    (drained raw,
     inr (match http_Body (buffered raw) with
          | None => EWrap "failed to read body" (raw_End raw)
          | Some body => upstreamStatusError raw body
          end))
  else (raw, inr (EPlain ("unsupported content type " +:+ raw_ContentType raw))).

Definition whole (r : LLMResponse + gerror) : option AnyResponse + gerror :=
  match r with inl r => inl (Some (Whole r)) | inr e => inr e end.

Definition responseHandler_UnmarshalResponseBody (cluster : Cluster) (raw : RawResponse) (pre : option AnyResponse)
    : Eff X (RawResponse * (option AnyResponse + gerror)) :=
  req ← getReq;
  let contentType := raw_ContentType raw in
  match GetRequestType req with
  | RequestTypeChatCompletions | RequestTypeCompletions =>
      if HasPrefix contentType "application/json" then
        r ← lift (NewChatCompletionResponse (buffered raw));
        mret (drained raw, whole r)
      else if HasPrefix contentType "text/event-stream" then
        mret (raw, inl (Some (Streaming (NewChatCompletionStreamResponse (raw_Text raw) (raw_End raw)))))
      else mret (unclaimed raw)
  | RequestTypeImageGenerations =>
      if HasPrefix contentType "application/json" then
        r ← lift (NewImageGenerationsResponse decodeBase64 fetchURL (cl_metering cluster) req (buffered raw));
        mret (drained raw, whole r)
      else mret (unclaimed raw)
  | RequestTypeTextToSpeech => lift (unmarshalSpeech (GetModel req) raw)
  end.

Definition any_SetModel (r : AnyResponse) (model : string) : AnyResponse * option gerror :=
  match r with
  | Whole r => let '(r, err) := resp_SetModel r model in (Whole r, err)
  | Streaming r => (Streaming (sr_SetModel r model), None)
  end.

Definition responseHandler_ResponseModifier (cluster : Cluster) (response : option AnyResponse)
    : Eff X (option AnyResponse + gerror) :=
  match response with
  | None => panic nil_deref
  | Some response =>
      let '(response, err) := any_SetModel response (cl_name cluster) in
      mret (match err with Some e => inr e | None => inl (Some response) end)
  end.

Definition NewResponseHandlerWithConfig : ClusterFilter X :=
  mkClusterFilter None None None None (Some responseHandler_UnmarshalResponseBody)
    (Some responseHandler_ResponseModifier) None.

(** ** pkg/registry/config: the cluster filters *)
Definition NewClusterFilterWithConfig (name : string) (cfg : ClusterFilterConfig) : ClusterFilter X + gerror :=
  match cfg with
  | OpenAIRequestHandlerConfig => inl NewRequestHandlerWithConfig
  | OpenAIResponseHandlerConfig => inl NewResponseHandlerWithConfig
  | UnknownClusterFilterConfig url =>
      inr (EPlain ("unknown cluster filter " +:+ Quote name +:+ ", " +:+ url))
  end.

Definition ClusterDefaultFilters : list (ClusterFilter X) :=
  [NewRequestHandlerWithConfig; NewResponseHandlerWithConfig].
End OpenAI.

(** ** The request that the upstream gets *)

(** The value of a field of the body: a removed key is gone, the cluster's
    overrides come before the request's own fields, with the model renamed to
    the cluster's, and those before the cluster's defaults. *)
Definition upstream_field (c : Cluster) (m : gmap string json) (k : string) : option json :=
  let up := GetUpstream c in
  if decide (k ∈ up_removeParamKeys up) then None
  else match (list_to_map (up_overrideParams up) : gmap string json) !! k with
       | Some v => Some v
       | None =>
           if decide (k = "model") then Some (JStr (cl_name c))
           else match m !! k with
                | Some v => Some v
                | None => (list_to_map (up_defaultParams up) : gmap string json) !! k
                end
       end.

(** The model name that the gateway itself works with afterwards. *)
Definition upstream_model (c : Cluster) : string :=
  match (list_to_map (up_overrideParams (GetUpstream c)) : gmap string json) !! "model" with
  | Some (JStr s) => s
  | _ => cl_name c
  end.

(** The cluster's parameters are JSON pointer segments, named once, and sizes
    are sizes. *)
Record params_ok (c : Cluster) (r : LLMRequest) : Prop := {
  po_defaults : Forall (fun kv => plain_key (fst kv) = true) (up_defaultParams (GetUpstream c));
  po_defaults_nodup : NoDup (up_defaultParams (GetUpstream c)).*1;
  po_default_sizes : sizes_ok r (up_defaultParams (GetUpstream c));
  po_overrides : Forall (fun kv => plain_key (fst kv) = true) (up_overrideParams (GetUpstream c));
  po_overrides_nodup : NoDup (up_overrideParams (GetUpstream c)).*1;
  po_override_sizes : sizes_ok r (up_overrideParams (GetUpstream c));
  po_removed : Forall (fun k => plain_key k = true) (up_removeParamKeys (GetUpstream c)) }.

Lemma sizes_ok_same r r' params : same_request r r' -> sizes_ok r params -> sizes_ok r' params.
Proof. intros [E _] H Ht. apply H. congruence. Qed.

Section Rewriting.
Context `{JSONPatchLaws} {X : Type}.

Lemma SetDefaultParams_spec r m params :
  synced r m -> Forall (fun kv => plain_key (fst kv) = true) params -> NoDup params.*1 -> sizes_ok r params ->
  exists r', SetDefaultParams r params = Ret (r', None) /\ synced r' (m ∪ list_to_map params) /\
    same_request r r' /\
    req_model r' = match (m ∪ list_to_map params) !! "model" with Some (JStr s) => s | _ => req_model r end.
Proof.
  intros Hs Hk Hn Hz. destruct (SetDefaultParams_loop_spec params r m Hs Hk Hn Hz) as (r1 & E & Hs1 & Hr1 & Hm1).
  unfold SetDefaultParams. rewrite E. cbn [mbind outcome_bind].
  destruct (refreshModel_synced r1 _ Hs1) as (Hs2 & Hr2 & Hm2). eexists. split; [done|]. split; [done|].
  split; [by transitivity r1|]. by rewrite Hm2, Hm1.
Qed.

Lemma SetOverrideParams_spec r m params :
  synced r m -> Forall (fun kv => plain_key (fst kv) = true) params -> NoDup params.*1 -> sizes_ok r params ->
  exists r', SetOverrideParams r params = Ret (r', None) /\ synced r' (list_to_map params ∪ m) /\
    same_request r r' /\
    req_model r' = match (list_to_map params ∪ m) !! "model" with Some (JStr s) => s | _ => req_model r end.
Proof.
  intros Hs Hk Hn Hz. destruct (SetOverrideParams_loop_spec params r m Hs Hk Hn Hz) as (r1 & E & Hs1 & Hr1 & Hm1).
  unfold SetOverrideParams. rewrite E. cbn [mbind outcome_bind].
  destruct (refreshModel_synced r1 _ Hs1) as (Hs2 & Hr2 & Hm2). eexists. split; [done|]. split; [done|].
  split; [by transitivity r1|]. by rewrite Hm2, Hm1.
Qed.
End Rewriting.

Lemma RequestModifier_same `{JSONPatch} {X} (c : Cluster) (w w' : World X) e :
  requestHandler_RequestModifier c w = Ret (w', e) -> same_request (w_req w) (w_req w').
Proof.
  unfold requestHandler_RequestModifier. run_eff.
  destruct (SetModel _ _) as [[r1 [e1|]]|] eqn:E1; [|..|done]; apply SetModel_same in E1.
  { by intros [= <- _]. }
  cbn [w_meta w_req w_ext].
  destruct (SetDefaultParams _ _) as [[r2 [e2|]]|] eqn:E2; [|..|done]; apply SetDefaultParams_same in E2.
  { intros [= <- _]. by transitivity r1. }
  cbn [w_meta w_req w_ext].
  destruct (SetOverrideParams _ _) as [[r3 [e3|]]|] eqn:E3; [|..|done]; apply SetOverrideParams_same in E3.
  { intros [= <- _]. transitivity r1; [done|]. by transitivity r2. }
  cbn [w_meta w_req w_ext].
  destruct (RemoveParamKeys _ _) as [[r4 e4]|] eqn:E4; [|done]. apply RemoveParamKeys_same in E4.
  intros [= <- _]. transitivity r1; [done|]. transitivity r2; [done|]. by transitivity r3.
Qed.

Lemma union_lookup_pick {A} (m1 m2 : gmap string A) k :
  (m1 ∪ m2) !! k = match m1 !! k with Some v => Some v | None => m2 !! k end.
Proof. rewrite lookup_union. by destruct (m1 !! k), (m2 !! k). Qed.

Lemma request_rewritten_world `{JSONPatchLaws} {X} (c : Cluster) (w : World X) (m : gmap string json)
    (Hbody : synced (w_req w) m) (Hmodel : is_Some (m !! "model")) (Hc : params_ok c (w_req w)) :
  exists req m', requestHandler_RequestModifier c w = Ret (mkWorld (w_meta w) req (w_ext w), None) /\
    synced req m' /\ (forall k, m' !! k = upstream_field c m k) /\
    same_request (w_req w) req /\ GetModel req = upstream_model c.
Proof.
  destruct Hc. destruct (SetModel_synced (w_req w) m (cl_name c) Hbody Hmodel) as (r1 & E1 & Hs1 & Hr1 & Hm1).
  destruct (SetDefaultParams_spec r1 _ (up_defaultParams (GetUpstream c)) Hs1) as (r2 & E2 & Hs2 & Hr2 & Hm2);
    [done..|by apply (sizes_ok_same (w_req w))|].
  assert (same_request (w_req w) r2) as Hr02 by by transitivity r1.
  destruct (SetOverrideParams_spec r2 _ (up_overrideParams (GetUpstream c)) Hs2) as (r3 & E3 & Hs3 & Hr3 & Hm3);
    [done..|by apply (sizes_ok_same (w_req w))|].
  destruct (RemoveParamKeys_spec (up_removeParamKeys (GetUpstream c)) r3 _ Hs3) as (r4 & E4 & Hs4 & Hr4 & Hm4); [done|].
  eexists r4, _. split; [|split; [exact Hs4|split; [|split; [by transitivity r3; [transitivity r2|]|]]]].
  - unfold requestHandler_RequestModifier. run_eff. rewrite E1. run_eff. rewrite E2. run_eff. rewrite E3. run_eff. by rewrite E4.
  - intros k. rewrite foldl_delete_lookup. unfold upstream_field. case_decide; [done|].
    rewrite !union_lookup_pick. destruct (list_to_map (up_overrideParams _) !! k); [done|].
    case_decide as Ek; [subst; by rewrite lookup_insert_eq|by rewrite lookup_insert_ne].
  - unfold GetModel, upstream_model. rewrite Hm4, Hm3, Hm2, Hm1, !union_lookup_pick, lookup_insert_eq.
    by destruct (list_to_map (up_overrideParams _) !! "model") as [[]|].
Qed.

(** The size of the pictures that an upstream is asked for, as the gateway
    accounts it: that of the override, of the client, of the default. *)
Definition upstream_size (c : Cluster) (body : gmap string json) (r : LLMRequest) : option ImageGenerationsRequestSize :=
  let size := match body !! "size" with
              | Some _ => req_size r
              | None => asked_size (req_size r) (list_to_map (up_defaultParams (GetUpstream c)))
              end in
  asked_size size (list_to_map (up_overrideParams (GetUpstream c))).

Lemma request_rewritten_size `{JSONPatchLaws} {X} (c : Cluster) (w w' : World X) (m : gmap string json)
    (Hbody : synced (w_req w) m) (Hmodel : is_Some (m !! "model")) (Hc : params_ok c (w_req w))
    (Htype : req_type (w_req w) = RequestTypeImageGenerations) :
  requestHandler_RequestModifier c w = Ret (w', None) -> req_size (w_req w') = upstream_size c m (w_req w).
Proof.
  destruct Hc. destruct (SetModel_synced (w_req w) m (cl_name c) Hbody Hmodel) as (r1 & E1 & Hs1 & [Ht1 _] & _).
  assert (req_size r1 = req_size (w_req w)) as Hz1.
  { revert E1. unfold SetModel. intros ([r0 [err|]] & Hp%patchRequest_size & [= <-])%outcome_bind_Ret. done. }
  unfold requestHandler_RequestModifier. run_eff. rewrite E1. run_eff.
  destruct (SetDefaultParams _ _) as [[r2 [e2|]]|] eqn:E2; try done. run_eff.
  destruct (SetOverrideParams _ _) as [[r3 [e3|]]|] eqn:E3; try done. run_eff.
  destruct (RemoveParamKeys _ _) as [[r4 e4]|] eqn:E4; [|done]. intros [= <- _]. cbn [w_req].
  rewrite (RemoveParamKeys_size _ _ _ _ E4). pose proof (SetDefaultParams_same _ _ _ _ E2) as [Ht2 _].
  apply outcome_bind_Ret in E2 as ([r2' [err|]] & E2 & [= <-]). apply outcome_bind_Ret in E3 as ([r3' [err|]] & E3 & [= <-]).
  rewrite refreshModel_size. apply SetOverrideParams_loop_size in E3; [|done|congruence]. rewrite E3, refreshModel_size.
  eapply SetDefaultParams_loop_size in E2; [|exact Hs1|done|done|congruence]. rewrite E2, Hz1.
  unfold upstream_size. by rewrite lookup_insert_ne.
Qed.

(** C19: the request that an upstream gets is the client's, rewritten field by
    field as the cluster says: for a body that has a model and a cluster whose
    parameters are well formed, the modifier succeeds, the bytes and the parsed
    form of the body stay one object, each of its fields is [upstream_field],
    and the rest of the request is untouched. *)
Theorem request_rewritten `{JSONPatchLaws} {X} (c : Cluster) (w : World X) (m : gmap string json)
    (Hbody : synced (w_req w) m) (Hmodel : is_Some (m !! "model")) (Hc : params_ok c (w_req w)) :
  exists req m', requestHandler_RequestModifier c w = Ret (mkWorld (w_meta w) req (w_ext w), None) /\
    synced req m' /\ (forall k, m' !! k = upstream_field c m k) /\
    same_request (w_req w) req /\ GetModel req = upstream_model c.
Proof. by apply request_rewritten_world. Qed.

Lemma params_ok_same c r r' : same_request r r' -> params_ok c r -> params_ok c r'.
Proof. intros Hr []. split; try done; by apply (sizes_ok_same r). Qed.

(** The request object is shared by the attempts of a fallback: a cluster
    tried second receives what the first one put into the body, its override
    of a field that the second says nothing about included, under the second
    cluster's model name. *)
Theorem retry_inherits_params `{JSONPatchLaws} {X} (c1 c2 : Cluster) (w : World X) (m : gmap string json)
    (k : string) (v : json)
    (Hbody : synced (w_req w) m) (Hmodel : is_Some (m !! "model"))
    (Hc1 : params_ok c1 (w_req w)) (Hc2 : params_ok c2 (w_req w)) (Hk : k <> "model")
    (Hv : (list_to_map (up_overrideParams (GetUpstream c1)) : gmap string json) !! k = Some v)
    (Hr1 : (k ∉ up_removeParamKeys (GetUpstream c1)) /\ ("model" ∉ up_removeParamKeys (GetUpstream c1)))
    (Hr2 : (k ∉ up_removeParamKeys (GetUpstream c2)) /\ ("model" ∉ up_removeParamKeys (GetUpstream c2)))
    (Ho2 : (k ∉ (up_overrideParams (GetUpstream c2)).*1) /\ ("model" ∉ (up_overrideParams (GetUpstream c2)).*1)) :
  exists w1 w2 m2, requestHandler_RequestModifier c1 w = Ret (w1, None) /\
    requestHandler_RequestModifier c2 w1 = Ret (w2, None) /\ synced (w_req w2) m2 /\
    m2 !! k = Some v /\ m2 !! "model" = Some (JStr (cl_name c2)).
Proof.
  destruct Hr1 as [Hr1 Hm1], Hr2 as [Hr2 Hm2], Ho2 as [Ho2 Hn2].
  destruct (request_rewritten_world c1 w m Hbody Hmodel Hc1) as (r1 & m1 & E1 & Hs1 & Hf1 & Hsame & _).
  assert (is_Some (m1 !! "model")) as Hmodel1.
  { rewrite Hf1. unfold upstream_field. rewrite decide_False by done.
    destruct (list_to_map _ !! "model"); [by eexists|by eexists]. }
  destruct (request_rewritten_world c2 (mkWorld (w_meta w) r1 (w_ext w)) m1 Hs1 Hmodel1 (params_ok_same c2 _ _ Hsame Hc2))
    as (r2 & m2 & E2 & Hs2 & Hf2 & _ & _).
  eexists _, _, m2. split; [exact E1|]. split; [exact E2|]. split; [exact Hs2|].
  rewrite !Hf2. unfold upstream_field. split.
  - rewrite decide_False, not_elem_of_list_to_map_1, (decide_False (P := k = "model")) by done.
    rewrite Hf1. unfold upstream_field. by rewrite decide_False, Hv.
  - by rewrite decide_False, not_elem_of_list_to_map_1.
Qed.

#[local] Existing Instances rfc6902 rfc6902_laws dotted_paths.

Definition ex_upstream : Upstream :=
  mkUpstream "https://up/v1/" [("x-team", "a")] 0 [("temperature", JBool true)] [("user", JStr "gw")] ["metadata"].
Definition ex_cluster : Cluster :=
  mkCluster "gpt-4o" CLB_ROUND_ROBIN (Some ex_upstream) [] OPEN_AI 0 LLM None.
Definition ex_fields : gmap string json := <["metadata" := JNull]> {[ "model" := JStr "public" ]}.
Definition ex_llm_request : LLMRequest :=
  mkLLMRequest RequestTypeChatCompletions "public" false (Some (JObj ex_fields)) (Some ex_fields) None None None None.
Definition ex_call_world : World unit := mkWorld InitMetadata ex_llm_request tt.

Lemma ex_params_ok : params_ok ex_cluster ex_llm_request.
Proof. split; try done; try (by repeat constructor); try (by apply (bool_decide_unpack _); vm_compute). Qed.

Lemma request_rewritten_witness :
  exists req m', requestHandler_RequestModifier ex_cluster ex_call_world = Ret (mkWorld InitMetadata req tt, None) /\
    synced req m' /\ (forall k, m' !! k = upstream_field ex_cluster ex_fields k) /\
    same_request ex_llm_request req /\ GetModel req = upstream_model ex_cluster.
Proof.
  apply (request_rewritten ex_cluster ex_call_world ex_fields); [done|by eexists|exact ex_params_ok].
Defined.

Definition ex_second : Cluster :=
  mkCluster "backup" CLB_ROUND_ROBIN (Some (mkUpstream "https://b" [] 0 [] [] [])) [] VLLM 0 LLM None.

Lemma retry_inherits_params_witness :
  exists w1 w2 m2, requestHandler_RequestModifier ex_cluster ex_call_world = Ret (w1, None) /\
    requestHandler_RequestModifier ex_second w1 = Ret (w2, None) /\ synced (w_req w2) m2 /\
    m2 !! "user" = Some (JStr "gw") /\ m2 !! "model" = Some (JStr "backup").
Proof.
  apply (retry_inherits_params ex_cluster ex_second ex_call_world ex_fields "user" (JStr "gw"));
    [done|by eexists|exact ex_params_ok| |done|done|..].
  - split; try done; by constructor.
  - by apply (bool_decide_unpack _); vm_compute.
  - by apply (bool_decide_unpack _); vm_compute.
  - by apply (bool_decide_unpack _); vm_compute.
Defined.
