(* ===== verification/Cluster.v ===== *)
(** * pkg/clusters/cluster, pkg/clusters/manager: calling an upstream

    A cluster is its configuration with its filters; the register maps names
    to clusters. *)
From S2P Require Import Prelude Strconv Utils GoFloat Json Api Errors Request Response Effects Stream Filters ClusterFilters.

(** ** cluster.go *)
Record clusterDefault (X : Type) : Type := mkClusterDefault {
  cd_cluster : Cluster;
  cd_filters : list (ClusterFilter X);
  cd_reversedFilters : list (ClusterFilter X) }.
Arguments mkClusterDefault {X}.
Arguments cd_cluster {X}.
Arguments cd_filters {X}.
Arguments cd_reversedFilters {X}.

(** ** pkg/clusters/manager/cluster.go: the register *)
Record Register (X : Type) : Type := mkRegister {
  reg_clusters : gmap string (clusterDefault X);
  reg_clustersDetails : gmap string Cluster }.
Arguments mkRegister {X}.
Arguments reg_clusters {X}.
Arguments reg_clustersDetails {X}.

Section Clusters.
Context `{JSONPatch} `{JSONPath} `{JSONText} {X : Type}.
Variable url_Parse : string -> string + string.
Variable BuildSpeechRequest : ClusterProvider -> string -> string -> LLMRequest -> Header -> option Header ->
                              outcome (HTTPRequest + gerror).
Variable decodeBase64 fetchURL : string -> (Z * Z * string) + gerror.

(** [http.DefaultClient.Do]: the answer of the upstream, or an error. *)
Variable doRequest : HTTPRequest -> Eff X (RawResponse + gerror).

Let newFilter := NewClusterFilterWithConfig (X := X) url_Parse BuildSpeechRequest decodeBase64 fetchURL.
Let defaultFilters := ClusterDefaultFilters (X := X) url_Parse BuildSpeechRequest decodeBase64 fetchURL.

Fixpoint buildClusterFilters (configs : list (string * ClusterFilterConfig)) : list (ClusterFilter X) + gerror :=
  match configs with
  | [] => inl []
  | (name, cfg) :: configs =>
      match newFilter name cfg with
      | inr e => inr e
      | inl f => match buildClusterFilters configs with inl fs => inl (f :: fs) | inr e => inr e end
      end
  end.

Definition hasSelector (fs : list (ClusterFilter X)) : bool :=
  existsb (fun f => bool_decide (is_Some (SelectEndpoint f))) fs.

(** The switch on the load balance policy. *)
Definition checkLoadBalance (policy : ClusterLoadBalancePolicy) (fs : list (ClusterFilter X)) : option gerror :=
  match policy with
  | CLB_IP_HASH | CLB_LEAST_CONNECTION | CLB_ROUND_ROBIN => None
  | CLB_CUSTOM | CLB_UNSPECIFIED =>
      if hasSelector fs then None else Some (EPlain "custom load balance policy must be implemented")
  | CLB_other _ =>
      if hasSelector fs then Some (EPlain "internal load balance policy must NOT be implemented") else None
  end.

Definition Cluster_NewWithConfigs (cluster : Cluster) : clusterDefault X + gerror :=
  match buildClusterFilters (cl_filters cluster) with
  | inr e => inr e
  | inl clusterFilters =>
      match checkLoadBalance (cl_lb_policy cluster) clusterFilters with
      | Some e => inr e
      | None =>
          let clusterFilters := clusterFilters ++ defaultFilters in
          inl (mkClusterDefault cluster clusterFilters (rev (Clone clusterFilters)))
      end
  end.

Definition internal (err : gerror) : Eff X (option gerror) :=
  e ← lift (LLMErrorOrInternalError [Some err]); mret (Some (as_error e)).

Definition doUpstreamResponseComplete (m : clusterDefault X) (res : option AnyResponse) : Eff X (option gerror) :=
  err ← ForEachResponseComplete (cd_reversedFilters m) res;
  match err with Some e => internal e | None => mret None end.

(** The metadata about the answer. *)
Definition noteResponse (raw : RawResponse) (llmResp : AnyResponse) : Eff X unit :=
  _ ← modifyMeta (setUpstreamStatus (raw_StatusCode raw));
  match any_GetError llmResp with
  | None => mret tt
  | Some e => t ← lift (ErrorText (as_error e)); modifyMeta (setUpstreamErrorMessage t)
  end.

(** The usage, for answers that are whole; a stream's is set while it is
    piped. *)
Definition noteUsage (type : RequestType) (llmResp : AnyResponse) : Eff X unit :=
  match type with
  | RequestTypeChatCompletions | RequestTypeCompletions =>
      match any_IsStream llmResp, any_GetUsage llmResp with
      | false, Some u => modifyMeta (setTokensUsage u)
      | _, _ => mret tt
      end
  | RequestTypeImageGenerations =>
      match any_GetUsage llmResp with Some u => modifyMeta (setImagesUsage u) | None => mret tt end
  | RequestTypeTextToSpeech => mret tt
  end.

(** From the answer of the upstream on. *)
Definition handleUpstreamResponse (m : clusterDefault X) (rawResp : RawResponse)
    : Eff X (option AnyResponse * option gerror) :=
  '(rawResp, r) ← ForEachResponseUnmarshaller (cd_reversedFilters m) (cd_cluster m) rawResp None;
  match r with
  | inr e => err ← internal e; mret (None, err)
  | inl None => panic nil_deref
  | inl (Some llmResp) =>
      _ ← modifyMeta (setUpstreamResponseModel (any_GetModel llmResp));
      r ← ForEachResponseModifier (cd_reversedFilters m) (cd_cluster m) (Some llmResp);
      match r with
      | inr e => err ← internal e; mret (None, err)
      | inl None => panic nil_deref
      | inl (Some llmResp) =>
          _ ← noteResponse rawResp llmResp;
          err ← (if any_IsStream llmResp then mret None
                 else doUpstreamResponseComplete m (Some llmResp));
          match err with
          | Some e => mret (Some llmResp, Some e)
          | None =>
              req ← getReq;
              _ ← noteUsage (GetRequestType req) llmResp;
              mret (Some llmResp, None)
          end
      end
  end.

Definition handleAnswer (m : clusterDefault X) (answer : RawResponse + gerror)
    : Eff X (option AnyResponse * option gerror) :=
  match answer with
  | inr e => e ← lift (NewErrorBadGateway (Some e)); mret (None, Some (EBase e))
  | inl rawResp => handleUpstreamResponse m rawResp
  end.

Definition DoUpstreamRequest (m : clusterDefault X) : Eff X (option AnyResponse * option gerror) :=
  _ ← modifyMeta (setUpstreamProvider (cl_provider (cd_cluster m)));
  err ← ForEachRequestModifier (cd_filters m) (cd_cluster m);
  match err with
  | Some e => err ← internal e; mret (None, err)
  | None =>
      llmReq ← getReq;
      _ ← modifyMeta (setUpstreamRequestModel (GetModel llmReq));
      r ← ForEachUpstreamRequestMarshaller (cd_filters m) (cd_cluster m) None;
      match r with
      | inr e => err ← internal e; mret (None, err)
      | inl req =>
          answer ← doRequest req;
          handleAnswer m answer
      end
  end.

(** ** The register *)
Definition NewClusterRegister : Register X := mkRegister ∅ ∅.

Definition DeleteCluster (cr : Register X) (name : string) : Register X :=
  mkRegister (delete name (reg_clusters cr)) (delete name (reg_clustersDetails cr)).

Definition FindClusterByName (cr : Register X) (name : string) : option (clusterDefault X) := reg_clusters cr !! name.

Definition UpsertAndRegisterCluster (cr : Register X) (c : Cluster) : Register X * option gerror :=
  match Cluster_NewWithConfigs c with
  | inr e => (cr, Some e)
  | inl newCluster =>
      (mkRegister (<[cl_name c := newCluster]> (reg_clusters cr)) (<[cl_name c := c]> (reg_clustersDetails cr)), None)
  end.

(** [order] lists the names in the order the [range] visits them. *)
Definition ListModels (cr : Register X) (order : list string) : list Cluster :=
  omap (fun name => reg_clustersDetails cr !! name) order.

Definition ListTTSClusters (cr : Register X) (order : list string) : list Cluster :=
  filter (fun c => cl_type c = SPEECH_GENERATION) (ListModels cr order).

(** The package's functions of the same names, over the register [init] made:
    what a reading of it finds, and the order its range takes. *)
Definition Manager_ListModels (readRegister : Eff X (Register X * list string)) : Eff X (list Cluster) :=
  '(cr, order) ← readRegister; mret (ListModels cr order).
Definition Manager_ListTTSClusters (readRegister : Eff X (Register X * list string)) : Eff X (list Cluster) :=
  '(cr, order) ← readRegister; mret (ListTTSClusters cr order).

(** [HandleRequest], over the register as it is read. *)
Definition Manager_HandleRequest (cr : Register X) (clusterName : string)
    : Eff X (option AnyResponse * option gerror) :=
  request ← getReq;
  match FindClusterByName cr clusterName with
  | None => mret (None, Some (EBase (NewErrorModelNotFoundOrNotAccessible (GetModel request))))
  | Some foundCluster =>
      _ ← modifyMeta (setSelectedCluster clusterName);
      '(resp, err) ← DoUpstreamRequest foundCluster;
      match err with
      | Some e => mret (resp, Some e)
      | None =>
          match resp with
          | None => panic nil_deref
          | Some r => mret (resp, as_error <$> any_GetError r)
          end
      end
  end.
End Clusters.

(** ** What a built cluster is made of *)
Definition isRequestHandler (f : string * ClusterFilterConfig) : bool :=
  match snd f with OpenAIRequestHandlerConfig => true | _ => false end.
Definition isResponseHandler (f : string * ClusterFilterConfig) : bool :=
  match snd f with OpenAIResponseHandlerConfig => true | _ => false end.
Definition knownFilter (f : string * ClusterFilterConfig) : bool := isRequestHandler f || isResponseHandler f.

(** The configurations that [NewWithConfigs] accepts. *)
Definition supported (c : Cluster) : bool :=
  forallb knownFilter (cl_filters c) &&
  match cl_lb_policy c with CLB_CUSTOM | CLB_UNSPECIFIED => false | _ => true end.

Lemma rev_replicate {A} n (a : A) : rev (replicate n a) = replicate n a.
Proof.
  induction n as [|n IH]; [done|]. simpl. rewrite IH. change [a] with (replicate 1 a).
  rewrite <- replicate_add. by rewrite Nat.add_comm.
Qed.

Definition count (f : string * ClusterFilterConfig -> bool) (l : list (string * ClusterFilterConfig)) : nat :=
  length (List.filter f l).

Section Built.
Context `{JSONPatch} `{JSONPath} `{JSONText} {X : Type}.
Variable url_Parse : string -> string + string.
Variable BuildSpeechRequest : ClusterProvider -> string -> string -> LLMRequest -> Header -> option Header ->
                              outcome (HTTPRequest + gerror).
Variable decodeBase64 fetchURL : string -> (Z * Z * string) + gerror.

Abbreviation build := (buildClusterFilters (X := X) url_Parse BuildSpeechRequest decodeBase64 fetchURL).
Abbreviation new := (Cluster_NewWithConfigs (X := X) url_Parse BuildSpeechRequest decodeBase64 fetchURL).
Abbreviation marshaller := (requestHandler_MarshalUpstreamRequest (X := X) url_Parse BuildSpeechRequest).
Abbreviation unmarshaller := (responseHandler_UnmarshalResponseBody (X := X) decodeBase64 fetchURL).

Lemma build_spec l :
  match build l with
  | inl fs =>
      forallb knownFilter l = true /\ hasSelector fs = false /\
      RequestModifiers fs = replicate (count isRequestHandler l) requestHandler_RequestModifier /\
      UpstreamRequestMarshallers fs = replicate (count isRequestHandler l) marshaller /\
      ResponseUnmarshallers fs = replicate (count isResponseHandler l) unmarshaller /\
      ResponseModifiers fs = replicate (count isResponseHandler l) responseHandler_ResponseModifier /\
      ResponseCompleters fs = []
  | inr _ => forallb knownFilter l = false
  end.
Proof.
  induction l as [|[name cfg] l IH]; [done|]. cbn [buildClusterFilters]. unfold count in *.
  destruct cfg; cbn [NewClusterFilterWithConfig]; [| |done];
    destruct (build l) as [fs|e]; try exact IH.
  all: destruct IH as (Hk & Hs & E1 & E2 & E3 & E4 & E5).
  all: unfold RequestModifiers, UpstreamRequestMarshallers, ResponseUnmarshallers, ResponseModifiers,
         ResponseCompleters in *; rewrite !TypeAssertFrom_cons, ?E1, ?E2, ?E3, ?E4, ?E5;
    cbn [forallb hasSelector existsb]; rewrite ?Hk; done.
Qed.

Lemma new_spec c :
  match new c with
  | inl m =>
      supported c = true /\ cd_cluster m = c /\
      RequestModifiers (cd_filters m) = replicate (S (count isRequestHandler (cl_filters c))) requestHandler_RequestModifier /\
      UpstreamRequestMarshallers (cd_filters m) = replicate (S (count isRequestHandler (cl_filters c))) marshaller /\
      ResponseUnmarshallers (cd_reversedFilters m) = replicate (S (count isResponseHandler (cl_filters c))) unmarshaller /\
      ResponseModifiers (cd_reversedFilters m)
      = replicate (S (count isResponseHandler (cl_filters c))) responseHandler_ResponseModifier /\
      ResponseCompleters (cd_reversedFilters m) = []
  | inr _ => supported c = false
  end.
Proof.
  unfold Cluster_NewWithConfigs, supported. pose proof (build_spec (cl_filters c)) as Hb.
  destruct (build (cl_filters c)) as [fs|e]; [|by rewrite Hb].
  destruct Hb as (Hk & Hs & E1 & E2 & E3 & E4 & E5). unfold checkLoadBalance. rewrite Hs, Hk.
  destruct (cl_lb_policy c); try done; cbn [cd_cluster cd_filters cd_reversedFilters andb]; (split; [done|]; split; [done|]).
  all: unfold RequestModifiers, UpstreamRequestMarshallers, ResponseUnmarshallers, ResponseModifiers,
         ResponseCompleters in *.
  all: rewrite Clone_id, !TypeAssertFrom_rev, !TypeAssertFrom_app, E1, E2, E3, E4, E5; cbn.
  all: rewrite <- !(replicate_S_end (count _ _)), !rev_replicate; done.
Qed.
End Built.

(** ** Runs of the register *)
Inductive reg_op : Type :=
| RegUpsert (c : Cluster)
| RegDelete (name : string).

(** What the register is for: the configurations by name; one that cannot be
    built changes nothing. *)
Definition spec_step (s : gmap string Cluster) (op : reg_op) : gmap string Cluster :=
  match op with
  | RegUpsert c => if supported c then <[cl_name c := c]> s else s
  | RegDelete name => delete name s
  end.

(** [simp_eff]: advance an equation on a run to its result. *)
Lemma Eff_bind_inv {X A B} (m : Eff X A) (f : A -> Eff X B) w w' b :
  (m ≫= f) w = Ret (w', b) -> exists w1 a, m w = Ret (w1, a) /\ f a w1 = Ret (w', b).
Proof. unfold mbind, Eff_bind. destruct (m w) as [[w1 a]|]; [|done]. intros H. by exists w1, a. Qed.

Lemma LLMErrorOrInternalError_is errs e :
  LLMErrorOrInternalError errs = Ret e -> IsLLMError (Some (as_error e)) = true.
Proof. intros _. by destruct e. Qed.

Section Facts.
Context `{JSONPatchLaws} `{JSONPath} `{JSONText} {X : Type}.
Variable url_Parse : string -> string + string.
Variable BuildSpeechRequest : ClusterProvider -> string -> string -> LLMRequest -> Header -> option Header ->
                              outcome (HTTPRequest + gerror).
Variable decodeBase64 fetchURL : string -> (Z * Z * string) + gerror.
Variable doRequest : HTTPRequest -> Eff X (RawResponse + gerror).

Abbreviation new := (Cluster_NewWithConfigs (X := X) url_Parse BuildSpeechRequest decodeBase64 fetchURL).
Abbreviation upsert := (UpsertAndRegisterCluster (X := X) url_Parse BuildSpeechRequest decodeBase64 fetchURL).

Definition reg_step (cr : Register X) (op : reg_op) : Register X :=
  match op with
  | RegUpsert c => fst (upsert cr c)
  | RegDelete name => DeleteCluster cr name
  end.

Record reg_ok (cr : Register X) (s : gmap string Cluster) : Prop := {
  reg_details : reg_clustersDetails cr = s;
  reg_built name : match s !! name with
                   | Some c => cl_name c = name /\ exists m, FindClusterByName cr name = Some m /\ new c = inl m
                   | None => FindClusterByName cr name = None
                   end }.

Lemma upsert_spec cr c :
  if supported c then exists m, new c = inl m /\
    upsert cr c = (mkRegister (<[cl_name c := m]> (reg_clusters cr)) (<[cl_name c := c]> (reg_clustersDetails cr)), None)
  else exists e, upsert cr c = (cr, Some e).
Proof.
  unfold UpsertAndRegisterCluster.
  pose proof (new_spec (X := X) url_Parse BuildSpeechRequest decodeBase64 fetchURL c) as Hn.
  destruct (new c) as [m|e].
  - destruct Hn as [-> _]. by exists m.
  - rewrite Hn. by exists e.
Qed.

Lemma reg_step_ok cr s op : reg_ok cr s -> reg_ok (reg_step cr op) (spec_step s op).
Proof.
  intros [Hd Hb]. destruct op as [c|name]; cbn [reg_step spec_step].
  - pose proof (upsert_spec cr c) as Hu. destruct (supported c).
    + destruct Hu as (m & En & ->). split; cbn; [by rewrite Hd|]. intros name. unfold FindClusterByName. cbn.
      destruct (decide (cl_name c = name)) as [<-|Hne].
      * rewrite lookup_insert_eq. split; [done|]. exists m. by rewrite lookup_insert_eq.
      * rewrite !lookup_insert_ne by done. apply Hb.
    + destruct Hu as (e & ->). by split.
  - split; cbn; [by rewrite Hd|]. intros name'. unfold FindClusterByName. cbn.
    destruct (decide (name = name')) as [<-|Hne].
    + by rewrite !lookup_delete_eq.
    + rewrite !lookup_delete_ne by done. apply Hb.
Qed.

Lemma reg_run_ok ops cr s : reg_ok cr s -> reg_ok (foldl reg_step cr ops) (foldl spec_step s ops).
Proof. revert cr s. induction ops as [|op ops IH]; intros cr s Hr; [done|]. by apply IH, reg_step_ok. Qed.

(** C22: the register is a map from names to configurations: after any
    sequence of upserts and deletes, a name is found exactly when its last
    accepted upsert was not followed by a delete, the cluster found was
    built from that configuration, the listed configurations are those of
    the clusters that can be found, and a configuration is refused exactly
    when it is not supported, which leaves the cluster of that name as it
    was. *)
Theorem register_refines ops :
  let cr := foldl reg_step NewClusterRegister ops in
  let s := foldl spec_step ∅ ops in
  reg_clustersDetails cr = s /\
  (forall name, match s !! name with
                | Some c => cl_name c = name /\ exists m, FindClusterByName cr name = Some m /\ new c = inl m
                | None => FindClusterByName cr name = None
                end) /\
  (forall c, snd (upsert cr c) = None <-> supported c = true) /\
  (forall c, supported c = true \/ fst (upsert cr c) = cr).
Proof.
  cbv zeta. destruct (reg_run_ok ops NewClusterRegister ∅) as [Hd Hb].
  { split; [done|]. intros name. by rewrite lookup_empty. }
  split; [exact Hd|]. split; [exact Hb|].
  split; intros c; pose proof (upsert_spec (foldl reg_step NewClusterRegister ops) c) as Hu.
  - destruct (supported c).
    + by destruct Hu as (m & _ & ->).
    + by destruct Hu as (e & ->).
  - destruct (supported c); [by left|]. right. by destruct Hu as (e & ->).
Qed.

(** ** Errors *)
Lemma internal_llm err w w' e : internal (X := X) err w = Ret (w', Some e) -> IsLLMError (Some e) = true.
Proof.
  unfold internal. run_eff. destruct (LLMErrorOrInternalError _) as [l|] eqn:E; [|done].
  intros [= _ <-]. by apply LLMErrorOrInternalError_is in E.
Qed.

Lemma complete_llm m res w w' e :
  doUpstreamResponseComplete (X := X) m res w = Ret (w', Some e) -> IsLLMError (Some e) = true.
Proof.
  unfold doUpstreamResponseComplete. intros (w1 & [err|] & _ & E)%Eff_bind_inv; [|done]. by apply internal_llm in E.
Qed.

Lemma handleUpstreamResponse_llm m raw w w' resp e :
  handleUpstreamResponse (X := X) m raw w = Ret (w', (resp, Some e)) -> IsLLMError (Some e) = true.
Proof.
  unfold handleUpstreamResponse.
  intros (w1 & [raw1 r1] & _ & E)%Eff_bind_inv. destruct r1 as [[r1|]|e1]; [|done|].
  - apply Eff_bind_inv in E as (w2 & [] & _ & E). apply Eff_bind_inv in E as (w3 & r & _ & E).
    destruct r as [[r|]|e1]; [|done|].
    + apply Eff_bind_inv in E as (w4 & [] & _ & E). apply Eff_bind_inv in E as (w5 & err & Ec & E).
      destruct err as [err|].
      * injection E as <- <- <-. destruct (any_IsStream r); [done|]. by apply complete_llm in Ec.
      * apply Eff_bind_inv in E as (w6 & req & _ & E). by apply Eff_bind_inv in E as (w7 & [] & _ & E).
    + apply Eff_bind_inv in E as (w4 & err & Ei & E). injection E as <- <- ->. by apply internal_llm in Ei.
  - apply Eff_bind_inv in E as (w4 & err & Ei & E). injection E as <- <- ->. by apply internal_llm in Ei.
Qed.

Lemma DoUpstreamRequest_llm m w w' resp e :
  DoUpstreamRequest doRequest m w = Ret (w', (resp, Some e)) -> IsLLMError (Some e) = true.
Proof.
  unfold DoUpstreamRequest. intros (w1 & [] & _ & E)%Eff_bind_inv.
  apply Eff_bind_inv in E as (w2 & [err|] & _ & E).
  { apply Eff_bind_inv in E as (w3 & x & Ei & E). injection E as <- <- ->. by apply internal_llm in Ei. }
  apply Eff_bind_inv in E as (w3 & req & _ & E). apply Eff_bind_inv in E as (w4 & [] & _ & E).
  apply Eff_bind_inv in E as (w5 & [http|err] & _ & E).
  - apply Eff_bind_inv in E as (w6 & [raw|err] & _ & E); cbn [handleAnswer] in E.
    + by apply handleUpstreamResponse_llm in E.
    + apply Eff_bind_inv in E as (w7 & x & _ & E). by injection E as <- <- <-.
  - apply Eff_bind_inv in E as (w3' & x & Ei & E). injection E as <- <- ->. by apply internal_llm in Ei.
Qed.

Lemma Manager_HandleRequest_result cr name w w' resp err
    (Hret : Manager_HandleRequest doRequest cr name w = Ret (w', (resp, err))) :
  match err with
  | Some e => IsLLMError (Some e) = true
  | None => is_Some resp
  end.
Proof.
  unfold Manager_HandleRequest in Hret. apply Eff_bind_inv in Hret as (w1 & req & _ & E).
  destruct (FindClusterByName cr name) as [m|]; [|by injection E as <- <- <-].
  apply Eff_bind_inv in E as (w2 & [] & _ & E). apply Eff_bind_inv in E as (w3 & [r e] & Ed & E).
  destruct e as [e|].
  - injection E as <- <- <-. by apply DoUpstreamRequest_llm in Ed.
  - destruct r as [r|]; [|done]. injection E as <- <- <-. destruct (any_GetError r) as [l|]; cbn; [by destruct l|by eexists].
Qed.

(** C30: every error of the cluster manager is an [LLMError], whatever the
    filters, the network and the upstream did, and without an error there
    is a response: the route and the listeners above can take both for
    granted. *)
Theorem cluster_errors_are_llm cr name w w' resp err
    (Hret : Manager_HandleRequest doRequest cr name w = Ret (w', (resp, err))) :
  match err with
  | Some e => IsLLMError (Some e) = true
  | None => is_Some resp
  end.
Proof. by apply Manager_HandleRequest_result in Hret. Qed.

(** ** The model name of the answer *)
Lemma resp_SetModel_model r model r' : resp_SetModel r model = (r', None) -> resp_model r' = model.
Proof.
  unfold resp_SetModel. destruct (resp_kind r), (resp_error r); try by intros [= <-].
  destruct (modifyBytesBodyAndParsed _ _); by intros [= <-].
Qed.

Lemma modifier_names c r w w' r' :
  responseHandler_ResponseModifier (X := X) c (Some r) w = Ret (w', inl r') ->
  exists r1, r' = Some r1 /\ any_GetModel r1 = cl_name c.
Proof.
  unfold responseHandler_ResponseModifier, any_SetModel. destruct r as [r|r].
  - destruct (resp_SetModel r (cl_name c)) as [r1 [e|]] eqn:E; [done|]. intros [= _ <-].
    eexists. split; [done|]. by apply resp_SetModel_model in E.
  - intros [= _ <-]. by eexists.
Qed.

Lemma modifiers_name c n : forall r w w' r',
  threadUntilError (map (fun f => f c) (replicate (S n) (responseHandler_ResponseModifier (X := X)))) (Some r) w
  = Ret (w', inl r') -> exists r1, r' = Some r1 /\ any_GetModel r1 = cl_name c.
Proof.
  induction n as [|n IH]; intros r w w' r' E; cbn [replicate map threadUntilError] in E;
    apply Eff_bind_inv in E as (w1 & [r1|e1] & E1 & E); [|done| |done]; apply modifier_names in E1 as (r2 & -> & Hm).
  - injection E as <- <-. by exists r2.
  - by apply IH in E.
Qed.

(** The upstream's model name never reaches the client: every answer,
    whole or streamed, that a cluster returns without an error carries the
    name of the cluster. *)
Theorem response_names_cluster c m w w' r
    (Hnew : new c = inl m) (Hret : DoUpstreamRequest doRequest m w = Ret (w', (Some r, None))) :
  any_GetModel r = cl_name c.
Proof.
  pose proof (new_spec (X := X) url_Parse BuildSpeechRequest decodeBase64 fetchURL c) as Hn. rewrite Hnew in Hn.
  destruct Hn as (_ & Hc & _ & _ & _ & Hmod & _).
  unfold DoUpstreamRequest in Hret. apply Eff_bind_inv in Hret as (w1 & [] & _ & E).
  apply Eff_bind_inv in E as (w2 & [err|] & _ & E).
  { by apply Eff_bind_inv in E as (w3 & x & _ & [=]). }
  apply Eff_bind_inv in E as (w3 & req & _ & E). apply Eff_bind_inv in E as (w4 & [] & _ & E).
  apply Eff_bind_inv in E as (w5 & [http|err] & _ & E); [|by apply Eff_bind_inv in E as (w3' & x & _ & [=])].
  apply Eff_bind_inv in E as (w6 & [raw|err] & _ & E); cbn [handleAnswer] in E;
    [|by apply Eff_bind_inv in E as (w7 & x & _ & [=])].
  unfold handleUpstreamResponse in E.
  apply Eff_bind_inv in E as (w7 & [raw1 [[r1|]|e1]] & _ & E); [|done|by apply Eff_bind_inv in E as (w8 & x & _ & [=])].
  apply Eff_bind_inv in E as (w8 & [] & _ & E). apply Eff_bind_inv in E as (w9 & [r2|e2] & Er & E);
    [|by apply Eff_bind_inv in E as (w10 & x & _ & [=])].
  unfold ForEachResponseModifier in Er. rewrite Hmod, Hc in Er. apply modifiers_name in Er as (r3 & -> & Hname).
  apply Eff_bind_inv in E as (w10 & [] & _ & E). apply Eff_bind_inv in E as (w11 & [e3|] & _ & E); [done|].
  apply Eff_bind_inv in E as (w12 & req1 & _ & E). apply Eff_bind_inv in E as (w13 & [] & _ & [= _ <-]). done.
Qed.

(** ** A response handler too many *)
Definition unreadable : gerror :=
  EWrapf "failed to unmarshal response" (EWrap "failed to unmarshal response body" (EPlain "invalid JSON")) ", body: ".

Lemma chat_json_step c raw pre w r :
  GetRequestType (w_req w) = RequestTypeChatCompletions ->
  HasPrefix (raw_ContentType raw) "application/json" = true ->
  NewChatCompletionResponse (buffered raw) = Ret r ->
  responseHandler_UnmarshalResponseBody (X := X) decodeBase64 fetchURL c raw pre w
  = Ret (w, (drained raw, whole r)).
Proof.
  intros Ht Hj Hr. unfold responseHandler_UnmarshalResponseBody. erewrite Eff_bind_Ret by reflexivity.
  cbv zeta. rewrite Ht, Hj. erewrite Eff_bind_Ret by (unfold lift; by rewrite Hr). done.
Qed.

(** A cluster whose filters already name the OpenAI response handler
    gets a second one by default; the first has read the whole body, so the
    second finds nothing to parse: every JSON answer to a chat request, valid
    as it is, becomes an internal error. *)
Theorem explicit_response_handler_fails c m w raw r
    (Hnew : new c = inl m) (Htwice : (0 < count isResponseHandler (cl_filters c))%nat)
    (Hchat : GetRequestType (w_req w) = RequestTypeChatCompletions)
    (Hjson : HasPrefix (raw_ContentType raw) "application/json" = true) (Hread : IsEOFError (raw_End raw) = true)
    (Hempty : Unmarshal "" = None)
    (Hvalid : NewChatCompletionResponse (buffered raw) = Ret (inl r)) :
  exists t, ErrorText unreadable = Ret t /\
    handleUpstreamResponse m raw w
    = Ret (w, (None, Some (EBase (newBase StatusInternalServerError LLMErrorCodeInternalError t)))).
Proof.
  pose proof (new_spec (X := X) url_Parse BuildSpeechRequest decodeBase64 fetchURL c) as Hn. rewrite Hnew in Hn.
  destruct Hn as (_ & Hc & _ & _ & Hun & _ & _). eexists. split; [reflexivity|].
  unfold handleUpstreamResponse, ForEachResponseUnmarshaller. rewrite Hun.
  destruct (count isResponseHandler (cl_filters c)) as [|n]; [lia|]. cbn [replicate unmarshalLoop].
  assert (NewChatCompletionResponse (buffered (drained raw)) = Ret (inr unreadable)) as Hagain.
  { unfold NewChatCompletionResponse, buffered, drained. cbn. rewrite Hread. cbn.
    unfold ChatCompletionsResponse_processBytes. by rewrite Hempty. }
  erewrite Eff_bind_Ret.
  2: { erewrite Eff_bind_Ret by (by apply chat_json_step with (r := inl r)). cbn [whole].
       erewrite Eff_bind_Ret by (by apply chat_json_step with (r := inr unreadable)). reflexivity. }
  done.
Qed.

(** ** The call *)

Lemma upstream_call_sized c m w fields path u
    (Hnew : new c = inl m) (Hdefault : cl_filters c = [])
    (Hbody : synced (w_req w) fields) (Hmodel : is_Some (fields !! "model")) (Hc : params_ok c (w_req w))
    (Hpath : upstreamPath (GetRequestType (w_req w)) = Some path)
    (Hurl : url_Parse (TrimSuffix1 (up_url (GetUpstream c)) "/" +:+ path) = inl u) :
  exists req fields', (forall k, fields' !! k = upstream_field c fields k) /\
    synced req fields' /\ same_request (w_req w) req /\ GetModel req = upstream_model c /\
    (req_type (w_req w) = RequestTypeImageGenerations -> req_size req = upstream_size c fields (w_req w)) /\
    let http := mkHTTPRequest "POST" u
      (setHeaders (up_headers (GetUpstream c))
        (streamHeaders (IsStream (w_req w)) (Header_Set ∅ "Content-Type" "application/json")))
      (BodyJSON (JObj fields')) in
    DoUpstreamRequest doRequest m w
    = (answer ← doRequest http; handleAnswer m answer)
        (mkWorld (setUpstreamRequestModel (upstream_model c) (setUpstreamProvider (cl_provider c) (w_meta w)))
           req (w_ext w)).
Proof.
  pose proof (new_spec (X := X) url_Parse BuildSpeechRequest decodeBase64 fetchURL c) as Hn. rewrite Hnew in Hn.
  destruct Hn as (_ & Hcl & Hmod & Hmar & _). rewrite Hdefault in Hmod, Hmar. cbn [count List.filter length replicate] in Hmod, Hmar.
  set (w1 := mkWorld (setUpstreamProvider (cl_provider c) (w_meta w)) (w_req w) (w_ext w)).
  destruct (request_rewritten_world c w1 fields Hbody Hmodel Hc) as (req & fields' & E & Hs & Hf & Hsame & Hm).
  pose proof Hsame as [Ht [Hst _]].
  exists req, fields'. split; [done|]. split; [done|]. split; [done|]. split; [done|].
  split; [intros Htype; exact (request_rewritten_size c w1 _ fields Hbody Hmodel Hc Htype E)|]. cbv zeta.
  unfold DoUpstreamRequest, ForEachRequestModifier, ForEachUpstreamRequestMarshaller. rewrite Hcl, Hmod, Hmar.
  cbn [map untilError threadUntilError].
  destruct Hs as [Hb Hp]. 
  change (req_type req = req_type (w_req w)) in Ht. change (req_stream req = req_stream (w_req w)) in Hst.
  etransitivity; [eapply Eff_bind_Ret; reflexivity|]. cbn [w_meta w_req w_ext]. fold w1.
  etransitivity; [eapply Eff_bind_Ret; erewrite Eff_bind_Ret by exact E; reflexivity|].
  etransitivity; [eapply Eff_bind_Ret; reflexivity|]. etransitivity; [eapply Eff_bind_Ret; reflexivity|].
  cbn [w_meta w_req w_ext]. rewrite Hm.
  match goal with |- _ = (doRequest ?h ≫= _) ?w2 => refine (Eff_bind_Ret _ _ _ w2 (inl h) _) end.
  unfold requestHandler_MarshalUpstreamRequest, GetRequestType, IsStream in *. run_eff.
  by rewrite Ht, Hpath, Hurl, Hb, Hst.
Qed.

Lemma upstream_call c m w fields path u
    (Hnew : new c = inl m) (Hdefault : cl_filters c = [])
    (Hbody : synced (w_req w) fields) (Hmodel : is_Some (fields !! "model")) (Hc : params_ok c (w_req w))
    (Hpath : upstreamPath (GetRequestType (w_req w)) = Some path)
    (Hurl : url_Parse (TrimSuffix1 (up_url (GetUpstream c)) "/" +:+ path) = inl u) :
  exists req fields', (forall k, fields' !! k = upstream_field c fields k) /\
    synced req fields' /\ same_request (w_req w) req /\ GetModel req = upstream_model c /\
    let http := mkHTTPRequest "POST" u
      (setHeaders (up_headers (GetUpstream c))
        (streamHeaders (IsStream (w_req w)) (Header_Set ∅ "Content-Type" "application/json")))
      (BodyJSON (JObj fields')) in
    DoUpstreamRequest doRequest m w
    = (answer ← doRequest http; handleAnswer m answer)
        (mkWorld (setUpstreamRequestModel (upstream_model c) (setUpstreamProvider (cl_provider c) (w_meta w)))
           req (w_ext w)).
Proof.
  destruct (upstream_call_sized c m w fields path u Hnew Hdefault Hbody Hmodel Hc Hpath Hurl) as (req & fields' & ? & ? & ? & ? & _ & ?).
  by exists req, fields'.
Qed.

(** C20: a cluster with the default filters sends exactly one request: a POST
    to the cluster's URL with the path of the request's type, with the
    content type, the stream headers when the client asked for a stream and
    then the cluster's own headers, and the rewritten body; everything the
    caller sees is computed from the answer. *)
Theorem upstream_request_sent c m w fields path u
    (Hnew : new c = inl m) (Hdefault : cl_filters c = [])
    (Hbody : synced (w_req w) fields) (Hmodel : is_Some (fields !! "model")) (Hc : params_ok c (w_req w))
    (Hpath : upstreamPath (GetRequestType (w_req w)) = Some path)
    (Hurl : url_Parse (TrimSuffix1 (up_url (GetUpstream c)) "/" +:+ path) = inl u) :
  exists req fields', (forall k, fields' !! k = upstream_field c fields k) /\
    synced req fields' /\ same_request (w_req w) req /\ GetModel req = upstream_model c /\
    let http := mkHTTPRequest "POST" u
      (setHeaders (up_headers (GetUpstream c))
        (streamHeaders (IsStream (w_req w)) (Header_Set ∅ "Content-Type" "application/json")))
      (BodyJSON (JObj fields')) in
    DoUpstreamRequest doRequest m w
    = (answer ← doRequest http; handleAnswer m answer)
        (mkWorld (setUpstreamRequestModel (upstream_model c) (setUpstreamProvider (cl_provider c) (w_meta w)))
           req (w_ext w)).
Proof. by apply upstream_call with (path := path). Qed.
End Facts.

(** ** Examples *)
#[local] Existing Instances rfc6902 rfc6902_laws dotted_paths ex_Unmarshal.

Definition ex_parse (s : string) : string + string := inl s.
Definition ex_speech (p : ClusterProvider) (url auth : string) (r : LLMRequest) (up : Header) (down : option Header)
  : outcome (HTTPRequest + gerror) := Ret (inr (EPlain "no speech")).
Definition ex_picture (s : string) : (Z * Z * string) + gerror := inl (512, 512, "png").
Definition ex_raw : RawResponse := mkRaw 200 "200 OK" "application/json" ex_body1 EEOF.
Definition ex_send (r : HTTPRequest) : Eff unit (RawResponse + gerror) := mret (inl ex_raw).

Definition ex_filters (l : list (ClusterFilterConfig)) : list (ClusterFilter unit) :=
  map (fun cfg => match cfg with
                  | OpenAIRequestHandlerConfig => NewRequestHandlerWithConfig ex_parse ex_speech
                  | _ => NewResponseHandlerWithConfig ex_picture ex_picture
                  end) l.
Definition ex_built (c : Cluster) (l : list ClusterFilterConfig) : clusterDefault unit :=
  let fs := ex_filters (l ++ [OpenAIRequestHandlerConfig; OpenAIResponseHandlerConfig]) in
  mkClusterDefault c fs (rev fs).
Definition ex_call := DoUpstreamRequest ex_send (ex_built ex_cluster []) ex_call_world.
Definition ex_world_of {A} (r : outcome (World unit * A)) : World unit :=
  match r with Ret (w, _) => w | Panic _ => ex_call_world end.
Definition ex_answer : AnyResponse :=
  match ex_call with Ret (_, (Some r, _)) => r | _ => Whole (mkLLMResponse KChat 0 "" None None None) end.

Lemma response_names_cluster_witness : any_GetModel ex_answer = "gpt-4o".
Proof.
  apply (response_names_cluster ex_parse ex_speech ex_picture ex_picture ex_send
           ex_cluster (ex_built ex_cluster []) ex_call_world (ex_world_of ex_call) ex_answer).
  - reflexivity.
  - vm_compute. reflexivity.
Defined.

Definition ex_register : Register unit := mkRegister {[ "gpt-4o" := ex_built ex_cluster [] ]} {[ "gpt-4o" := ex_cluster ]}.
Definition ex_lost := Manager_HandleRequest ex_send ex_register "gpt-5" ex_call_world.

Lemma cluster_errors_are_llm_witness :
  IsLLMError (Some (EBase (NewErrorModelNotFoundOrNotAccessible "public"))) = true.
Proof.
  apply (cluster_errors_are_llm ex_send ex_register "gpt-5" ex_call_world ex_call_world None
           (Some (EBase (NewErrorModelNotFoundOrNotAccessible "public")))).
  vm_compute. reflexivity.
Defined.

Definition ex_doubled : Cluster :=
  mkCluster "gpt-4o" CLB_ROUND_ROBIN (Some ex_upstream) [("mine", OpenAIResponseHandlerConfig)] OPEN_AI 0 LLM None.

Lemma explicit_response_handler_fails_witness :
  exists t, ErrorText unreadable = Ret t /\
    handleUpstreamResponse (ex_built ex_doubled [OpenAIResponseHandlerConfig]) ex_raw ex_call_world
    = Ret (ex_call_world, (None, Some (EBase (newBase StatusInternalServerError LLMErrorCodeInternalError t)))).
Proof.
  eapply (explicit_response_handler_fails ex_parse ex_speech ex_picture ex_picture
           ex_doubled (ex_built ex_doubled [OpenAIResponseHandlerConfig]) ex_call_world ex_raw).
  - reflexivity.
  - cbn. lia.
  - reflexivity.
  - reflexivity.
  - reflexivity.
  - reflexivity.
  - vm_compute. reflexivity.
Defined.

Lemma upstream_request_sent_witness :
  exists req fields', (forall k, fields' !! k = upstream_field ex_cluster ex_fields k) /\
    synced req fields' /\ same_request ex_llm_request req /\ GetModel req = upstream_model ex_cluster /\
    DoUpstreamRequest ex_send (ex_built ex_cluster []) ex_call_world
    = (answer ← ex_send (mkHTTPRequest "POST" "https://up/v1/chat/completions"
          (setHeaders [("x-team", "a")] (Header_Set ∅ "Content-Type" "application/json")) (BodyJSON (JObj fields')));
       handleAnswer (ex_built ex_cluster []) answer)
        (mkWorld (setUpstreamRequestModel (upstream_model ex_cluster) (setUpstreamProvider OPEN_AI InitMetadata)) req tt).
Proof.
  apply (upstream_request_sent ex_parse ex_speech ex_picture ex_picture ex_send
           ex_cluster (ex_built ex_cluster []) ex_call_world ex_fields "/chat/completions" "https://up/v1/chat/completions");
    [reflexivity|reflexivity|done|by eexists|exact ex_params_ok|reflexivity|vm_compute; reflexivity].
Defined.
