(* ===== verification/Completion.v ===== *)
(** * The completion of a streamed response

    pkg/clusters/cluster/cluster.go, from the answer of the upstream on: when
    the answer is a stream, [DoUpstreamRequest] starts a goroutine that waits
    for the stream's end ([WaitUntilEOF] of chat_completions_stream.go, with a
    goroutine of its own), writes the usage into the metadata and runs the
    completion hooks.  The listener's pipe runs at the same time and shares the
    stream and the metadata with it.  The three goroutines are a transition
    system; the pipe of [Stream] is what it does when nothing comes between. *)
From stdpp Require Import relations.
From S2P Require Import Prelude Strconv Utils GoFloat Json Api Errors Request Response Effects Stream Filters Usage ClusterFilters Cluster.

(** ** The goroutines *)

(** Where the pipe is: before [NextChunk]; in the deferred callbacks of
    [NextChunk] with those left to call; before [handleChunk]; over, or over by
    a panic. *)
Inductive pipeAt (X : Type) : Type :=
| Reading
| Calling (cbs : list (Callback (X := X))) (chunk : option Chunk) (err : option gerror)
| Writing (chunk : Chunk)
| Piped
| Crashed (msg : string).
Arguments Reading {X}.
Arguments Calling {X}.
Arguments Writing {X}.
Arguments Piped {X}.
Arguments Crashed {X}.

(** The pipe with what it shares: the stream, the client's connection, the
    surroundings of the request. *)
Record piping (X : Type) : Type := mkPiping {
  pp_at : pipeAt X;
  pp_stream : StreamResponse;
  pp_out : string;
  pp_world : World X }.
Arguments mkPiping {X}.
Arguments pp_at {X}.
Arguments pp_stream {X}.
Arguments pp_out {X}.
Arguments pp_world {X}.

(** The function that the goroutine of [DoUpstreamRequest] runs: at the
    receive, at the test of the usage, at the assignment, at the hooks, done,
    or ended by a panic, which nothing recovers. *)
Inductive waiterAt : Type :=
| Blocked
| Testing
| Noting
| Completing
| Completed (err : option gerror)
| Killed.

(** [co_closed]: the goroutine of [WaitUntilEOF] has closed its channel. *)
Record completion (X : Type) : Type := mkCompletion {
  co_piping : piping X;
  co_closed : bool;
  co_waiter : waiterAt }.
Arguments mkCompletion {X}.
Arguments co_piping {X}.
Arguments co_closed {X}.
Arguments co_waiter {X}.

Section Completion.
Context `{JSONPath} `{JSONText} {X : Type}.
Variable Marshal : json -> string.
Variable write_ok : string -> string -> bool.
Variable cbs : list (Callback (X := X)).
(** What a callback that panics leaves behind. *)
Variable crash : World X -> World X.
(** The cluster that was called. *)
Variable m : clusterDefault X.

(** ** The pipe, a step at a time (listener/common.go) *)
Definition pipe_next (p : piping X) : option (piping X) :=
  let '(mkPiping a r out w) := p in
  match a with
  | Reading => let '(r, chunk, err) := NextChunk r in Some (mkPiping (Calling cbs chunk err) r out w)
  | Calling (cb :: cbs) chunk err =>
      Some match cb EOFCtx r chunk w with
           | Ret (w, _) => mkPiping (Calling cbs chunk err) r out w
           | Panic msg => mkPiping (Crashed msg) r out (crash w)
           end
  | Calling [] chunk err =>
      Some match err with
           | Some e =>
               if IsEOFError e then
                 match chunk with
                 | Some chunk => mkPiping Piped r (fst (handleChunk Marshal write_ok chunk out)) w
                 | None => mkPiping (Crashed nil_deref) r out w
                 end
               else mkPiping Piped r out w
           | None =>
               match chunk with
               | None => mkPiping (Crashed nil_deref) r out w
               | Some chunk =>
                   if ck_isEmpty chunk then mkPiping Reading r out w
                   else mkPiping (Writing chunk) r out (mkWorld (noteChunk chunk (w_meta w)) (w_req w) (w_ext w))
               end
           end
  | Writing chunk =>
      let '(out, ok) := handleChunk Marshal write_ok chunk out in
      Some (mkPiping (if ok : bool then Reading else Piped) r out w)
  | Piped | Crashed _ => None
  end.

Definition pipe_alone (p p' : piping X) : Prop := pipe_next p = Some p'.

(** ** The goroutine of the cluster, a step at a time (cluster.go) *)
Definition noteTokens (u : ChatCompletionsUsage) (w : World X) : World X :=
  mkWorld (setTokensUsage (ChatUsage u) (w_meta w)) (w_req w) (w_ext w).

Definition set_world (p : piping X) (w : World X) : piping X :=
  mkPiping (pp_at p) (pp_stream p) (pp_out p) w.

Definition waiter_next (s : completion X) : option (completion X) :=
  let '(mkCompletion p closed a) := s in
  match a with
  | Blocked => if closed then Some (mkCompletion p closed Testing) else None
  | Testing =>
      Some (mkCompletion p closed match sr_Usage (pp_stream p) with Some _ => Noting | None => Completing end)
  | Noting =>
      Some match sr_Usage (pp_stream p) with
           | Some u => mkCompletion (set_world p (noteTokens u (pp_world p))) closed Completing
           | None => mkCompletion p closed Killed
           end
  | Completing =>
      Some match doUpstreamResponseComplete m (Some (Streaming (pp_stream p))) (pp_world p) with
           | Ret (w, err) => mkCompletion (set_world p w) closed (Completed err)
           | Panic _ => mkCompletion p closed Killed
           end
  | Completed _ | Killed => None
  end.

(** [WaitUntilEOF]: its goroutine waits for [eofCancelFunc]. *)
Definition notifier_next (s : completion X) : option (completion X) :=
  if sr_cancelled (pp_stream (co_piping s)) && negb (co_closed s)
  then Some (mkCompletion (co_piping s) true (co_waiter s)) else None.

(** Any of the three goes on. *)
Inductive completion_step : completion X -> completion X -> Prop :=
| pipe_goes p p' closed a : pipe_next p = Some p' ->
    completion_step (mkCompletion p closed a) (mkCompletion p' closed a)
| notifier_goes s s' : notifier_next s = Some s' -> completion_step s s'
| waiter_goes s s' : waiter_next s = Some s' -> completion_step s s'.

(** The goroutines are started before the pipe. *)
Definition pipe_starts (r : StreamResponse) (w : World X) : piping X := mkPiping Reading r "" w.
Definition starts (r : StreamResponse) (w : World X) : completion X :=
  mkCompletion (pipe_starts r w) false Blocked.

(** ** What a step of [NextChunk] does to the usage and to the signal *)

(** Only a usage chunk changes the usage, and it does not signal the end;
    every error signals it. *)
Local Ltac unchanged := split_and!; try done; try (by intros [? [=]]); try (cbn in *; congruence); left; split; [done|by intros ? [= <-]].

Lemma NextChunk_usage (r r' : StreamResponse) chunk err :
  (sr_cancelled r = true -> sr_hasErrorPrefix r = true) ->
  NextChunk r = (r', chunk, err) ->
  (err = None -> sr_cancelled r' = true -> sr_hasErrorPrefix r' = true) /\
  (is_Some err -> sr_cancelled r' = true) /\
  (sr_cancelled r = true -> sr_cancelled r' = true) /\
  (sr_Usage r' = sr_Usage r /\ (forall c, chunk = Some c -> ck_isUsage c = false) \/
   sr_cancelled r = false /\ sr_cancelled r' = false /\ err = None /\
   exists c, chunk = Some c /\ ck_isUsage c = true /\ ck_isEmpty c = false /\ sr_Usage r' = ck_Usage c).
Proof.
  intros Hinv. unfold NextChunk. destruct (ReadLine (sr_input r)) as [[line rest]|].
  2:{ intros [= <- <- <-]. unchanged. }
  cbn [sr_hasErrorPrefix sr_setInput]. destruct (sr_hasErrorPrefix r) eqn:He.
  { intros [= <- <- <-]. unchanged. }
  assert (sr_cancelled r = false) as Hc by (destruct (sr_cancelled r); [by specialize (Hinv eq_refl)|done]).
  destruct (HasPrefix (TrimSpace line) errorPrefix), (HasPrefix (TrimSpace line) headerData);
    cbn [negb orb sr_setErrorPrefix sr_hasErrorPrefix sr_setInput]; rewrite ?He.
  1,2,4: intros [= <- <- <-]; unchanged.
  destruct (String.eqb (TrimPrefix (TrimSpace line) headerData) "[DONE]").
  { intros [= <- <- <-]. unchanged. }
  destruct (Contains (TrimPrefix (TrimSpace line) headerData) usageCompletionTokens).
  - unfold NewUsageChatCompletionStreamChunk. destruct (chunk_processBytes _) as [body|e].
    2:{ intros [= <- <- <-]. unchanged. }
    destruct (FromMap_ChatCompletionsUsage _) as [usage|e].
    2:{ intros [= <- <- <-]. unchanged. }
    intros [= <- <- <-]. destruct (String.eqb _ ""); cbn; rewrite Hc; split_and!; try done; try (by intros [? [=]]); right;
      split_and!; try done; by eexists.
  - unfold NewChatCompletionStreamChunk. destruct (chunk_processBytes _) as [body|e].
    2:{ intros [= <- <- <-]. unchanged. }
    intros [= <- <- <-]. destruct (String.eqb _ ""); cbn; rewrite Hc; unchanged.
Qed.

(** ** The pipe, step by step, is the pipe *)

(** Any fuel above the bytes left is enough. *)
Lemma pipe_loop_fuel cbs0 fuel fuel' : forall r out (w : World X),
  (String.length (sr_input r) < fuel)%nat -> (String.length (sr_input r) < fuel')%nat ->
  pipe_loop Marshal write_ok fuel cbs0 r out w = pipe_loop Marshal write_ok fuel' cbs0 r out w.
Proof.
  revert fuel'. induction fuel as [|fuel IH]; intros [|fuel'] r out w Hf Hf'; try lia.
  cbn [pipe_loop]. destruct (NextChunk r) as [[r' chunk] [e|]] eqn:Hn; [done|].
  destruct (NextChunk_input _ _ _ Hn) as [Hlt [c ->]].
  unfold mbind, Eff_bind. destruct (runCallbacks cbs0 r' (Some c) w) as [[w1 []]|]; [|done].
  destruct (ck_isEmpty c); [apply IH; lia|]. cbn.
  destruct (handleChunk Marshal write_ok c out) as [out' []]; [apply IH; lia|done].
Qed.

Definition loop_from (r : StreamResponse) (out : string) : Eff X (option (StreamResponse * string)) :=
  pipe_loop Marshal write_ok (S (String.length (sr_input r))) cbs r out.

Lemma loop_from_fuel fuel r out (w : World X) : (String.length (sr_input r) < fuel)%nat ->
  pipe_loop Marshal write_ok fuel cbs r out w = loop_from r out w.
Proof. intros Hf. apply pipe_loop_fuel; lia. Qed.

(** What the pipe returns from where it is. *)
Definition remaining (p : piping X) : outcome (World X * option (StreamResponse * string)) :=
  let '(mkPiping a r out w) := p in
  match a with
  | Reading => loop_from r out w
  | Calling cbs chunk err =>
      (_ ← runCallbacks cbs r chunk;
       match err with
       | Some e =>
           if IsEOFError e then
             match chunk with
             | Some chunk => mret (Some (r, fst (handleChunk Marshal write_ok chunk out)))
             | None => panic nil_deref
             end
           else mret (Some (r, out))
       | None =>
           match chunk with
           | None => panic nil_deref
           | Some chunk =>
               if ck_isEmpty chunk then loop_from r out
               else
                 _ ← modifyMeta (noteChunk chunk);
                 let '(out, ok) := handleChunk Marshal write_ok chunk out in
                 if ok : bool then loop_from r out else mret (Some (r, out))
           end
       end) w
  | Writing chunk =>
      let '(out, ok) := handleChunk Marshal write_ok chunk out in
      if ok : bool then loop_from r out w else Ret (w, Some (r, out))
  | Piped => Ret (w, Some (r, out))
  | Crashed msg => Panic msg
  end.

Lemma remaining_step p p' : pipe_next p = Some p' -> remaining p = remaining p'.
Proof.
  destruct p as [a r out w]. destruct a as [|cs chunk err|chunk| |msg]; cbn [pipe_next]; try done.
  - destruct (NextChunk r) as [[r' chunk] err] eqn:Hn. intros [= <-]. cbn [remaining]. unfold loop_from at 1. cbn [pipe_loop]. rewrite Hn.
    unfold mbind, Eff_bind. destruct (runCallbacks cbs r' chunk w) as [[w1 []]|]; [|done].
    destruct err as [e|].
    + destruct (IsEOFError e); [|done]. destruct chunk as [chunk|]; [|done].
      by destruct (handleChunk Marshal write_ok chunk out).
    + destruct (NextChunk_input _ _ _ Hn) as [Hlt [c ->]].
      destruct (ck_isEmpty c); [apply loop_from_fuel; lia|]. unfold modifyMeta.
      destruct (handleChunk Marshal write_ok c out) as [out' []]; [apply loop_from_fuel; lia|done].
  - destruct cs as [|cb cs].
    + destruct err as [e|].
      * cbn [pipe_next]. intros [= <-]. cbn. destruct (IsEOFError e); [|done]. by destruct chunk.
      * cbn [pipe_next]. intros [= <-]. destruct chunk as [c|]; [|done]. unfold remaining. destruct (ck_isEmpty c); [done|].
        unfold mbind, Eff_bind, modifyMeta. by destruct (handleChunk Marshal write_ok c out) as [out1 []].
    + cbn [pipe_next]. intros [= <-]. cbn [remaining runCallbacks]. unfold mbind, Eff_bind.
      by destruct (cb EOFCtx r chunk w) as [[w1 []]|].
  - destruct (handleChunk Marshal write_ok chunk out) as [out' []] eqn:E; cbv beta iota; intros [= <-]; unfold remaining; by rewrite E.
Qed.

Lemma remaining_steps p p' : rtc pipe_alone p p' -> remaining p = remaining p'.
Proof. induction 1 as [|p p1 p' Hs _ IH]; [done|]. rewrite <- IH. by apply remaining_step. Qed.

(** What the pipe has returned when it is over. *)
Lemma pipe_alone_result r w p : rtc pipe_alone (pipe_starts r w) p ->
  match pp_at p with
  | Piped => pipeCompletionsStream Marshal write_ok cbs r w = Ret (pp_world p, Some (pp_stream p, pp_out p))
  | Crashed msg => pipeCompletionsStream Marshal write_ok cbs r w = Panic msg
  | _ => True
  end.
Proof.
  intros Hp%remaining_steps. change (remaining (pipe_starts r w)) with (pipeCompletionsStream Marshal write_ok cbs r w) in Hp.
  rewrite Hp. by destruct p as [[] ? ? ?].
Qed.

(** ** What holds in every interleaving *)
Abbreviation tokens w := (LLMUpstreamTokensUsage (w_meta w)).

(** A callback that leaves the tokens of the metadata alone. *)
Definition keeps_usage (cb : Callback (X := X)) : Prop :=
  forall r chunk (w w' : World X), cb EOFCtx r chunk w = Ret (w', tt) -> tokens w' = tokens w.

Definition noted (r : StreamResponse) (w : World X) : Prop :=
  forall u, sr_Usage r = Some u -> tokens w = Some (ChatUsage u).

Lemma noted_eq r r' w w' : sr_Usage r' = sr_Usage r -> tokens w' = tokens w -> noted r w -> noted r' w'.
Proof. unfold noted. by intros -> ->. Qed.

(** The pipe has not read its last chunk. *)
Definition goes_on (a : pipeAt X) : bool :=
  match a with Reading | Writing _ | Calling _ _ None => true | _ => false end.

(** A usage that the pipe is yet to write into the metadata. *)
Definition about_to_note (p : piping X) : Prop :=
  sr_cancelled (pp_stream p) = false /\
  match pp_at p with
  | Calling _ (Some c) None => ck_isUsage c = true
  | Crashed _ => True
  | _ => False
  end.

Record pipe_ok (p : piping X) : Prop := {
  ok_signal : goes_on (pp_at p) = true -> sr_cancelled (pp_stream p) = true -> sr_hasErrorPrefix (pp_stream p) = true;
  ok_noted : noted (pp_stream p) (pp_world p) \/ about_to_note p;
  ok_chunk : match pp_at p with
             | Calling _ (Some c) _ =>
                 ck_isUsage c = true -> sr_Usage (pp_stream p) = ck_Usage c /\ ck_isEmpty c = false
             | _ => True
             end;
  ok_calls : match pp_at p with Calling cs _ _ => Forall keeps_usage cs | _ => True end }.

Section Invariant.
Hypothesis Hkeep : Forall keeps_usage cbs.
Hypothesis Hcrash : forall w, tokens (crash w) = tokens w.

Lemma tokens_noteChunk c (w : World X) r :
  sr_Usage r = ck_Usage c -> ck_isUsage c = true ->
  noted r (mkWorld (noteChunk c (w_meta w)) (w_req w) (w_ext w)).
Proof.
  intros Hu Hc u Hs. cbn [w_meta]. unfold noteChunk. rewrite Hc, <- Hu, Hs. by destruct (ck_isFirst c).
Qed.

Lemma noteChunk_keeps c (w : World X) r : noted r w -> ck_isUsage c = false ->
  noted r (mkWorld (noteChunk c (w_meta w)) (w_req w) (w_ext w)).
Proof.
  intros Hn Hc u Hs. rewrite <- (Hn u Hs). cbn [w_meta]. unfold noteChunk. rewrite Hc. by destruct (ck_isFirst c).
Qed.

Lemma pipe_next_ok p p' : pipe_ok p -> pipe_next p = Some p' ->
  pipe_ok p' /\
  (sr_cancelled (pp_stream p) = true ->
   sr_cancelled (pp_stream p') = true /\ sr_Usage (pp_stream p') = sr_Usage (pp_stream p)).
Proof.
  destruct p as [a r out w]. intros [Hs Hn Hc Hcs].
  destruct a as [|cs chunk err|chunk| |msg]; cbn [pipe_next pp_at pp_stream pp_world goes_on] in *; try done.
  - destruct (NextChunk r) as [[r' chunk] err] eqn:E.
    destruct (NextChunk_usage r r' chunk err (Hs eq_refl) E) as (Hs' & He & Hk & Hu).
    assert (noted r w) as Hnoted by (destruct Hn as [Hn|[_ []]]; done).
    intros [= <-]. cbn [pp_stream]. split.
    + split; cbn [pp_at pp_stream pp_world goes_on]; [by destruct err; [|intros _; apply Hs']| | |done].
      * destruct Hu as [[Hu _]|(_ & Hc' & -> & c & -> & Hi & _)]; [left; by eapply noted_eq|by right].
      * destruct chunk as [c|]; [|done].
        destruct Hu as [[_ Hu]|(_ & _ & _ & c' & [= <-] & _ & Hemp & Hu)]; [by rewrite (Hu c eq_refl)|done].
    + intros Hcan. split; [by apply Hk|]. destruct Hu as [[Hu _]|(Hc' & _)]; [done|congruence].
  - destruct cs as [|cb cs]; intros [= <-].
    + destruct err as [e|].
      { assert (noted r w) as Hnoted by (destruct Hn as [Hn|[_ Hn]]; [done|by destruct chunk]).
        destruct (IsEOFError e), chunk; split; try done; split; try done; by left. }
      destruct chunk as [c|].
      2:{ assert (noted r w) as Hnoted by by destruct Hn as [Hn|[_ []]]. split; [split; try done; by left|done]. }
      destruct (ck_isEmpty c) eqn:Hemp; (split; [|done]); split; try done; left; cbn [pp_stream pp_world].
      * destruct Hn as [Hn|[_ Hi]]; [done|]. destruct (Hc Hi). congruence.
      * destruct (ck_isUsage c) eqn:Hi; [apply tokens_noteChunk; [by apply Hc|done]|].
        destruct Hn as [Hn|[_ Hi']]; [by apply noteChunk_keeps|]. cbn in Hi'. congruence.
    + apply Forall_cons in Hcs as [Hcb Hcs].
      destruct (cb EOFCtx r chunk w) as [[w1 []]|msg] eqn:E; (split; [|done]); split; try done; cbn [pp_stream pp_world].
      * destruct Hn as [Hn|Hn]; [left; by eapply noted_eq; [|by eapply Hcb|]|by right].
      * destruct Hn as [Hn|[Hn _]]; [left; by eapply noted_eq; [|apply Hcrash|]|by right].
  - assert (noted r w) as Hnoted by by destruct Hn as [Hn|[_ []]].
    destruct (handleChunk Marshal write_ok chunk out) as [out' []]; intros [= <-]; (split; [|done]);
      split; try done; by left.
Qed.

(** The goroutines wait for the signal, and what they write is there already. *)
Record completion_ok (s : completion X) : Prop := {
  ok_pipe : pipe_ok (co_piping s);
  ok_closed : co_closed s = true -> sr_cancelled (pp_stream (co_piping s)) = true;
  ok_woken : co_waiter s <> Blocked -> co_closed s = true;
  ok_noting : co_waiter s = Noting -> is_Some (sr_Usage (pp_stream (co_piping s)));
  ok_alive : co_waiter s <> Killed;
  ok_result err : co_waiter s = Completed err -> err = None }.

Lemma starts_ok input ending w : completion_ok (starts (NewChatCompletionStreamResponse input ending) w).
Proof. split; try done. split; try done. by left. Qed.

Lemma pipe_ok_world p : pipe_ok p -> sr_cancelled (pp_stream p) = true -> noted (pp_stream p) (pp_world p).
Proof. intros [_ [Hn|[Hc _]] _ _] Hcan; [done|congruence]. Qed.

(** What the goroutine writes is there already. *)
Lemma noteTokens_id p u : pipe_ok p -> sr_cancelled (pp_stream p) = true -> sr_Usage (pp_stream p) = Some u ->
  set_world p (noteTokens u (pp_world p)) = p.
Proof.
  intros Hok Hcan Hu. pose proof (pipe_ok_world p Hok Hcan u Hu) as Ht.
  destruct p as [a r out [me rq x]]. unfold set_world, noteTokens. cbn in *. f_equal. f_equal.
  destruct me. unfold setTokensUsage. cbn in *. by rewrite Ht.
Qed.

Hypothesis Hnone : ResponseCompleters (cd_reversedFilters m) = [].

Lemma complete_none res (w : World X) : doUpstreamResponseComplete m res w = Ret (w, None).
Proof. unfold doUpstreamResponseComplete, ForEachResponseComplete. by rewrite Hnone. Qed.

(** The steps of the goroutines leave everything of the pipe's as it is. *)
Lemma others_invisible s s' : completion_ok s -> notifier_next s = Some s' \/ waiter_next s = Some s' ->
  completion_ok s' /\ co_piping s' = co_piping s.
Proof.
  intros [Hp Hc Hw Hn Hal Hr] [E|E].
  - unfold notifier_next in E. destruct (sr_cancelled _) eqn:Hcan, (co_closed s) eqn:Hcl; try done.
    injection E as <-. split; [|done]. split; try done.
  - destruct s as [p closed a]. cbn in *.
    destruct a; cbn [waiter_next] in E; try done.
    + destruct closed; [|done]. injection E as <-. split; [|done]. by split.
    + injection E as <-. split; [|done].
      split; cbn; try done; destruct (sr_Usage (pp_stream p)) eqn:Hu; try done; intros _; by apply Hw.
    + destruct (Hn eq_refl) as [u Hu]. rewrite Hu in E. injection E as <-.
      rewrite (noteTokens_id p u); [|done|by apply Hc, Hw|done]. split; [|done]. split; cbn; try done.
      intros _. by apply Hw.
    + rewrite complete_none in E. injection E as <-.
      assert (set_world p (pp_world p) = p) as -> by by destruct p.
      split; [|done]. split; cbn; try done; [intros _; by apply Hw|by intros err [= <-]].
Qed.

Lemma completion_step_ok s s' : completion_ok s -> completion_step s s' ->
  completion_ok s' /\ (co_piping s' = co_piping s \/ pipe_alone (co_piping s) (co_piping s')).
Proof.
  intros Hok Hs. revert Hok. destruct Hs as [p p' closed a E|s0 s1 E|s0 s1 E]; intros Hok.
  - destruct Hok as [Hp Hc Hw Hn Hal Hr]. destruct (pipe_next_ok p p' Hp E) as [Hp' Hcan].
    split; [|by right]. split; try done.
    + intros Hcl. by apply Hcan, Hc.
    + cbn in *. intros Hno. destruct Hcan as [_ ->]; [apply Hc, Hw; congruence|by apply Hn].
  - destruct (others_invisible s0 s1 Hok (or_introl E)). by split; [|left].
  - destruct (others_invisible s0 s1 Hok (or_intror E)). by split; [|left].
Qed.

Lemma completion_steps_ok s s' : completion_ok s -> rtc completion_step s s' ->
  completion_ok s' /\ rtc pipe_alone (co_piping s) (co_piping s').
Proof.
  intros Hok Hrun. revert Hok. induction Hrun as [s|s s1 s' Hs _ IH]; [done|]. intros Hok.
  destruct (completion_step_ok s s1 Hok Hs) as [Hok1 Hp]. destruct (IH Hok1) as [Hok' Hrun'].
  split; [done|]. destruct Hp as [<-|Hp]; [done|]. by eapply rtc_l.
Qed.
(** ** The runs end *)
Definition turn : nat := length cbs + 3.

Definition pipe_size (p : piping X) : nat :=
  let left := (S (String.length (sr_input (pp_stream p))) * turn)%nat in
  match pp_at p with
  | Reading => left
  | Calling cs _ (Some _) => length cs + 1
  | Calling cs _ None => left + length cs + 2
  | Writing _ => left + 1
  | Piped | Crashed _ => 0
  end.

Lemma pipe_next_size p p' : pipe_next p = Some p' -> (pipe_size p' < pipe_size p)%nat.
Proof.
  destruct p as [a r out w]. destruct a as [|cs chunk err|chunk| |msg]; cbn [pipe_next]; try done.
  - destruct (NextChunk r) as [[r' chunk] err] eqn:E. intros [= <-]. unfold pipe_size. cbn [pp_at pp_stream].
    destruct err as [e|]; unfold turn; [simpl; lia|]. destruct (NextChunk_input _ _ _ E) as [Hlt _]. nia.
  - destruct cs as [|cb cs]; intros [= <-]; unfold pipe_size.
    + destruct err as [e|]; [by destruct (IsEOFError e), chunk; simpl; lia|].
      destruct chunk as [c|]; [destruct (ck_isEmpty c)|]; cbn [pp_at pp_stream length]; lia.
    + destruct (cb EOFCtx r chunk w) as [[w1 []]|], err; cbn [pp_at pp_stream length]; lia.
  - destruct (handleChunk Marshal write_ok chunk out) as [out' []]; intros [= <-]; unfold pipe_size; cbn [pp_at pp_stream]; lia.
Qed.

Definition over (a : pipeAt X) : Prop := match a with Piped | Crashed _ => True | _ => False end.

Lemma pipe_next_live p : over (pp_at p) \/ is_Some (pipe_next p).
Proof.
  destruct p as [[|cs chunk err|chunk| |msg] r out w]; cbn; try (by left); right.
  - by destruct (NextChunk r) as [[? ?] ?].
  - by destruct cs.
  - by destruct (handleChunk Marshal write_ok chunk out).
Qed.

Definition waiter_size (s : completion X) : nat :=
  (if co_closed s then 0 else 1) +
  match co_waiter s with Blocked => 4 | Testing => 3 | Noting => 2 | Completing => 1 | Completed _ | Killed => 0 end.

Lemma others_size s s' : notifier_next s = Some s' \/ waiter_next s = Some s' ->
  (waiter_size s' < waiter_size s)%nat.
Proof.
  destruct s as [p closed a]. unfold notifier_next, waiter_size. cbn. intros [E|E].
  - destruct (sr_cancelled (pp_stream p)), closed; try done. injection E as <-. simpl. lia.
  - destruct a; try done.
    + destruct closed; [|done]. injection E as <-. simpl. lia.
    + injection E as <-. destruct (sr_Usage (pp_stream p)); simpl; lia.
    + injection E as <-. destruct (sr_Usage (pp_stream p)); simpl; lia.
    + injection E as <-. rewrite complete_none. simpl. lia.
Qed.

Definition completion_size (s : completion X) : nat := pipe_size (co_piping s) + waiter_size s.

Lemma completion_step_size s s' : completion_ok s -> completion_step s s' -> (completion_size s' < completion_size s)%nat.
Proof.
  intros Hok Hs. revert Hok. unfold completion_size. destruct Hs as [p p' closed a E|s0 s1 E|s0 s1 E]; intros Hok.
  - apply pipe_next_size in E. unfold waiter_size. simpl. lia.
  - destruct (others_invisible s0 s1 Hok (or_introl E)) as [_ ->]. pose proof (others_size s0 s1 (or_introl E)). lia.
  - destruct (others_invisible s0 s1 Hok (or_intror E)) as [_ ->]. pose proof (others_size s0 s1 (or_intror E)). lia.
Qed.

(** The pipe is over, and the completion has run, or waits for a signal that
    nobody is left to give. *)
Definition settled (s : completion X) : Prop :=
  over (pp_at (co_piping s)) /\
  co_closed s = sr_cancelled (pp_stream (co_piping s)) /\
  co_waiter s = if sr_cancelled (pp_stream (co_piping s)) then Completed None else Blocked.

Lemma completion_live s : completion_ok s -> settled s \/ exists s', completion_step s s'.
Proof.
  destruct s as [p closed a]. intros [Hp Hc Hw Hn Hal Hr]. unfold settled. cbn in *.
  destruct (pipe_next_live p) as [Ho|[p' E]]; [|right; eexists; by apply pipe_goes].
  destruct (sr_cancelled (pp_stream p)) eqn:Hcan.
  - destruct closed.
    2:{ right. eexists. apply notifier_goes. unfold notifier_next. cbn. by rewrite Hcan. }
    destruct a as [| | | |err|]; [..|left; by rewrite (Hr err eq_refl)|done];
      right; eexists; by apply waiter_goes.
  - destruct closed; [by specialize (Hc eq_refl)|]. left. split; [done|]. split; [done|].
    destruct a; try done; by specialize (Hw ltac:(done)).
Qed.

Lemma settled_stuck s : settled s -> forall s', ~ completion_step s s'.
Proof.
  intros (Ho & Hc & Hw) s' Hstep. destruct Hstep as [p p' closed a E|s0 s1 E|s0 s1 E].
  - by destruct p as [[] r out w].
  - unfold notifier_next in E. rewrite Hc in E. by destruct (sr_cancelled _).
  - destruct s0 as [p closed a]. cbn in *. rewrite Hc, Hw in E. by destruct (sr_cancelled _).
Qed.

Lemma completion_settles s : completion_ok s -> inevitable completion_step settled s.
Proof.
  apply (inevitable_measure _ _ completion_ok completion_size). intros s0 Hok.
  destruct (completion_live s0 Hok) as [Hs|Hs]; [by left|]. right. split; [done|]. intros s1 Hs1. right.
  split; [by eapply completion_step_ok|by eapply completion_step_size].
Qed.
End Invariant.

(** ** Runs by a schedule *)
Inductive agent : Type := Pipe | Notifier | Waiter.

Definition agent_next (a : agent) (s : completion X) : option (completion X) :=
  match a with
  | Pipe => p ← pipe_next (co_piping s); Some (mkCompletion p (co_closed s) (co_waiter s))
  | Notifier => notifier_next s
  | Waiter => waiter_next s
  end.

Fixpoint schedule (l : list agent) (s : completion X) : option (completion X) :=
  match l with [] => Some s | a :: l => s ← agent_next a s; schedule l s end.

Lemma schedule_steps l : forall s s', schedule l s = Some s' -> rtc completion_step s s'.
Proof.
  induction l as [|a l IH]; intros s s'; [by intros [= <-]|]. cbn [schedule].
  intros (s1 & E & Hs)%bind_Some. apply (rtc_l _ _ s1); [|by apply IH].
  destruct a; [|by apply notifier_goes|by apply waiter_goes].
  apply bind_Some in E as (p & E & [= <-]). destruct s. by apply pipe_goes.
Qed.
End Completion.

(** A run that gets to [P] gets to what holds wherever [P] is reached. *)
Lemma inevitable_weaken {A} (step : A -> A -> Prop) (P Q : A -> Prop) a :
  inevitable step P a -> (forall a', rtc step a a' -> P a' -> Q a') -> inevitable step Q a.
Proof.
  induction 1 as [a HP|a Hex Hall IH]; intros Hq; [apply inevitable_now; by apply Hq|].
  apply inevitable_later; [done|]. intros a' Ha. apply IH; [done|]. intros b Hb. apply Hq. by eapply rtc_l.
Qed.

Section Completed.
Context `{JSONPatch} `{JSONPath} `{JSONText} {X : Type}.
Variable url_Parse : string -> string + string.
Variable BuildSpeechRequest : ClusterProvider -> string -> string -> LLMRequest -> Header -> option Header ->
                              outcome (HTTPRequest + gerror).
Variable decodeBase64 fetchURL : string -> (Z * Z * string) + gerror.
Variable Marshal : json -> string.
Variable write_ok : string -> string -> bool.
Variable cbs : list (Callback (X := X)).
Variable crash : World X -> World X.
Variable c : Cluster.
Variable m : clusterDefault X.

Abbreviation tokens w := (LLMUpstreamTokensUsage (w_meta w)).
Abbreviation step := (completion_step Marshal write_ok cbs crash m).
Abbreviation from input ending := (NewChatCompletionStreamResponse input ending).

Lemma built_completes_nothing :
  Cluster_NewWithConfigs url_Parse BuildSpeechRequest decodeBase64 fetchURL c = inl m ->
  ResponseCompleters (cd_reversedFilters m) = [].
Proof.
  intros Hnew. pose proof (new_spec (X := X) url_Parse BuildSpeechRequest decodeBase64 fetchURL c) as Hn.
  rewrite Hnew in Hn. apply Hn.
Qed.

Lemma completion_reached input ending w s :
  Cluster_NewWithConfigs url_Parse BuildSpeechRequest decodeBase64 fetchURL c = inl m ->
  Forall keeps_usage cbs -> (forall w, tokens (crash w) = tokens w) ->
  rtc step (starts (from input ending) w) s ->
  completion_ok s /\ rtc (pipe_alone Marshal write_ok cbs crash) (pipe_starts (from input ending) w) (co_piping s) /\
  inevitable step settled s.
Proof.
  intros Hnew%built_completes_nothing Hkeep Hcrash Hrun.
  destruct (completion_steps_ok Marshal write_ok cbs crash m Hkeep Hcrash Hnew _ _
              (starts_ok input ending w) Hrun) as [Hok Hp].
  split_and!; [done|exact Hp|by apply completion_settles].
Qed.

Lemma handleChunk_gone chunk out :
  (forall out s, write_ok out s = false) -> chunk_data Marshal chunk <> "" ->
  handleChunk Marshal write_ok chunk out = (out, false).
Proof.
  intros Hgone Hd. unfold handleChunk, MarshalTo.
  assert (MarshalTo_writes (ToServerSentEvent Marshal chunk) <> []) as Hw.
  { unfold MarshalTo_writes, ToServerSentEvent. cbn [ev_Data ev_Comment].
    destruct (String.eqb_spec (chunk_data Marshal chunk) ""); [done|]. cbn [andb]. intros [_ Hnil]%app_eq_nil.
    by apply app_eq_nil in Hnil as [_ ?]. }
  destruct (MarshalTo_writes _) as [|s l]; [done|]. cbn [writeAll]. by rewrite Hgone.
Qed.

(** C16: whenever the three goroutines of a streamed answer run, the pipe does what
    it does alone: the goroutine that writes the usage when the stream has
    ended races with everything that reads the metadata, but writes what is
    there already.  Once the pipe is over, the client has what
    [pipeCompletionsStream] sends, and the metadata are those it leaves. *)
Theorem completion_invisible input ending (w : World X) (s : completion X)
    (Hnew : Cluster_NewWithConfigs url_Parse BuildSpeechRequest decodeBase64 fetchURL c = inl m)
    (Hkeep : Forall keeps_usage cbs) (Hcrash : forall w, tokens (crash w) = tokens w)
    (Hrun : rtc step (starts (from input ending) w) s) :
  let p := co_piping s in
  rtc (pipe_alone Marshal write_ok cbs crash) (pipe_starts (from input ending) w) p /\
  match pp_at p with
  | Piped => pipeCompletionsStream Marshal write_ok cbs (from input ending) w
             = Ret (pp_world p, Some (pp_stream p, pp_out p))
  | Crashed msg => pipeCompletionsStream Marshal write_ok cbs (from input ending) w = Panic msg
  | _ => True
  end.
Proof.
  intros p. destruct (completion_reached input ending w s Hnew Hkeep Hcrash Hrun) as (_ & Hp & _).
  split; [exact Hp|by apply (pipe_alone_result _ _ _ crash)].
Qed.

(** C17: every run of the three comes to an end: the pipe is over, and, when the
    stream's end was read, the completion has run to its end without an error;
    it never runs before that, never fails, and what it finds as the stream's
    usage the metadata already have. *)
Theorem completion_ends input ending (w : World X) (s : completion X)
    (Hnew : Cluster_NewWithConfigs url_Parse BuildSpeechRequest decodeBase64 fetchURL c = inl m)
    (Hkeep : Forall keeps_usage cbs) (Hcrash : forall w, tokens (crash w) = tokens w)
    (Hrun : rtc step (starts (from input ending) w) s) :
  inevitable step settled s /\
  co_waiter s <> Killed /\
  (co_waiter s <> Blocked ->
   sr_cancelled (pp_stream (co_piping s)) = true /\
   forall u, sr_Usage (pp_stream (co_piping s)) = Some u -> tokens (pp_world (co_piping s)) = Some (ChatUsage u)).
Proof.
  destruct (completion_reached input ending w s Hnew Hkeep Hcrash Hrun) as (Hok & _ & Hend).
  split; [done|]. destruct Hok as [Hp Hc Hw _ Hal _]. split; [done|].
  intros Hb%Hw%Hc. split; [done|]. by apply pipe_ok_world.
Qed.

(** A client that goes away before the end of its stream leaves two goroutines
    behind for ever: when the first event cannot be written the pipe stops
    reading, the signal that the stream has ended is never given, and neither
    the completion nor the goroutine of [WaitUntilEOF] can go on. *)
Theorem client_gone_leaks b body rest ending (w : World X)
    (Hnew : Cluster_NewWithConfigs url_Parse BuildSpeechRequest decodeBase64 fetchURL c = inl m)
    (Hquiet : Forall quiet_callback cbs) (Hcrash : forall w, tokens (crash w) = tokens w)
    (Hkeep : Forall keeps_usage cbs)
    (Hbody : good_body b body) (Htext : Marshal (JObj body) <> "") (Hgone : forall out s, write_ok out s = false) :
  inevitable step
    (fun s => pp_at (co_piping s) = Piped /\ co_waiter s = Blocked /\ co_closed s = false /\
              forall s', ~ step s s')
    (starts (from (headerData +:+ b +:+ nl +:+ rest) ending) w).
Proof.
  set (r0 := from _ ending).
  eapply inevitable_weaken; [by apply (completion_reached (headerData +:+ b +:+ nl +:+ rest) ending w)|].
  intros s Hrun Hs. destruct (completion_reached _ ending w s Hnew Hkeep Hcrash Hrun) as (_ & Hp & _).
  apply pipe_alone_result in Hp. fold r0 in Hp.
  unfold pipeCompletionsStream in Hp.
  destruct (NextChunk_data Marshal r0 b body rest Hbody eq_refl eq_refl)
    as (r1 & c1 & Hn1 & He1 & _ & Hemp & Hdata & _).
  assert (sr_cancelled r0 = true -> sr_hasErrorPrefix r0 = true) as Hfresh by (by unfold r0).
  destruct (NextChunk_usage r0 r1 (Some c1) None Hfresh Hn1) as (Hsig & _).
  destruct (pipe_step Marshal write_ok cbs (String.length (sr_input r0))
              r0 r1 c1 "" w Hquiet Hn1) as [x Ex].
  rewrite Ex, Hemp in Hp.
  rewrite handleChunk_gone in Hp by (done || congruence). destruct Hs as (Ho & Hcl & Hw).
  destruct s as [[a r out w'] closed wt]. cbn in *. destruct a; try done. injection Hp as _ <- _.
  destruct (sr_cancelled r1) eqn:Hcan; [rewrite Hsig in He1 by done; done|].
  split_and!; try done. intros s'. apply settled_stuck. split; [done|]. split; cbn; by rewrite Hcan.
Qed.
End Completed.

(** The callbacks of a route with a usage filter are of that kind. *)
Lemma usage_filter_keeps {X} service : keeps_usage (X := X) (streamCallback [UsageFilter service]).
Proof.
  intros r [chunk|] w w' E.
  - pose proof (usage_callback_idle service r chunk w) as Hidle. cbn [runCallbacks] in Hidle.
    unfold mbind, Eff_bind in Hidle. rewrite E in Hidle. by injection Hidle as ->.
  - unfold streamCallback, OnCompletionStreamResponseFilters, TypeAssertFrom in E. cbn in E. done.
Qed.

(** ** Examples *)
#[local] Existing Instance rfc6902.

(** A stream that reports five tokens; the path library gives the text of the
    usage. *)
Definition ex_usage_text : string := "{" +:+ quote +:+ "completion_tokens" +:+ quote +:+ ":5}".
Definition ex_usage : gmap string json := {[ "completion_tokens" := JNat 5 ]}.
Definition ex_used_body : string := "{" +:+ quote +:+ "usage" +:+ quote +:+ ":" +:+ ex_usage_text +:+ "}".
Definition ex_used : gmap string json := {[ "usage" := JObj ex_usage ]}.
#[local] Instance ex_used_text : JSONText := fun s =>
  if String.eqb s ex_used_body then Some (JObj ex_used)
  else if String.eqb s ex_usage_text then Some (JObj ex_usage) else None.
#[local] Instance ex_used_path : JSONPath := fun _ template =>
  inl (if String.eqb template "{ .usage }" then ex_usage_text else "").

Definition ex_called : clusterDefault unit :=
  match Cluster_NewWithConfigs ex_parse ex_speech ex_picture ex_picture ex_cluster with
  | inl m => m
  | inr _ => mkClusterDefault ex_cluster [] []
  end.
Definition ex_filter : Callback := streamCallback [UsageFilter (fun _ (w : World unit) => Ret (w, None))].
Definition ex_used_stream : StreamResponse := NewChatCompletionStreamResponse (upstream_text [ex_used_body] "") EEOF.
Definition ex_start : completion unit := starts ex_used_stream ex_world.
Definition ex_completion (l : list agent) : option (completion unit) :=
  schedule ex_Marshal (fun _ _ => true) [ex_filter] id ex_called l ex_start.

(** The completion runs after the end mark is read and before the callbacks for
    it are called. *)
Definition ex_early : list agent :=
  [Pipe; Pipe; Pipe; Pipe; Pipe; Pipe; Pipe; Pipe; Notifier; Waiter; Waiter; Waiter; Waiter; Pipe; Pipe].
Definition ex_late : completion unit := default ex_start (ex_completion ex_early).

Example ex_early_notes :
  (pp_at (co_piping ex_late), pp_out (co_piping ex_late), co_waiter ex_late)
  = (Piped, frame ex_body1 +:+ frame "[DONE]", Completed None) /\
  LLMUpstreamTokensUsage (w_meta (pp_world (co_piping ex_late))) = Some (ChatUsage (mkChatUsage 0 5 0)).
Proof. vm_compute. done. Qed.

Lemma completion_invisible_witness :
  let p := co_piping ex_late in
  rtc (pipe_alone ex_Marshal (fun _ _ => true) [ex_filter] id) (pipe_starts ex_used_stream ex_world) p /\
  match pp_at p with
  | Piped => pipeCompletionsStream ex_Marshal (fun _ _ => true) [ex_filter] ex_used_stream ex_world
             = Ret (pp_world p, Some (pp_stream p, pp_out p))
  | Crashed msg => pipeCompletionsStream ex_Marshal (fun _ _ => true) [ex_filter] ex_used_stream ex_world = Panic msg
  | _ => True
  end.
Proof.
  apply (completion_invisible ex_parse ex_speech ex_picture ex_picture ex_Marshal (fun _ _ => true) [ex_filter] id
           ex_cluster ex_called).
  - reflexivity.
  - repeat constructor. apply usage_filter_keeps.
  - reflexivity.
  - apply (schedule_steps _ _ _ _ _ ex_early). vm_compute. reflexivity.
Defined.

Lemma completion_ends_witness :
  inevitable (completion_step ex_Marshal (fun _ _ => true) [ex_filter] id ex_called) settled ex_late /\
  co_waiter ex_late <> Killed /\
  (co_waiter ex_late <> Blocked ->
   sr_cancelled (pp_stream (co_piping ex_late)) = true /\
   forall u, sr_Usage (pp_stream (co_piping ex_late)) = Some u ->
     LLMUpstreamTokensUsage (w_meta (pp_world (co_piping ex_late))) = Some (ChatUsage u)).
Proof.
  apply (completion_ends ex_parse ex_speech ex_picture ex_picture ex_Marshal (fun _ _ => true) [ex_filter] id
           ex_cluster ex_called (upstream_text [ex_used_body] "") EEOF ex_world).
  - reflexivity.
  - repeat constructor. apply usage_filter_keeps.
  - reflexivity.
  - apply (schedule_steps _ _ _ _ _ ex_early). vm_compute. reflexivity.
Defined.

Lemma client_gone_leaks_witness :
  let step := @completion_step dotted_paths ex_Unmarshal unit ex_Marshal (fun _ _ => false) [] id (ex_built ex_cluster []) in
  inevitable step
    (fun s => pp_at (co_piping s) = Piped /\ co_waiter s = Blocked /\ co_closed s = false /\ forall s', ~ step s s')
    (starts (NewChatCompletionStreamResponse (headerData +:+ ex_body1 +:+ nl +:+ "") EEOF) ex_world).
Proof.
  apply (@client_gone_leaks rfc6902 dotted_paths ex_Unmarshal unit ex_parse ex_speech ex_picture ex_picture ex_Marshal
           (fun _ _ => false) [] id ex_cluster (ex_built ex_cluster []) ex_body1 ex_obj1 "" EEOF ex_world);
    try reflexivity; try constructor; try discriminate; vm_compute; try discriminate; reflexivity.
Defined.
