(* ===== verification/Speech.v ===== *)
(** * pkg/types: the speech providers

    The requests that the packages of the text-to-speech providers build from
    a client's speech request: [BuildSpeechRequest] of openai/speech_v1.go,
    deepgram, elevenlabs, koemotion, volcengine, microsoft and alibaba. *)
From stdpp Require Import sorting.
From Stdlib Require Import SpecFloat.
From S2P Require Import Prelude Strconv Utils GoFloat Json Api Errors Request Response Effects Stream Filters ClusterFilters Cluster.

(** ** strings.TrimSpace

    The encodings of Unicode's white space. *)
Definition bytes (l : list nat) : string := foldr (fun n s => String (Ascii.ascii_of_nat n) s) "" l.
Definition spaces : list string :=
  map (fun n => bytes [n]) [9; 10; 11; 12; 13; 32]%nat ++ map bytes [[194; 133]; [194; 160]; [225; 154; 128]]%nat
  ++ map (fun n => bytes [226; 128; n]%nat) (seq 128 11) ++ map bytes [[226; 128; 168]; [226; 128; 169]; [226; 128; 175]; [226; 129; 159]; [227; 128; 128]]%nat.

Definition reverse_string (s : string) : string := string_of_list_ascii (rev (list_ascii_of_string s)).

Fixpoint trimLeft (cut : list string) (fuel : nat) (s : string) : string :=
  match fuel with
  | O => s
  | S fuel =>
      match List.find (HasPrefix s) cut with
      | Some p => trimLeft cut fuel (TrimPrefix s p)
      | None => s
      end
  end.

Definition TrimSpace (s : string) : string :=
  let s := trimLeft spaces (String.length s) s in
  reverse_string (trimLeft (map reverse_string spaces) (String.length s) (reverse_string s)).

(** ** What the providers use

    net/url: a parsed URL, its query and its text; [Values] maps a key to its
    values. *)
Class NetURL : Type := {
  url_URL : Type;
  url_parse : string -> url_URL + string;
  url_String : url_URL -> string;
  url_Hostname : url_URL -> string;
  url_Query : url_URL -> gmap string (list string);
  url_SetRawQuery : string -> url_URL -> url_URL;
  url_JoinPath : string -> url_URL -> url_URL;
  Values_Encode : gmap string (list string) -> string }.

(** [url.Parse], by what the URL prints as. *)
Definition url_Parse `{NetURL} (s : string) : string + string :=
  match url_parse s with inl u => inl (url_String u) | inr e => inr e end.

(** [strings.TrimPrefix(authHeader, "Bearer ")] *)
Definition bearerToken (authHeader : string) : string := TrimPrefix authHeader "Bearer ".

Definition speech (req : LLMRequest) : SpeechFields := FromPtrOr (req_speech req) (mkSpeech "" "" None None None).
Definition GetInput (req : LLMRequest) : string := sp_Input (speech req).
Definition GetVoice (req : LLMRequest) : string := sp_Voice (speech req).
Definition GetResponseFormat (req : LLMRequest) : option string := sp_ResponseFormat (speech req).
Definition GetExtraBody (req : LLMRequest) : option (gmap string json) := sp_ExtraBody (speech req).
(** Ranging over a nil map visits nothing. *)
Definition GetBodyParsed (req : LLMRequest) : gmap string json := FromPtrOr (req_parsed req) ∅.

(** [*req.GetResponseFormat()] *)
Definition deref {A} (p : option A) : outcome A := match p with Some a => Ret a | None => Panic nil_deref end.

Section Providers.
Context `{NetURL} `{JSONPath} `{JSONText} `{FloatText}.

(** [http.NewRequestWithContext(ctx, http.MethodPost, url, body)] with the
    headers set afterwards. *)
Definition NewRequest (url : string) (headers : list (string * string)) (body : Payload) : HTTPRequest + gerror :=
  match url_parse url with
  | inr e => inr (EPlain e)
  | inl u => inl (mkHTTPRequest "POST" (url_String u) (setHeaders headers ∅) body)
  end.

Definition orDefault (s default : string) : string := if String.eqb s "" then default else s.

(** ** openai/speech_v1.go *)
Definition defaultOpenAISpeechURL : string := "https://api.openai.com/v1/audio/speech".

Definition OpenAI_BuildSpeechRequest (baseURL authHeader : string) (req : LLMRequest) : HTTPRequest + gerror :=
  let payload := match req_body req with
                 | Some buffer => buffer
                 | None => match req_parsed req with Some m => JObj m | None => JNull end
                 end in
  NewRequest (orDefault baseURL defaultOpenAISpeechURL)
    [("Authorization", authHeader); ("Content-Type", "application/json")] (BodyJSON payload).

(** ** deepgram/websocketv1/speech.go *)
Definition defaultDeepgramSpeechURL : string := "https://api.deepgram.com/v1/speak".

Definition Deepgram_BuildSpeechRequest (baseURL authHeader : string) (req : LLMRequest) : HTTPRequest + gerror :=
  match url_parse (orDefault baseURL defaultDeepgramSpeechURL) with
  | inr e => inr (EPlain e)
  | inl u =>
      let q := url_Query u in
      let q := if String.eqb (GetVoice req) "" then q else <["model" := [GetVoice req]]> q in
      let u := url_SetRawQuery (Values_Encode q) u in
      let auth := if HasPrefix authHeader "Bearer " then "Token " +:+ TrimPrefix authHeader "Bearer " else authHeader in
      NewRequest (url_String u)
        [("Authorization", auth); ("Content-Type", "application/json"); ("Accept", "audio/*")]
        (BodyJSON (JObj {[ "text" := JStr (GetInput req) ]}))
  end.

(** ** elevenlabs/v1/speech.go *)
Definition defaultElevenLabsSpeechURL : string := "https://api.elevenlabs.io/v1/text-to-speech".

(** The body without the OpenAI fields. *)
Definition withoutOpenAIFields (payload : gmap string json) : gmap string json :=
  delete "input" (delete "voice" (delete "model" payload)).

(** The extra body goes over the payload. *)
Definition withExtraBody (extra : option (gmap string json)) (payload : gmap string json) : gmap string json :=
  FromPtrOr extra ∅ ∪ payload.

Definition ElevenLabs_BuildSpeechRequest (baseURL authHeader : string) (req : LLMRequest) : HTTPRequest + gerror :=
  let baseURL := orDefault baseURL defaultElevenLabsSpeechURL in
  let reqURL := match url_parse baseURL with
                | inl parsed => url_String (url_JoinPath (GetVoice req) parsed)
                | inr _ => baseURL
                end in
  let payload := withoutOpenAIFields (GetBodyParsed req) in
  let payload := <["model_id" := JStr (GetModel req)]> (<["text" := JStr (GetInput req)]> payload) in
  NewRequest reqURL [("Xi-Api-Key", bearerToken authHeader); ("Content-Type", "application/json")]
    (BodyJSON (JObj (withExtraBody (GetExtraBody req) payload))).

(** ** koemotion/v1/speech.go *)
Definition defaultKoemotionSpeechURL : string := "https://api.rinna.co.jp/koemotion/infer".

Definition Koemotion_BuildSpeechRequest (baseURL authHeader : string) (req : LLMRequest) : HTTPRequest + gerror :=
  let payload := <["text" := JStr (GetInput req)]> (withoutOpenAIFields (GetBodyParsed req)) in
  NewRequest (orDefault baseURL defaultKoemotionSpeechURL)
    [("Ocp-Apim-Subscription-Key", bearerToken authHeader); ("Content-Type", "application/json")]
    (BodyJSON (JObj (withExtraBody (GetExtraBody req) payload))).

(** ** volcengine/seedspeechv1/speech.go *)
Definition defaultVolcengineSpeechURL : string := "https://openspeech.bytedance.com/api/v1/tts".

(** The members of a struct that encoding/json writes: one tagged [omitempty]
    is left out when it is a nil pointer. *)
Definition member (k : string) (v : json) (m : gmap string json) : gmap string json := <[k := v]> m.
Definition omitempty {A} (k : string) (marshal : A -> json) (v : option A) (m : gmap string json) : gmap string json :=
  match v with Some a => <[k := marshal a]> m | None => m end.

Record speechRequestOptionsApp : Type := mkSpeechApp { app_AppID : string; app_Token : string; app_Cluster : string }.

Record speechRequestOptionsAudio : Type := mkSpeechAudio {
  au_VoiceType : string;
  au_Emotion : option string;
  au_EnableEmotion : option bool;
  au_EmotionScale : option f64;
  au_Encoding : option string;
  au_SpeedRatio : option f64;
  au_Rate : option Z;
  au_BitRate : option Z;
  au_ExplicitLanguage : option string;
  au_ContextLanguage : option string;
  au_LoudnessRatio : option f64 }.

Record speechRequestOptionsRequest : Type := mkSpeechRequest {
  srq_RequestID : string;
  srq_Text : string;
  srq_TextType : option string;
  srq_SilenceDuration : option f64;
  srq_WithTimestamp : option string;
  srq_Operation : option string;
  srq_ExtraParam : option string;
  srq_DisableMarkdownFilter : option bool;
  srq_EnableLatexTone : option bool;
  srq_CacheConfig : option (gmap string json);
  srq_UseCache : option bool }.

Record speechRequestOptions : Type := mkSpeechOptions {
  so_App : speechRequestOptionsApp;
  so_UserID : string;
  so_Audio : speechRequestOptionsAudio;
  so_Request : speechRequestOptionsRequest }.

Definition marshalApp (a : speechRequestOptionsApp) : json :=
  JObj (member "appid" (JStr (app_AppID a)) (member "token" (JStr (app_Token a)) {[ "cluster" := JStr (app_Cluster a) ]})).

Definition marshalAudio (a : speechRequestOptionsAudio) : json :=
  JObj (member "voice_type" (JStr (au_VoiceType a))
       (omitempty "emotion" JStr (au_Emotion a)
       (omitempty "enable_emotion" JBool (au_EnableEmotion a)
       (omitempty "emotion_scale" JNum (au_EmotionScale a)
       (omitempty "encoding" JStr (au_Encoding a)
       (omitempty "speed_ratio" JNum (au_SpeedRatio a)
       (omitempty "rate" JNat (au_Rate a)
       (omitempty "bit_rate" JNat (au_BitRate a)
       (omitempty "explicit_language" JStr (au_ExplicitLanguage a)
       (omitempty "context_language" JStr (au_ContextLanguage a)
       (omitempty "loudness_ratio" JNum (au_LoudnessRatio a) ∅))))))))))).

(** A map is empty when it has no entry. *)
Definition nonEmpty (m : option (gmap string json)) : option (gmap string json) :=
  match m with Some m => if decide (m = ∅) then None else Some m | None => None end.

Definition marshalRequest (r : speechRequestOptionsRequest) : json :=
  JObj (member "reqid" (JStr (srq_RequestID r))
       (member "text" (JStr (srq_Text r))
       (omitempty "text_type" JStr (srq_TextType r)
       (omitempty "silence_duration" JNum (srq_SilenceDuration r)
       (omitempty "with_timestamp" JStr (srq_WithTimestamp r)
       (omitempty "operation" JStr (srq_Operation r)
       (omitempty "extra_param" JStr (srq_ExtraParam r)
       (omitempty "disable_markdown_filter" JBool (srq_DisableMarkdownFilter r)
       (omitempty "enable_latex_tn" JBool (srq_EnableLatexTone r)
       (omitempty "cache_config" JObj (nonEmpty (srq_CacheConfig r))
       (omitempty "use_cache" JBool (srq_UseCache r) ∅))))))))))).

(** [json.Marshal] refuses the floats that are not numbers, the first one in
    the order of the fields. *)
Definition unsupportedFloat (f : option f64) : option string :=
  match f with
  | Some S754_nan => Some "NaN"
  | Some (S754_infinity s) => Some (if s then "-Inf" else "+Inf")
  | _ => None
  end.
Fixpoint firstUnsupported (l : list (option f64)) : option string :=
  match l with
  | [] => None
  | f :: l => match unsupportedFloat f with Some s => Some s | None => firstUnsupported l end
  end.

Definition marshalOptions (o : speechRequestOptions) : json + gerror :=
  let a := so_Audio o in
  match firstUnsupported [au_EmotionScale a; au_SpeedRatio a; au_LoudnessRatio a; srq_SilenceDuration (so_Request o)] with
  | Some text => inr (EPlain ("json: unsupported value: " +:+ text))
  | None => inl (JObj (member "app" (marshalApp (so_App o))
                      (member "user" (JObj {[ "uid" := JStr (so_UserID o) ]})
                      (member "audio" (marshalAudio a) {[ "request" := marshalRequest (so_Request o) ]}))))
  end.

(** The two identifiers that [uuid.New] draws. *)
Variable userUUID requestUUID : string.

Definition f64_one : f64 := f64_of_int 1.

Definition volcengineOptions (token encoding : string) (req : LLMRequest) : speechRequestOptions :=
  let extra := GetExtraBody req in
  let str := GetByJSONPath_string_ptr extra in
  let float := GetByJSONPath_float_ptr extra in
  let bool := GetByJSONPath_bool_ptr extra in
  let operation := match str "{ .request.operation }" with
                   | None => Some "query"
                   | Some s => if String.eqb s "" then Some "query" else Some s
                   end in
  let speedRatio := match float "{ .audio.speed_ratio }" with
                    | None => Some f64_one
                    | Some f => if f64_eqb f (S754_zero false) then Some f64_one else Some f
                    end in
  mkSpeechOptions
    (mkSpeechApp (GetByJSONPath_string extra "{ .app.appid }") token
       (orDefault (GetByJSONPath_string extra "{ .app.cluster }") "volcano_tts"))
    (orDefault (GetByJSONPath_string extra "{ .user.uid }") userUUID)
    (mkSpeechAudio (GetVoice req) (str "{ .audio.emotion }") (bool "{ .audio.enable_emotion }")
       (float "{ .audio.emotion_scale }") (Some encoding) speedRatio
       (GetByJSONPath_int_ptr extra "{ .audio.rate }") (GetByJSONPath_int_ptr extra "{ .audio.bit_rate }")
       (str "{ .audio.explicit_language }") (str "{ .audio.context_language }") (float "{ .audio.loudness_ratio }"))
    (mkSpeechRequest (orDefault (GetByJSONPath_string extra "{ .request.reqid }") requestUUID) (GetInput req)
       (str "{ .request.text_type }") (float "{ .request.silence_duration }") (str "{ .request.with_timestamp }")
       operation (str "{ .request.extra_param }") (bool "{ .request.disable_markdown_filter }")
       (bool "{ .request.enable_latex_tn }") (GetByJSONPath_map extra "{ .request.cache_config }")
       (bool "{ .request.use_cache }")).

(** [lo.Ternary] is a function: both of its branches are evaluated. *)
Definition volcengineEncoding (format : option string) : outcome string :=
  named ← deref format;
  Ret (if (match format with Some f => negb (String.eqb f "") | None => false end) then named else "mp3").

Definition Volcengine_BuildSpeechRequest (baseURL authHeader : string) (req : LLMRequest) : outcome (HTTPRequest + gerror) :=
  let token := bearerToken authHeader in
  encoding ← volcengineEncoding (GetResponseFormat req);
  match marshalOptions (volcengineOptions token encoding req) with
  | inr e => Ret (inr e)
  | inl body =>
      Ret (NewRequest (orDefault baseURL defaultVolcengineSpeechURL) [("Authorization", "Bearer;" +:+ token)] (BodyJSON body))
  end.

(** ** microsoft/speechservicev1/speech.go *)
Definition defaultMicrosoftRegion : string := "eastasia".

Record voice : Type := mkVoice { vo_Lang : string; vo_Gender : string; vo_Name : string; vo_Text : string }.
Record ssml : Type := mkSSML { ss_Version : string; ss_Lang : string; ss_Voice : voice; ss_TextOnly : string }.

Record extraBody : Type := mkExtra {
  eb_DisableSSML : option bool;
  eb_Region : string;
  eb_DeploymentID : option string;
  eb_Lang : option string;
  eb_Gender : option string;
  eb_SampleRate : option Z }.
Definition noExtra : extraBody := mkExtra None "" None None None None.

(** encoding/json matches the name of a member with that of a field without
    regard to case: ASCII letters, and the two other runes that fold to one,
    U+017F to s and U+212A to k. *)
Fixpoint foldName (s : string) : string :=
  match s with
  | EmptyString => EmptyString
  | String a s' =>
      match s' with
      | String b s'' =>
          if Ascii.eqb a (Ascii.ascii_of_nat 197) && Ascii.eqb b (Ascii.ascii_of_nat 191) then String "s" (foldName s'')
          else match s'' with
               | String c s''' =>
                   if Ascii.eqb a (Ascii.ascii_of_nat 226) && Ascii.eqb b (Ascii.ascii_of_nat 132)
                      && Ascii.eqb c (Ascii.ascii_of_nat 170)
                   then String "k" (foldName s''') else String (lower_ascii a) (foldName s')
               | EmptyString => String (lower_ascii a) (foldName s')
               end
      | EmptyString => String (lower_ascii a) (foldName s')
      end
  end.

(** The type error of a member; its text is not looked at. *)
Definition typeError (field : string) : gerror :=
  EPlain ("json: cannot unmarshal value into Go struct field extraBody." +:+ field).

(** An [mo.Option] of a Go type: null is none. *)
Definition optionField {A} (read : json -> option A) (v : json) : option (option A) :=
  match v with JNull => Some None | _ => Some <$> read v end.

Definition readBool (v : json) : option bool := match v with JBool b => Some b | _ => None end.
Definition readString (v : json) : option string := match v with JStr s => Some s | _ => None end.

(** A number is read from the decimal text of its float64; it fits a uint when
    it is integral, not negative (nor -0) and below 2^64.  From 2^53 on the
    text has the shortest digits that denote the float64, which may differ
    from the value given here; no output format has such a rate. *)
Definition readUint (v : json) : option Z :=
  match v with
  | JNum (S754_zero false) => Some 0
  | JNum (S754_finite false m e) =>
      let z := if 0 <=? e then Zpos m * 2 ^ e else Zpos m / 2 ^ (- e) in
      if (if 0 <=? e then true else Zpos m mod 2 ^ (- e) =? 0) && (z <? 18446744073709551616) then Some z else None
  | _ => None
  end.

Definition setField (b : extraBody) (k : string) (v : json) : extraBody + gerror :=
  let name := foldName k in
  let fail {A} (r : option A) (f : A -> extraBody) : extraBody + gerror :=
    match r with Some a => inl (f a) | None => inr (typeError name) end in
  if String.eqb name "disable_ssml" then
    fail (optionField readBool v) (fun x => mkExtra x (eb_Region b) (eb_DeploymentID b) (eb_Lang b) (eb_Gender b) (eb_SampleRate b))
  else if String.eqb name "region" then
    match v with
    | JNull => inl b
    | _ => fail (readString v) (fun x => mkExtra (eb_DisableSSML b) x (eb_DeploymentID b) (eb_Lang b) (eb_Gender b) (eb_SampleRate b))
    end
  else if String.eqb name "deployment_id" then
    fail (optionField readString v) (fun x => mkExtra (eb_DisableSSML b) (eb_Region b) x (eb_Lang b) (eb_Gender b) (eb_SampleRate b))
  else if String.eqb name "lang" then
    fail (optionField readString v) (fun x => mkExtra (eb_DisableSSML b) (eb_Region b) (eb_DeploymentID b) x (eb_Gender b) (eb_SampleRate b))
  else if String.eqb name "gender" then
    fail (optionField readString v) (fun x => mkExtra (eb_DisableSSML b) (eb_Region b) (eb_DeploymentID b) (eb_Lang b) x (eb_SampleRate b))
  else if String.eqb name "sample_rate" then
    fail (optionField readUint v) (fun x => mkExtra (eb_DisableSSML b) (eb_Region b) (eb_DeploymentID b) (eb_Lang b) (eb_Gender b) x)
  else inl b.

(** [json.Marshal] writes the members in the order of their names, so that of
    several names for one field the greatest is read last. *)
Definition member_le (a b : string * json) : Prop := String.leb (fst a) (fst b) = true.
#[local] Instance member_le_dec a b : Decision (member_le a b).
Proof. unfold member_le. apply _. Defined.

Fixpoint setFields (b : extraBody) (l : list (string * json)) : extraBody + gerror :=
  match l with
  | [] => inl b
  | (k, v) :: l => match setField b k v with inl b => setFields b l | inr e => inr e end
  end.

Definition decodeExtra (m : gmap string json) : extraBody + gerror :=
  setFields noExtra (merge_sort member_le (map_to_list m)).

Definition supportedOutputFormats (format : string) : option (list (Z * list string)) :=
  if String.eqb format "mp3" then Some
    [(16000, ["audio-16khz-32kbitrate-mono-mp3"; "audio-16khz-64kbitrate-mono-mp3"; "audio-16khz-128kbitrate-mono-mp3"]);
     (24000, ["audio-24khz-48kbitrate-mono-mp3"; "audio-24khz-96kbitrate-mono-mp3"; "audio-24khz-160kbitrate-mono-mp3"]);
     (48000, ["audio-48khz-96kbitrate-mono-mp3"; "audio-48khz-192kbitrate-mono-mp3"])]
  else if String.eqb format "opus" then Some
    [(16000, ["audio-16khz-16bit-32kbps-mono-opus"; "ogg-16khz-16bit-mono-opus"; "webm-16khz-16bit-mono-opus"]);
     (24000, ["audio-24khz-16bit-24kbps-mono-opus"; "audio-24khz-16bit-48kbps-mono-opus"; "ogg-24khz-16bit-mono-opus";
              "webm-24khz-16bit-24kbps-mono-opus"; "webm-24khz-16bit-mono-opus"]);
     (48000, ["ogg-48khz-16bit-mono-opus"])]
  else if String.eqb format "wav" then Some
    [(8000, ["raw-8khz-16bit-mono-pcm"; "raw-8khz-8bit-mono-alaw"; "raw-8khz-8bit-mono-mulaw"]);
     (16000, ["raw-16khz-16bit-mono-pcm"; "raw-16khz-16bit-mono-truesilk"]);
     (22050, ["raw-22050hz-16bit-mono-pcm"]);
     (24000, ["raw-24khz-16bit-mono-pcm"; "raw-24khz-16bit-mono-truesilk"]);
     (44100, ["raw-44100hz-16bit-mono-pcm"]);
     (48000, ["raw-48khz-16bit-mono-pcm"])]
  else None.

Definition getOutputFormat (format : string) (sampleRate : Z) : option string :=
  formats ← supportedOutputFormats format;
  found ← snd <$> List.find (fun r => fst r =? sampleRate) formats;
  head found.

Definition newline : string := String (Ascii.ascii_of_nat 10) "".

Definition formatAsSSML (text lang gender voiceName : string) : string :=
  "<speak version='1.0' xml:lang='" +:+ lang +:+ "'>" +:+ newline +:+
  "  <voice xml:lang='" +:+ lang +:+ "' xml:gender='" +:+ gender +:+ "' name='" +:+ voiceName +:+ "'>" +:+ newline +:+
  "    " +:+ text +:+ newline +:+ "  </voice>" +:+ newline +:+ "</speak>".

(** [xml.Unmarshal] into an [ssml]. *)
Variable xml_Unmarshal : string -> option ssml.

Definition processSSML (input : string) (req : LLMRequest) (extra : option extraBody) : string :=
  let e := FromPtrOr extra noExtra in
  if FromPtrOr (eb_DisableSSML e) false then input else
  let defaultLang := FromPtrOr (eb_Lang e) "en-US" in
  let defaultGender := FromPtrOr (eb_Gender e) "Male" in
  let defaultVoiceName := orDefault (GetVoice req) "en-US-ChristopherNeural" in
  let plain := formatAsSSML input defaultLang defaultGender defaultVoiceName in
  if negb (Contains input "<speak") then plain else
  match xml_Unmarshal input with
  | None => plain
  | Some s =>
      let text := vo_Text (ss_Voice s) in
      let text := if String.eqb (TrimSpace text) "" then TrimSpace (ss_TextOnly s) else text in
      if String.eqb (TrimSpace text) "" then input
      else formatAsSSML text (orDefault (ss_Lang s) defaultLang) (orDefault (vo_Gender (ss_Voice s)) defaultGender)
             (orDefault (vo_Name (ss_Voice s)) defaultVoiceName)
  end.

(** The client's header, then the cluster's. *)
Definition preferredHeader (upstreamHeaders : Header) (downstreamHeaders : option Header) (k : string) : string :=
  orDefault (match downstreamHeaders with Some h => Header_Get h k | None => "" end) (Header_Get upstreamHeaders k).

Definition defaultMicrosoftFormat : string := "audio-48khz-192kbitrate-mono-mp3".

Definition microsoftFormat (req : LLMRequest) (extra : option extraBody) (up : Header) (down : option Header)
    : string + gerror :=
  let format := preferredHeader up down "X-Microsoft-Outputformat" in
  if negb (String.eqb format "") then inl format else
  match GetResponseFormat req with
  | None => inl defaultMicrosoftFormat
  | Some f =>
      if String.eqb f "" then inl defaultMicrosoftFormat else
      let format := FromPtrOr (getOutputFormat f (FromPtrOr (eb_SampleRate (FromPtrOr extra noExtra)) 48000)) "" in
      if String.eqb format ""
      then inr (EOpenAI (WithMessage NewErrorBadRequest "unsupported output format for microsoft speech service"))
      else inl format
  end.

(** The URL, with the deployment in its query. *)
Definition microsoftURL (baseURL : string) (extra : option extraBody) : string :=
  let e := FromPtrOr extra noExtra in
  let reqURL := orDefault baseURL
    ("https://" +:+ orDefault (eb_Region e) defaultMicrosoftRegion +:+ ".tts.speech.microsoft.com/cognitiveservices/v1") in
  match eb_DeploymentID e with
  | Some id => reqURL +:+ "?" +:+ Values_Encode {[ "deploymentId" := [id] ]}
  | None => reqURL
  end.

Definition readExtra (m : option (gmap string json)) : option extraBody + gerror :=
  match m with
  | None => inl None
  | Some m => match decodeExtra m with inl b => inl (Some b) | inr e => inr e end
  end.

Definition Microsoft_BuildSpeechRequest (baseURL authHeader : string) (req : LLMRequest)
    (upstreamHeaders : Header) (downstreamHeaders : option Header) : HTTPRequest + gerror :=
  match readExtra (GetExtraBody req) with
  | inr e => inr e
  | inl extra =>
      let formattedText := processSSML (GetInput req) req extra in
      match NewRequest (microsoftURL baseURL extra) [] (BodyText formattedText) with
      | inr e => inr e
      | inl httpReq =>
          match microsoftFormat req extra upstreamHeaders downstreamHeaders with
          | inr e => inr e
          | inl format =>
              let key := orDefault (preferredHeader upstreamHeaders downstreamHeaders "Ocp-Apim-Subscription-Key")
                           (bearerToken authHeader) in
              let keyHeader := if String.eqb key "" then [] else [("Ocp-Apim-Subscription-Key", key)] in
              inl (mkHTTPRequest (hr_Method httpReq) (hr_URL httpReq)
                     (setHeaders (keyHeader ++ [("Content-Type", "application/ssml+xml"); ("X-Microsoft-Outputformat", format)])
                        (hr_Header httpReq))
                     (hr_Body httpReq))
          end
      end
  end.

(** ** alibaba/cosyvoice/speech.go *)
Definition ErrWebSocketOnlyProvider : gerror := EPlain "provider requires websocket execution".
Definition Alibaba_BuildSpeechRequest : HTTPRequest + gerror := inr ErrWebSocketOnlyProvider.

(** ** The dispatch of [MarshalUpstreamRequest] *)
Definition BuildSpeechRequest (p : ClusterProvider) (baseURL authHeader : string) (req : LLMRequest)
    (upstreamHeaders : Header) (downstreamHeaders : option Header) : outcome (HTTPRequest + gerror) :=
  match p with
  | OPEN_AI_V1_SPEECH | OPEN_AI => Ret (OpenAI_BuildSpeechRequest baseURL authHeader req)
  | DEEPGRAM_WEBSOCKET_V1 => Ret (Deepgram_BuildSpeechRequest baseURL authHeader req)
  | ELEVEN_LABS_V1 => Ret (ElevenLabs_BuildSpeechRequest baseURL authHeader req)
  | KOEMOTION_V1 => Ret (Koemotion_BuildSpeechRequest baseURL authHeader req)
  | VOLCENGINE_SEED_SPEECH_V1 => Volcengine_BuildSpeechRequest baseURL authHeader req
  | MICROSOFT_SPEECH_SERVICE_V1 =>
      Ret (Microsoft_BuildSpeechRequest baseURL authHeader req upstreamHeaders downstreamHeaders)
  | ALIBABA_COSY_VOICE_SERVICE => Ret Alibaba_BuildSpeechRequest
  | _ => Ret (inr (EOpenAI (WithMessage NewErrorBadRequest "unsupported TTS provider")))
  end.
End Providers.

(** ** What the providers are told *)

(** [text] is where provider [p] reads what to say. *)
Definition spoken (p : ClusterProvider) (body : Payload) (text : string) : Prop :=
  match p, body with
  | OPEN_AI_V1_SPEECH, BodyJSON (JObj m) | OPEN_AI, BodyJSON (JObj m) => m !! "input" = Some (JStr text)
  | DEEPGRAM_WEBSOCKET_V1, BodyJSON (JObj m) | ELEVEN_LABS_V1, BodyJSON (JObj m) | KOEMOTION_V1, BodyJSON (JObj m) =>
      m !! "text" = Some (JStr text)
  | VOLCENGINE_SEED_SPEECH_V1, BodyJSON (JObj m) =>
      exists rq, m !! "request" = Some (JObj rq) /\ rq !! "text" = Some (JStr text)
  | MICROSOFT_SPEECH_SERVICE_V1, BodyText s => exists before after, s = before +:+ text +:+ after
  | _, _ => False
  end.

Section Facts.
Context `{NetURL} `{JSONPatchLaws} `{JSONPathLaws} `{JSONText} `{FloatText} {X : Type}.
Variable userUUID requestUUID : string.
Variable xml_Unmarshal : string -> option ssml.
Variable decodeBase64 fetchURL : string -> (Z * Z * string) + gerror.
Variable doRequest : HTTPRequest -> Eff X (RawResponse + gerror).

Abbreviation build := (BuildSpeechRequest userUUID requestUUID xml_Unmarshal).
Abbreviation new := (Cluster_NewWithConfigs (X := X) url_Parse build decodeBase64 fetchURL).

Lemma NewRequest_spec url headers body r :
  NewRequest url headers body = inl r -> hr_Method r = "POST" /\ hr_Body r = body.
Proof. unfold NewRequest. by destruct (url_parse url); intros [= <-]. Qed.

Lemma volcengine_built base auth req r :
  Volcengine_BuildSpeechRequest userUUID requestUUID base auth req = Ret (inl r) ->
  hr_Method r = "POST" /\
  exists m, hr_Body r = BodyJSON (JObj m) /\ exists rq, m !! "request" = Some (JObj rq) /\
    rq !! "text" = Some (JStr (GetInput req)).
Proof.
  unfold Volcengine_BuildSpeechRequest. intros (encoding & _ & E)%outcome_bind_Ret. revert E.
  unfold marshalOptions. destruct (firstUnsupported _); [done|]. intros [= [-> ->]%NewRequest_spec].
  split; [done|]. eexists. split; [done|]. eexists. split; [apply lookup_insert_eq || reflexivity|].
  unfold member. by rewrite lookup_insert_ne, lookup_insert_eq.
Qed.

Lemma microsoft_built base auth req up down r :
  Microsoft_BuildSpeechRequest xml_Unmarshal base auth req up down = inl r ->
  hr_Method r = "POST" /\ exists extra, hr_Body r = BodyText (processSSML xml_Unmarshal (GetInput req) req extra).
Proof.
  unfold Microsoft_BuildSpeechRequest. destruct (readExtra _) as [extra|]; [|done].
  destruct (NewRequest _ _ _) as [httpReq|] eqn:E; [|done]. apply NewRequest_spec in E as [E1 E2].
  destruct (microsoftFormat _ _ _ _); [|done]. intros [= <-]. cbn. split; [done|]. by exists extra.
Qed.

Lemma within_app text p s :
  (exists before after, s = before +:+ text +:+ after) -> exists before after, p +:+ s = before +:+ text +:+ after.
Proof. intros (before & after & ->). exists (p +:+ before), after. by rewrite <- string_app_assoc. Qed.

Lemma formatAsSSML_spoken text lang gender name :
  exists before after, formatAsSSML text lang gender name = before +:+ text +:+ after.
Proof. unfold formatAsSSML. do 13 apply within_app. by eexists "", _. Qed.

Lemma processSSML_spoken input req extra :
  Contains input "<speak" = false ->
  exists before after, processSSML xml_Unmarshal input req extra = before +:+ input +:+ after.
Proof.
  intros Hc. unfold processSSML. destruct (FromPtrOr (eb_DisableSSML _) false).
  { exists "", "". by rewrite string_app_nil_r. }
  rewrite Hc. cbn [negb]. apply formatAsSSML_spoken.
Qed.

Lemma withExtraBody_text extra m t :
  FromPtrOr extra ∅ !! "text" = None -> m !! "text" = Some t -> withExtraBody extra m !! "text" = Some t.
Proof. intros He Hm. unfold withExtraBody. by rewrite lookup_union, He, Hm. Qed.

Lemma build_POST p base auth req up down r : build p base auth req up down = Ret (inl r) -> hr_Method r = "POST".
Proof.
  unfold BuildSpeechRequest. destruct p; try discriminate; intros E.
  all: try (by apply volcengine_built in E as [? _]); injection E as E.
  all: try (by apply microsoft_built in E as [? _]).
  all: try (by apply NewRequest_spec in E as [? _]).
  unfold Deepgram_BuildSpeechRequest in E. destruct (url_parse _); [|done]. by apply NewRequest_spec in E as [? _].
Qed.

Lemma build_spoken p base auth req up down r text fields :
  req_body req = Some (JObj fields) -> fields !! "input" = Some (JStr text) -> GetInput req = text ->
  FromPtrOr (GetExtraBody req) ∅ !! "text" = None -> Contains text "<speak" = false ->
  build p base auth req up down = Ret (inl r) -> spoken p (hr_Body r) text.
Proof.
  intros Hb Hin Ht He Hc. unfold BuildSpeechRequest. destruct p; try discriminate; intros E.
  all: try (apply volcengine_built in E as [_ (m & -> & Hm)]; by rewrite <- Ht).
  all: injection E as E.
  all: try (apply microsoft_built in E as [_ [extra ->]]; rewrite Ht; by apply processSSML_spoken).
  all: try (apply NewRequest_spec in E as [_ ->]; cbn [spoken]; rewrite Ht; apply withExtraBody_text; [done|by simplify_map_eq]).
  all: try (apply NewRequest_spec in E as [_ ->]; by rewrite Hb).
  unfold Deepgram_BuildSpeechRequest in E. destruct (url_parse _); [|done]. apply NewRequest_spec in E as [_ ->].
  cbn [spoken]. by rewrite Ht.
Qed.

Lemma speech_fields fields req :
  NewTextToSpeechRequest (Some (JObj fields)) = inl req ->
  GetRequestType req = RequestTypeTextToSpeech /\ synced req fields /\
  (forall text, fields !! "input" = Some (JStr text) -> isEmptyString text = false -> GetInput req = text) /\
  (fields !! "response_format" = None -> GetResponseFormat req = None).
Proof.
  intros [= <-]. split; [done|]. split; [done|]. split.
  - intros text Hin Ht. unfold GetInput, speech, GetByJSONPath_string. cbn.
    rewrite (jsonpath_string (Some fields) "input" text eq_refl Hin). unfold FromString_string. by rewrite Ht.
  - intros Hf. unfold GetResponseFormat, speech, GetByJSONPath_string_ptr. cbn.
    by rewrite (jsonpath_missing (Some fields) "response_format" eq_refl Hf).
Qed.

(** What the client asks to be said is what every provider is told to
    say: the request built from a body whose input is a text (and not markup
    of Microsoft's, nor overridden by a text of the extra body) carries the
    text, unchanged, where the provider of the cluster reads it. *)
Theorem speech_text_sent p fields req base auth up down r text
    (Hreq : NewTextToSpeechRequest (Some (JObj fields)) = inl req)
    (Hin : fields !! "input" = Some (JStr text)) (Htext : isEmptyString text = false)
    (Hextra : FromPtrOr (GetExtraBody req) ∅ !! "text" = None)
    (Hplain : Contains text "<speak" = false)
    (Hbuild : BuildSpeechRequest userUUID requestUUID xml_Unmarshal p base auth req up down = Ret (inl r)) :
  hr_Method r = "POST" /\ spoken p (hr_Body r) text.
Proof.
  destruct (speech_fields fields req Hreq) as (_ & [Hb _] & Hi & _).
  split; [by eapply build_POST|]. by eapply build_spoken; eauto.
Qed.

Lemma marshalSpeechRequest_spec c req :
  let headers := up_headers (GetUpstream c) in
  marshalSpeechRequest build c req None
  = r ← build (cl_provider c) (up_url (GetUpstream c)) "" req (setHeaders headers ∅) None;
    Ret (match r with
         | inr e => inr e
         | inl r => inl (mkHTTPRequest (hr_Method r) (hr_URL r) (setHeaders headers (hr_Header r)) (hr_Body r))
         end).
Proof.
  unfold marshalSpeechRequest. cbn [fmap option_fmap option_map].
  destruct (cl_provider c); try reflexivity; cbn [speechProvider]; by destruct (build _ _ _ _ _ _) as [[|]|].
Qed.

Lemma speech_call c m w fields
    (Hnew : new c = inl m) (Hdefault : cl_filters c = [])
    (Hbody : synced (w_req w) fields) (Hmodel : is_Some (fields !! "model")) (Hc : params_ok c (w_req w))
    (Htype : GetRequestType (w_req w) = RequestTypeTextToSpeech) :
  exists req fields', (forall k, fields' !! k = upstream_field c fields k) /\ synced req fields' /\
    req_speech req = req_speech (w_req w) /\ GetModel req = upstream_model c /\
    GetRequestType req = RequestTypeTextToSpeech /\
    let headers := up_headers (GetUpstream c) in
    let w' := mkWorld (setUpstreamRequestModel (upstream_model c) (setUpstreamProvider (cl_provider c) (w_meta w)))
                req (w_ext w) in
    DoUpstreamRequest doRequest m w
    = match build (cl_provider c) (up_url (GetUpstream c)) "" req (setHeaders headers ∅) None with
      | Panic s => Panic s
      | Ret (inr e) => (err ← internal e; mret (None, err)) w'
      | Ret (inl r) =>
          (answer ← doRequest (mkHTTPRequest (hr_Method r) (hr_URL r) (setHeaders headers (hr_Header r)) (hr_Body r));
           handleAnswer m answer) w'
      end.
Proof.
  pose proof (new_spec (X := X) url_Parse build decodeBase64 fetchURL c) as Hn. rewrite Hnew in Hn.
  destruct Hn as (_ & Hcl & Hmod & Hmar & _). rewrite Hdefault in Hmod, Hmar. cbn [count List.filter length replicate] in Hmod, Hmar.
  set (w1 := mkWorld (setUpstreamProvider (cl_provider c) (w_meta w)) (w_req w) (w_ext w)).
  destruct (request_rewritten_world c w1 fields Hbody Hmodel Hc) as (req & fields' & E & Hs & Hf & [Ht (_ & _ & _ & Hsp)] & Hm).
  exists req, fields'. do 4 (split; [done|]). split; [unfold GetRequestType in *; rewrite <- Htype; exact Ht|]. cbv zeta.
  unfold DoUpstreamRequest, ForEachRequestModifier, ForEachUpstreamRequestMarshaller. rewrite Hcl, Hmod, Hmar.
  cbn [map untilError threadUntilError].
  etransitivity; [eapply Eff_bind_Ret; reflexivity|]. cbn [w_meta w_req w_ext]. fold w1.
  etransitivity; [eapply Eff_bind_Ret; erewrite Eff_bind_Ret by exact E; reflexivity|].
  etransitivity; [eapply Eff_bind_Ret; reflexivity|]. etransitivity; [eapply Eff_bind_Ret; reflexivity|].
  cbn [w_meta w_req w_ext]. rewrite Hm.
  unfold requestHandler_MarshalUpstreamRequest. run_eff. cbn [w_req] in Ht, Htype.
  unfold GetRequestType in *. change (req_type req = req_type (w_req w)) in Ht. rewrite Ht, Htype. cbn [upstreamPath]. rewrite marshalSpeechRequest_spec.
  by destruct (build _ _ _ _ _ _) as [[|]|].
Qed.

(** C34: the call of a cluster with the default filters for a speech request:
    the provider's builder is given the cluster's URL and headers, but neither
    credentials nor headers of the client, and the request with the model
    rewritten and its speech fields as the client sent them; a panic of the
    builder is a panic of the call, its error becomes an LLM error and nothing
    is sent, and otherwise one request is sent, with the cluster's headers
    over the builder's, and the answer decides. *)
Theorem speech_request_sent c m w fields
    (Hnew : new c = inl m) (Hdefault : cl_filters c = [])
    (Hbody : synced (w_req w) fields) (Hmodel : is_Some (fields !! "model")) (Hc : params_ok c (w_req w))
    (Htype : GetRequestType (w_req w) = RequestTypeTextToSpeech) :
  exists req fields', (forall k, fields' !! k = upstream_field c fields k) /\ synced req fields' /\
    req_speech req = req_speech (w_req w) /\ GetModel req = upstream_model c /\
    let headers := up_headers (GetUpstream c) in
    let w' := mkWorld (setUpstreamRequestModel (upstream_model c) (setUpstreamProvider (cl_provider c) (w_meta w)))
                req (w_ext w) in
    DoUpstreamRequest doRequest m w
    = match BuildSpeechRequest userUUID requestUUID xml_Unmarshal (cl_provider c) (up_url (GetUpstream c)) "" req (setHeaders headers ∅) None with
      | Panic s => Panic s
      | Ret (inr e) => (err ← internal e; mret (None, err)) w'
      | Ret (inl r) =>
          (answer ← doRequest (mkHTTPRequest (hr_Method r) (hr_URL r) (setHeaders headers (hr_Header r)) (hr_Body r));
           handleAnswer m answer) w'
      end.
Proof.
  destruct (speech_call c m w fields Hnew Hdefault Hbody Hmodel Hc Htype) as (req & fields' & ? & ? & ? & ? & _ & E).
  by exists req, fields'.
Qed.

Lemma build_panics p base auth req up down s :
  build p base auth req up down = Panic s <->
  p = VOLCENGINE_SEED_SPEECH_V1 /\ GetResponseFormat req = None /\ s = nil_deref.
Proof.
  split.
  - unfold BuildSpeechRequest. destruct p; try discriminate. unfold Volcengine_BuildSpeechRequest, volcengineEncoding.
    destruct (GetResponseFormat req) as [f|]; cbn; [|by intros [= <-]]. by destruct (marshalOptions _).
  - intros (-> & Hf & ->). cbn [BuildSpeechRequest]. unfold Volcengine_BuildSpeechRequest, volcengineEncoding. by rewrite Hf.
Qed.

(** A speech request without a response format, which is optional and for
    which the code means mp3, cannot be sent to Volcengine: the call panics,
    whatever the parameters of the cluster are, a default response format
    included.  No other provider's builder panics on it. *)
Theorem volcengine_needs_format c m w fields
    (Hnew : new c = inl m) (Hdefault : cl_filters c = [])
    (Hreq : NewTextToSpeechRequest (Some (JObj fields)) = inl (w_req w))
    (Hmodel : is_Some (fields !! "model")) (Hc : params_ok c (w_req w))
    (Hprovider : cl_provider c = VOLCENGINE_SEED_SPEECH_V1)
    (Hformat : fields !! "response_format" = None) :
  DoUpstreamRequest doRequest m w = Panic nil_deref /\
  forall p base auth up down s, BuildSpeechRequest userUUID requestUUID xml_Unmarshal p base auth (w_req w) up down = Panic s -> p = VOLCENGINE_SEED_SPEECH_V1.
Proof.
  destruct (speech_fields fields _ Hreq) as (Ht & Hb & _ & Hf). split.
  2: { by intros p base auth up down s [? _]%build_panics. }
  destruct (speech_call c m w fields Hnew Hdefault Hb Hmodel Hc Ht) as (req & fields' & _ & _ & Hsp & _ & _ & ->).
  rewrite (proj2 (build_panics (cl_provider c) (up_url (GetUpstream c)) "" req (setHeaders (up_headers (GetUpstream c)) ∅)
                    None nil_deref)); [done|].
  split; [done|]. split; [|done]. unfold GetResponseFormat, speech in *. by rewrite Hsp, Hf.
Qed.

(** The requests to Deepgram, Volcengine and Microsoft are built from the
    fields that were read when the request arrived: rewriting the body as the
    cluster's configuration says (model, defaults, overrides, removed keys),
    whether it succeeds or not, changes nothing in them. *)
Theorem speech_params_ignored c w w' e p base auth up down
    (Hmodified : requestHandler_RequestModifier (X := X) c w = Ret (w', e))
    (Hp : p ∈ [DEEPGRAM_WEBSOCKET_V1; VOLCENGINE_SEED_SPEECH_V1; MICROSOFT_SPEECH_SERVICE_V1]) :
  BuildSpeechRequest userUUID requestUUID xml_Unmarshal p base auth (w_req w') up down = BuildSpeechRequest userUUID requestUUID xml_Unmarshal p base auth (w_req w) up down.
Proof.
  apply RequestModifier_same in Hmodified as (_ & _ & _ & _ & Hsp).
  assert (speech (w_req w') = speech (w_req w)) as Hs by (unfold speech; by rewrite Hsp).
  assert (GetInput (w_req w') = GetInput (w_req w)) as Hi by (unfold GetInput; by rewrite Hs).
  assert (GetVoice (w_req w') = GetVoice (w_req w)) as Hv by (unfold GetVoice; by rewrite Hs).
  assert (GetResponseFormat (w_req w') = GetResponseFormat (w_req w)) as Hf by (unfold GetResponseFormat; by rewrite Hs).
  assert (GetExtraBody (w_req w') = GetExtraBody (w_req w)) as He by (unfold GetExtraBody; by rewrite Hs).
  rewrite !elem_of_cons in Hp. destruct Hp as [->|[->|[->|[]%elem_of_nil]]]; cbn [BuildSpeechRequest].
  - unfold Deepgram_BuildSpeechRequest. by rewrite Hi, Hv.
  - unfold Volcengine_BuildSpeechRequest, volcengineOptions. by rewrite Hi, Hv, Hf, He.
  - unfold Microsoft_BuildSpeechRequest, processSSML, microsoftFormat. by rewrite Hi, Hv, Hf, He.
Qed.
End Facts.

(** ** Examples *)
#[local] Existing Instances rfc6902 rfc6902_laws dotted_paths dotted_paths_laws ex_Unmarshal.

#[local] Instance plain_urls : NetURL := {|
  url_URL := string;
  url_parse s := if HasPrefix s ":" then inr "missing protocol scheme" else inl s;
  url_String u := u;
  url_Hostname u := hd "" (Split "/" (TrimPrefix u "https://"));
  url_Query _ := ∅;
  url_SetRawQuery q u := u +:+ "?" +:+ q;
  url_JoinPath e u := u +:+ "/" +:+ e;
  Values_Encode q := Join "&" (map (fun kv => fst kv +:+ "=" +:+ FromPtrOr (head (snd kv)) "") (map_to_list q)) |}.

#[local] Instance whole_floats : FloatText := fun s =>
  match ParseInt s 64 with inl z => inl (f64_of_int z) | inr _ => inr "invalid syntax" end.

Definition ex_speech_fields : gmap string json :=
  <["voice" := JStr "nova"]> (<["input" := JStr "Hello"]> {[ "model" := JStr "tts-1" ]}).
Definition ex_speech_request : LLMRequest :=
  match NewTextToSpeechRequest (Some (JObj ex_speech_fields)) with inl r => r | inr _ => ex_llm_request end.
Definition ex_speech_world : World unit := mkWorld InitMetadata ex_speech_request tt.
Definition ex_speech_cluster (p : ClusterProvider) : Cluster :=
  mkCluster "tts" CLB_ROUND_ROBIN
    (Some (mkUpstream "" [("Ocp-Apim-Subscription-Key", "k")] 0 [("response_format", JStr "mp3")] [] [])) [] p 0 SPEECH_GENERATION None.
Definition ex_builder := BuildSpeechRequest "user" "request" (fun _ => None).
Definition ex_speech_built (p : ClusterProvider) : clusterDefault unit :=
  let fs := [NewRequestHandlerWithConfig url_Parse ex_builder; NewResponseHandlerWithConfig ex_picture ex_picture] in
  mkClusterDefault (ex_speech_cluster p) fs (rev fs).

Example decoded_extra :
  decodeExtra (<["Lang" := JStr "fr-FR"]> (<["lang" := JNull]> {[ "sample_rate" := JNum (f64_of_int 24000) ]}))
  = inl (mkExtra None "" None None None (Some 24000)).
Proof. vm_compute. reflexivity. Qed.

Example folded_name : foldName (String (Ascii.ascii_of_nat 197) (String (Ascii.ascii_of_nat 191) "AMPLE_RATE")) = "sample_rate".
Proof. reflexivity. Qed.

Example trimmed : TrimSpace (bytes [32; 194; 160; 97; 32; 98; 226; 128; 137; 10]%nat) = "a b".
Proof. reflexivity. Qed.

Lemma speech_text_sent_witness :
  "POST" = "POST" /\
  spoken DEEPGRAM_WEBSOCKET_V1 (BodyJSON (JObj {[ "text" := JStr "Hello" ]})) "Hello".
Proof.
  pose (r := match ex_builder DEEPGRAM_WEBSOCKET_V1 "" "" ex_speech_request ∅ None with
             | Ret (inl r) => r | _ => mkHTTPRequest "" "" ∅ (BodyText "") end).
  apply (speech_text_sent "user" "request" (fun _ => None) DEEPGRAM_WEBSOCKET_V1 ex_speech_fields ex_speech_request
           "" "" ∅ None r "Hello"); reflexivity.
Defined.

Lemma ex_speech_params_ok p r : req_type r = RequestTypeTextToSpeech -> params_ok (ex_speech_cluster p) r.
Proof.
  intros Hr. split; unfold sizes_ok; rewrite ?Hr; cbn; try done; try (by repeat constructor).
  by apply NoDup_singleton.
Qed.

Lemma speech_request_sent_witness :
  exists req fields', (forall k, fields' !! k = upstream_field (ex_speech_cluster MICROSOFT_SPEECH_SERVICE_V1) ex_speech_fields k) /\
    synced req fields' /\ req_speech req = req_speech ex_speech_request /\ GetModel req = "tts" /\
    DoUpstreamRequest ex_send (ex_speech_built MICROSOFT_SPEECH_SERVICE_V1) ex_speech_world
    = match ex_builder MICROSOFT_SPEECH_SERVICE_V1 "" "" req (setHeaders [("Ocp-Apim-Subscription-Key", "k")] ∅) None with
      | Panic s => Panic s
      | Ret (inr e) => (err ← internal e; mret (None, err))
          (mkWorld (setUpstreamRequestModel "tts" (setUpstreamProvider MICROSOFT_SPEECH_SERVICE_V1 InitMetadata)) req tt)
      | Ret (inl r) =>
          (answer ← ex_send (mkHTTPRequest (hr_Method r) (hr_URL r)
             (setHeaders [("Ocp-Apim-Subscription-Key", "k")] (hr_Header r)) (hr_Body r));
           handleAnswer (ex_speech_built MICROSOFT_SPEECH_SERVICE_V1) answer)
          (mkWorld (setUpstreamRequestModel "tts" (setUpstreamProvider MICROSOFT_SPEECH_SERVICE_V1 InitMetadata)) req tt)
      end.
Proof.
  apply (speech_request_sent "user" "request" (fun _ => None) ex_picture ex_picture ex_send
           (ex_speech_cluster MICROSOFT_SPEECH_SERVICE_V1) (ex_speech_built MICROSOFT_SPEECH_SERVICE_V1)
           ex_speech_world ex_speech_fields);
    [reflexivity|reflexivity|done|by eexists|by apply ex_speech_params_ok|reflexivity].
Defined.

Lemma volcengine_needs_format_witness :
  DoUpstreamRequest ex_send (ex_speech_built VOLCENGINE_SEED_SPEECH_V1) ex_speech_world = Panic nil_deref /\
  forall p base auth up down s, ex_builder p base auth ex_speech_request up down = Panic s -> p = VOLCENGINE_SEED_SPEECH_V1.
Proof.
  apply (volcengine_needs_format "user" "request" (fun _ => None) ex_picture ex_picture ex_send
           (ex_speech_cluster VOLCENGINE_SEED_SPEECH_V1) (ex_speech_built VOLCENGINE_SEED_SPEECH_V1)
           ex_speech_world ex_speech_fields);
    [reflexivity|reflexivity|reflexivity|by eexists|by apply ex_speech_params_ok|reflexivity|reflexivity].
Defined.

Lemma speech_params_ignored_witness :
  let w' := match requestHandler_RequestModifier (ex_speech_cluster MICROSOFT_SPEECH_SERVICE_V1) ex_speech_world with
            | Ret (w', _) => w' | Panic _ => ex_speech_world end in
  ex_builder MICROSOFT_SPEECH_SERVICE_V1 "" "" (w_req w') ∅ None = ex_builder MICROSOFT_SPEECH_SERVICE_V1 "" "" ex_speech_request ∅ None.
Proof.
  apply (speech_params_ignored "user" "request" (fun _ => None) (ex_speech_cluster MICROSOFT_SPEECH_SERVICE_V1)
           ex_speech_world _ None).
  - vm_compute. reflexivity.
  - right. right. left.
Defined.
