(* ===== verification/SpeechResponse.v ===== *)
(** * pkg/types: the answers of the speech providers

    [AudioResponse] (pkg/types/tts/response.go) and the functions
    [ParseSpeechResponse] that make one of an upstream's answer; the decoder of
    encoding/base64 that one of them uses. *)
From Stdlib Require Import Ascii.
From S2P Require Import Prelude Strconv Utils GoFloat Json Errors Request FromString Response Effects Stream Filters ClusterFilters.

(** ** encoding/base64, StdEncoding *)
Definition alphabet : string := "ABCDEFGHIJKLMNOPQRSTUVWXYZabcdefghijklmnopqrstuvwxyz0123456789+/".
Definition sextet_char (i : Z) : ascii := default "="%char (String.get (Z.to_nat i) alphabet).

Fixpoint position (c : ascii) (s : string) (i : Z) : option Z :=
  match s with
  | EmptyString => None
  | String d s => if Ascii.eqb c d then Some i else position c s (i + 1)
  end.
Definition sextet (c : ascii) : option Z := position c alphabet 0.

(** Three bytes as four sextets; the last group is padded. *)
Fixpoint encode64 (bs : list Z) : list ascii :=
  match bs with
  | [] => []
  | [x] => [sextet_char (x / 4); sextet_char (x mod 4 * 16); "="%char; "="%char]
  | [x; y] => [sextet_char (x / 4); sextet_char (x mod 4 * 16 + y / 16); sextet_char (y mod 16 * 4); "="%char]
  | x :: y :: z :: bs =>
      sextet_char (x / 4) :: sextet_char (x mod 4 * 16 + y / 16) :: sextet_char (y mod 16 * 4 + z / 64) :: sextet_char (z mod 64)
      :: encode64 bs
  end.
Definition EncodeToString (s : string) : string := string_of_list_ascii (encode64 (bytes_of s)).

(** A group of four; the bits left over by a padded group are not looked at.
    Newlines are skipped wherever they stand. *)
Fixpoint decode64 (l : list ascii) : option (list Z) :=
  match l with
  | [] => Some []
  | a :: b :: c :: d :: rest =>
      va ← sextet a; vb ← sextet b;
      if Ascii.eqb c "=" then
        match Ascii.eqb d "=", rest with true, [] => Some [(va * 64 + vb) / 16] | _, _ => None end
      else
        vc ← sextet c;
        if Ascii.eqb d "=" then
          match rest with
          | [] => let n := va * 4096 + vb * 64 + vc in Some [n / 1024; n / 4 mod 256]
          | _ => None
          end
        else
          vd ← sextet d;
          let n := va * 262144 + vb * 4096 + vc * 64 + vd in
          bs ← decode64 rest; Some (n / 65536 :: n / 256 mod 256 :: n mod 256 :: bs)
  | _ => None
  end.
Definition newline (c : ascii) : bool := Ascii.eqb c "010" || Ascii.eqb c "013".
Definition DecodeString (s : string) : option string :=
  string_of <$> decode64 (List.filter (fun c => negb (newline c)) (list_ascii_of_string s)).

(** *** Decoding what was encoded *)
Definition good_sextet (i : nat) : bool :=
  let c := sextet_char (Z.of_nat i) in
  bool_decide (sextet c = Some (Z.of_nat i)) && negb (Ascii.eqb c "=") && negb (newline c).

Lemma good_sextets : forallb good_sextet (seq 0 64) = true.
Proof. vm_compute. reflexivity. Qed.

Lemma sextet_of_char i : 0 <= i < 64 ->
  sextet (sextet_char i) = Some i /\ Ascii.eqb (sextet_char i) "=" = false /\ newline (sextet_char i) = false.
Proof.
  intros Hi. pose proof good_sextets as Hall. rewrite forallb_forall in Hall.
  specialize (Hall (Z.to_nat i)). unfold good_sextet in Hall. rewrite Z2Nat.id in Hall by lia.
  assert (In (Z.to_nat i) (seq 0 64)) as Hin by (apply in_seq; lia).
  apply Hall in Hin. rewrite !andb_true_iff, !negb_true_iff, bool_decide_eq_true in Hin. tauto.
Qed.

Lemma sextet_back i : 0 <= i < 64 -> sextet (sextet_char i) = Some i.
Proof. apply sextet_of_char. Qed.
Lemma sextet_no_pad i : 0 <= i < 64 -> Ascii.eqb (sextet_char i) "=" = false.
Proof. apply sextet_of_char. Qed.
Lemma sextet_no_newline i : 0 <= i < 64 -> newline (sextet_char i) = false.
Proof. apply sextet_of_char. Qed.

(** Induction on a list three elements at a time. *)
Lemma list_ind3 {A} (P : list A -> Prop) :
  P [] -> (forall x, P [x]) -> (forall x y, P [x; y]) -> (forall x y z l, P l -> P (x :: y :: z :: l)) -> forall l, P l.
Proof.
  intros H0 H1 H2 H3. fix IH 1. intros [|x [|y [|z l]]]; [exact H0|apply H1|apply H2|apply H3, IH].
Qed.

Definition byte_range (b : Z) : Prop := 0 <= b < 256.

(** The quotients and remainders of a byte that a group is made of. *)
Lemma byte_parts b : byte_range b ->
  b = b / 4 * 4 + b mod 4 /\ b = b / 16 * 16 + b mod 16 /\ b = b / 64 * 64 + b mod 64 /\
  0 <= b / 4 < 64 /\ 0 <= b mod 4 < 4 /\ 0 <= b / 16 < 16 /\ 0 <= b mod 16 < 16 /\ 0 <= b / 64 < 4 /\ 0 <= b mod 64 < 64.
Proof.
  unfold byte_range. intros Hb.
  pose proof (Z.div_mod b 4 ltac:(lia)). pose proof (Z.div_mod b 16 ltac:(lia)). pose proof (Z.div_mod b 64 ltac:(lia)).
  pose proof (Z.mod_pos_bound b 4 ltac:(lia)). pose proof (Z.mod_pos_bound b 16 ltac:(lia)). pose proof (Z.mod_pos_bound b 64 ltac:(lia)).
  lia.
Qed.

Lemma decode_encode64 bs : Forall byte_range bs -> decode64 (encode64 bs) = Some bs.
Proof.
  induction bs as [|x|x y|x y z bs IH] using list_ind3; intros Hb; [done|..].
  - apply Forall_inv in Hb. apply byte_parts in Hb. cbn [encode64 decode64].
    rewrite !sextet_back by lia. cbn [mbind option_bind]. rewrite Ascii.eqb_refl.
    f_equal. f_equal. symmetry. apply (Z.div_unique_pos _ 16 x 0); lia.
  - inversion Hb as [|? ? Hx Hy]; subst. apply Forall_inv in Hy. apply byte_parts in Hx, Hy. cbn [encode64 decode64].
    rewrite !sextet_back by lia. cbn [mbind option_bind].
    rewrite sextet_no_pad, Ascii.eqb_refl by lia.
    set (n := _ * 4096 + _ + _). assert (n = (x * 256 + y) * 4) as -> by (unfold n; lia).
    f_equal. rewrite Z.div_mul by lia. f_equal; [|f_equal].
    + symmetry. apply (Z.div_unique_pos _ 1024 x (y * 4)); lia.
    + rewrite Z.add_comm, Z.mod_add by lia. apply Z.mod_small. lia.
  - inversion Hb as [|? ? Hx Hb2]; subst. inversion Hb2 as [|? ? Hy Hb3]; subst. inversion Hb3 as [|? ? Hz Hbs]; subst.
    apply byte_parts in Hx, Hy, Hz. cbn [encode64 decode64].
    rewrite !sextet_back by lia. cbn [mbind option_bind].
    rewrite !sextet_no_pad by lia.
    rewrite IH by done. cbn [mbind option_bind].
    set (n := _ * 262144 + _ + _ + _). assert (n = x * 65536 + y * 256 + z) as -> by (unfold n; lia).
    f_equal. f_equal; [|f_equal; [|f_equal]].
    + symmetry. apply (Z.div_unique_pos _ 65536 x (y * 256 + z)); lia.
    + rewrite <- (Z.div_unique_pos (x * 65536 + y * 256 + z) 256 (x * 256 + y) z) by lia.
      rewrite Z.add_comm, Z.mod_add by lia. apply Z.mod_small. lia.
    + rewrite Z.add_comm. replace (x * 65536 + y * 256) with ((x * 256 + y) * 256) by lia. rewrite Z.mod_add by lia. apply Z.mod_small. lia.
Qed.

Lemma bytes_of_range s : Forall byte_range (bytes_of s).
Proof.
  unfold bytes_of. apply Forall_map, Forall_forall. intros c _. unfold byte_range, byteval.
  pose proof (nat_ascii_bounded c). lia.
Qed.

Lemma string_of_bytes_of s : string_of (bytes_of s) = s.
Proof.
  unfold string_of, bytes_of. rewrite map_map. induction s as [|c s IH]; [done|]. cbn. f_equal; [|exact IH].
  unfold byteval. by rewrite Nat2Z.id, ascii_nat_embedding.
Qed.

Lemma encode64_no_newline bs : Forall byte_range bs -> List.filter (fun c => negb (newline c)) (encode64 bs) = encode64 bs.
Proof.
  induction bs as [|x|x y|x y z bs IH] using list_ind3; intros Hb; [done|..].
  - apply Forall_inv in Hb. apply byte_parts in Hb. cbn [encode64 List.filter]. by rewrite !sextet_no_newline by lia.
  - inversion Hb as [|? ? Hx Hy]; subst. apply Forall_inv in Hy. apply byte_parts in Hx, Hy. cbn [encode64 List.filter].
    by rewrite !sextet_no_newline by lia.
  - inversion Hb as [|? ? Hx Hb2]; subst. inversion Hb2 as [|? ? Hy Hb3]; subst. inversion Hb3 as [|? ? Hz Hbs]; subst.
    apply byte_parts in Hx, Hy, Hz. cbn [encode64 List.filter]. rewrite !sextet_no_newline by lia. cbn [negb]. by rewrite IH.
Qed.

Lemma base64_roundtrip s : DecodeString (EncodeToString s) = Some s.
Proof.
  unfold DecodeString, EncodeToString. rewrite list_ascii_of_string_of_list_ascii, encode64_no_newline by apply bytes_of_range.
  rewrite decode_encode64 by apply bytes_of_range. cbn. by rewrite string_of_bytes_of.
Qed.

(** ** pkg/types/tts/response.go

    The body still to be read from the upstream, with how reading it ends, or
    bytes. *)
Record AudioResponse : Type := mkAudioResponse {
  au_Status : Z;
  au_Model : string;
  au_RequestID : string;
  au_ContentType : string;
  au_BodyBytes : string;                    (* nil and empty are alike *)
  au_Body : option (string * gerror);
  au_Error : option LLMError }.

(** The upstream's answer, with its header [x-request-id]. *)
Record SpeechHTTP : Type := mkSpeechHTTP { sh_raw : RawResponse; sh_RequestID : string }.

Definition tts_NewAudioResponseFromHTTP (resp : option SpeechHTTP) (model : string) : outcome AudioResponse :=
  match resp with
  | None =>
      e ← NewErrorInternalError [Some (EPlain "nil upstream response")];
      Ret (mkAudioResponse StatusInternalServerError model "" "" "" None (Some (LBase e)))
  | Some resp =>
      let raw := sh_raw resp in
      Ret (mkAudioResponse (raw_StatusCode raw) model (sh_RequestID resp) (raw_ContentType raw) ""
             (Some (raw_Text raw, raw_End raw)) None)
  end.

Definition NewAudioResponseFromBytes (status : Z) (contentType model body : string) : AudioResponse :=
  mkAudioResponse status model "" contentType body None None.

(** [r == nil] is [None]. *)
Definition au_GetStatus (r : option AudioResponse) : Z :=
  match r with None => StatusOK | Some r => if au_Status r =? 0 then StatusOK else au_Status r end.
Definition au_SetModel (r : AudioResponse) (modelName : string) : AudioResponse :=
  mkAudioResponse (au_Status r) modelName (au_RequestID r) (au_ContentType r) (au_BodyBytes r) (au_Body r) (au_Error r).
Definition au_IsStream (r : AudioResponse) : bool := false.
Definition au_GetUsage (r : AudioResponse) : option LLMUsage := None.

Definition LLMError_MarshalJSON (e : LLMError) : outcome json :=
  match e with LBase e => base_MarshalJSON e | LOpenAI e => Ret (openai_MarshalJSON e) end.

Definition au_MarshalJSON (r : option AudioResponse) : outcome json :=
  match r with
  | None => Ret JNull
  | Some r =>
      match au_Error r with
      | Some e => LLMError_MarshalJSON e
      | None => Ret (JObj (<["status" := JNum (f64_of_int (au_Status r))]> {[ "model" := JStr (au_Model r) ]}))
      end
  end.

(** What a client is written: the status line with the content type, and the
    bytes.  [accepts] is the client's side of a write. *)
Record Written : Type := mkWritten { wr_Status : Z; wr_ContentType : string; wr_Bytes : string }.

Definition WriteTo (accepts : string -> option gerror) (r : option AudioResponse) : option Written * option gerror :=
  match r with
  | None => (None, None)
  | Some r =>
      let contentType := if String.eqb (au_ContentType r) "" then "audio/mpeg" else au_ContentType r in
      let written bytes := Some (mkWritten (au_GetStatus (Some r)) contentType bytes) in
      match au_Body r with
      | Some (text, ends) =>
          (written text,
           match accepts text with
           | Some e => Some e
           | None => if IsEOFError ends then None else Some ends
           end)
      | None =>
          if String.eqb (au_BodyBytes r) "" then (written "", None) else (written (au_BodyBytes r), accepts (au_BodyBytes r))
      end
  end.

(** ** The providers *)
Section Parsing.
Context `{JSONPatch} `{JSONPath} `{JSONText}.

(** [openai.NewErrorBadGateway().WithMessage(...)] *)
Definition badGateway (message : string) : gerror := EOpenAI (WithMessage openai_NewErrorBadGateway message).

(** pkg/types/tts/errors.go *)
Definition ReadBodyError (resp : option SpeechHTTP) : outcome gerror :=
  match resp with
  | None => e ← NewErrorBadGateway (Some (EPlain "upstream response is nil")); Ret (EBase e)
  | Some resp =>
      match http_Body (buffered (sh_raw resp)) with
      | None => e ← NewErrorBadGateway (Some (raw_End (sh_raw resp))); Ret (EBase e)
      | Some body => e ← ParseUpstreamError (Some (buffered (sh_raw resp))) body; Ret (EBase e)
      end
  end.

Definition isError (raw : RawResponse) : bool := StatusBadRequest <=? raw_StatusCode raw.

(** openai/speech_v1.go *)
Definition OpenAI_ParseSpeechResponse (resp : option SpeechHTTP) (model : string) : outcome (AudioResponse + gerror) :=
  match resp with
  | None => Ret (inr (badGateway "upstream response is nil"))
  | Some sh =>
      let raw := sh_raw sh in
      let upstream := badGateway ("upstream error: " +:+ raw_Status raw) in
      if isError raw then
        match http_Body (buffered raw) with
        | None => Ret (inr upstream)
        | Some body =>
            errResp ← ParseErrorResponse (Some (buffered raw)) body;
            Ret (inr (match errResp with inl (Some errResp) => EOpenAI errResp | _ => upstream end))
        end
      else r ← tts_NewAudioResponseFromHTTP resp model; Ret (inl r)
  end.

(** deepgram, elevenlabs and microsoft have the same statements. *)
Definition passing_ParseSpeechResponse (resp : option SpeechHTTP) (model : string) : outcome (AudioResponse + gerror) :=
  match resp with
  | None => Ret (inr (badGateway "upstream response is nil"))
  | Some sh =>
      let raw := sh_raw sh in
      if isError raw then
        match http_Body (buffered raw) with
        | None => Ret (inr (badGateway ("upstream error: " +:+ raw_Status raw)))
        | Some body => e ← ParseUpstreamError (Some (buffered raw)) body; Ret (inr (EBase e))
        end
      else r ← tts_NewAudioResponseFromHTTP resp model; Ret (inl r)
  end.
Definition Deepgram_ParseSpeechResponse := passing_ParseSpeechResponse.
Definition ElevenLabs_ParseSpeechResponse := passing_ParseSpeechResponse.
Definition Microsoft_ParseSpeechResponse := passing_ParseSpeechResponse.

(** koemotion and volcengine read a document whose member holds the audio as
    a text, and decode it. *)
Definition decoding_ParseSpeechResponse (member emptyMessage failedMessage : string) (decode : string -> option string)
    (resp : option SpeechHTTP) (model : string) : outcome (AudioResponse + gerror) :=
  match resp with
  | None => Ret (inr (badGateway "upstream response is nil"))
  | Some sh =>
      let raw := sh_raw sh in
      match http_Body (buffered raw) with
      | None => Ret (inr (badGateway ("upstream error: " +:+ raw_Status raw)))
      | Some body =>
          if isError raw then e ← ParseUpstreamError (Some (buffered raw)) body; Ret (inr (EBase e))
          else
            Ret (match Unmarshal body with
                 | None => inr (badGateway "invalid upstream response")
                 | Some doc =>
                     match decode_object doc with
                     | inr _ => inr (badGateway "invalid upstream response")
                     | inl resBody =>
                         let audio := GetByJSONPath_string resBody member in
                         if String.eqb audio "" then inr (badGateway emptyMessage)
                         else match decode audio with
                              | None => inr (badGateway failedMessage)
                              | Some bytes => inl (NewAudioResponseFromBytes StatusOK "audio/mp3" model bytes)
                              end
                     end
                 end)
      end
  end.

(** github.com/vincent-petithory/dataurl: the data of a data URL. *)
Variable dataurl_DecodeString : string -> option string.
Definition Koemotion_ParseSpeechResponse :=
  decoding_ParseSpeechResponse "{ .audio }" "upstream returned empty audio data URL" "failed to decode audio data URL" dataurl_DecodeString.
Definition Volcengine_ParseSpeechResponse :=
  decoding_ParseSpeechResponse "{ .data }" "upstream returned empty audio base64 string" "failed to decode audio base64 string" DecodeString.
End Parsing.

(** ** What becomes of the audio *)
Section Audio.
Context `{JSONPatch} `{JSONPathLaws} `{JSONText}.
Variable dataurl_DecodeString : string -> option string.

(** The six functions. *)
Definition providers : list (option SpeechHTTP -> string -> outcome (AudioResponse + gerror)) :=
  [OpenAI_ParseSpeechResponse; Deepgram_ParseSpeechResponse; ElevenLabs_ParseSpeechResponse; Microsoft_ParseSpeechResponse;
   Koemotion_ParseSpeechResponse dataurl_DecodeString; Volcengine_ParseSpeechResponse].

(** An answer that is no error, decoded. *)
Lemma decoding_run member emptyMessage failedMessage decode sh model doc fields :
  raw_End (sh_raw sh) = EEOF -> isError (sh_raw sh) = false -> Unmarshal (raw_Text (sh_raw sh)) = Some doc -> decode_object doc = inl fields ->
  decoding_ParseSpeechResponse member emptyMessage failedMessage decode (Some sh) model
  = Ret (let audio := GetByJSONPath_string fields member in
         if String.eqb audio "" then inr (badGateway emptyMessage)
         else match decode audio with
              | None => inr (badGateway failedMessage)
              | Some bytes => inl (NewAudioResponseFromBytes StatusOK "audio/mp3" model bytes)
              end).
Proof. intros Hend He Hu Hd. unfold decoding_ParseSpeechResponse, buffered. cbn [http_Body]. rewrite Hend, He. cbn [IsEOFError]. by rewrite Hu, Hd. Qed.

(** C35: the audio of Volcengine gets to the client as it was: any bytes that
    the upstream sends as base64 in the member [data] are those that
    [ParseSpeechResponse] keeps and [WriteTo] writes, after one status line;
    unless their base64 is the four letters of [null], which the document's
    reader takes for a missing member. *)
Theorem volcengine_audio (sh : SpeechHTTP) (model audio : string) (fields : gmap string json) accepts
    (Hend : raw_End (sh_raw sh) = EEOF) (Hok : isError (sh_raw sh) = false)
    (Hbody : Unmarshal (raw_Text (sh_raw sh)) = Some (JObj fields)) (Hdata : fields !! "data" = Some (JStr (EncodeToString audio)))
    (Hsome : audio <> "") (Hnull : EncodeToString audio <> "null") :
  exists r, Volcengine_ParseSpeechResponse (Some sh) model = Ret (inl r) /\ au_Model r = model /\
    WriteTo accepts (Some r) = (Some (mkWritten 200 "audio/mp3" audio), accepts audio).
Proof.
  assert (String.eqb audio "" = false) as Ha by (by apply String.eqb_neq).
  exists (NewAudioResponseFromBytes StatusOK "audio/mp3" model audio). split; [|split; [done|]].
  - unfold Volcengine_ParseSpeechResponse. erewrite decoding_run by done.
    assert (GetByJSONPath_string (Some fields) "{ .data }" = EncodeToString audio) as ->.
    { unfold GetByJSONPath_string. rewrite (jsonpath_string (Some fields) "data" _ eq_refl Hdata). unfold FromString_string, isEmptyString.
      rewrite (proj2 (String.eqb_neq _ _) Hnull). pose proof (base64_roundtrip audio) as Hr.
      destruct (String.eqb_spec (EncodeToString audio) ""); [done|].
      destruct (String.eqb_spec (EncodeToString audio) "<nil>") as [E|]; [|done]. by rewrite E in Hr. }
    cbv zeta. pose proof (base64_roundtrip audio) as Hr.
    destruct (String.eqb_spec (EncodeToString audio) "") as [E|]; [rewrite E in Hr; by injection Hr as <-|]. by rewrite Hr.
  - unfold WriteTo. cbn. by rewrite Ha.
Qed.

(** An upstream's error is never taken for audio, and audio never for an
    error: whatever the provider, an answer with a status from 400 up gives no
    audio response; and the answer below 400 of a provider that sends plain
    audio is written on with its status, its content type and its bytes, to
    the end or the error that reading it ends with. *)
Theorem speech_answers_told_apart (sh : SpeechHTTP) (model : string) accepts :
  (isError (sh_raw sh) = true -> forall parse r, parse ∈ providers -> parse (Some sh) model <> Ret (inl r)) /\
  (isError (sh_raw sh) = false -> forall parse, parse ∈ take 4 providers -> exists r, parse (Some sh) model = Ret (inl r) /\
     WriteTo accepts (Some r)
     = (Some (mkWritten (if raw_StatusCode (sh_raw sh) =? 0 then 200 else raw_StatusCode (sh_raw sh))
                (if String.eqb (raw_ContentType (sh_raw sh)) "" then "audio/mpeg" else raw_ContentType (sh_raw sh)) (raw_Text (sh_raw sh))),
        match accepts (raw_Text (sh_raw sh)) with
        | Some e => Some e
        | None => if IsEOFError (raw_End (sh_raw sh)) then None else Some (raw_End (sh_raw sh))
        end)).
Proof.
  assert (isError (sh_raw sh) = true -> forall r, passing_ParseSpeechResponse (Some sh) model <> Ret (inl r)) as Hpass.
  { intros He r. unfold passing_ParseSpeechResponse. rewrite He. destruct (http_Body _); [|done]. by destruct (ParseUpstreamError _ _). }
  assert (isError (sh_raw sh) = true -> forall a b c d r, decoding_ParseSpeechResponse a b c d (Some sh) model <> Ret (inl r)) as Hdec.
  { intros He a b c d r. unfold decoding_ParseSpeechResponse. destruct (http_Body _); [|done]. rewrite He.
    by destruct (ParseUpstreamError _ _). }
  split.
  - intros He parse r. unfold providers. rewrite !elem_of_cons, elem_of_nil.
    intros [->|[->|[->|[->|[->|[->|[]]]]]]]; try (by apply Hpass); try (by apply Hdec).
    unfold OpenAI_ParseSpeechResponse. rewrite He. destruct (http_Body _); [|done]. by destruct (ParseErrorResponse _ _).
  - intros He parse. unfold providers. cbn [take]. rewrite !elem_of_cons, elem_of_nil.
    intros [->|[->|[->|[->|[]]]]]; unfold OpenAI_ParseSpeechResponse, Deepgram_ParseSpeechResponse, ElevenLabs_ParseSpeechResponse,
      Microsoft_ParseSpeechResponse, passing_ParseSpeechResponse; rewrite He; cbn; eexists; (split; [reflexivity|]); reflexivity.
Qed.
End Audio.

(** ** Examples *)
Example encoded_text : EncodeToString "Hello, wave!" = "SGVsbG8sIHdhdmUh" /\ EncodeToString "ab" = "YWI=" /\ EncodeToString "a" = "YQ==".
Proof. vm_compute. done. Qed.
Example decoded_lines : DecodeString ("SGVs" +:+ String "010" "bG8=") = Some "Hello" /\ DecodeString "SGVsbG8" = None /\ DecodeString "YQ==YQ==" = None.
Proof. vm_compute. done. Qed.
(** The base64 that stands for nothing. *)
Example null_audio : is_Some (DecodeString "null").
Proof. vm_compute. by eexists. Qed.

#[local] Existing Instances rfc6902 dotted_paths dotted_paths_laws.
#[local] Instance one_document : JSONText := fun _ => Some (JObj {[ "data" := JStr "SGVsbG8=" ]}).
Definition ex_spoken : SpeechHTTP := mkSpeechHTTP (mkRaw 200 "200 OK" "application/json" "{}" EEOF) "req-1".

Lemma volcengine_audio_witness :
  exists r, Volcengine_ParseSpeechResponse (Some ex_spoken) "speech-1" = Ret (inl r) /\ au_Model r = "speech-1" /\
    WriteTo (fun _ => None) (Some r) = (Some (mkWritten 200 "audio/mp3" "Hello"), None).
Proof.
  apply (volcengine_audio ex_spoken "speech-1" "Hello" {[ "data" := JStr "SGVsbG8=" ]} (fun _ => None));
    [reflexivity|reflexivity|reflexivity|vm_compute; reflexivity|discriminate|vm_compute; discriminate].
Defined.
