(* ===== verification/CosyVoice.v ===== *)
(** * pkg/types/alibaba/cosyvoice: speech over a websocket

    [DoSpeech] (speech.go) and the goroutine that it starts, as a transition
    system over the connection, the two channels and the buffer that they
    share; the messages that they exchange with the server. *)
From stdpp Require Import relations.
From S2P Require Import Prelude Strconv Utils GoFloat Json Errors Request FromString Response Effects Stream Filters ClusterFilters.
From S2P Require Import Speech SpeechResponse.

Definition defaultAlibabaSpeechWSURL : string := "wss://dashscope.aliyuncs.com/api-ws/v1/inference".

(** ** The messages *)
Definition serverEventTaskStarted : string := "task-started".
Definition serverEventResultGenerated : string := "result-generated".
Definition serverEventTaskFinished : string := "task-finished".
Definition serverEventTaskFailed : string := "task-failed".

Inductive clientEventAction : Type := clientEventContinueTask | clientEventFinishTask | clientEventRunTask.
Definition actionText (a : clientEventAction) : string :=
  match a with clientEventContinueTask => "continue-task" | clientEventFinishTask => "finish-task" | clientEventRunTask => "run-task" end.

Record serverEventHeader : Type := mkServerHeader {
  sv_TaskID : string;
  sv_Event : string;
  sv_Attributes : option (gmap string json);
  sv_ErrorCode : string;
  sv_ErrorMessage : string }.

Record clientEventHeader : Type := mkClientHeader { ch_TaskID : string; ch_Action : clientEventAction; ch_Streaming : string }.

Record clientEventRunTaskPayloadParameters : Type := mkParameters {
  rp_TextType : string;
  rp_Voice : string;
  rp_Format : string;
  rp_SampleRate : Z;
  rp_Volume : Z;
  rp_Rate : f64;
  rp_Pitch : f64 }.

Record clientEventRunTaskPayload : Type := mkRunTask {
  rt_TaskGroup : string;
  rt_Task : string;
  rt_Function : string;
  rt_Model : string;
  rt_Input : gmap string json;
  rt_Parameters : clientEventRunTaskPayloadParameters }.

Record clientEventContinueTaskPayload : Type := mkContinueTask {
  ct_TaskGroup : string;
  ct_Task : string;
  ct_Function : string;
  ct_Text : string }.                       (* Input.Text *)

(** [json.Marshal] *)
Definition marshalHeader (h : clientEventHeader) : json :=
  JObj (member "task_id" (JStr (ch_TaskID h)) (member "action" (JStr (actionText (ch_Action h)))
       (member "streaming" (JStr (ch_Streaming h)) ∅))).
Definition clientEvent (h : clientEventHeader) (payload : json) : json :=
  JObj (member "header" (marshalHeader h) (member "payload" payload ∅)).

Definition marshalParameters (p : clientEventRunTaskPayloadParameters) : json :=
  JObj (member "text_type" (JStr (rp_TextType p)) (member "voice" (JStr (rp_Voice p)) (member "format" (JStr (rp_Format p))
       (member "sample_rate" (JNat (rp_SampleRate p)) (member "volume" (JNat (rp_Volume p))
       (member "rate" (JNum (rp_Rate p)) (member "pitch" (JNum (rp_Pitch p)) ∅))))))).

(** A float that is not a number has no JSON. *)
Definition marshalRunTask (p : clientEventRunTaskPayload) : json + string :=
  match firstUnsupported [Some (rp_Rate (rt_Parameters p)); Some (rp_Pitch (rt_Parameters p))] with
  | Some text => inr ("json: unsupported value: " +:+ text)
  | None => inl (JObj (member "task_group" (JStr (rt_TaskGroup p)) (member "task" (JStr (rt_Task p))
                      (member "function" (JStr (rt_Function p)) (member "model" (JStr (rt_Model p))
                      (member "input" (JObj (rt_Input p)) (member "parameters" (marshalParameters (rt_Parameters p)) ∅)))))))
  end.

Definition marshalContinueTask (p : clientEventContinueTaskPayload) : json :=
  JObj (member "task_group" (JStr (ct_TaskGroup p)) (member "task" (JStr (ct_Task p)) (member "function" (JStr (ct_Function p))
       (member "input" (JObj (member "text" (JStr (ct_Text p)) ∅)) ∅)))).
Definition marshalFinishTask : json := JObj (member "input" (JObj ∅) ∅).

(** [json.Unmarshal] of a message into an [event].  Field names are the exact
    ones (encoding/json also accepts them in another case); null leaves a
    field empty; the text of a type error is not looked at. *)
Definition fieldError (field : string) : string := "json: cannot unmarshal value into Go struct field serverEventHeader." +:+ field.
Definition stringField (m : gmap string json) (field : string) : string + string :=
  match m !! field with
  | None | Some JNull => inl ""
  | Some (JStr s) => inl s
  | Some _ => inr (fieldError field)
  end.
Definition mapField (m : gmap string json) (field : string) : option (gmap string json) + string :=
  match m !! field with
  | None | Some JNull => inl None
  | Some (JObj o) => inl (Some o)
  | Some _ => inr (fieldError field)
  end.
Definition decodeServerHeader (m : gmap string json) : serverEventHeader + string :=
  match stringField m "task_id", stringField m "event", mapField m "attributes",
        stringField m "error_code", stringField m "error_message" with
  | inl id, inl ev, inl attributes, inl code, inl message => inl (mkServerHeader id ev attributes code message)
  | inr e, _, _, _, _ | _, inr e, _, _, _ | _, _, inr e, _, _ | _, _, _, inr e, _ | _, _, _, _, inr e => inr e
  end.
Definition noHeader : serverEventHeader := mkServerHeader "" "" None "" "".

Definition decodeEvent `{JSONText} (message : string) : serverEventHeader + string :=
  match Unmarshal message with
  | None => inr "invalid JSON"
  | Some JNull => inl noHeader
  | Some (JObj m) =>
      match m !! "header" with
      | None | Some JNull => inl noHeader
      | Some (JObj h) => decodeServerHeader h
      | Some _ => inr (fieldError "header")
      end
  | Some _ => inr "json: cannot unmarshal value into Go value of type event"
  end.

(** [openai.NewErrorInternalError().WithCause(err)], [err] by its text. *)
Definition internalError (text : string) : gerror :=
  EOpenAI (mkErrorResponse StatusInternalServerError false "" (Some (mkError None ("internal error: " +:+ text) None "internal_error"))
             (Some (EPlain text))).
Lemma internalError_is text : EOpenAI <$> WithCause openai_NewErrorInternalError (EPlain text) = Ret (internalError text).
Proof. reflexivity. Qed.

Definition taskFailed (h : serverEventHeader) : gerror :=
  EOpenAI (WithMessage NewErrorBadRequest
             ("failed to run task, error_code: " +:+ sv_ErrorCode h +:+ ", error_message: " +:+ sv_ErrorMessage h)).

(** ** What DoSpeech asks for *)
Section Asking.
Context `{JSONPath} `{FloatText}.
Variable taskID : string.
Variable req : LLMRequest.

Definition header (action : clientEventAction) : clientEventHeader := mkClientHeader taskID action "duplex".

Definition volume : Z := FromPtrOr (GetByJSONPath_int_ptr (GetExtraBody req) "{ .volume }") 50.
Definition rate : f64 := FromPtrOr (GetByJSONPath_float_ptr (GetExtraBody req) "{ .rate }") (f64_of_int 1).
Definition pitch : f64 := FromPtrOr (GetByJSONPath_float_ptr (GetExtraBody req) "{ .pitch }") (f64_of_int 1).
Definition sampleRate : Z := FromPtrOr (GetByJSONPath_int_ptr (GetExtraBody req) "{ .sample_rate }") 22050.

(** [lo.Ternary] is a function: both of its branches are evaluated. *)
Definition speechFormat (format : option string) : outcome string :=
  named ← deref format;
  Ret (if (match format with None => true | Some f => String.eqb f "" end) then "mp3" else named).

Definition runTaskMessage : outcome (json + string) :=
  format ← speechFormat (GetResponseFormat req);
  Ret (match marshalRunTask (mkRunTask "audio" "tts" "SpeechSynthesizer" (GetModel req) ∅
                               (mkParameters "PlainText" (GetVoice req) format sampleRate volume rate pitch)) with
       | inl payload => inl (clientEvent (header clientEventRunTask) payload)
       | inr e => inr e
       end).
Definition continueTaskMessage : json :=
  clientEvent (header clientEventContinueTask) (marshalContinueTask (mkContinueTask "audio" "tts" "SpeechSynthesizer" (GetInput req))).
Definition finishTaskMessage : json := clientEvent (header clientEventFinishTask) marshalFinishTask.
End Asking.

(** ** DoSpeech and its reader

    What [ReadMessage] gives. *)
Inductive Incoming : Type :=
| BinaryMessage (bytes : string)
| TextMessage (text : string)
| ReadFails (err : string).

(** What DoSpeech returns; a panic is one of its goroutine. *)
Definition Result : Type := outcome (option AudioResponse * option gerror).

Inductive mainAt : Type :=
| Requesting                                (* up to and with the write of the run-task message *)
| Selecting
| Returned (r : Result).

Inductive readerAt : Type :=
| Reading
| WritingContinue
| WritingFinish
| SendingError (err : gerror) (returns : bool)   (* chanError <- err, then return or read on *)
| SendingResult
| ClosingError                              (* the deferred calls, last one first *)
| ClosingResult
| Exited.

(** A channel of capacity 1. *)
Record chan (A : Type) : Type := mkChan { ch_Buffer : option A; ch_Closed : bool }.
Arguments mkChan {A}.
Arguments ch_Buffer {A}.
Arguments ch_Closed {A}.
Definition openChan {A} : chan A := mkChan None false.
Definition closeChan {A} (c : chan A) : chan A := mkChan (ch_Buffer c) true.

(** The server sends a message once it has read so many of the client's. *)
Record session : Type := mkSession {
  se_Main : mainAt;
  se_Reader : readerAt;
  se_Incoming : list (nat * Incoming);
  se_Sent : list json;
  se_Audio : string;
  se_Error : chan gerror;
  se_Result : chan unit }.

Definition newSession (incoming : list (nat * Incoming)) : session :=
  mkSession Requesting Reading incoming [] "" openChan openChan.

Section Session.
Context `{JSONPath} `{FloatText} `{JSONText}.
Variable taskID : string.
Variable req : LLMRequest.
(** The connection: how a write fails, by what was written before, and how
    anything does once the connection is closed. *)
Variable writeError : list json -> json -> option string.
Variable closedError : string.

(** DoSpeech has returned, and has closed the connection. *)
Definition connClosed (s : session) : bool := match se_Main s with Returned _ => true | _ => false end.

Definition WriteJSON (s : session) (message : json) : option string :=
  if connClosed s then Some closedError else writeError (se_Sent s) message.

Definition audioResponse (s : session) : AudioResponse := NewAudioResponseFromBytes StatusOK "audio/mp3" (GetModel req) (se_Audio s).

Definition at_main (m : mainAt) (s : session) : session :=
  mkSession m (se_Reader s) (se_Incoming s) (se_Sent s) (se_Audio s) (se_Error s) (se_Result s).
Definition at_reader (r : readerAt) (s : session) : session :=
  mkSession (se_Main s) r (se_Incoming s) (se_Sent s) (se_Audio s) (se_Error s) (se_Result s).
Definition wrote (message : json) (s : session) : session :=
  mkSession (se_Main s) (se_Reader s) (se_Incoming s) (se_Sent s ++ [message]) (se_Audio s) (se_Error s) (se_Result s).
Definition with_error (c : chan gerror) (s : session) : session :=
  mkSession (se_Main s) (se_Reader s) (se_Incoming s) (se_Sent s) (se_Audio s) c (se_Result s).
Definition with_result (c : chan unit) (s : session) : session :=
  mkSession (se_Main s) (se_Reader s) (se_Incoming s) (se_Sent s) (se_Audio s) (se_Error s) c.

(** The next steps of the caller's goroutine: a [select] takes any channel
    that is ready; one that is closed and empty gives the zero value. *)
Definition main_steps (s : session) : list session :=
  match se_Main s with
  | Requesting =>
      match runTaskMessage taskID req with
      | Panic p => [at_main (Returned (Panic p)) s]
      | Ret (inr e) => [at_main (Returned (Ret (None, Some (internalError e)))) s]
      | Ret (inl message) =>
          match WriteJSON s message with
          | Some e => [at_main (Returned (Ret (None, Some (internalError e)))) s]
          | None => [at_main Selecting (wrote message s)]
          end
      end
  | Selecting =>
      match se_Error s with
      | mkChan (Some e) closed => [at_main (Returned (Ret (None, Some e))) (with_error (mkChan None closed) s)]
      | mkChan None true => [at_main (Returned (Ret (None, None))) s]
      | mkChan None false => []
      end
      ++ match se_Result s with
         | mkChan None false => []
         | mkChan _ closed => [at_main (Returned (Ret (Some (audioResponse s), None))) (with_result (mkChan None closed) s)]
         end
  | Returned _ => []
  end.

(** Where the reader goes with a message. *)
Definition onEvent (h : serverEventHeader) : readerAt :=
  let event := sv_Event h in
  if String.eqb event serverEventTaskStarted then WritingContinue
  else if String.eqb event serverEventTaskFailed then SendingError (taskFailed h) false
  else if String.eqb event serverEventResultGenerated then Reading
  else if String.eqb event serverEventTaskFinished then SendingResult
  else Reading.
Definition onMessage (m : Incoming) (s : session) : session :=
  match m with
  | ReadFails e => at_reader (SendingError (internalError e) true) s
  | BinaryMessage bytes =>
      mkSession (se_Main s) Reading (se_Incoming s) (se_Sent s) (se_Audio s +:+ bytes) (se_Error s) (se_Result s)
  | TextMessage text =>
      match decodeEvent text with
      | inr e => at_reader (SendingError (internalError e) true) s
      | inl h => at_reader (onEvent h) s
      end
  end.
Definition consumed (s : session) : session :=
  mkSession (se_Main s) (se_Reader s) (tail (se_Incoming s)) (se_Sent s) (se_Audio s) (se_Error s) (se_Result s).

(** The writes of the reader. *)
Definition writing (message : json) (next : readerAt) (s : session) : list session :=
  match WriteJSON s message with
  | Some e => [at_reader (SendingError (internalError e) true) s]
  | None => [at_reader next (wrote message s)]
  end.

(** The next steps of the goroutine that reads.  On a closed connection a read
    may still give what has arrived. *)
Definition reader_steps (s : session) : list session :=
  match se_Reader s with
  | Reading =>
      match se_Incoming s with
      | (after, m) :: _ => if (after <=? length (se_Sent s))%nat then [onMessage m (consumed s)] else []
      | [] => []
      end
      ++ (if connClosed s then [at_reader (SendingError (internalError closedError) true) s] else [])
  | WritingContinue => writing (continueTaskMessage taskID req) WritingFinish s
  | WritingFinish => writing (finishTaskMessage taskID) Reading s
  | SendingError e returns =>
      match ch_Buffer (se_Error s) with
      | Some _ => []                        (* it waits for a receiver *)
      | None => [at_reader (if returns then ClosingError else Reading) (with_error (mkChan (Some e) (ch_Closed (se_Error s))) s)]
      end
  | SendingResult =>
      match ch_Buffer (se_Result s) with
      | Some _ => []
      | None => [at_reader Reading (with_result (mkChan (Some tt) (ch_Closed (se_Result s))) s)]
      end
  | ClosingError => [at_reader ClosingResult (with_error (closeChan (se_Error s)) s)]
  | ClosingResult => [at_reader Exited (with_result (closeChan (se_Result s)) s)]
  | Exited => []
  end.

(** One step of either goroutine. *)
Definition next (s : session) : list session := main_steps s ++ reader_steps s.
Definition session_step (s s' : session) : Prop := s' ∈ next s.

(** DoSpeech up to the dial.  When the dial fails with an answer, as much of
    its body as can be read is taken. *)
Definition dialHeaders (authHeader : string) : list (string * string) :=
  [("Authorization", bearerToken authHeader); ("X-Dashscope-Datainspection", "enable")].
Definition DoSpeech (dial : string -> list (string * string) -> list (nat * Incoming) + string * option RawResponse)
    (authHeader : string) : outcome (session + gerror) :=
  match dial defaultAlibabaSpeechWSURL (dialHeaders authHeader) with
  | inl incoming => Ret (inl (newSession incoming))
  | inr (e, None) => Ret (inr (badGateway e))
  | inr (_, Some resp) => e ← ParseUpstreamError (Some (buffered resp)) (raw_Text resp); Ret (inr (EBase e))
  end.
End Session.

(** ** The steps, one by one *)
Section Sessions.
Context `{JSONPath} `{FloatText} `{JSONText}.
Variable taskID : string.
Variable req : LLMRequest.
Variable writeError : list json -> json -> option string.
Variable closedError : string.
Local Abbreviation step := (session_step taskID req writeError closedError).

(** Takes a step apart: which goroutine makes it, from where, to where. *)
Ltac list_cases :=
  repeat match goal with
  | H : _ ∈ [] |- _ => by apply elem_of_nil in H
  | H : _ ∈ _ ++ _ |- _ => apply elem_of_app in H as [H|H]
  | H : _ ∈ [_] |- _ => apply list_elem_of_singleton in H; subst
  | H : ?s' ∈ _ :: _ :: _ |- _ => is_var s'; apply elem_of_cons in H as [->|H]
  | H : _ ∈ writing _ _ _ _ _ |- _ => unfold writing in H
  | H : _ ∈ match ?x with _ => _ end |- _ => destruct x eqn:?
  end.
Ltac session_cases s Hstep :=
  unfold session_step, next in Hstep; apply elem_of_app in Hstep as [Hstep|Hstep];
  destruct s as [m r inc sent audio [eb ec] [rb rc]];
  unfold main_steps, reader_steps in Hstep; cbn in Hstep; list_cases; cbn in *; simplify_eq/=.

Definition reader_rank (r : readerAt) : nat :=
  match r with
  | Exited => 0 | ClosingResult => 1 | ClosingError => 2 | SendingError _ true => 3 | Reading => 4
  | SendingError _ false | SendingResult | WritingFinish => 5 | WritingContinue => 6
  end.
Definition main_rank (m : mainAt) : nat := match m with Requesting => 2 | Selecting => 1 | Returned _ => 0 end.
Definition session_rank (s : session) : nat :=
  (8 * length (se_Incoming s) + reader_rank (se_Reader s) + main_rank (se_Main s))%nat.

Lemma onEvent_rank h : (4 <= reader_rank (onEvent h) <= 6)%nat.
Proof. unfold onEvent. repeat case_match; cbn; lia. Qed.
Lemma onMessage_rank m s : (session_rank (onMessage m s) <= 8 * length (se_Incoming s) + 6 + main_rank (se_Main s))%nat.
Proof.
  unfold onMessage, session_rank. destruct m as [b|t|e]; cbn; [lia| |lia].
  destruct (decodeEvent t) as [h|]; cbn; [|lia]. pose proof (onEvent_rank h). lia.
Qed.

Lemma step_ranks s s' : step s s' -> (session_rank s' < session_rank s)%nat.
Proof.
  intros Hstep. session_cases s Hstep; try (unfold session_rank; cbn; lia).
  all: try (unfold session_rank; cbn; case_match; cbn; lia).
  all: eapply Nat.le_lt_trans; [apply onMessage_rank|]; unfold session_rank; cbn; lia.
Qed.

(** ** One answer, or one error *)
Definition is_closing (r : readerAt) : bool := match r with ClosingError | ClosingResult | Exited => true | _ => false end.
Definition has_closed (r : readerAt) : bool := match r with ClosingResult | Exited => true | _ => false end.

(** The results that DoSpeech may give: without a format it has nothing to
    say. *)
Definition result_ok (r : Result) : Prop :=
  match GetResponseFormat req with
  | None => r = Panic nil_deref
  | Some _ => (exists a, r = Ret (Some a, None)) \/ (exists e, r = Ret (None, Some e))
  end.

(** The reader closes the channel of errors only with an error in it, or taken
    from it. *)
Definition session_ok (s : session) : Prop :=
  match se_Main s with
  | Requesting => True
  | Selecting => GetResponseFormat req <> None
  | Returned r => result_ok r
  end /\
  (connClosed s = false -> (is_closing (se_Reader s) = true -> ch_Buffer (se_Error s) <> None) /\
                           (ch_Closed (se_Error s) = true -> has_closed (se_Reader s) = true)).

Lemma runTask_result m : runTaskMessage taskID req = m ->
  match m with Panic p => p = nil_deref /\ GetResponseFormat req = None | Ret _ => GetResponseFormat req <> None end.
Proof. intros <-. unfold runTaskMessage, speechFormat. by destruct (GetResponseFormat req). Qed.

Lemma result_ok_returned a e : GetResponseFormat req <> None -> (a = None <-> e <> None) -> result_ok (Ret (a, e)).
Proof.
  unfold result_ok. destruct (GetResponseFormat req); [|done]. intros _ H12.
  destruct a as [a|], e as [e|]; [exfalso; by destruct H12 as [_ H2]; discriminate H2|left; eauto|right; eauto|exfalso; by apply (proj1 H12)].
Qed.

Lemma onEvent_open h : is_closing (onEvent h) = false.
Proof. unfold onEvent. by repeat case_match. Qed.
Lemma onMessage_keeps m s : se_Main (onMessage m s) = se_Main s /\ se_Error (onMessage m s) = se_Error s /\
  is_closing (se_Reader (onMessage m s)) = false /\ se_Sent (onMessage m s) = se_Sent s /\ se_Result (onMessage m s) = se_Result s.
Proof. destruct m as [b|t|e]; cbn; try done. destruct (decodeEvent t) as [h|]; cbn; [|done]. by rewrite onEvent_open. Qed.

Lemma onMessage_ok m s : session_ok s -> se_Reader s = Reading -> session_ok (onMessage m (consumed s)).
Proof.
  intros [Hm Hr] Hreading. pose proof (onMessage_keeps m (consumed s)) as (Em & Ee & Er & _). unfold session_ok, connClosed in *.
  rewrite Em, Ee, Er. cbn in *. split; [done|]. intros Hopen. split; [done|]. intros Hc.
  destruct (Hr Hopen) as [_ Hcl]. rewrite Hreading in Hcl. by specialize (Hcl Hc).
Qed.

Lemma step_ok s s' : session_ok s -> step s s' -> session_ok s'.
Proof.
  intros Hok Hstep. pose proof Hok as [Hm Hr].
  session_cases s Hstep; try (eapply onMessage_ok; [exact Hok|reflexivity]); clear Hok; unfold session_ok, connClosed in *; cbn in *;
    repeat match goal with H : runTaskMessage _ _ = _ |- _ => apply runTask_result in H end;
    (split; [try done|try done; try (by intros Hopen; try rewrite Heqb in *; destruct (Hr Hopen) as [Hb Hc]; naive_solver)]);
    try (apply result_ok_returned; [done|by split]).
  all: lazymatch goal with
       | |- result_ok (Panic _) => unfold result_ok; by destruct Heqo as [-> ->]
       | |- result_ok _ => destruct (Hr eq_refl) as [Hb Hc]; exfalso; apply Hb; [|done]; by destruct r; try discriminate (Hc eq_refl)
       | |- _ => idtac
       end.
Qed.

Lemma session_reachable_ok incoming s : rtc step (newSession incoming) s -> session_ok s.
Proof.
  intros Hs. remember (newSession incoming) as s0 eqn:E. assert (session_ok s0) as Hok by (subst; split; [done|]; by split).
  clear E. induction Hs; eauto using step_ok.
Qed.

(** ** A server that keeps to the protocol

    How a message ends a session, if it does: the task is finished, or an
    error reaches DoSpeech, after which the reader may end as well. *)
Inductive ending : Type := Finished | Broken (e : gerror) (returns : bool).

Definition endingOf (m : Incoming) : option ending :=
  match m with
  | BinaryMessage _ => None
  | ReadFails e => Some (Broken (internalError e) true)
  | TextMessage text =>
      match decodeEvent text with
      | inr e => Some (Broken (internalError e) true)
      | inl h =>
          if String.eqb (sv_Event h) serverEventTaskFailed then Some (Broken (taskFailed h) false)
          else if String.eqb (sv_Event h) serverEventTaskFinished then Some Finished
          else None
      end
  end.

(** What DoSpeech may then return, with the audio that it has. *)
Definition answers (e : ending) (audio : string) : list Result :=
  let whole := Ret (Some (NewAudioResponseFromBytes StatusOK "audio/mp3" (GetModel req) audio), None) in
  match e with
  | Finished => [whole]
  | Broken err false => [Ret (None, Some err)]
  | Broken err true => [Ret (None, Some err); whole]
  end.

(** A message between the start and the end, sent once the client has said all
    that it has to. *)
Definition audioMessage (m : nat * Incoming) : Prop :=
  (m.1 <= 3)%nat /\
  match m.2 with
  | BinaryMessage _ => True
  | TextMessage text => exists h, decodeEvent text = inl h /\ sv_Event h = serverEventResultGenerated
  | ReadFails _ => False
  end.
Definition audioOf (m : nat * Incoming) : string := match m.2 with BinaryMessage bytes => bytes | _ => "" end.
Definition spoken (ms : list (nat * Incoming)) : string := foldr (fun m s => audioOf m +:+ s) "" ms.

Lemma spoken_snoc ms m : spoken (ms ++ [m]) = spoken ms +:+ audioOf m.
Proof. unfold spoken. induction ms as [|m' ms IH]; cbn; [by rewrite string_app_nil_r|by rewrite IH, string_app_assoc]. Qed.

Section Protocol.
Variables (started : string) (h0 : serverEventHeader) (middle : list (nat * Incoming)) (k : nat) (lastMessage : Incoming) (e : ending) (run : json).
Hypothesis writes : forall sent m, writeError sent m = None.
Hypothesis asks : runTaskMessage taskID req = Ret (inl run).
Hypothesis starts : decodeEvent started = inl h0 /\ sv_Event h0 = serverEventTaskStarted.
Hypothesis speaks : Forall audioMessage middle.
Hypothesis ends_by : (k <= 3)%nat.
Hypothesis ends_with : endingOf lastMessage = Some e.

Definition script : list (nat * Incoming) := (1%nat, TextMessage started) :: middle ++ [(k, lastMessage)].
Definition said : list json := [run; continueTaskMessage taskID req; finishTaskMessage taskID].

(** The reader and the channels from the last message on. *)
Definition tails (e : ending) : list (readerAt * chan gerror * chan unit) :=
  match e with
  | Finished => [(SendingResult, openChan, openChan); (Reading, openChan, mkChan (Some tt) false)]
  | Broken err false => [(SendingError err false, openChan, openChan); (Reading, mkChan (Some err) false, openChan)]
  | Broken err true =>
      [(SendingError err true, openChan, openChan); (ClosingError, mkChan (Some err) false, openChan);
       (ClosingResult, mkChan (Some err) true, openChan); (Exited, mkChan (Some err) true, mkChan None true)]
  end.

Definition enters (e : ending) : readerAt := match e with Finished => SendingResult | Broken err returns => SendingError err returns end.

Inductive phase : session -> Prop :=
| phase_new : phase (newSession script)
| phase_asked : phase (mkSession Selecting Reading script [run] "" openChan openChan)
| phase_continue : phase (mkSession Selecting WritingContinue (tail script) [run] "" openChan openChan)
| phase_finish : phase (mkSession Selecting WritingFinish (tail script) (take 2 said) "" openChan openChan)
| phase_audio heard rest : middle = heard ++ rest ->
    phase (mkSession Selecting Reading (rest ++ [(k, lastMessage)]) said (spoken heard) openChan openChan)
| phase_last r ce cr : (r, ce, cr) ∈ tails e -> phase (mkSession Selecting r [] said (spoken middle) ce cr)
| phase_done r reader incoming audio ce cr : r ∈ answers e (spoken middle) -> phase (mkSession (Returned r) reader incoming said audio ce cr).

Lemma reads_audio m s : audioMessage m -> se_Reader s = Reading ->
  onMessage m.2 s = mkSession (se_Main s) Reading (se_Incoming s) (se_Sent s) (se_Audio s +:+ audioOf m) (se_Error s) (se_Result s).
Proof.
  destruct s as [ma r inc se au ce cr], m as [n [b|t|err]]; cbn; intros [_ Hm] ->; cbn in Hm; [done| |done].
  destruct Hm as (h & E & Ev). rewrite E. unfold onEvent. rewrite Ev. cbn. by rewrite string_app_nil_r.
Qed.

Lemma reads_last s : onMessage lastMessage s = at_reader (enters e) s.
Proof.
  revert ends_with. clear. destruct lastMessage as [b|t|err]; cbn; [done| |by intros [= <-]].
  destruct (decodeEvent t) as [h|err]; [|by intros [= <-]]. unfold onEvent.
  destruct (String.eqb_spec (sv_Event h) serverEventTaskFailed) as [Ef|_].
  { intros [= <-]. rewrite Ef. done. }
  destruct (String.eqb_spec (sv_Event h) serverEventTaskFinished) as [Ef|_]; [|done].
  intros [= <-]. rewrite Ef. done.
Qed.

Lemma reads_started s : onMessage (TextMessage started) s = at_reader WritingContinue s.
Proof. destruct starts as [E Ev]. cbn. rewrite E. unfold onEvent. by rewrite Ev. Qed.

Lemma writes_open s m : connClosed s = false -> WriteJSON writeError closedError s m = None.
Proof. intros Ho. unfold WriteJSON. by rewrite Ho, writes. Qed.
Lemma writes_closed s m : connClosed s = true -> WriteJSON writeError closedError s m = Some closedError.
Proof. intros Ho. unfold WriteJSON. by rewrite Ho. Qed.

(** Once DoSpeech has returned, nothing more is said. *)
Lemma returned_stays s s' r : se_Main s = Returned r -> step s s' -> se_Main s' = Returned r /\ se_Sent s' = se_Sent s.
Proof.
  intros Hr Hstep. unfold session_step, next in Hstep. apply elem_of_app in Hstep as [Hstep|Hstep].
  { unfold main_steps in Hstep. rewrite Hr in Hstep. by apply elem_of_nil in Hstep. }
  assert (connClosed s = true) as Hc by (unfold connClosed; by rewrite Hr).
  destruct s as [m rd inc sent audio [eb ec] [rb rc]]. cbn in Hr. subst m.
  unfold reader_steps, writing in Hstep. rewrite ?writes_closed in Hstep by done. cbn in Hstep. list_cases; try done.
  all: match goal with |- context [onMessage ?m ?s] => pose proof (onMessage_keeps m s) as (-> & _ & _ & -> & _) end; done.
Qed.

Local Abbreviation nexts := (next taskID req writeError closedError).
Ltac one_step := unfold next, main_steps, reader_steps, writing; cbn [se_Main se_Reader se_Incoming se_Sent se_Error se_Result newSession];
  rewrite ?asks, ?writes_open by done.

Lemma next_new : nexts (newSession script) = [mkSession Selecting Reading script [run] "" openChan openChan].
Proof. by one_step. Qed.
Lemma next_asked : nexts (mkSession Selecting Reading script [run] "" openChan openChan)
  = [mkSession Selecting WritingContinue (tail script) [run] "" openChan openChan].
Proof. one_step. cbn -[onMessage]. by rewrite reads_started. Qed.
Lemma next_continue : nexts (mkSession Selecting WritingContinue (tail script) [run] "" openChan openChan)
  = [mkSession Selecting WritingFinish (tail script) (take 2 said) "" openChan openChan].
Proof. by one_step. Qed.
Lemma next_finish : nexts (mkSession Selecting WritingFinish (tail script) (take 2 said) "" openChan openChan)
  = [mkSession Selecting Reading (tail script) said "" openChan openChan].
Proof. by one_step. Qed.
Lemma next_audio m rest audio : audioMessage m ->
  nexts (mkSession Selecting Reading (m :: rest) said audio openChan openChan)
  = [mkSession Selecting Reading rest said (audio +:+ audioOf m) openChan openChan].
Proof.
  intros Hm. pose proof (proj1 Hm) as Hn. one_step. destruct m as [n m]. cbn in Hn. apply Nat.leb_le in Hn.
  change (length said) with 3%nat. rewrite Hn. cbn -[onMessage]. by rewrite (reads_audio (n, m)).
Qed.
Lemma next_last audio : nexts (mkSession Selecting Reading [(k, lastMessage)] said audio openChan openChan)
  = [mkSession Selecting (enters e) [] said audio openChan openChan].
Proof.
  one_step. change (length said) with 3%nat. apply Nat.leb_le in ends_by. rewrite ends_by. cbn -[onMessage]. by rewrite reads_last.
Qed.

Lemma phase_step s s' : phase s -> step s s' -> phase s'.
Proof.
  intros Hs Hstep. destruct Hs as [| | | |heard rest Hmid|r ce cr Htail|r rd inc audio ce cr Hr].
  - unfold session_step in Hstep. rewrite next_new in Hstep. apply list_elem_of_singleton in Hstep as ->. constructor.
  - unfold session_step in Hstep. rewrite next_asked in Hstep. apply list_elem_of_singleton in Hstep as ->. constructor.
  - unfold session_step in Hstep. rewrite next_continue in Hstep. apply list_elem_of_singleton in Hstep as ->. constructor.
  - unfold session_step in Hstep. rewrite next_finish in Hstep. apply list_elem_of_singleton in Hstep as ->.
    exact (phase_audio [] middle eq_refl).
  - unfold session_step in Hstep. destruct rest as [|m rest]; cbn [app] in Hstep.
    + rewrite next_last in Hstep. apply list_elem_of_singleton in Hstep as ->. rewrite app_nil_r in Hmid. subst heard.
      apply phase_last. destruct e as [|err []]; left.
    + rewrite next_audio in Hstep by (rewrite Hmid, Forall_app, Forall_cons in speaks; tauto).
      apply list_elem_of_singleton in Hstep as ->. rewrite <- spoken_snoc. apply phase_audio. by rewrite <- app_assoc.
  - destruct e as [|err []] eqn:Ee; cbn in Htail; rewrite ?elem_of_cons, elem_of_nil in Htail; destruct_or? Htail; simplify_eq;
      unfold session_step, next, main_steps, reader_steps, audioResponse in Hstep; cbn in Hstep; list_cases; unfold at_main, at_reader; cbn;
      first [apply phase_done|apply phase_last]; rewrite ?Ee; first [left|right; left|right; right; left|right; right; right; left].
  - eapply (returned_stays _ _ r) in Hstep as [Em Es]; [|reflexivity]. destruct s' as [m' r' i' s' a' ce' cr']. cbn in *. subst. by constructor.
Qed.

Lemma phase_moves s : phase s -> (exists s', step s s') \/ exists r, se_Main s = Returned r /\ se_Sent s = said.
Proof.
  assert (forall s', nexts s = [s'] -> exists s', step s s') as Hone.
  { intros s' E. exists s'. unfold session_step. rewrite E. by apply list_elem_of_singleton. }
  intros Hs. destruct Hs as [| | | |heard rest Hmid|r ce cr Htail|r rd inc audio ce cr Hr]; [left..|by right; eexists].
  - eapply Hone, next_new.
  - eapply Hone, next_asked.
  - eapply Hone, next_continue.
  - eapply Hone, next_finish.
  - destruct rest as [|m rest]; [eapply Hone, next_last|]. eapply Hone, next_audio.
    rewrite Hmid, Forall_app, Forall_cons in speaks. tauto.
  - destruct e as [|err []] eqn:Ee; cbn in Htail; rewrite ?elem_of_cons, elem_of_nil in Htail; destruct_or? Htail; simplify_eq;
      eexists; unfold session_step, next, main_steps, reader_steps; cbn; left.
Qed.

Lemma steps_to s s' s'' : s' ∈ nexts s -> rtc step s' s'' -> rtc step s s''.
Proof. intros. by eapply rtc_l. Qed.

Lemma reads_all heard rest : middle = heard ++ rest ->
  rtc step (mkSession Selecting Reading (rest ++ [(k, lastMessage)]) said (spoken heard) openChan openChan)
           (mkSession Selecting (enters e) [] said (spoken middle) openChan openChan).
Proof.
  revert heard. induction rest as [|m rest IH]; intros heard Hmid.
  - rewrite app_nil_r in Hmid. subst heard. cbn [app]. eapply steps_to; [rewrite next_last; left|done].
  - assert (audioMessage m) as Hm by (rewrite Hmid, Forall_app, Forall_cons in speaks; tauto).
    cbn [app]. eapply steps_to; [rewrite next_audio by done; left|]. rewrite <- spoken_snoc. apply IH. by rewrite <- app_assoc.
Qed.

Lemma comes_to_the_end :
  rtc step (newSession script) (mkSession Selecting (enters e) [] said (spoken middle) openChan openChan).
Proof.
  eapply steps_to; [rewrite next_new; left|]. eapply steps_to; [rewrite next_asked; left|].
  eapply steps_to; [rewrite next_continue; left|]. eapply steps_to; [rewrite next_finish; left|]. exact (reads_all [] middle eq_refl).
Qed.

(** Each answer is given when DoSpeech is slow, or not. *)
Lemma reaches_answer r : r ∈ answers e (spoken middle) -> exists s, rtc step (newSession script) s /\ se_Main s = Returned r.
Proof.
  intros Hr. pose proof comes_to_the_end as Hpath. destruct e as [|err []]; cbn in Hr, Hpath; list_cases;
    eexists; (split; [etransitivity; [exact Hpath|]|]).
  1, 3, 7: eapply steps_to; [left|]; eapply steps_to; [left|apply rtc_refl].
  1, 2, 5: reflexivity.
  - eapply steps_to; [left|]. do 2 (eapply steps_to; [right; left|]). eapply steps_to; [right; left|apply rtc_refl].
  - reflexivity.
Qed.

Lemma reachable_phase s : rtc step (newSession script) s -> phase s.
Proof.
  intros Hs. remember (newSession script) as s0 eqn:E. assert (phase s0) as Hp by (subst; constructor).
  clear E. induction Hs; eauto using phase_step.
Qed.
End Protocol.

(** ** The properties *)

(** [DoSpeech] gives one of an answer and an error, never both and never
    neither, whatever the server sends and however the two goroutines
    interleave, channels that are closed under its [select] included; and
    without a response format, nothing but the panic of a nil pointer. *)
Theorem speech_session_answers_once (incoming : list (nat * Incoming)) (s : session) (r : Result)
    (Hs : rtc step (newSession incoming) s) (Hr : se_Main s = Returned r) :
  match GetResponseFormat req with
  | None => r = Panic nil_deref
  | Some _ => (exists a, r = Ret (Some a, None)) \/ (exists e, r = Ret (None, Some e))
  end.
Proof. apply session_reachable_ok in Hs as [Hm _]. rewrite Hr in Hm. exact Hm. Qed.

(** With a server that sends finitely many messages, as those of a session are,
    no state has an infinite run. *)
Lemma speech_session_finite (s : session) : Acc (flip step) s.
Proof.
  induction s as [s IH] using (well_founded_induction (Wf_nat.well_founded_ltof _ session_rank)).
  constructor. intros s' Hstep. apply IH, step_ranks, Hstep.
Qed.

(** C18: with a server that keeps to its protocol, what [DoSpeech] can return
    is known: when the task finishes, the audio that it was sent, all of it
    and in order; when it fails, that error; when the connection is lost, the
    error, or the audio that came before as if it were whole.  Whatever the
    order of the steps it never waits in vain, and has said to the server what
    the protocol asks for, in that order. *)
Theorem speech_session_speaks started h0 middle k lastMessage e run
    (Hwrites : forall sent m, writeError sent m = None) (Hrun : runTaskMessage taskID req = Ret (inl run))
    (Hstart : decodeEvent started = inl h0 /\ sv_Event h0 = serverEventTaskStarted) (Hmiddle : Forall audioMessage middle)
    (Hk : (k <= 3)%nat) (Hend : endingOf lastMessage = Some e) :
  let start := newSession ((1%nat, TextMessage started) :: middle ++ [(k, lastMessage)]) in
  (forall r, (exists s, rtc step start s /\ se_Main s = Returned r) <-> r ∈ answers e (spoken middle)) /\
  (forall s, rtc step start s -> (exists s', step s s') \/
     (connClosed s = true /\ se_Sent s = [run; continueTaskMessage taskID req; finishTaskMessage taskID])).
Proof.
  intros start. split.
  - intros r. split; [|by eapply reaches_answer].
    intros (s & Hs & Hr). eapply reachable_phase in Hs; [|done..].
    inversion Hs; subst; simplify_eq/=; done.
  - intros s Hs. eapply reachable_phase in Hs; [|done..].
    eapply phase_moves in Hs as [?|(r & Hr & Hsent)]; [by left| |done..]. right. by split; [unfold connClosed; rewrite Hr|].
Qed.
End Sessions.

(** ** Examples *)
#[local] Existing Instances rfc6902 dotted_paths dotted_paths_laws.
#[local] Instance no_floats : FloatText := fun _ => inr "invalid syntax".
Definition ex_event (event : string) : json :=
  JObj {[ "header" := JObj (<["event" := JStr event]> (<["error_code" := JStr "Throttling"]> {[ "error_message" := JStr "too many tasks" ]})) ]}.
(** The texts of the example name their event. *)
#[local] Instance ex_texts : JSONText := fun text => if String.eqb text "{" then None else Some (ex_event text).

Definition ex_speech (format : option string) : LLMRequest :=
  mkLLMRequest RequestTypeTextToSpeech "cosyvoice-v2" false None None None None None
    (Some (mkSpeech "Good morning" "longxiaochun" format None (Some {[ "volume" := JStr "80" ]}))).
Definition ex_writes (sent : list json) (m : json) : option string := None.
Definition ex_middle : list (nat * Incoming) := [(3%nat, BinaryMessage "ab"); (3%nat, TextMessage "result-generated"); (3%nat, BinaryMessage "cd")].
Definition ex_run : json := match runTaskMessage "t" (ex_speech (Some "wav")) with Ret (inl run) => run | _ => JNull end.

(** Every result of a session, found by trying every order of its steps. *)
Fixpoint results (fuel : nat) (req : LLMRequest) (s : session) : list Result :=
  match fuel with
  | O => []
  | S fuel =>
      match se_Main s with
      | Returned r => [r]
      | _ => flat_map (results fuel req) (next "t" req ex_writes "closed" s)
      end
  end.
Definition answered (r : Result) : string :=
  match r with
  | Ret (Some a, None) => "audio " +:+ au_BodyBytes a
  | Ret (None, Some e) => match ErrorText e with Ret t => "error " +:+ t | Panic t => t end
  | Ret _ => "nothing"
  | Panic t => t
  end.
Definition ex_answers (format : option string) (tail : list Incoming) : list string :=
  map answered (results 40 (ex_speech format) (newSession ((1%nat, TextMessage "task-started") :: ex_middle ++ map (pair 3%nat) tail))).

Example session_finished : ex_answers (Some "wav") [TextMessage "task-finished"] = ["audio abcd"].
Proof. vm_compute. done. Qed.
Example session_failed :
  ex_answers (Some "wav") [TextMessage "task-failed"] = ["error failed to run task, error_code: Throttling, error_message: too many tasks"].
Proof. vm_compute. done. Qed.
(** Half of the audio can pass for all of it. *)
Example session_lost : remove_dups (ex_answers (Some "wav") [ReadFails "EOF"]) = ["error internal error: EOF"; "audio abcd"].
Proof. vm_compute. done. Qed.
(** A server that hangs up when it has finished can make an error of a whole
    speech. *)
Example session_hung_up :
  remove_dups (ex_answers (Some "wav") [TextMessage "task-finished"; ReadFails "EOF"]) = ["error internal error: EOF"; "audio abcd"].
Proof. vm_compute. done. Qed.
(** The format mp3 of the code is never asked for: the empty text asks for it,
    but a request has none, and a missing one is a panic. *)
Example session_without_format : ex_answers None [TextMessage "task-finished"] = [nil_deref].
Proof. vm_compute. done. Qed.

Lemma speech_session_answers_once_witness :
  exists s r, rtc (session_step "t" (ex_speech None) ex_writes "closed") (newSession []) s /\ se_Main s = Returned r /\ r = Panic nil_deref.
Proof.
  exists (at_main (Returned (Panic nil_deref)) (newSession [])), (Panic nil_deref).
  assert (rtc (session_step "t" (ex_speech None) ex_writes "closed") (newSession []) (at_main (Returned (Panic nil_deref)) (newSession []))) as Hs
    by (apply rtc_once; left).
  split; [exact Hs|split; [reflexivity|]].
  exact (speech_session_answers_once "t" (ex_speech None) ex_writes "closed" [] _ (Panic nil_deref) Hs eq_refl).
Defined.

Lemma speech_session_speaks_witness :
  exists s, rtc (session_step "t" (ex_speech (Some "wav")) ex_writes "closed")
              (newSession ((1%nat, TextMessage "task-started") :: ex_middle ++ [(3%nat, TextMessage "task-finished")])) s /\
    se_Main s = Returned (Ret (Some (NewAudioResponseFromBytes 200 "audio/mp3" "cosyvoice-v2" "abcd"), None)).
Proof.
  apply (speech_session_speaks "t" (ex_speech (Some "wav")) ex_writes "closed" "task-started"
           (mkServerHeader "" "task-started" None "Throttling" "too many tasks") ex_middle 3 (TextMessage "task-finished") Finished ex_run).
  - reflexivity.
  - vm_compute. reflexivity.
  - split; vm_compute; reflexivity.
  - repeat constructor. exists (mkServerHeader "" "result-generated" None "Throttling" "too many tasks"). split; vm_compute; reflexivity.
  - lia.
  - vm_compute. reflexivity.
  - left.
Defined.
