(* ===== verification/Route.v ===== *)
(** * pkg/route/route: a route, its filters, its balancer and its fallback

    A route is proved against what it is told of the cluster manager, the
    class [ClusterManager]; [Cluster] supplies the instance. *)
From S2P Require Import Prelude Strconv Utils GoFloat Json Api LoadBalance Errors Request Response Effects Stream Filters.
From S2P Require Import Auth Usage RateLimit ClusterFilters Cluster.

Definition defaultRouteFallbackMaxRetries : Z := 3.

(** ** The manager as the route sees it *)
Class ClusterManager (X : Type) :=
  manager_HandleRequest : string -> Eff X (option AnyResponse * option gerror).

Class ClusterManagerLaws X `{ClusterManager X} : Prop := {
  manager_result name w w' resp err :
    manager_HandleRequest name w = Ret (w', (resp, err)) ->
    match err with Some e => IsLLMError (Some e) = true | None => is_Some resp end }.

(** ** What a route keeps, and what it asks of its surroundings *)
Record RouteEnv (X : Type) : Type := mkRouteEnv {
  getLB : X -> LoadBalancer;              (* the route's own balancer *)
  setLB : LoadBalancer -> X -> X;
  randInt : Eff X (option Z);             (* crypto/rand: a draw, or its failure *)
  sleep : Z -> Eff X unit }.
Arguments mkRouteEnv {X}.
Arguments getLB {X}.
Arguments setLB {X}.
Arguments randInt {X}.
Arguments sleep {X}.

Record routeDefault (X : Type) : Type := mkRouteDefault {
  rd_cfg : Route;   (* New stores a non-nil configuration *)
  rd_nsMap : gmap string string;
  rd_routeFilters : list (RequestFilter X);
  rd_reversedRouteFilters : list (RequestFilter X) }.
Arguments mkRouteDefault {X}.
Arguments rd_cfg {X}.
Arguments rd_nsMap {X}.
Arguments rd_routeFilters {X}.
Arguments rd_reversedRouteFilters {X}.

Definition buildBackendNsMap (cfg : Route) : gmap string string :=
  foldl (fun nsMap target =>
           match rt_destination target with
           | None => nsMap
           | Some d => <[dst_backend d := dst_namespace d]> nsMap
           end) ∅ (route_targets cfg).

(** ** pkg/registry/config: the request filters *)
Section Registry.
Context {X : Type}.
Variable Match : string -> string -> option bool.
Variable APIKeyAuth : string -> Z -> string -> Eff X (APIKeyAuthResponse + (gerror * option grpcCode)).
Variable UsageReport : string -> Z -> UsageReportRequest -> Eff X (option gerror).
Variable newRedisClient : RateLimitConfig -> option gerror.

(** The limiters' state, by the position of the filter in its route. *)
Variable invalid : Z.
Variable limiters : nat -> Surroundings X.

Definition NewRequestFilterWithConfig (position : nat) (name : string) (cfg : FilterConfig)
    : RequestFilter X + gerror :=
  match cfg with
  | APIKeyAuthConfig url timeout =>
      match Auth_NewWithConfig url timeout with
      | inr e => inr e
      | inl (url, timeout) => inl (AuthFilter Match (APIKeyAuth url timeout))
      end
  | RateLimitCfg c =>
      match rl_mode (RateLimit_NewWithConfig c), newRedisClient c with
      | REDIS, Some e => inr (EWrap "failed to create redis client" e)
      | _, _ => inl (RateLimitFilter invalid (limiters position))
      end
  | UsageStatsConfig url timeout =>
      match Usage_NewWithConfig url timeout with
      | inr e => inr e
      | inl (url, timeout) => inl (UsageFilter (UsageReport url timeout))
      end
  | UnknownFilterConfig url => inr (EPlain ("unknown listener filter " +:+ Quote name +:+ ", " +:+ url))
  end.

Fixpoint buildRouteFilters (position : nat) (configs : list RouteFilter) : list (RequestFilter X) + gerror :=
  match configs with
  | [] => inl []
  | fc :: configs =>
      match NewRequestFilterWithConfig position (rf_name fc) (rf_config fc) with
      | inr e => inr e
      | inl f => match buildRouteFilters (S position) configs with inl fs => inl (f :: fs) | inr e => inr e end
      end
  end.

(** The route, and the balancer it starts with. *)
Definition Route_NewWithConfig (cfg : Route) : (routeDefault X * LoadBalancer) + gerror :=
  match buildRouteFilters 0 (route_filters cfg) with
  | inr e => inr e
  | inl fs => inl (mkRouteDefault cfg (buildBackendNsMap cfg) fs (Clone fs), New cfg)
  end.
End Registry.

(** ** Matching *)
Definition matchEntry (cfg : Route) (model : string) (m : Match) : bool :=
  match match_model m with
  | None => false
  | Some modelNameMatch =>
      let exactMatch := GetExact (Some modelNameMatch) in
      if String.eqb exactMatch "" then false
      else if negb (String.eqb model exactMatch) then false
      else if len (route_targets cfg) =? 0 then false
      else true
  end.

Definition Route_Match (cfg : Route) (request : LLMRequest) : bool :=
  if len (route_matches cfg) =? 0 then false else existsb (matchEntry cfg (GetModel request)) (route_matches cfg).

(** ** Handling a request *)
Section Handling.
Context {X : Type} `{ClusterManager X}.
Variable env : RouteEnv X.

Definition as_llm (r : AnyResponse) : LLMResponse :=
  match r with Whole r => r | Streaming r => as_response r end.

(** The request hooks; [Some] is the result the route returns early. *)
Definition requestHooks (m : routeDefault X) (type : RequestType) (raw : HTTPRequest)
    : Eff X (option RequestFilterResult) :=
  match type with
  | RequestTypeChatCompletions | RequestTypeCompletions =>
      firstFailure (OnCompletionRequestFilters (rd_routeFilters m)) raw
  | RequestTypeImageGenerations =>
      firstFailure (OnImageGenerationsRequestFilters (rd_routeFilters m)) raw
  | RequestTypeTextToSpeech => mret None
  end.

Definition pickCluster (m : routeDefault X) : Eff X string :=
  match route_lb_policy (rd_cfg m) with
  | LB_UNSPECIFIED =>
      target ← lift (index (route_targets (rd_cfg m)) 0);
      mret (GetCluster (rt_destination target))
  | _ =>
      draw ← randInt env;
      x ← getExt;
      '(lb, name) ← lift (Next (getLB env x) draw);
      _ ← putExt (setLB env lb x);
      mret name
  end.

Definition sleepFor (d : option Z) : Eff X unit := match d with Some d => sleep env d | None => mret tt end.

(** The response hooks of one attempt; the last one is what the route adds
    to the stream. *)
Definition responseHooks (m : routeDefault X) (request : LLMRequest) (resp : option AnyResponse) : Eff X unit :=
  match resp with
  | None => mret tt
  | Some r =>
      match GetRequestType request with
      | RequestTypeChatCompletions | RequestTypeCompletions =>
          if negb (IsStream request)
          then runAll (OnCompletionResponseFilters (rd_reversedRouteFilters m)) (as_llm r)
          else mret tt
      | RequestTypeImageGenerations =>
          runAll (OnImageGenerationsResponseFilters (rd_reversedRouteFilters m)) (as_llm r)
      | RequestTypeTextToSpeech => mret tt
      end
  end.

Definition streamCallbacks (m : routeDefault X) (resp : option AnyResponse) : list Callback :=
  match resp with
  | Some (Streaming _) => [streamCallback (rd_reversedRouteFilters m)]
  | _ => []
  end.

(** A response, the callbacks put on it and an error. *)
Definition RouteResult : Type := option AnyResponse * list (Callback (X := X)) * option gerror.

(** One turn of the fallback loop up to the decision. *)
Definition attempt (m : routeDefault X) (retriedCount : Z) : Eff X RouteResult :=
  clusterName ← pickCluster m;
  _ ← match route_fallback (rd_cfg m) with
      | Some fb => if 0 <? retriedCount then sleepFor (fb_pre_delay fb) else mret tt
      | None => mret tt
      end;
  '(resp, err) ← manager_HandleRequest clusterName;
  request ← getReq;
  _ ← responseHooks m request resp;
  request ← getReq;
  _ ← modifyMeta (setResponseModel (GetModel request));
  mret (resp, streamCallbacks m resp, err).

(** Whether an attempt ends the loop without asking for a retry. *)
Definition final (err : option gerror) : bool :=
  match err with None => true | Some e => IsSkipStream e end.

Definition maxRetries (fb : RouteFallback) : option Z :=
  match fb_max_retries fb with
  | None => None
  | Some n => Some (if n =? 0 then defaultRouteFallbackMaxRetries else n)
  end.

Fixpoint fallback_loop (fuel : nat) (m : routeDefault X) (retriedCount : Z) : Eff X (option RouteResult) :=
  match fuel with
  | O => mret None
  | S fuel =>
      '(resp, cbs, err) ← attempt m retriedCount;
      if final err then mret (Some (resp, cbs, err))
      else
        match route_fallback (rd_cfg m) with
        | None => mret (Some (resp, cbs, err))
        | Some fb =>
            _ ← sleepFor (fb_post_delay fb);
            match maxRetries fb with
            | Some n =>
                if n <=? retriedCount then mret (Some (resp, cbs, err))
                else fallback_loop fuel m (uint64 (retriedCount + 1))
            | None => fallback_loop fuel m retriedCount
            end
        end
  end.

Definition Route_HandleRequest (fuel : nat) (m : routeDefault X) (raw : HTTPRequest) : Eff X (option RouteResult) :=
  request ← getReq;
  failed ← requestHooks m (GetRequestType request) raw;
  match failed with
  | Some fResult => mret (Some (None, [], frr_Error fResult))
  | None => fallback_loop fuel m 0
  end.
End Handling.

(** ** The cluster manager is one *)
#[local] Instance cluster_manager {X} (doRequest : HTTPRequest -> Eff X (RawResponse + gerror)) (cr : Register X)
  : ClusterManager X := Manager_HandleRequest doRequest cr.

#[local] Instance cluster_manager_laws {X} (doRequest : HTTPRequest -> Eff X (RawResponse + gerror)) (cr : Register X)
  : ClusterManagerLaws X (H := cluster_manager doRequest cr).
Proof. split. intros name w w' resp err E. by apply Manager_HandleRequest_result in E. Qed.

(** ** Lemmas *)
Lemma Route_Match_true cfg request :
  Route_Match cfg request = true <->
  route_targets cfg <> [] /\
  exists m, m ∈ route_matches cfg /\ GetModel request <> "" /\
            match_model m = Some (StringMatch_Exact (GetModel request)).
Proof.
  unfold Route_Match. destruct (Z.eqb_spec (len (route_matches cfg)) 0) as [E|_].
  { split; [done|]. intros (_ & m & Hm & _). destruct (route_matches cfg); [by apply not_elem_of_nil in Hm|done]. }
  rewrite existsb_exists. unfold matchEntry. split.
  - intros (m & Hm & E). apply list_elem_of_In in Hm.
    destruct (match_model m) as [[|e|p]|] eqn:Em; cbn [GetExact] in E; try done.
    destruct (String.eqb_spec e "") as [|He]; [done|].
    destruct (String.eqb_spec (GetModel request) e) as [->|]; [|done]. cbn [negb] in E.
    split; [by intros Et; rewrite Et in E|]. by exists m.
  - intros (Ht & m & Hm & Hne & Em). exists m. apply list_elem_of_In in Hm. split; [done|].
    rewrite Em. cbn [GetExact]. rewrite String.eqb_refl, (proj2 (String.eqb_neq _ _) Hne). cbn [negb].
    by destruct (route_targets cfg).
Qed.

Section Loop.
Context {X : Type} `{ClusterManager X}.
Variable env : RouteEnv X.

(** [k] attempts that fail, each followed by the delay, and then one with
    the result [r]; it is followed by the delay too when it failed. *)
Inductive tries (m : routeDefault X) (fb : RouteFallback) : Z -> nat -> World X -> RouteResult -> World X -> Prop :=
| tries_answer retried w r w' :
    attempt env m retried w = Ret (w', r) -> final (snd r) = true -> tries m fb retried 0 w r w'
| tries_give_up retried w r w1 w' :
    attempt env m retried w = Ret (w1, r) -> final (snd r) = false ->
    sleepFor env (fb_post_delay fb) w1 = Ret (w', tt) -> tries m fb retried 0 w r w'
| tries_more retried k w r0 w1 w2 r w' :
    attempt env m retried w = Ret (w1, r0) -> final (snd r0) = false ->
    sleepFor env (fb_post_delay fb) w1 = Ret (w2, tt) ->
    tries m fb (retried + 1) k w2 r w' -> tries m fb retried (S k) w r w'.

(** One turn of the loop, as equations. *)
Lemma fallback_loop_step m fb n fuel retried w w' r :
  route_fallback (rd_cfg m) = Some fb -> maxRetries fb = Some n -> 0 <= retried < 2 ^ 64 - 1 ->
  fallback_loop env (S fuel) m retried w = Ret (w', Some r) <->
  exists w1 r1, attempt env m retried w = Ret (w1, r1) /\
    if final (snd r1) then w' = w1 /\ r = r1
    else exists w2, sleepFor env (fb_post_delay fb) w1 = Ret (w2, tt) /\
      if n <=? retried then w' = w2 /\ r = r1 else fallback_loop env fuel m (retried + 1) w2 = Ret (w', Some r).
Proof.
  intros Hf Hn Hr. cbn [fallback_loop]. rewrite Hf, Hn, (uint64_id (retried + 1)) by lia. split.
  - intros (w1 & [[resp cbs] err] & E & E1)%Eff_bind_inv. exists w1, (resp, cbs, err). split; [done|].
    cbn [snd]. destruct (final err); [by injection E1 as -> ->|].
    apply Eff_bind_inv in E1 as (w2 & [] & Es & E2). exists w2. split; [done|].
    destruct (n <=? retried); [by injection E2 as -> ->|done].
  - intros (w1 & [[resp cbs] err] & E & H1). rewrite (Eff_bind_Ret _ _ _ _ _ E). cbn [snd] in H1.
    destruct (final err); [by destruct H1 as [-> ->]|]. destruct H1 as (w2 & Es & H2).
    rewrite (Eff_bind_Ret _ _ _ _ _ Es). destruct (n <=? retried); [by destruct H2 as [-> ->]|done].
Qed.

Lemma fallback_loop_tries m fb n : forall d retried w r w',
  route_fallback (rd_cfg m) = Some fb -> maxRetries fb = Some n -> 0 <= retried -> n < 2 ^ 64 - 1 ->
  n - retried = Z.of_nat d ->
  fallback_loop env (S d) m retried w = Ret (w', Some r) <->
  exists k, (k <= d)%nat /\ tries m fb retried k w r w' /\ (final (snd r) = true \/ k = d).
Proof.
  intros d. induction d as [|d IH]; intros retried w r w' Hf Hn Hr Hb Hd;
    rewrite (fallback_loop_step m fb n) by (done || lia).
  - rewrite (proj2 (Z.leb_le n retried)) by lia. split.
    + intros (w1 & r1 & E & H1). exists 0%nat. destruct (final (snd r1)) eqn:Ef.
      * destruct H1 as [-> ->]. split; [done|]. split; [by apply tries_answer|by left].
      * destruct H1 as (w2 & Es & -> & ->). split; [done|]. split; [by apply (tries_give_up _ _ _ _ _ w1)|by right].
    + intros (k & Hk & Ht & _). assert (k = 0%nat) as -> by lia. inversion Ht as [? ? ? ? E Ef|? ? ? w1 ? E Ef Es|]; subst.
      * exists w', r. by rewrite Ef.
      * exists w1, r. rewrite Ef. split; [done|]. by exists w'.
  - rewrite (proj2 (Z.leb_gt n retried)) by lia. split.
    + intros (w1 & r1 & E & H1). destruct (final (snd r1)) eqn:Ef.
      * destruct H1 as [-> ->]. exists 0%nat. split; [lia|]. split; [by apply tries_answer|by left].
      * destruct H1 as (w2 & Es & E2). apply IH in E2 as (k & Hk & Ht & Hor); [|done|done|lia|lia|lia].
        exists (S k). split; [lia|]. split; [by apply (tries_more _ _ _ _ _ r1 w1 w2)|]. destruct Hor; [by left|right; lia].
    + intros (k & Hk & Ht & Hor). inversion Ht as [? ? ? ? E Ef|? ? ? w1 ? E Ef Es|? k1 ? r0 w1 w2 ? ? E Ef Es Ht']; subst.
      * exists w', r. by rewrite Ef.
      * destruct Hor as [Hor|[=]]. congruence.
      * exists w1, r0. rewrite Ef. split; [done|]. exists w2. split; [done|].
        apply IH; [done|done|lia|lia|lia|]. exists k1. split; [lia|]. split; [done|].
        destruct Hor; [by left|right; lia].
Qed.

(** What the loop answers with is what the manager said. *)
Lemma attempt_result `{!ClusterManagerLaws X} m retried w w' resp cbs err :
  attempt env m retried w = Ret (w', (resp, cbs, err)) ->
  match err with Some e => IsLLMError (Some e) = true | None => is_Some resp end.
Proof.
  unfold attempt. intros (w1 & name & _ & E)%Eff_bind_inv. apply Eff_bind_inv in E as (w2 & [] & _ & E).
  apply Eff_bind_inv in E as (w3 & [resp1 err1] & Em & E). apply manager_result in Em.
  apply Eff_bind_inv in E as (w4 & req & _ & E). apply Eff_bind_inv in E as (w5 & [] & _ & E).
  apply Eff_bind_inv in E as (w6 & req1 & _ & E). apply Eff_bind_inv in E as (w7 & [] & _ & E).
  by injection E as <- <- <- <-.
Qed.

Lemma loop_result `{!ClusterManagerLaws X} m fuel : forall retried w w' resp cbs err,
  fallback_loop env fuel m retried w = Ret (w', Some (resp, cbs, err)) ->
  match err with Some e => IsLLMError (Some e) = true | None => is_Some resp end.
Proof.
  induction fuel as [|fuel IH]; intros retried w w' resp cbs err E; [done|]. cbn [fallback_loop] in E.
  apply Eff_bind_inv in E as (w1 & [[resp1 cbs1] err1] & Ea & E). apply attempt_result in Ea.
  destruct (final err1); [by injection E as <- <- <- <-|].
  destruct (route_fallback (rd_cfg m)) as [fb|]; [|by injection E as <- <- <- <-].
  apply Eff_bind_inv in E as (w2 & [] & _ & E). destruct (maxRetries fb) as [n|]; [|by apply IH in E].
  destruct (n <=? retried); [by injection E as <- <- <- <-|by apply IH in E].
Qed.

(** More fuel changes nothing once the retries are used up. *)
Lemma fallback_loop_fuel m fb n : forall fuel retried w,
  route_fallback (rd_cfg m) = Some fb -> maxRetries fb = Some n -> 0 <= retried -> n < 2 ^ 64 ->
  (Z.to_nat (n - retried) < fuel)%nat ->
  fallback_loop env fuel m retried w = fallback_loop env (S (Z.to_nat (n - retried))) m retried w /\
  match fallback_loop env fuel m retried w with Ret (_, None) => False | _ => True end.
Proof.
  intros fuel. induction fuel as [|fuel IH]; intros retried w Hf Hn Hr Hb Hlt; [lia|].
  cbn [fallback_loop]. rewrite Hf, Hn. unfold mbind, Eff_bind.
  destruct (attempt env m retried w) as [[w1 [[resp cbs] err]]|]; [|done].
  destruct (final err); [done|]. destruct (sleepFor env (fb_post_delay fb) w1) as [[w2 []]|]; [|done].
  destruct (Z.leb_spec n retried) as [Hle|Hgt]; [done|].
  assert (retried + 1 < 2 ^ 64) by lia.
  rewrite (uint64_id (retried + 1)) by lia.
  destruct (IH (retried + 1) w2) as [E Hx]; [done..|lia|done|lia|].
  split; [|done]. rewrite E. f_equal. lia.
Qed.

(** Without a maximum, an attempt that fails is followed by another. *)
Lemma fallback_loop_unbounded m fb (w0 : World X) :
  route_fallback (rd_cfg m) = Some fb -> fb_max_retries fb = None ->
  (forall w, w_req w = w_req w0 -> exists w' cbs e, attempt env m 0 w = Ret (w', (None, cbs, Some e)) /\
    IsSkipStream e = false /\ w_req w' = w_req w0) ->
  (forall d w, exists w', sleep env d w = Ret (w', tt) /\ w_req w' = w_req w) ->
  forall fuel w, w_req w = w_req w0 -> exists w', fallback_loop env fuel m 0 w = Ret (w', None).
Proof.
  intros Hf Hm Ha Hs fuel. induction fuel as [|fuel IH]; intros w Hw; [by exists w|].
  cbn [fallback_loop]. destruct (Ha w Hw) as (w1 & cbs & e & E & He & Hw1).
  rewrite (Eff_bind_Ret _ _ _ _ _ E). cbn [final]. rewrite He, Hf. unfold maxRetries. rewrite Hm.
  assert (exists w2, sleepFor env (fb_post_delay fb) w1 = Ret (w2, tt) /\ w_req w2 = w_req w1) as (w2 & E2 & Hw2).
  { unfold sleepFor. destruct (fb_post_delay fb); [apply Hs|by exists w1]. }
  rewrite (Eff_bind_Ret _ _ _ _ _ E2). apply IH. congruence.
Qed.
End Loop.

(** * Properties *)

(** A route with a retry limit of [n] (3 when the limit says 0) makes at
    most [n + 1] attempts: the handler always answers within that many turns
    of the loop, and whatever fuel beyond it is given changes nothing. *)
Theorem fallback_bounded {X} `{ClusterManager X} (env : RouteEnv X) (m : routeDefault X) (raw : HTTPRequest)
    (fb : RouteFallback) (n : Z) (Hfb : route_fallback (rd_cfg m) = Some fb) (Hn : maxRetries fb = Some n)
    (Hu : 0 <= n < 2 ^ 64) (fuel : nat) (Hfuel : (Z.to_nat n < fuel)%nat) (w : World X) :
  Route_HandleRequest env fuel m raw w = Route_HandleRequest env (S (Z.to_nat n)) m raw w /\
  match Route_HandleRequest env fuel m raw w with Ret (_, None) => False | _ => True end.
Proof.
  unfold Route_HandleRequest. unfold mbind, Eff_bind, getReq.
  destruct (requestHooks m _ raw w) as [[w1 [r|]]|]; [done| |done].
  destruct (fallback_loop_fuel env m fb n fuel 0 w1) as [E Hx]; [done|done|lia|lia| |].
  - by rewrite Z.sub_0_r.
  - by rewrite Z.sub_0_r in E.
Qed.

(** A route with a fallback but no retry limit whose cluster is not
    registered never answers: the loop asks the manager again and again, with
    any amount of fuel. *)
Theorem fallback_unbounded {X} (doRequest : HTTPRequest -> Eff X (RawResponse + gerror)) (cr : Register X)
    (env : RouteEnv X) (m : routeDefault X) (raw : HTTPRequest) (fb : RouteFallback) (t : RouteTarget)
    (ts : list RouteTarget) (w w1 : World X)
    (Hfb : route_fallback (rd_cfg m) = Some fb) (Hn : fb_max_retries fb = None)
    (Hlb : route_lb_policy (rd_cfg m) = LB_UNSPECIFIED) (Ht : route_targets (rd_cfg m) = t :: ts)
    (Hgone : FindClusterByName cr (GetCluster (rt_destination t)) = None)
    (Hsleep : forall d w, exists w', sleep env d w = Ret (w', tt) /\ w_req w' = w_req w)
    (Hpass : requestHooks m (GetRequestType (w_req w)) raw w = Ret (w1, None)) (fuel : nat) :
  exists w', Route_HandleRequest (H := cluster_manager doRequest cr) env fuel m raw w = Ret (w', None).
Proof.
  unfold Route_HandleRequest. erewrite Eff_bind_Ret by reflexivity. rewrite (Eff_bind_Ret _ _ _ _ _ Hpass).
  apply (fallback_loop_unbounded (H := cluster_manager doRequest cr) env m fb w1); [done|done| |done|done].
  intros w2 Hw2. unfold attempt, pickCluster. rewrite Hlb, Ht, Hfb.
  exists (mkWorld (setResponseModel (GetModel (w_req w2)) (w_meta w2)) (w_req w2) (w_ext w2)), [],
    (EBase (NewErrorModelNotFoundOrNotAccessible (GetModel (w_req w2)))).
  split; [|split; [done|exact Hw2]].
  erewrite Eff_bind_Ret by (by erewrite Eff_bind_Ret by reflexivity).
  erewrite Eff_bind_Ret by reflexivity.
  assert (manager_HandleRequest (ClusterManager := cluster_manager doRequest cr) (GetCluster (rt_destination t)) w2
          = Ret (w2, (None, Some (EBase (NewErrorModelNotFoundOrNotAccessible (GetModel (w_req w2))))))) as E.
  { unfold manager_HandleRequest, cluster_manager, Manager_HandleRequest.
    erewrite Eff_bind_Ret by reflexivity. by rewrite Hgone. }
  by rewrite (Eff_bind_Ret _ _ _ _ _ E).
Qed.

(** A request hook that refuses stops the request: the client gets its
    error, and neither the hooks after it nor any upstream see the request. *)
Theorem route_filter_blocks {X} `{ClusterManager X} (env : RouteEnv X) (m : routeDefault X) (raw : HTTPRequest)
    (pre post : list (HTTPRequest -> Eff X RequestFilterResult)) (f : HTTPRequest -> Eff X RequestFilterResult)
    (fuel : nat) (w w1 w2 : World X) (e : gerror)
    (Hchat : GetRequestType (w_req w) = RequestTypeChatCompletions)
    (Hfs : OnCompletionRequestFilters (rd_routeFilters m) = pre ++ f :: post)
    (Hpre : firstFailure pre raw w = Ret (w1, None)) (Hf : f raw w1 = Ret (w2, NewFailed e)) :
  Route_HandleRequest env fuel m raw w = Ret (w2, Some (None, [], Some e)).
Proof.
  unfold Route_HandleRequest. erewrite Eff_bind_Ret by reflexivity. unfold requestHooks. rewrite Hchat, Hfs.
  erewrite Eff_bind_Ret; [|rewrite firstFailure_app, Hpre; cbn [firstFailure]; erewrite Eff_bind_Ret by exact Hf; reflexivity].
  done.
Qed.

(** A route matches a request exactly when it has a target and one of its
    matches names the request's model exactly, which must not be empty;
    prefix matches are never used. *)
Theorem Route_Match_spec cfg request :
  Route_Match cfg request = true <->
  route_targets cfg <> [] /\
  exists m, m ∈ route_matches cfg /\ GetModel request <> "" /\
            match_model m = Some (StringMatch_Exact (GetModel request)).
Proof. apply Route_Match_true. Qed.

(** C21: with a limit of [n] retries the handler answers with the first final
    attempt, or with the last of [n + 1] when none is final; every attempt
    before it failed, and the post delay was waited for after each. *)
Theorem fallback_refines {X} `{ClusterManager X} (env : RouteEnv X) (m : routeDefault X) (fb : RouteFallback) (n : Z)
    (Hfb : route_fallback (rd_cfg m) = Some fb) (Hn : maxRetries fb = Some n) (Hu : 0 <= n < 2 ^ 64 - 1)
    (w w' : World X) (r : RouteResult) :
  fallback_loop env (S (Z.to_nat n)) m 0 w = Ret (w', Some r) <->
  exists k, (k <= Z.to_nat n)%nat /\ tries env m fb 0 k w r w' /\ (final (snd r) = true \/ k = Z.to_nat n).
Proof. apply (fallback_loop_tries env m fb n); (done || lia). Qed.

(** What a route answers with can be handed to a client: the error of a
    request hook that refused, a response, or an error that is an
    [LLMError]. *)
Theorem route_answers {X} `{ClusterManagerLaws X} (env : RouteEnv X) (m : routeDefault X) (raw : HTTPRequest)
    (fuel : nat) (w w' : World X) (resp : option AnyResponse) (cbs : list Callback) (err : option gerror)
    (Hret : Route_HandleRequest env fuel m raw w = Ret (w', Some (resp, cbs, err))) :
  (exists r, requestHooks m (GetRequestType (w_req w)) raw w = Ret (w', Some r) /\
             (resp, cbs, err) = (None, [], frr_Error r)) \/
  match err with Some e => IsLLMError (Some e) = true | None => is_Some resp end.
Proof.
  unfold Route_HandleRequest in Hret. apply Eff_bind_inv in Hret as (w1 & req & E0 & E). injection E0 as <- <-.
  apply Eff_bind_inv in E as (w2 & [r|] & Eh & E).
  - left. exists r. by injection E as <- <- <- <-.
  - right. by apply loop_result in E.
Qed.

(** ** Examples *)
Definition ex_route (retries : option Z) : Route :=
  mkRoute "public" [mkMatch (Some (StringMatch_Exact "public")) None] [] LB_UNSPECIFIED
    [mkRouteTarget (Some (mkRouteDestination "ns" "gone" None "gone"))] (Some (mkRouteFallback None (Some 5) retries)).
Definition ex_default (retries : option Z) (fs : list (RequestFilter unit)) : routeDefault unit :=
  mkRouteDefault (ex_route retries) (buildBackendNsMap (ex_route retries)) fs fs.
Definition ex_env : RouteEnv unit :=
  mkRouteEnv (fun _ => LB_empty) (fun _ x => x) (mret (Some 0)) (fun _ => mret tt).
Definition ex_http : HTTPRequest := mkHTTPRequest "POST" "/v1/chat/completions" ∅ (BodyText "").
Definition ex_manager : ClusterManager unit := cluster_manager ex_send NewClusterRegister.
Definition ex_noted : World unit :=
  mkWorld (setResponseModel "public" InitMetadata) ex_llm_request tt.
Definition ex_refused : gerror := EBase (NewErrorModelNotFoundOrNotAccessible "public").

Lemma fallback_bounded_witness :
  let run fuel := Route_HandleRequest (H := ex_manager) ex_env fuel (ex_default (Some 2) []) ex_http ex_call_world in
  run 9%nat = run 3%nat /\ match run 9%nat with Ret (_, None) => False | _ => True end.
Proof.
  apply (fallback_bounded (H := ex_manager) ex_env (ex_default (Some 2) []) ex_http
           (mkRouteFallback None (Some 5) (Some 2)) 2); [done|done|lia|lia].
Defined.

Lemma fallback_unbounded_witness :
  exists w', Route_HandleRequest (H := ex_manager) ex_env 1000 (ex_default None []) ex_http ex_call_world = Ret (w', None).
Proof.
  apply (fallback_unbounded ex_send NewClusterRegister ex_env (ex_default None []) ex_http
           (mkRouteFallback None (Some 5) None) (mkRouteTarget (Some (mkRouteDestination "ns" "gone" None "gone"))) []
           ex_call_world ex_call_world); try done.
  intros d w. by exists w.
Defined.

Lemma route_filter_blocks_witness :
  let deny : HTTPRequest -> Eff unit RequestFilterResult := fun _ => mret (NewFailed ex_refused) in
  let f := mkFilter None (Some deny) None None None None None in
  Route_HandleRequest (H := ex_manager) ex_env 1 (ex_default None [f]) ex_http ex_call_world
  = Ret (ex_call_world, Some (None, [], Some ex_refused)).
Proof.
  cbv zeta. apply (route_filter_blocks (H := ex_manager) ex_env _ ex_http [] [] (fun _ => mret (NewFailed ex_refused)) 1
                     ex_call_world ex_call_world ex_call_world ex_refused); reflexivity.
Defined.

Lemma fallback_refines_witness :
  exists k, (k <= 1)%nat /\
    tries (H := ex_manager) ex_env (ex_default (Some 1) []) (mkRouteFallback None (Some 5) (Some 1)) 0 k ex_call_world
      (None, [], Some ex_refused) ex_noted /\
    (final (Some ex_refused) = true \/ k = 1%nat).
Proof.
  apply (fallback_refines (H := ex_manager) ex_env (ex_default (Some 1) []) (mkRouteFallback None (Some 5) (Some 1)) 1);
    [done|done|lia|]. reflexivity.
Defined.

Lemma route_answers_witness :
  (exists r, requestHooks (ex_default (Some 1) []) RequestTypeChatCompletions ex_http ex_call_world = Ret (ex_noted, Some r) /\
             (None, [], Some ex_refused) = ((None, [], frr_Error r) : RouteResult (X := unit))) \/
  IsLLMError (Some ex_refused) = true.
Proof.
  apply (route_answers (H := ex_manager) (H0 := cluster_manager_laws ex_send NewClusterRegister) ex_env
           (ex_default (Some 1) []) ex_http 2 ex_call_world ex_noted None [] (Some ex_refused)).
  reflexivity.
Defined.
