(* ===== verification/Limits.v ===== *)
(** * A rate limit on a route

    [RateLimit] shows what a token bucket lets through.  Here the bucket is
    where the program has it: behind the policies of a filter, which is one of
    the filters of a route, whose request hooks decide whether a request gets to
    the clusters.  Requests of any accounts and models arrive in any order, the
    cleanup of the buckets and everything else the gateway does come between. *)
From S2P Require Import Prelude Strconv Utils GoFloat Json Api Errors Request Response Effects Stream Filters.
From S2P Require Import Auth Usage RateLimit ClusterFilters Cluster Route.

(** ** The bucket a request asks *)

(** The window that [checkBucket] uses for a policy. *)
Definition windowOf (p : RateLimitPolicy) : Z :=
  let duration := if rlp_duration p =? 0 then defaultDuration else rlp_duration p in
  if f64_eqb (Seconds duration) (f64_of_int 0) then defaultDuration else duration.

(** The key of the bucket that [onRequest] asks for a request, the window and
    the limit it asks with; [None] when it asks none. *)
Definition limit_of (rl : RateLimiter) (rMeta : RequestMetadata) (request : LLMRequest) : option (string * Z * Z) :=
  let apiKey := GetApiKeyId (AuthInfo rMeta) in
  let userName := GetUserId (AuthInfo rMeta) in
  if String.eqb apiKey "" && String.eqb userName "" then None
  else
    p ← findMatchingPolicy apiKey userName (pluginPolicies rl);
    value ← policyValue apiKey userName p;
    if rlp_limit p =? 0 then None
    else Some (buildKey rl (rlp_based_on p) value (GetModel request), windowOf p, rlp_limit p).

Lemma findMatchingPolicy_spec apiKey userName ps p :
  findMatchingPolicy apiKey userName ps = Some p ->
  exists value, policyValue apiKey userName p = Some value /\ policyMatches p value = true.
Proof.
  induction ps as [|q ps IH]; [done|]. cbn [findMatchingPolicy].
  destruct (policyValue apiKey userName q) as [value|] eqn:Ev; [|exact IH].
  destruct (policyMatches q value) eqn:Em; [|exact IH]. intros [= <-]. eauto.
Qed.

(** Two accounts that a policy of one kind applies to with one value get the
    same one. *)
Lemma findMatchingPolicy_agree a1 u1 a2 u2 ps p1 p2 v :
  findMatchingPolicy a1 u1 ps = Some p1 -> findMatchingPolicy a2 u2 ps = Some p2 ->
  rlp_based_on p1 = rlp_based_on p2 ->
  policyValue a1 u1 p1 = Some v -> policyValue a2 u2 p2 = Some v -> p1 = p2.
Proof.
  assert (forall a u a' u' p q, policyValue a u p = Some v -> policyValue a' u' q = Some v ->
    rlp_based_on p = rlp_based_on q -> policyValue a' u' p = Some v) as Hsame.
  { intros a u a' u' p q. unfold policyValue. intros Hp Hq E. by rewrite E in *. }
  induction ps as [|q ps IH]; [done|]. cbn [findMatchingPolicy]. intros H1 H2 Hb Hv1 Hv2.
  destruct (policyValue a1 u1 q) as [w1|] eqn:E1, (policyValue a2 u2 q) as [w2|] eqn:E2; try by apply IH.
  - destruct (policyMatches q w1) eqn:M1, (policyMatches q w2) eqn:M2; try by apply IH.
    + congruence.
    + injection H1 as <-. pose proof (Hsame _ _ _ _ _ _ Hv1 Hv2 Hb). congruence.
    + injection H2 as <-. pose proof (Hsame _ _ _ _ _ _ Hv2 Hv1 (eq_sym Hb)). congruence.
  - destruct (policyMatches q w1) eqn:M1; [|by apply IH].
    injection H1 as <-. pose proof (Hsame _ _ _ _ _ _ Hv1 Hv2 Hb). congruence.
  - destruct (policyMatches q w2) eqn:M2; [|by apply IH].
    injection H2 as <-. pose proof (Hsame _ _ _ _ _ _ Hv2 Hv1 (eq_sym Hb)). congruence.
Qed.

(** ** Keys

    A key joins its parts with colons, so that a value with a colon in it may
    pass for another one. *)
Definition plain (s : string) : Prop := ContainsByte s ":" = false.

Lemma plain_app_inj v1 v2 m1 m2 :
  plain v1 -> plain v2 -> v1 +:+ ":" +:+ m1 = v2 +:+ ":" +:+ m2 -> v1 = v2.
Proof.
  unfold plain. revert v2. induction v1 as [|c v1 IH]; intros [|d v2] H1 H2 E; cbn in *; try done.
  - injection E as <- _. by rewrite Ascii.eqb_refl in H2.
  - injection E as -> _. by rewrite Ascii.eqb_refl in H1.
  - injection E as <- E. destruct (Ascii.eqb c ":"); [done|]. f_equal. by apply IH.
Qed.

Lemma string_app_inj_l p s t : p +:+ s = p +:+ t -> s = t.
Proof. induction p as [|c p IH]; [done|]. intros E. apply IH. by injection E. Qed.

Lemma buildKey_inj rl b1 b2 v1 v2 m1 m2 :
  plain v1 -> plain v2 -> (b1 = API_KEY \/ b1 = USER_ID) -> (b2 = API_KEY \/ b2 = USER_ID) ->
  buildKey rl b1 v1 m1 = buildKey rl b2 v2 m2 -> b1 = b2 /\ v1 = v2.
Proof.
  unfold buildKey. intros H1 H2 Hb1 Hb2 E%string_app_inj_l%string_app_inj_l.
  destruct Hb1 as [-> | ->], Hb2 as [-> | ->]; cbn in E; try done; (split; [done|]);
    (by eapply plain_app_inj; [..|injection E]).
Qed.

Example keys_collide rl : buildKey rl API_KEY "a:b" "c" = buildKey rl API_KEY "a" "b:c".
Proof. done. Qed.

Definition plain_account (rMeta : RequestMetadata) : Prop :=
  plain (GetApiKeyId (AuthInfo rMeta)) /\ plain (GetUserId (AuthInfo rMeta)).

(** The requests that ask one bucket ask it with one window and limit. *)
Lemma limit_of_agree rl me1 me2 rq1 rq2 k w1 l1 w2 l2 :
  plain_account me1 -> plain_account me2 ->
  limit_of rl me1 rq1 = Some (k, w1, l1) -> limit_of rl me2 rq2 = Some (k, w2, l2) -> w1 = w2 /\ l1 = l2.
Proof.
  intros [Ha1 Hu1] [Ha2 Hu2]. unfold limit_of.
  destruct (_ && _); [done|]. intros (p1 & E1 & (v1 & V1 & L1)%bind_Some)%bind_Some.
  destruct (_ && _); [done|]. intros (p2 & E2 & (v2 & V2 & L2)%bind_Some)%bind_Some.
  destruct (rlp_limit p1 =? 0); [done|]. destruct (rlp_limit p2 =? 0); [done|].
  injection L1 as <- <- <-. injection L2 as Hk <- <-.
  assert (forall a u p v, policyValue a u p = Some v -> plain a -> plain u ->
    plain v /\ (rlp_based_on p = API_KEY \/ rlp_based_on p = USER_ID)) as Hval.
  { intros a u p v. unfold policyValue. destruct (rlp_based_on p); try done; intros [= <-]; by auto. }
  destruct (Hval _ _ _ _ V1 Ha1 Hu1) as [P1 B1], (Hval _ _ _ _ V2 Ha2 Hu2) as [P2 B2].
  symmetry in Hk. apply buildKey_inj in Hk as [Hb <-]; try done.
  by rewrite (findMatchingPolicy_agree _ _ _ _ _ p1 p2 v1 E1 E2 Hb V1 V2).
Qed.

(** ** The filter on the world *)

(** What the limiter relies on of its surroundings: its state is its own, and
    the clock gives a time that does not go back. *)
Class LimiterLaws {X} (env : Surroundings X) (time : X -> Z) : Prop := {
  lim_get_set rl x : getRL env (setRL env rl x) = rl;
  lim_time_set rl x : time (setRL env rl x) = time x;
  lim_clock w : exists order x', clock env w = Ret (mkWorld (w_meta w) (w_req w) x', (time x', order)) /\
                                 getRL env x' = getRL env (w_ext w) /\ time (w_ext w) <= time x' }.

(** What a limiter is configured with. *)
Definition same_config (rl rl' : RateLimiter) : Prop :=
  pluginPolicies rl' = pluginPolicies rl /\ serverPrefix rl' = serverPrefix rl /\ rl_mode rl' = rl_mode rl.

Lemma limit_of_config rl rl' me rq : same_config rl rl' -> limit_of rl' me rq = limit_of rl me rq.
Proof. unfold same_config, limit_of, buildKey. by intros (-> & -> & _). Qed.

Lemma checkBucketLocal_config invalid rl order key window limit now rl' allowed :
  checkBucketLocal invalid rl order key window limit now = Ret (rl', allowed) -> same_config rl rl'.
Proof.
  unfold checkBucketLocal. intros E. apply outcome_bind_Ret in E as ([shard|] & _ & E); [|done].
  destruct (checkShard _ _ _ _ _ _ _) as [s' a]. by injection E as <- _.
Qed.

Section Filter.
Context {X : Type}.
Variable invalid : Z.
Variable env : Surroundings X.
Variable time : X -> Z.
Context `{!LimiterLaws env time}.

(** Everything else in the gateway leaves the limiter alone, and takes time. *)
Definition moves (x x' : X) : Prop := getRL env x' = getRL env x /\ time x <= time x'.

#[global] Instance moves_preorder : PreOrder moves.
Proof.
  split; [by split; [|lia]|]. intros x y z [E1 L1] [E2 L2]. split; [by rewrite E2|lia].
Qed.

Lemma checkBucket_local key duration limit w :
  rl_mode (getRL env (w_ext w)) <> REDIS -> (limit =? 0) = false ->
  exists order x1, moves (w_ext w) x1 /\
    checkBucket invalid env key duration limit w
    = match checkBucketLocal invalid (getRL env (w_ext w)) order key
              (if f64_eqb (Seconds duration) (f64_of_int 0) then defaultDuration else duration) limit (time x1) with
      | Ret (rl, allowed) => Ret (mkWorld (w_meta w) (w_req w) (setRL env rl x1), inl allowed)
      | Panic s => Panic s
      end.
Proof.
  intros Hmode Hl. destruct (lim_clock w) as (order & x1 & Hclock & Hget & Htime).
  exists order, x1. split; [by split|]. unfold checkBucket. rewrite Hl. run_eff.
  destruct (rl_mode _); try done; rewrite Hclock; cbn [w_ext w_meta w_req]; rewrite Hget;
    by destruct (checkBucketLocal _ _ _ _ _ _ _) as [[? ?]|].
Qed.

(** The limiter's answer to a request. *)
Lemma onRequest_spec w w' r :
  rl_mode (getRL env (w_ext w)) <> REDIS ->
  onRequest invalid env w = Ret (w', r) ->
  w_meta w' = w_meta w /\ w_req w' = w_req w /\
  match limit_of (getRL env (w_ext w)) (w_meta w) (w_req w) with
  | None => w_ext w' = w_ext w
  | Some (key, window, limit) =>
      exists order x1 rl allowed,
        moves (w_ext w) x1 /\
        checkBucketLocal invalid (getRL env (w_ext w)) order key window limit (time x1) = Ret (rl, allowed) /\
        w_ext w' = setRL env rl x1 /\ IsFailed r = negb allowed
  end.
Proof.
  intros Hmode. unfold onRequest, limit_of. run_eff.
  set (apiKey := GetApiKeyId _). set (userName := GetUserId _).
  destruct (String.eqb apiKey "" && String.eqb userName ""); [by intros [= <- <-]|].
  destruct (findMatchingPolicy apiKey userName _) as [p|] eqn:Ep; [|by intros [= <- <-]].
  destruct (findMatchingPolicy_spec _ _ _ _ Ep) as (value & Hv & Hm). cbn [option_bind]. rewrite Hv. cbn [option_bind].
  unfold allowRequest. rewrite Hv, Hm. cbn [negb].
  destruct (rlp_limit p =? 0) eqn:Hl; [by intros [= <- <-]|]. run_eff.
  set (key := buildKey _ _ _ _). set (duration := if _ =? 0 then _ else _).
  destruct (checkBucket_local key duration (rlp_limit p) w Hmode Hl) as (order & x1 & Hm1 & ->).
  fold (windowOf p). destruct (checkBucketLocal _ _ _ _ _ _ _) as [[rl allowed]|] eqn:E; [|done].
  intros Hr. assert (w' = mkWorld (w_meta w) (w_req w) (setRL env rl x1) /\ IsFailed r = negb allowed) as [-> Hf]
    by (destruct allowed; by injection Hr as <- <-).
  split; [done|]. split; [done|]. by exists order, x1, rl, allowed.
Qed.

(** ** The request hooks of a route *)

(** A filter whose request hooks leave the limiter, the account and the request
    alone. *)
Definition bystander (hook : HTTPRequest -> Eff X RequestFilterResult) : Prop :=
  forall raw w w' r, hook raw w = Ret (w', r) ->
    moves (w_ext w) (w_ext w') /\ w_meta w' = w_meta w /\ w_req w' = w_req w.

Definition bystander_filter (f : RequestFilter X) : Prop :=
  (forall hook, OnCompletionRequest f = Some hook -> bystander hook) /\
  (forall hook, OnImageGenerationsRequest f = Some hook -> bystander hook).

Lemma firstFailure_bystander hooks raw w w' r :
  Forall bystander hooks -> firstFailure hooks raw w = Ret (w', r) ->
  moves (w_ext w) (w_ext w') /\ w_meta w' = w_meta w /\ w_req w' = w_req w.
Proof.
  intros Hb. revert w. induction Hb as [|hook hooks Hh _ IH]; intros w; cbn [firstFailure].
  - by intros [= <- <-].
  - unfold mbind, Eff_bind. destruct (hook raw w) as [[w1 r1]|] eqn:E; [|done].
    destruct (Hh _ _ _ _ E) as (Hm & Em & Er). destruct (IsFailed r1); [by intros [= <- <-]|].
    intros (Hm' & Em' & Er')%IH. split; [by etransitivity|]. split; congruence.
Qed.

Lemma hooks_bystander (assert : RequestFilter X -> option (HTTPRequest -> Eff X RequestFilterResult)) fs :
  (forall f hook, f ∈ fs -> assert f = Some hook -> bystander hook) -> Forall bystander (TypeAssertFrom assert fs).
Proof.
  induction fs as [|f fs IH]; intros Hf; [by constructor|]. rewrite TypeAssertFrom_cons.
  assert (Forall bystander (TypeAssertFrom assert fs)) by (apply IH; intros; eapply Hf; [by right|done]).
  destruct (assert f) as [hook|] eqn:E; [|done]. constructor; [|done]. eapply Hf; [by left|done].
Qed.

(** What the hooks of a request leave: the bucket was not asked, the request
    being refused before or having none; or it was, and the request went on only
    if it said so. *)
Definition asked (rl : RateLimiter) (me : RequestMetadata) (rq : LLMRequest) (x x' : X) (admitted : bool) : Prop :=
  moves x x' /\ (admitted = true -> limit_of rl me rq = None) \/
  exists key window limit order x1 rl' allowed,
    limit_of rl me rq = Some (key, window, limit) /\ moves x x1 /\
    checkBucketLocal invalid (getRL env x) order key window limit (time x1) = Ret (rl', allowed) /\
    moves (setRL env rl' x1) x' /\ (admitted = true -> allowed = true).

Definition limited (m : routeDefault X) : Prop :=
  exists before after, rd_routeFilters m = before ++ RateLimitFilter invalid env :: after /\
    Forall bystander_filter before /\ Forall bystander_filter after.

Lemma chain_asked before after raw w w' failed :
  rl_mode (getRL env (w_ext w)) <> REDIS -> Forall bystander before -> Forall bystander after ->
  firstFailure (before ++ (fun _ => onRequest invalid env) :: after) raw w = Ret (w', failed) ->
  asked (getRL env (w_ext w)) (w_meta w) (w_req w) (w_ext w) (w_ext w') (bool_decide (failed = None)).
Proof.
  intros Hmode Hb Ha. rewrite firstFailure_app.
  destruct (firstFailure before raw w) as [[w1 [r|]]|] eqn:E1; [| |done].
  { intros [= <- <-]. left. split; [|done]. by destruct (firstFailure_bystander _ _ _ _ _ Hb E1). }
  destruct (firstFailure_bystander _ _ _ _ _ Hb E1) as ([Hrl Ht] & Em & Eq). cbn [firstFailure].
  unfold mbind, Eff_bind. destruct (onRequest invalid env w1) as [[w2 r]|] eqn:E2; [|done].
  apply onRequest_spec in E2 as (Em2 & Eq2 & E2); [|by rewrite Hrl]. rewrite Hrl, Em, Eq in E2.
  intros Hrest.
  assert (moves (w_ext w2) (w_ext w') /\ (failed = None -> IsFailed r = false)) as [Hmv Hf].
  { destruct (IsFailed r); [by injection Hrest as <- <-|]. split; [|done].
    by destruct (firstFailure_bystander after raw w2 w' failed Ha Hrest). }
  destruct (limit_of _ _ _) as [[[key window] limit]|] eqn:El.
  - destruct E2 as (order & x1 & rl & allowed & Hm1 & Hc & Hx & Hal). right.
    exists key, window, limit, order, x1, rl, allowed. rewrite <- Hx. split_and!; try done.
    + by etransitivity; [split|].
    + intros Hadm%bool_decide_eq_true. rewrite (Hf Hadm) in Hal. by destruct allowed.
  - left. split; [|done]. rewrite E2 in Hmv. by etransitivity; [split|].
Qed.

Lemma requestHooks_asked m type raw w w' failed :
  limited m -> type <> RequestTypeTextToSpeech -> rl_mode (getRL env (w_ext w)) <> REDIS ->
  requestHooks m type raw w = Ret (w', failed) ->
  asked (getRL env (w_ext w)) (w_meta w) (w_req w) (w_ext w) (w_ext w') (bool_decide (failed = None)).
Proof.
  intros (before & after & Hfs & Hb & Ha) Htype Hmode. unfold requestHooks. rewrite Hfs.
  unfold OnCompletionRequestFilters, OnImageGenerationsRequestFilters.
  rewrite !TypeAssertFrom_app, !TypeAssertFrom_cons. cbn [RateLimitFilter OnCompletionRequest OnImageGenerationsRequest].
  assert (forall fs, Forall bystander_filter fs ->
    Forall bystander (TypeAssertFrom OnCompletionRequest fs) /\
    Forall bystander (TypeAssertFrom OnImageGenerationsRequest fs)) as Hall.
  { intros fs Hfs'. rewrite Forall_forall in Hfs'. split; apply hooks_bystander; intros f hook Hf; apply (Hfs' f Hf). }
  destruct (Hall before Hb) as [Hb1 Hb2], (Hall after Ha) as [Ha1 Ha2].
  destruct type; try done; intros E; eapply chain_asked; try exact E; done.
Qed.

(** ** Traffic *)

(** A request as it comes to a route: what the listener's filters have written
    into its metadata, its parsed form and its raw one. *)
Record arrival : Type := mkArrival {
  ar_meta : RequestMetadata;
  ar_req : LLMRequest;
  ar_raw : HTTPRequest }.

Definition ar_limit (rl : RateLimiter) (a : arrival) : option (string * Z * Z) := limit_of rl (ar_meta a) (ar_req a).

(** What happens around the limiter of a route, with the requests and whether
    they went on to the clusters: requests pass the hooks of the route, or panic
    in them before or after the limiter was asked; a tick of the cleanup; and
    anything else, the work on the requests that went on included. *)
Inductive traffic (m : routeDefault X) : X -> list (arrival * bool) -> X -> Prop :=
| traffic_end x : traffic m x [] x
| traffic_request x a w failed tr x' :
    GetRequestType (ar_req a) <> RequestTypeTextToSpeech ->
    requestHooks m (GetRequestType (ar_req a)) (ar_raw a) (mkWorld (ar_meta a) (ar_req a) x) = Ret (w, failed) ->
    traffic m (w_ext w) tr x' -> traffic m x ((a, bool_decide (failed = None)) :: tr) x'
| traffic_panic x a x1 tr x' :
    asked (getRL env x) (ar_meta a) (ar_req a) x x1 false ->
    traffic m x1 tr x' -> traffic m x ((a, false) :: tr) x'
| traffic_cleanup x tr x' :
    traffic m (setRL env (cleanup (getRL env x) (time x)) x) tr x' -> traffic m x tr x'
| traffic_else x x1 tr x' : moves x x1 -> traffic m x1 tr x' -> traffic m x tr x'.

(** How many requests that ask the bucket of a key went on. *)
Fixpoint admitted (rl : RateLimiter) (k : string) (tr : list (arrival * bool)) : Z :=
  match tr with
  | [] => 0
  | (a, went_on) :: tr =>
      (match ar_limit rl a with
       | Some (key, _, _) => if String.eqb key k && went_on then 1 else 0
       | None => 0
       end) + admitted rl k tr
  end.

Lemma in_order_weaken t t' evs : t <= t' -> in_order t' evs -> in_order t evs.
Proof. destruct evs; [done|]. cbn. intros ? [? ?]. split; [lia|done]. Qed.

Lemma last_time_weaken t t' evs : t <= t' -> last_time t evs <= last_time t' evs.
Proof. by destruct evs. Qed.

(** What a run of traffic asks of the limiter. *)
Definition event_of (rl : RateLimiter) (tr : list (arrival * bool)) (t t' : Z) (e : rl_event) : Prop :=
  t <= ev_time e <= t' /\
  match e with
  | EvRequest key window limit _ _ => exists a b, (a, b) ∈ tr /\ ar_limit rl a = Some (key, window, limit)
  | EvCleanup _ => True
  end.

Lemma event_of_more rl tr tr' t0 t t' e : t0 <= t -> tr ⊆ tr' -> event_of rl tr t t' e -> event_of rl tr' t0 t' e.
Proof.
  intros Ht Hsub [Hte He]. split; [lia|]. destruct e; [|done]. destruct He as (a & b & Hin & Ha). eauto.
Qed.

Definition explains (rl : RateLimiter) (k : string) (x : X) (tr : list (arrival * bool)) (x' : X)
    (evs : list rl_event) (answers : list (string * bool)) : Prop :=
  rl_run invalid (getRL env x) evs = Ret (getRL env x', answers) /\
  admitted rl k tr <= granted k answers /\
  in_order (time x) evs /\ last_time (time x) evs <= time x' /\ time x <= time x' /\
  Forall (event_of rl tr (time x) (time x')) evs.

(** An event of the limiter, or none, in front of a run. *)
Lemma explains_asked rl k x a x1 tr x' evs answers goes :
  same_config rl (getRL env x) -> asked (getRL env x) (ar_meta a) (ar_req a) x x1 goes ->
  explains rl k x1 tr x' evs answers ->
  exists evs answers, explains rl k x ((a, goes) :: tr) x' evs answers.
Proof.
  intros Hcfg Hasked (Hrun & Hadm & Ho & Hl & Ht & Hf). unfold asked in Hasked.
  rewrite (limit_of_config _ _ _ _ Hcfg) in Hasked. fold (ar_limit rl a) in Hasked.
  destruct Hasked as [[[Hrl Hmv] Hnone]|(key & window & limit & order & x2 & rl' & allowed & El & [_ Hm] & Hc & [Hrl Hmv] & Hal)].
  - exists evs, answers. split_and!.
    + by rewrite <- Hrl.
    + cbn [admitted]. destruct (ar_limit rl a) as [[[key ?] ?]|]; [|lia].
      destruct goes; [by specialize (Hnone eq_refl)|]. rewrite andb_false_r. lia.
    + by eapply in_order_weaken.
    + etransitivity; [by apply last_time_weaken|done].
    + lia.
    + eapply Forall_impl; [exact Hf|]. intros e. apply event_of_more; [done|set_solver].
  - rewrite lim_get_set in Hrl. rewrite lim_time_set in Hmv.
    exists (EvRequest key window limit (time x2) order :: evs), ((key, allowed) :: answers). split_and!.
    + cbn [rl_run]. rewrite Hc. cbn [mbind outcome_bind]. rewrite <- Hrl, Hrun. done.
    + cbn [admitted granted]. rewrite El. destruct (String.eqb key k); cbn [andb]; [|lia].
      destruct goes; [rewrite (Hal eq_refl); lia|]. destruct allowed; lia.
    + cbn. split; [done|by eapply in_order_weaken].
    + cbn. etransitivity; [by apply last_time_weaken|done].
    + lia.
    + constructor; [split; [cbn; lia|]; exists a, goes; split; [by left|done]|].
      eapply Forall_impl; [exact Hf|]. intros e. apply event_of_more; [lia|set_solver].
Qed.

Lemma asked_config rl me rq x x' goes : asked rl me rq x x' goes -> same_config (getRL env x) (getRL env x').
Proof.
  intros [[[-> _] _]|(? & ? & ? & ? & ? & rl' & ? & _ & _ & Hc & [-> _] & _)]; [by split_and!|].
  rewrite lim_get_set. by eapply checkBucketLocal_config.
Qed.

Lemma traffic_explained m rl k x tr x' :
  limited m -> rl_mode rl <> REDIS -> traffic m x tr x' -> same_config rl (getRL env x) ->
  exists evs answers, explains rl k x tr x' evs answers.
Proof.
  intros Hm Hmode Htr. assert (forall rl1 rl2, same_config rl rl1 -> same_config rl1 rl2 -> same_config rl rl2) as Htrans.
  { unfold same_config. intros rl1 rl2 (? & ? & ?) (? & ? & ?). split_and!; congruence. }
  induction Htr as [x|x a w failed tr x' Htype E _ IH|x a x1 tr x' Hask _ IH|x tr x' _ IH|x x1 tr x' [Hrl Ht] _ IH];
    intros Hcfg.
  - exists [], []. split_and!; cbn; try done; lia.
  - apply requestHooks_asked in E; [|done|done|]; cbn [w_ext w_meta w_req] in *.
    2:{ destruct Hcfg as (_ & _ & ->). done. }
    destruct IH as (evs & answers & H); [by eapply Htrans, asked_config|]. by eapply explains_asked.
  - destruct IH as (evs & answers & H); [by eapply Htrans, asked_config|]. by eapply explains_asked.
  - destruct IH as (evs & answers & Hrun & Hadm & Ho & Hl & Ht & Hf).
    { rewrite lim_get_set. by eapply Htrans. }
    rewrite lim_time_set in *. rewrite lim_get_set in Hrun.
    exists (EvCleanup (time x) :: evs), answers. split_and!; [exact Hrun|done|cbn; split; [lia|done]|exact Hl|done|].
    constructor; [by split; [cbn; lia|]|done].
  - destruct IH as (evs & answers & Hrun & Hadm & Ho & Hl & Ht' & Hf); [by rewrite Hrl|].
    exists evs, answers. split_and!; try done.
    + by rewrite <- Hrl.
    + by eapply in_order_weaken.
    + etransitivity; [by apply last_time_weaken|done].
    + lia.
    + eapply Forall_impl; [exact Hf|]. intros e. by apply event_of_more.
Qed.

(** The requests of a run, seen from the bucket of a key: every event is fine
    for it when the run's keys have room and its accounts are plain. *)
Lemma events_fine rl (S : gset string) k L w tr x x' :
  (exists a0, plain_account (ar_meta a0) /\ ar_limit rl a0 = Some (k, w * nanosPerSecond, L)) ->
  Forall (fun ab => plain_account (ar_meta ab.1)) tr ->
  Forall (fun ab => match ar_limit rl ab.1 with Some (key, _, _) => key ∈ S | None => True end) tr ->
  time x' < 2 ^ 61 -> time x' - time x < 2 ^ 22 * nanosPerSecond ->
  forall evs, Forall (event_of rl tr (time x) (time x')) evs -> Forall (ev_fine S L w k (time x)) evs.
Proof.
  intros (a0 & Hp0 & Ha0) Hplain Hkeys Hlate Hlong evs. rewrite Forall_forall in Hplain, Hkeys.
  intros Hf. eapply Forall_impl; [exact Hf|]. intros e [Ht He]. split; [lia|]. split; [lia|].
  destruct e as [key window limit now order|]; [|done].
  destruct He as (a & b & Hin & Ha). pose proof (Hkeys _ Hin) as Hk. cbn in Hk. rewrite Ha in Hk.
  split; [done|]. intros ->. eapply (limit_of_agree rl (ar_meta a) (ar_meta a0)); [|done|exact Ha|exact Ha0].
  by apply (Hplain _ Hin).
Qed.

(** C11: the limit of a policy is kept by the route that has it, with a limiter
    in the local mode: however requests of any accounts and models arrive at the
    hooks of the route, which chat, completion and image requests run and
    speech requests do not (those reach the clusters without a limit), whatever
    its other filters are as long as they leave the limiter, the account and
    the request alone, and whatever else happens in between, the requests that
    ask the bucket of a key and go on to the clusters never exceed one full
    window of the policy's limit plus the share of the time that has passed.
    This is so for accounts whose key and user names have no colon, since with
    one two accounts may share a key, and, as for the limiter, for at most
    10000 different keys, whole seconds, and less than 2^22 seconds before the
    year 2043. *)
Theorem route_limit_enforced cfg m (S : gset string) (a0 : arrival) k L w x tr x'
    (Hlocal : rlc_model cfg <> REDIS) (Hm : limited m)
    (Hfresh : getRL env x = RateLimit_NewWithConfig cfg) (Htraffic : traffic m x tr x')
    (Hstart : 0 <= time x) (Hlate : time x' < 2 ^ 61) (Hlong : time x' - time x < 2 ^ 22 * nanosPerSecond)
    (Hsize : Z.of_nat (size S) <= maxBucketsPerShard)
    (Hkeys : Forall (fun ab => match ar_limit (RateLimit_NewWithConfig cfg) ab.1 with
                               | Some (key, _, _) => key ∈ S | None => True end) tr)
    (Hplain : Forall (fun ab => plain_account (ar_meta ab.1)) tr)
    (Hplain0 : plain_account (ar_meta a0))
    (Hpolicy : ar_limit (RateLimit_NewWithConfig cfg) a0 = Some (k, w * nanosPerSecond, L))
    (HL : 0 < L < 2 ^ 31) (Hw : 0 < w <= 2 ^ 31) :
  admitted (RateLimit_NewWithConfig cfg) k tr * (w * nanosPerSecond)
  <= L * (w * nanosPerSecond + time x' - time x).
Proof.
  set (rl := RateLimit_NewWithConfig cfg) in *.
  destruct (NewWithConfig_local cfg S Hlocal) as (Hwf & Hin & Hb).
  assert (rl_mode rl <> REDIS) as Hmode by (unfold rl, RateLimit_NewWithConfig; cbn; by destruct (rlc_model cfg)).
  destruct (traffic_explained m rl k x tr x' Hm Hmode Htraffic) as (evs & answers & Hrun & Hadm & Ho & Hl & Ht & Hf);
    [by rewrite Hfresh|].
  assert (Forall (ev_fine S L w k (time x)) evs) as Hfine by (eapply events_fine; eauto).
  destruct (run_balance invalid S Hsize L w k (time x) HL Hw Hstart evs rl (time x) 0 Hwf Hin ltac:(lia) Ho Hfine)
    as (rl' & answers' & E & Hbal).
  { unfold rl. rewrite Hb. cbn. lia. }
  rewrite Hfresh in Hrun. rewrite Hrun in E. injection E as <- <-.
  rewrite Z.add_0_l in Hbal. apply entry_ok_bound in Hbal; [|done..|by apply last_time_ge].
  unfold nanosPerSecond in *. nia.
Qed.
End Filter.

(** ** The other filters *)
Lemma usage_bystander {X} (env : Surroundings X) time service : bystander_filter env time (UsageFilter service).
Proof. by split. Qed.

Lemma auth_bystander {X} (env : Surroundings X) time Match service : bystander_filter env time (AuthFilter Match service).
Proof.
  split; intros hook [= <-] raw w w' r; cbv delta [AuthFilter_OnCompletionRequest AuthFilter_OnImageGenerationsRequest]; run_eff;
    (destruct (AuthInfo (w_meta w)); [|by intros [= <- _]]);
    repeat (match goal with |- context [if ?b then _ else _] => destruct b end; try (by intros [= <- _])).
Qed.

(** ** An example

    Once a minute for a key: a second request of the key is refused, one of
    another key is not. *)
Definition ex_gw : Type := RateLimiter * Z.
Definition ex_limiter : Surroundings ex_gw :=
  mkSurroundings fst (fun rl x => (rl, snd x)) (fun w => Ret (w, (snd (w_ext w), [])))
    (fun _ _ w => Ret (w, inr (EPlain "no redis"))).
#[local] Instance ex_limiter_laws : LimiterLaws ex_limiter snd.
Proof. split; [done|done|]. intros [me rq x]. exists [], x. cbn. split; [done|]. split; [done|lia]. Qed.

Definition ex_once : RateLimitConfig := mkRateLimitConfig [mkRateLimitPolicy None 1 API_KEY (60 * nanosPerSecond)] LOCAL "".
Definition ex_limited : routeDefault ex_gw :=
  let fs := [AuthFilter (fun _ _ => Some true) (fun _ w => Ret (w, inr (EPlain "no service", None)));
             RateLimitFilter 0 ex_limiter; UsageFilter (fun _ w => Ret (w, None))] in
  mkRouteDefault (ex_route None) (buildBackendNsMap (ex_route None)) fs fs.
Definition ex_arrival (key : string) : arrival :=
  mkArrival (setAuth true (Some (mkAPIKeyAuthResponse true ["**"] key "user-1" [])) InitMetadata) ex_llm_request ex_http.
Definition ex_hooks (key : string) (x : ex_gw) : outcome (World ex_gw * option RequestFilterResult) :=
  requestHooks ex_limited RequestTypeChatCompletions ex_http (mkWorld (ar_meta (ex_arrival key)) ex_llm_request x).
Definition ex_after (key : string) (x : ex_gw) : ex_gw :=
  match ex_hooks key x with Ret (w, _) => w_ext w | Panic _ => x end.
Definition ex_fresh : ex_gw := (RateLimit_NewWithConfig ex_once, 1000 * nanosPerSecond).
Definition ex_trace : list (arrival * bool) :=
  [(ex_arrival "key-1", true); (ex_arrival "key-1", false); (ex_arrival "key-2", true)].
Definition ex_busy : ex_gw := ex_after "key-2" (ex_after "key-1" (ex_after "key-1" ex_fresh)).

Lemma ex_request key x b tr x' :
  match ex_hooks key x with Ret (_, failed) => bool_decide (failed = None) = b | Panic _ => False end ->
  traffic 0 ex_limiter snd ex_limited (ex_after key x) tr x' ->
  traffic 0 ex_limiter snd ex_limited x ((ex_arrival key, b) :: tr) x'.
Proof.
  unfold ex_after. destruct (ex_hooks key x) as [[w failed]|] eqn:E; [|done]. intros <-.
  by apply (traffic_request 0 ex_limiter snd ex_limited x (ex_arrival key) w failed).
Qed.

Lemma route_limit_enforced_witness :
  admitted (RateLimit_NewWithConfig ex_once) "knoway-rate-limit:API_KEY:key-1:public" ex_trace * (60 * nanosPerSecond)
  <= 1 * (60 * nanosPerSecond + ex_busy.2 - ex_fresh.2).
Proof.
  apply (route_limit_enforced 0 ex_limiter snd ex_once ex_limited
           {["knoway-rate-limit:API_KEY:key-1:public"; "knoway-rate-limit:API_KEY:key-2:public"]} (ex_arrival "key-1")).
  - done.
  - eexists [_], [_]. split; [reflexivity|]. split; (apply Forall_cons; split; [|by apply Forall_nil]);
      [apply auth_bystander|apply usage_bystander].
  - reflexivity.
  - repeat (apply ex_request; [vm_compute; reflexivity|]). apply traffic_end.
  - by vm_compute.
  - by vm_compute.
  - by vm_compute.
  - by vm_compute.
  - repeat constructor; vm_compute; set_solver.
  - repeat constructor.
  - by repeat constructor.
  - vm_compute. reflexivity.
  - lia.
  - lia.
Defined.
