(* ===== verification/RouteManager.v ===== *)
(** * pkg/route/manager: the routes of the gateway

    Two registries of routes by name, those of the model routes ("match") and
    those the backends bring along ("base"), and the list that requests are
    matched against.  A route is anything with the interface [route.Route]. *)
From S2P Require Import Prelude Strconv Utils GoFloat Json Api LoadBalance Errors Request Response Effects Stream Filters.
From S2P Require Import ClusterFilters Cluster Route.

(** [route.Route], with the constructor the manager calls. *)
Class RouteInterface (R : Type) : Type := {
  route_New : Api.Route -> R + gerror;
  route_Match : R -> LLMRequest -> bool;
  route_GetRouteConfig : R -> Api.Route }.

(** A route matches by the configuration it was made from. *)
Class RouteLaws (R : Type) `{RouteInterface R} : Prop := {
  route_match_config cfg r request : route_New cfg = inl r -> route_Match r request = Route_Match cfg request }.

(** The package's variables. *)
Record RouteManager (R : Type) : Type := mkRouteManager {
  matchRouteRegistry : gmap string R;
  routeRegistry : gmap string R;
  routes : list R }.
Arguments mkRouteManager {R}.
Arguments matchRouteRegistry {R}.
Arguments routeRegistry {R}.
Arguments routes {R}.

Definition InitDirectModelRoute (modelName : string) : Api.Route :=
  mkRoute modelName [mkMatch (Some (StringMatch_Exact modelName)) None] [] LB_UNSPECIFIED
    [mkRouteTarget (Some (mkRouteDestination "" "" None modelName))] None.

Section Manager.
Context {R : Type} `{RouteInterface R}.

Definition emptyManager : RouteManager R := mkRouteManager ∅ ∅ [].

(** The two loops of [mergeRoutes]: a match route hides the base route of
    its name. *)
Definition uniqueRoutes (s : RouteManager R) : gmap string R :=
  map_fold (fun k v acc => match acc !! k with Some _ => acc | None => <[k := v]> acc end)
    (map_fold (fun k v acc => <[k := v]> acc) ∅ (matchRouteRegistry s)) (routeRegistry s).

(** [lo.Values] lists the map in the order [order] of its keys. *)
Definition mergeRoutes (s : RouteManager R) (order : list string) : list R :=
  omap (fun k => uniqueRoutes s !! k) order.

Definition remerge (s : RouteManager R) (order : list string) : RouteManager R :=
  mkRouteManager (matchRouteRegistry s) (routeRegistry s) (mergeRoutes s order).

Definition RegisterMatchRouteWithConfig (s : RouteManager R) (order : list string) (cfg : Api.Route)
    : RouteManager R * option gerror :=
  match route_New cfg with
  | inr e => (s, Some e)
  | inl r =>
      (remerge (mkRouteManager (<[route_name cfg := r]> (matchRouteRegistry s)) (routeRegistry s) (routes s)) order, None)
  end.

Definition RemoveMatchRoute (s : RouteManager R) (order : list string) (rName : string) : RouteManager R :=
  remerge (mkRouteManager (delete rName (matchRouteRegistry s)) (routeRegistry s) (routes s)) order.

Definition RegisterBaseRouteWithConfig (s : RouteManager R) (order : list string) (cfg : Api.Route)
    : RouteManager R * option gerror :=
  match route_New cfg with
  | inr e => (s, Some e)
  | inl r =>
      let s := mkRouteManager (matchRouteRegistry s) (<[route_name cfg := r]> (routeRegistry s)) (routes s) in
      match matchRouteRegistry s !! route_name cfg with
      | Some _ => (s, None)
      | None => (remerge s order, None)
      end
  end.

Definition RemoveBaseRoute (s : RouteManager R) (order : list string) (rName : string) : RouteManager R :=
  remerge (mkRouteManager (matchRouteRegistry s) (delete rName (routeRegistry s)) (routes s)) order.

(** The first route of the list that matches. *)
Definition MatchRoute (s : RouteManager R) (request : LLMRequest) : option R :=
  List.find (fun r => route_Match r request) (routes s).

Definition DebugDumpAllRoutes (s : RouteManager R) : list Api.Route := map route_GetRouteConfig (routes s).

(** [handle] is the route's [HandleRequest]. *)
Definition RouteManager_HandleRequest {X} (handle : R -> Eff X (option (RouteResult (X := X)))) (s : RouteManager R)
    : Eff X (option RouteResult) :=
  llmRequest ← getReq;
  match MatchRoute s llmRequest with
  | None => mret (Some (None, [], Some (EBase (NewErrorModelNotFoundOrNotAccessible (GetModel llmRequest)))))
  | Some route =>
      _ ← modifyMeta (setMatchedRoute (route_name (route_GetRouteConfig route)));
      handle route
  end.

(** ** Runs *)
Inductive rm_op : Type :=
| OpRegisterMatch (cfg : Api.Route)
| OpRemoveMatch (rName : string)
| OpRegisterBase (cfg : Api.Route)
| OpRemoveBase (rName : string).

Definition rm_exec (s : RouteManager R) (order : list string) (op : rm_op) : RouteManager R :=
  match op with
  | OpRegisterMatch cfg => fst (RegisterMatchRouteWithConfig s order cfg)
  | OpRemoveMatch rName => RemoveMatchRoute s order rName
  | OpRegisterBase cfg => fst (RegisterBaseRouteWithConfig s order cfg)
  | OpRemoveBase rName => RemoveBaseRoute s order rName
  end.

(** The order of a [range] over a map is any order of its keys. *)
Definition key_order {A} (order : list string) (m : gmap string A) : Prop := order ≡ₚ (map_to_list m).*1.

Inductive rm_step : RouteManager R -> rm_op -> RouteManager R -> Prop :=
| rm_step_intro s op order :
    key_order order (uniqueRoutes (rm_exec s order op)) -> rm_step s op (rm_exec s order op).

Inductive rm_reach : list rm_op -> RouteManager R -> Prop :=
| rm_reach_init : rm_reach [] emptyManager
| rm_reach_step ops op s s' : rm_reach ops s -> rm_step s op s' -> rm_reach (ops ++ [op]) s'.

(** ** What the manager promises: registered routes by name *)
Definition spec_registries (s : gmap string R * gmap string R) (op : rm_op) : gmap string R * gmap string R :=
  let '(matches, bases) := s in
  match op with
  | OpRegisterMatch cfg =>
      match route_New cfg with inl r => (<[route_name cfg := r]> matches, bases) | inr _ => s end
  | OpRemoveMatch rName => (delete rName matches, bases)
  | OpRegisterBase cfg =>
      match route_New cfg with inl r => (matches, <[route_name cfg := r]> bases) | inr _ => s end
  | OpRemoveBase rName => (matches, delete rName bases)
  end.

Definition spec_routes (ops : list rm_op) : gmap string R :=
  let '(matches, bases) := foldl spec_registries (∅, ∅) ops in matches ∪ bases.

(** ** Lemmas *)
Lemma map_fold_insert_id (m : gmap string R) : map_fold (fun k v acc => <[k := v]> acc) ∅ m = m.
Proof.
  apply (map_fold_weak_ind (fun acc (m : gmap string R) => acc = m)); [done|].
  by intros k v m' acc _ ->.
Qed.

Lemma uniqueRoutes_union s : uniqueRoutes s = matchRouteRegistry s ∪ routeRegistry s.
Proof.
  unfold uniqueRoutes. rewrite map_fold_insert_id.
  apply (map_fold_weak_ind (fun acc (m : gmap string R) => acc = matchRouteRegistry s ∪ m)).
  - by rewrite map_union_empty.
  - intros k v m acc Hk ->. rewrite lookup_union_l by done. destruct (matchRouteRegistry s !! k) as [r|] eqn:E.
    + apply map_eq. intros i. rewrite !lookup_union. destruct (decide (i = k)) as [->|].
      * rewrite E, Hk, lookup_insert_eq. done.
      * by rewrite lookup_insert_ne.
    + by rewrite <- insert_union_r.
Qed.

Lemma mergeRoutes_values s order :
  key_order order (uniqueRoutes s) -> mergeRoutes s order ≡ₚ (map_to_list (uniqueRoutes s)).*2.
Proof.
  unfold key_order, mergeRoutes. intros ->.
  assert (forall l, (forall kv, kv ∈ l -> uniqueRoutes s !! fst kv = Some (snd kv)) ->
                    omap (fun k => uniqueRoutes s !! k) l.*1 = l.*2) as Hg.
  { intros l. induction l as [|[k r] l IH]; intros Hl; [done|]. cbn.
    assert (uniqueRoutes s !! k = Some r) as -> by (apply (Hl (k, r)); left). f_equal. apply IH. intros kv Hkv. apply Hl. by right. }
  rewrite Hg; [done|]. intros [k r] Hkr. by apply elem_of_map_to_list.
Qed.

(** The list always holds the registered routes, a match route in the place
    of the base route of its name. *)
Record rm_ok (s : RouteManager R) (regs : gmap string R * gmap string R) : Prop := {
  rm_matches : matchRouteRegistry s = fst regs;
  rm_bases : routeRegistry s = snd regs;
  rm_routes : routes s ≡ₚ (map_to_list (fst regs ∪ snd regs)).*2 }.

Lemma remerge_ok s order regs :
  matchRouteRegistry s = fst regs -> routeRegistry s = snd regs ->
  key_order order (uniqueRoutes (remerge s order)) -> rm_ok (remerge s order) regs.
Proof.
  intros Em Eb Ho. split; [done|done|]. cbn [routes remerge].
  rewrite (mergeRoutes_values s order Ho), uniqueRoutes_union. by rewrite Em, Eb.
Qed.

Lemma rm_step_ok s op s' regs : rm_step s op s' -> rm_ok s regs -> rm_ok s' (spec_registries regs op).
Proof.
  intros [s0 op0 order Ho] Hok. destruct regs as [matches bases]. pose proof Hok as [Em Eb Er]. cbn [fst snd] in *.
  destruct op0 as [cfg|name|cfg|name]; cbn [rm_exec spec_registries] in *.
  - unfold RegisterMatchRouteWithConfig in *. destruct (route_New cfg) as [r|e]; [|done]. cbn [fst] in *.
    apply remerge_ok; [by rewrite <- Em|done|done].
  - apply remerge_ok; [by cbn; rewrite Em|done|done].
  - unfold RegisterBaseRouteWithConfig in *. destruct (route_New cfg) as [r|e]; [|done].
    cbn [matchRouteRegistry] in *. destruct (matchRouteRegistry s0 !! route_name cfg) as [r'|] eqn:E; cbn [fst] in *.
    + split; [done|by cbn; rewrite Eb|]. cbn [routes fst snd]. rewrite Er. rewrite Em in E.
      assert (matches ∪ <[route_name cfg:=r]> bases = matches ∪ bases) as ->; [|done].
      apply map_eq. intros i. rewrite !lookup_union. destruct (decide (i = route_name cfg)) as [->|].
      * rewrite E, lookup_insert_eq. by destruct (bases !! route_name cfg).
      * by rewrite lookup_insert_ne.
    + apply remerge_ok; [done|by cbn; rewrite Eb|done].
  - apply remerge_ok; [done|by cbn; rewrite Eb|done].
Qed.

Lemma rm_reach_ok ops s : rm_reach ops s -> rm_ok s (foldl spec_registries (∅, ∅) ops).
Proof.
  induction 1 as [|ops op s s' _ IH Hs].
  - split; [done|done|]. cbn. by rewrite map_empty_union, map_to_list_empty.
  - rewrite foldl_app. by apply (rm_step_ok s op).
Qed.

(** C24: requests are routed by the registered routes: after any sequence of
    registrations and removals, in any order of the maps, a request is
    matched exactly when a registered route matches it, a base route being
    hidden by the match route of its name, and the route found is one of
    those; when only one of them matches, it is the one found, whatever the
    order. *)
Theorem MatchRoute_refines ops s request (Hrun : rm_reach ops s) :
  (MatchRoute s request = None <-> forall name r, spec_routes ops !! name = Some r -> route_Match r request = false) /\
  (forall r, MatchRoute s request = Some r ->
     route_Match r request = true /\ exists name, spec_routes ops !! name = Some r) /\
  (forall name r, spec_routes ops !! name = Some r -> route_Match r request = true ->
     (forall name' r', spec_routes ops !! name' = Some r' -> route_Match r' request = true -> r' = r) ->
     MatchRoute s request = Some r).
Proof.
  apply rm_reach_ok in Hrun as [_ _ Hr]. unfold spec_routes.
  destruct (foldl spec_registries (∅, ∅) ops) as [matches bases]. cbn [fst snd] in Hr.
  assert (forall r, r ∈ routes s <-> exists name, (matches ∪ bases) !! name = Some r) as Hin.
  { intros r. rewrite Hr, list_elem_of_fmap. split.
    - intros ([name r'] & -> & Hn). exists name. by apply elem_of_map_to_list.
    - intros (name & Hn). exists (name, r). split; [done|]. by apply elem_of_map_to_list. }
  assert (forall r, MatchRoute s request = Some r ->
            route_Match r request = true /\ exists name, (matches ∪ bases) !! name = Some r) as Hfound.
  { intros r E. unfold MatchRoute in E. apply find_some in E as [Hi Hm]. split; [done|].
    apply Hin. by apply list_elem_of_In. }
  assert (MatchRoute s request = None <->
          forall name r, (matches ∪ bases) !! name = Some r -> route_Match r request = false) as Hnone.
  { unfold MatchRoute. split.
    - intros E name r Hn. apply (find_none _ _ E). apply list_elem_of_In, Hin. by exists name.
    - intros Hall. destruct (List.find _ (routes s)) as [r|] eqn:E; [|done].
      destruct (Hfound r E) as [Hm (name & Hn)]. by rewrite (Hall name r Hn) in Hm. }
  split; [done|]. split; [done|]. intros name r Hn Hm Honly.
  destruct (MatchRoute s request) as [r'|] eqn:E.
  - destruct (Hfound r' eq_refl) as [Hm' (name' & Hn')]. f_equal. by apply (Honly name').
  - rewrite (proj1 Hnone eq_refl name r Hn) in Hm. done.
Qed.

(** A registered route that matches is enough for a request to be routed. *)
Lemma MatchRoute_found ops s name r request :
  rm_reach ops s -> matchRouteRegistry s !! name = None -> routeRegistry s !! name = Some r ->
  route_Match r request = true -> is_Some (MatchRoute s request).
Proof.
  intros Hrun Hm Hb Hr. apply rm_reach_ok in Hrun as [Hmat Hbas Hrts]. unfold MatchRoute.
  destruct (List.find _ (routes s)) as [r'|] eqn:E; [eauto|]. exfalso.
  assert (r ∈ routes s) as Hin.
  { rewrite Hrts. apply list_elem_of_fmap. exists (name, r). split; [done|]. apply elem_of_map_to_list.
    rewrite <- Hmat, <- Hbas. by apply lookup_union_Some_raw; right. }
  apply list_elem_of_In in Hin. pose proof (List.find_none _ _ E r Hin). congruence.
Qed.
End Manager.

(** ** The routes of pkg/route/route are such routes *)
Definition default_route {X} (Match : string -> string -> option bool)
    (APIKeyAuth : string -> Z -> string -> Eff X (APIKeyAuthResponse + (gerror * option Auth.grpcCode)))
    (UsageReport : string -> Z -> Usage.UsageReportRequest -> Eff X (option gerror))
    (newRedisClient : RateLimitConfig -> option gerror) (invalid : Z) (limiters : nat -> RateLimit.Surroundings X)
    : RouteInterface (routeDefault X) :=
  {| route_New cfg :=
       match Route_NewWithConfig Match APIKeyAuth UsageReport newRedisClient invalid limiters cfg with
       | inl (m, _) => inl m
       | inr e => inr e
       end;
     route_Match m := Route_Match (rd_cfg m);
     route_GetRouteConfig := rd_cfg |}.

Lemma default_route_laws {X} Match APIKeyAuth UsageReport newRedisClient invalid limiters :
  @RouteLaws (routeDefault X) (default_route Match APIKeyAuth UsageReport newRedisClient invalid limiters).
Proof.
  split. intros cfg r request. simpl. unfold Route_NewWithConfig.
  destruct (buildRouteFilters _ _ _ _ _ _ _ _); [|done]. by intros [= <-].
Qed.

Lemma direct_route_matches name request :
  Route_Match (InitDirectModelRoute name) request = true <-> GetModel request = name /\ name <> "".
Proof.
  rewrite Route_Match_true. unfold InitDirectModelRoute. cbn. split.
  - intros (_ & m & Hm & Hne & Em). apply list_elem_of_singleton in Hm as ->. cbn in Em. injection Em as E.
    by rewrite E.
  - intros [E Hne]. rewrite E. split; [discriminate|]. exists (mkMatch (Some (StringMatch_Exact name)) None).
    split; [by apply list_elem_of_singleton|by split].
Qed.

(** The route that is registered for a backend takes the requests for its
    model, and only those, and sends them to the cluster of that name: a
    request whose model is empty never reaches one. *)
Theorem direct_route_exact name request :
  (Route_Match (InitDirectModelRoute name) request = true <-> GetModel request = name /\ name <> "") /\
  map (fun t => GetCluster (rt_destination t)) (route_targets (InitDirectModelRoute name)) = [name] /\
  route_fallback (InitDirectModelRoute name) = None.
Proof. split; [apply direct_route_matches|done]. Qed.

(** ** Examples *)
Definition ex_interface : RouteInterface Api.Route :=
  {| route_New := inl; route_Match := Route_Match; route_GetRouteConfig := id |}.
Lemma ex_interface_laws : @RouteLaws Api.Route ex_interface.
Proof. split. by intros cfg r request [= <-]. Qed.
Definition ex_direct : Api.Route := InitDirectModelRoute "m".
Definition ex_routes : RouteManager Api.Route := mkRouteManager ∅ {[ "m" := ex_direct ]} [ex_direct].
Definition ex_ask : LLMRequest := mkLLMRequest RequestTypeChatCompletions "m" false None None None None None None.

Lemma MatchRoute_refines_witness :
  let H := ex_interface in
  let ops := [OpRegisterBase ex_direct] in
  (MatchRoute ex_routes ex_ask = None <->
   forall name r, spec_routes ops !! name = Some r -> route_Match r ex_ask = false) /\
  (forall r, MatchRoute ex_routes ex_ask = Some r ->
     route_Match r ex_ask = true /\ exists name, spec_routes ops !! name = Some r) /\
  (forall name r, spec_routes ops !! name = Some r -> route_Match r ex_ask = true ->
     (forall name' r', spec_routes ops !! name' = Some r' -> route_Match r' ex_ask = true -> r' = r) ->
     MatchRoute ex_routes ex_ask = Some r).
Proof.
  cbv zeta. apply (MatchRoute_refines (H := ex_interface)).
  apply (rm_reach_step (H := ex_interface) [] (OpRegisterBase ex_direct) emptyManager); [constructor|].
  apply (rm_step_intro (H := ex_interface) emptyManager (OpRegisterBase ex_direct) ["m"]).
  vm_compute. constructor. constructor.
Defined.
