(* ===== verification/Listener.v ===== *)
(** * pkg/listener: from the HTTP request to the bytes of the answer

    The handler all endpoints share, its middlewares, the endpoints' parsers
    and the writing of the answer (pkg/types/openai/http.go,
    pkg/utils/http.go). *)
From stdpp Require Import sorting.
From S2P Require Import Prelude Strconv Utils GoFloat Json Api LoadBalance Errors Request Response Effects Stream Filters.
From S2P Require Import Auth Usage RateLimit ClusterFilters Cluster Route RouteManager.

(** A model of the list endpoint (go-openai's [Model]). *)
Record Model : Type := mkModel {
  model_CreatedAt : Z;
  model_ID : string;
  model_Object : string;
  model_OwnedBy : string }.

(** A voice of the list endpoint: the document that the provider's client
    (github.com/moeru-ai/unspeech) gives of it, and the one member the gateway
    sets. *)
Record Voice : Type := mkVoiceEntry {
  voice_Document : gmap string json;
  voice_CompatibleModels : list string }.

(** ** What is written to a client, in order *)
Inductive Output : Type :=
| OutStatus (status : Z) (contentType : string)   (* WriteHeader, with the Content-Type set by then *)
| OutJSON (doc : json)
| OutModels (models : list Model)                  (* the list, as go-openai marshals it *)
| OutVoices (voices : list Voice)
| OutText (text : string)                         (* the server-sent events *)
| OutAudio (status : Z) (r : LLMResponse).        (* the upstream's audio, copied, with its content type *)

(** The [any] that a handler returns. *)
Inductive Answer : Type :=
| AnswerLLM (r : AnyResponse)
| AnswerModels (models : list Model)
| AnswerVoices (voices : list Voice).

(** ** Surroundings *)
Record ListenerEnv (X : Type) : Type := mkListenerEnv {
  getOut : X -> list Output;
  setOut : list Output -> X -> X;
  getDrained : X -> bool;
  setDrained : bool -> X -> X;
  getInflight : X -> gset Z;               (* requestCancelMap: the requests being served *)
  setInflight : gset Z -> X -> X }.
Arguments mkListenerEnv {X}.
Arguments getOut {X}.
Arguments setOut {X}.
Arguments getDrained {X}.
Arguments setDrained {X}.
Arguments getInflight {X}.
Arguments setInflight {X}.

(** The route manager, for requests whose route answers. *)
Class Router (X : Type) := router_HandleRequest : HTTPRequest -> Eff X (RouteResult (X := X)).

Definition HandlerFunc (X : Type) : Type := HTTPRequest -> Eff X (option Answer * option gerror).
Definition Middleware (X : Type) : Type := HandlerFunc X -> HandlerFunc X.

(** handler.go: the first of the list is the outermost. *)
Definition WithMiddlewares {X} (middlewares : list (Middleware X)) : Middleware X :=
  fun next => fold_right (fun m next => m next) next middlewares.

Section Listener.
Context `{JSONPatch} `{JSONPath} `{JSONText} {X : Type} `{Router X}.
Variable Marshal : json -> string.
Variable write_ok : string -> string -> bool.
Variable env : ListenerEnv X.

Definition emit (out : list Output) : Eff X unit :=
  x ← getExt; putExt (setOut env (getOut env x ++ out) x).

(** pkg/utils/http.go *)
Definition WriteJSONForHTTP (status : Z) (doc : json) : Eff X unit :=
  emit [OutStatus status "application/json; charset=utf-8"; OutJSON doc].
Definition WriteEventStreamHeadersForHTTP : Eff X unit :=
  emit [OutStatus StatusOK "text/event-stream; charset=utf-8"].

(** ** The parsers of the endpoints *)
Definition parseWith (new : option json -> outcome (LLMRequest + gerror)) (request : HTTPRequest)
    : Eff X (option gerror) :=
  let body := match hr_Body request with BodyJSON doc => Some doc | BodyText _ => None end in
  r ← lift (new body);
  match r with
  | inr e => mret (Some e)
  | inl llmRequest =>
      if String.eqb (GetModel llmRequest) "" then mret (Some (EOpenAI openai_NewErrorMissingModel))
      else
        _ ← modifyMeta (setRequestModel (GetModel llmRequest));
        _ ← putReq llmRequest;
        mret None
  end.

Definition unmarshalChatCompletionsRequestToLLMRequest :=
  parseWith (NewChatCompletionRequest RequestTypeChatCompletions).
Definition unmarshalCompletionsRequestToLLMRequest := parseWith NewCompletionsRequest.
Definition unmarshalImageGenerationsRequestToImageGenerationRequest :=
  parseWith (fun body => Ret (NewImageGenerationsRequest body)).
Definition unmarshalTextToSpeechRequestToLLMRequest `{FloatText} := parseWith (fun body => Ret (NewTextToSpeechRequest body)).

(** ** common.go *)
Definition listenerRequestHooks (filters : list (RequestFilter X)) (type : RequestType) (request : HTTPRequest)
    : Eff X (option RequestFilterResult) :=
  match type with
  | RequestTypeChatCompletions | RequestTypeCompletions =>
      firstFailure (OnCompletionRequestFilters filters) request
  | RequestTypeImageGenerations => firstFailure (OnImageGenerationsRequestFilters filters) request
  | RequestTypeTextToSpeech => mret None
  end.

(** The deferred [OnResponsePost] hooks. *)
Fixpoint postHooks (hooks : list (option LLMResponse -> option gerror -> Eff X unit))
    (resp : option LLMResponse) (err : option gerror) : Eff X unit :=
  match hooks with
  | [] => mret tt
  | f :: hooks => _ ← f resp err; postHooks hooks resp err
  end.

(** The deferred [OnCompletionResponse] hooks. *)
Definition completionHooks (reversedFilters : list (RequestFilter X)) (resp : option AnyResponse) : Eff X unit :=
  match resp with
  | Some r => if any_IsStream r then mret tt
              else runAll (OnCompletionResponseFilters reversedFilters) (as_llm r)
  | None => mret tt
  end.

(** The stream is piped with the route's callbacks and the listener's. *)
Definition pipe (reversedFilters : list (RequestFilter X)) (cbs : list (Callback (X := X))) (r : StreamResponse)
    : Eff X unit :=
  _ ← WriteEventStreamHeadersForHTTP;
  piped ← pipeCompletionsStream Marshal write_ok (cbs ++ [streamCallback reversedFilters]) r;
  match piped with
  | Some (_, text) => emit [OutText text]
  | None => mret tt
  end.

(** From the parsed request on: the response, what [err] holds for the
    deferred hooks, and what the handler returns. *)
Definition respond (reversedFilters : list (RequestFilter X)) (request : HTTPRequest)
    : Eff X (option AnyResponse * option gerror * (option Answer * option gerror)) :=
  '(resp, cbs, err) ← router_HandleRequest request;
  match err with
  | Some e => mret (resp, Some e, (AnswerLLM <$> resp, Some e))
  | None =>
      match resp with
      | None => panic nil_deref
      | Some (Streaming r) =>
          _ ← pipe reversedFilters cbs r;
          mret (resp, None, (AnswerLLM <$> resp, Some ESkipStream))
      | Some (Whole r) =>
          if any_IsStream (Whole r) then
            e ← lift (WithCause openai_NewErrorInternalError (EPlain "failed to cast to object.LLMStreamResponse"));
            mret (resp, None, (AnswerLLM <$> resp, Some (EOpenAI e)))
          else mret (resp, None, (AnswerLLM <$> resp, None))
      end
  end.

Definition CommonListenerHandler (listenerFilters reversedFilters : list (RequestFilter X))
    (parseRequest : HTTPRequest -> Eff X (option gerror)) : HandlerFunc X := fun request =>
  failed ← firstFailure (OnRequestPreFilters listenerFilters) request;
  match failed with
  | Some fResult => mret (None, frr_Error fResult)
  | None =>
      let post resp err := postHooks (OnResponsePostFilters reversedFilters) (as_llm <$> resp) err in
      err ← parseRequest request;
      match err with
      | Some e => _ ← post None (Some e); mret (None, Some e)
      | None =>
          llmRequest ← getReq;
          failed ← listenerRequestHooks listenerFilters (GetRequestType llmRequest) request;
          match failed with
          | Some fResult => _ ← post None None; mret (None, frr_Error fResult)
          | None =>
              '(resp, err, result) ← respond reversedFilters request;
              _ ← completionHooks reversedFilters resp;
              _ ← post resp err;
              mret result
          end
      end
  end.

(** ** pkg/types/openai/http.go *)

(** A nil [responseBody] is no valid JSON, so nothing is written for it. *)
Definition writeWhole (r : LLMResponse) : Eff X unit :=
  match resp_kind r with
  | KAudio =>
      let status := AudioResponse_GetStatus (resp_status r) in
      _ ← modifyMeta (setStatusCode status);
      emit [OutAudio status r]
  | _ =>
      _ ← modifyMeta (setStatusCode StatusOK);
      emit (OutStatus StatusOK "application/json; charset=utf-8"
              :: match resp_body r with Some doc => [OutJSON doc] | None => [] end)
  end.

Definition ResponseHandler (resp : option Answer) (err : option gerror) : Eff X unit :=
  match err with
  | None =>
      match resp with
      | None => mret tt
      | Some (AnswerLLM (Whole r)) => writeWhole r
      | Some (AnswerLLM (Streaming _)) =>
          _ ← modifyMeta (setStatusCode StatusOK);
          emit [OutStatus StatusOK "application/json; charset=utf-8"]
      | Some (AnswerModels ms) =>
          _ ← modifyMeta (setStatusCode StatusOK);
          emit [OutStatus StatusOK "application/json; charset=utf-8"; OutModels ms]
      | Some (AnswerVoices vs) =>
          _ ← modifyMeta (setStatusCode StatusOK);
          emit [OutStatus StatusOK "application/json; charset=utf-8"; OutVoices vs]
      end
  | Some e =>
      if IsSkipStream e then modifyMeta (setStatusCode StatusOK)
      else
        openAIError ← lift (NewErrorFromLLMError e);
        _ ← (if er_from_upstream openAIError
             then match er_body openAIError with Some _ => mret tt | None => panic nil_deref end
             else if StatusInternalServerError <=? er_status openAIError
                  then lift (_ ← ErrorText e; Ret tt) else mret tt);
        message ← lift (ErrorText (EOpenAI openAIError));
        _ ← modifyMeta (setStatus (er_status openAIError) message);
        WriteJSONForHTTP (er_status openAIError) (openai_MarshalJSON openAIError)
  end.

(** ** middlewares.go *)
Definition WithInitMetadata : Middleware X := fun next request =>
  _ ← modifyMeta (fun _ => InitMetadata); next request.

Definition WithOptions : Middleware X := fun next request =>
  if String.eqb (hr_Method request) "OPTIONS" then _ ← emit [OutStatus 204 ""]; mret (None, None)
  else next request.

(** The world as the panic left it, the handler's effects up to there
    included, is not determined by the model: [at_panic] stands for it. *)
Variable at_panic : HTTPRequest -> World X -> World X.

Definition WithRecoverWithError : Middleware X := fun next request w =>
  match next request w with
  | Panic _ =>
      (_ ← WriteJSONForHTTP (er_status openai_NewErrorInternalError)
             (openai_MarshalJSON openai_NewErrorInternalError);
       mret (None, None)) (at_panic request w)
  | r => r
  end.

(** A request is known by its address. *)
Variable address : HTTPRequest -> Z.

Definition WithCancellable : Middleware X := fun next request =>
  x ← getExt;
  _ ← putExt (setInflight env ({[ address request ]} ∪ getInflight env x) x);
  r ← next request;
  x ← getExt;
  _ ← putExt (setInflight env (getInflight env x ∖ {[ address request ]}) x);
  mret r.

Definition WithRejectAfterDrainedWithError : Middleware X := fun next request =>
  x ← getExt;
  if getDrained env x then mret (None, Some (EBase NewErrorServiceUnavailable)) else next request.

Definition WithResponseHandler (fn : option Answer -> option gerror -> Eff X unit) : Middleware X :=
  fun next request =>
    '(resp, err) ← next request;
    _ ← fn resp err;
    mret (None, None).

(** The stack of every endpoint, without the access log and the timer, which
    only read and write what the model leaves out here (see AccessLog.v). *)
Definition stack : Middleware X :=
  WithMiddlewares [WithCancellable; WithInitMetadata; WithOptions; WithResponseHandler ResponseHandler;
                   WithRecoverWithError; WithRejectAfterDrainedWithError].

Definition Drain : Eff X (gset Z) :=
  x ← getExt;
  _ ← putExt (setDrained env true x);
  mret (getInflight env x).            (* cancelled after the wait *)

(** ** manager/chat/models.go *)
Definition ClusterProvider_String (p : ClusterProvider) : string :=
  match p with
  | CLUSTER_PROVIDER_UNSPECIFIED => "CLUSTER_PROVIDER_UNSPECIFIED"
  | OPEN_AI => "OPEN_AI" | VLLM => "VLLM" | OLLAMA => "OLLAMA"
  | OPEN_AI_V1_SPEECH => "OPEN_AI_V1_SPEECH" | DEEPGRAM_WEBSOCKET_V1 => "DEEPGRAM_WEBSOCKET_V1"
  | ELEVEN_LABS_V1 => "ELEVEN_LABS_V1" | KOEMOTION_V1 => "KOEMOTION_V1"
  | VOLCENGINE_SEED_SPEECH_V1 => "VOLCENGINE_SEED_SPEECH_V1"
  | ALIBABA_COSY_VOICE_SERVICE => "ALIBABA_COSY_VOICE_SERVICE"
  | MICROSOFT_SPEECH_SERVICE_V1 => "MICROSOFT_SPEECH_SERVICE_V1"
  | CLUSTER_PROVIDER_other n => Itoa n
  end.

Definition ClusterToOpenAIModel (c : Cluster) : Model :=
  mkModel (cl_created c) (cl_name c) "model" (ClusterProvider_String (cl_provider c)).
Definition ClustersToOpenAIModels (clusters : list Cluster) : list Model := map ClusterToOpenAIModel clusters.

(** Glob matching, and the clusters as the register lists them. *)
Variable Match : string -> string -> option bool.
Variable listClusters : Eff X (list Cluster).

Definition name_le (c d : Cluster) : Prop := Is_true (String.leb (cl_name c) (cl_name d)).
#[global] Instance name_le_dec : RelDecision name_le := fun c d => _.

Definition accessible (rMeta : RequestMetadata) (clusters : list Cluster) : list Cluster :=
  if EnabledAuthFilter rMeta then
    match AuthInfo rMeta with
    | Some info => List.filter (fun c => CanAccessModel Match (cl_name c) (auth_allow_models info) (auth_deny_models info)) clusters
    | None => clusters
    end
  else clusters.

Definition listModels (filters : list (RequestFilter X)) : HandlerFunc X := fun request =>
  failed ← firstFailure (OnRequestPreFilters filters) request;
  match failed with
  | Some fResult => mret (None, frr_Error fResult)
  | None =>
      clusters ← listClusters;
      rMeta ← getMeta;
      let clusters := merge_sort name_le (accessible rMeta clusters) in
      mret (Some (AnswerModels (ClustersToOpenAIModels clusters)), None)
  end.
End Listener.

(** ** Lemmas *)
Class ListenerLaws {X} (env : ListenerEnv X) : Prop := {
  out_out o x : getOut env (setOut env o x) = o;
  inflight_out o x : getInflight env (setOut env o x) = getInflight env x;
  drained_out o x : getDrained env (setOut env o x) = getDrained env x;
  out_inflight i x : getOut env (setInflight env i x) = getOut env x;
  inflight_inflight i x : getInflight env (setInflight env i x) = i;
  drained_inflight i x : getDrained env (setInflight env i x) = getDrained env x;
  drained_drained d x : getDrained env (setDrained env d x) = d }.

Definition jsonType : string := "application/json; charset=utf-8".

Section Stack.
Context {X : Type} (env : ListenerEnv X) `{!ListenerLaws env}.
Variable at_panic : HTTPRequest -> World X -> World X.
Variable address : HTTPRequest -> Z.

Abbreviation serve := (stack env at_panic address).

(** The world the handler starts in, and what is done after it. *)
Definition entered (request : HTTPRequest) (w : World X) : World X :=
  mkWorld InitMetadata (w_req w) (setInflight env ({[ address request ]} ∪ getInflight env (w_ext w)) (w_ext w)).
Definition left_ (request : HTTPRequest) (w : World X) : World X :=
  mkWorld (w_meta w) (w_req w) (setInflight env (getInflight env (w_ext w) ∖ {[ address request ]}) (w_ext w)).

Lemma serve_step next request w w' :
  hr_Method request <> "OPTIONS" ->
  WithResponseHandler (ResponseHandler env)
    (WithRecoverWithError env at_panic (WithRejectAfterDrainedWithError env next)) request (entered request w)
  = Ret (w', (None, None)) ->
  serve next request w = Ret (left_ request w', (None, None)).
Proof.
  intros Hm E. unfold stack, WithMiddlewares. cbn [fold_right]. unfold WithCancellable.
  erewrite Eff_bind_Ret by reflexivity. erewrite Eff_bind_Ret by reflexivity.
  unfold WithInitMetadata. erewrite Eff_bind_Ret.
  2: { erewrite Eff_bind_Ret by reflexivity. unfold WithOptions. rewrite (proj2 (String.eqb_neq _ _) Hm). exact E. }
  done.
Qed.

Lemma emit_Ret out w : emit env out w = Ret (mkWorld (w_meta w) (w_req w) (setOut env (getOut env (w_ext w) ++ out) (w_ext w)), tt).
Proof. done. Qed.

(** What an error becomes. *)
Lemma ResponseHandler_error resp e r b t w :
  IsSkipStream e = false -> NewErrorFromLLMError e = Ret r -> er_body r = Some b -> ErrorText e = Ret t ->
  ResponseHandler env resp (Some e) w
  = Ret (mkWorld (setStatus (er_status r) (err_message b) (w_meta w)) (w_req w)
           (setOut env (getOut env (w_ext w) ++ [OutStatus (er_status r) jsonType; OutJSON (openai_MarshalJSON r)]) (w_ext w)), tt).
Proof.
  intros Hs Hr Hb Ht. unfold ResponseHandler. rewrite Hs. erewrite Eff_bind_Ret by (unfold lift; by rewrite Hr).
  rewrite Hb, Ht. erewrite Eff_bind_Ret; [|by destruct (er_from_upstream r), (StatusInternalServerError <=? er_status r)].
  erewrite Eff_bind_Ret by (unfold lift; cbn [ErrorText]; by rewrite Hb). done.
Qed.

Lemma left_out request w : getOut env (w_ext (left_ request w)) = getOut env (w_ext w).
Proof. cbn. apply out_inflight. Qed.

Lemma entered_out request w : getOut env (w_ext (entered request w)) = getOut env (w_ext w).
Proof. cbn. apply out_inflight. Qed.

Lemma inflight_restored request (i : gset Z) : ({[ address request ]} ∪ i) ∖ {[ address request ]} = i ∖ {[ address request ]}.
Proof. set_solver. Qed.
End Stack.

(** * Properties *)
Section Properties.
Context {X : Type} (env : ListenerEnv X) `{!ListenerLaws env}.
Variable at_panic : HTTPRequest -> World X -> World X.
Variable address : HTTPRequest -> Z.
Abbreviation serve := (stack env at_panic address).

(** An error that a handler fails with, from the handler to the client. *)
Lemma error_written next request (w w1 : World X) resp e r b t
    (Hmethod : hr_Method request <> "OPTIONS") (Hopen : getDrained env (w_ext w) = false)
    (Hnext : next request (entered env address request w) = Ret (w1, (resp, Some e)))
    (Hskip : IsSkipStream e = false) (Hr : NewErrorFromLLMError e = Ret r)
    (Hb : er_body r = Some b) (Ht : ErrorText e = Ret t) :
  exists w', serve next request w = Ret (w', (None, None)) /\
    getOut env (w_ext w') = getOut env (w_ext w1) ++ [OutStatus (er_status r) jsonType; OutJSON (openai_MarshalJSON r)] /\
    StatusCode (w_meta w') = er_status r /\ ErrorMessage (w_meta w') = err_message b /\
    getInflight env (w_ext w') = getInflight env (w_ext w1) ∖ {[ address request ]}.
Proof.
  eexists. split; [eapply serve_step; [done|]|].
  - unfold WithResponseHandler. erewrite Eff_bind_Ret.
    2: { unfold WithRecoverWithError, WithRejectAfterDrainedWithError. erewrite Eff_bind_Ret by reflexivity.
         cbn [w_ext entered]. rewrite drained_inflight, Hopen. by rewrite Hnext. }
    cbn beta iota. erewrite Eff_bind_Ret by (by eapply ResponseHandler_error). reflexivity.
  - cbn. by rewrite out_inflight, out_out, inflight_inflight, inflight_out.
Qed.

(** C25: whatever the handler of an endpoint fails with, the client gets
    exactly one status line and one OpenAI error body, those of the error's
    translation, the metadata records the same status and message, and the
    request is no longer among those a shutdown would cancel. *)
Theorem error_reaches_client next request (w w1 : World X) resp e r b t
    (Hmethod : hr_Method request <> "OPTIONS") (Hopen : getDrained env (w_ext w) = false)
    (Hnext : next request (entered env address request w) = Ret (w1, (resp, Some e)))
    (Hskip : IsSkipStream e = false) (Hr : NewErrorFromLLMError e = Ret r)
    (Hb : er_body r = Some b) (Ht : ErrorText e = Ret t) :
  exists w', serve next request w = Ret (w', (None, None)) /\
    getOut env (w_ext w') = getOut env (w_ext w1) ++ [OutStatus (er_status r) jsonType; OutJSON (openai_MarshalJSON r)] /\
    StatusCode (w_meta w') = er_status r /\ ErrorMessage (w_meta w') = err_message b /\
    getInflight env (w_ext w') = getInflight env (w_ext w1) ∖ {[ address request ]}.
Proof. by eapply error_written. Qed.

(** Once the listener is drained, no request reaches its handler any
    more: each one, except an OPTIONS request, is answered 503. *)
Theorem drained_rejects next request (w : World X)
    (Hmethod : hr_Method request <> "OPTIONS") (Hdrained : getDrained env (w_ext w) = true) :
  exists w', serve next request w = Ret (w', (None, None)) /\
    getOut env (w_ext w')
    = getOut env (w_ext w) ++ [OutStatus 503 jsonType; OutJSON (openai_MarshalJSON openai_NewErrorServiceUnavailable)] /\
    StatusCode (w_meta w') = 503 /\
    getInflight env (w_ext w') = getInflight env (w_ext w) ∖ {[ address request ]}.
Proof.
  eexists. split; [eapply serve_step; [done|]|].
  - unfold WithResponseHandler. erewrite Eff_bind_Ret.
    2: { unfold WithRecoverWithError, WithRejectAfterDrainedWithError. erewrite Eff_bind_Ret by reflexivity.
         cbn [w_ext entered]. rewrite drained_inflight, Hdrained. reflexivity. }
    cbn beta iota. erewrite Eff_bind_Ret by (eapply ResponseHandler_error; reflexivity). reflexivity.
  - cbn. rewrite out_inflight, out_out, out_inflight, inflight_inflight, inflight_out, inflight_inflight.
    split; [done|]. split; [done|]. set_solver.
Qed.

(** A handler that panics before it wrote anything is answered with one
    500 status line and the internal error's body; the metadata, which the
    access log prints, keeps the status it had. *)
Theorem panic_answers_500 next request (w : World X) msg
    (Hmethod : hr_Method request <> "OPTIONS") (Hopen : getDrained env (w_ext w) = false)
    (Hnext : next request (entered env address request w) = Panic msg) :
  let w1 := at_panic request (entered env address request w) in
  exists w', serve next request w = Ret (w', (None, None)) /\
    getOut env (w_ext w') = getOut env (w_ext w1) ++
      [OutStatus 500 jsonType; OutJSON (openai_MarshalJSON openai_NewErrorInternalError)] /\
    w_meta w' = w_meta w1.
Proof.
  cbv zeta. eexists. split; [eapply serve_step; [done|]|].
  - unfold WithResponseHandler. erewrite Eff_bind_Ret.
    2: { unfold WithRecoverWithError, WithRejectAfterDrainedWithError.
         change ((getExt ≫= ?f) ?w) with (f (w_ext w) w). cbn [w_ext entered].
         rewrite drained_inflight, Hopen, Hnext. reflexivity. }
    reflexivity.
  - cbn. by rewrite out_inflight, out_out.
Qed.

(** What is written for a whole response: the status noted, and the writes. *)
Definition whole_output (r : LLMResponse) : Z * list Output :=
  match resp_kind r with
  | KAudio => (AudioResponse_GetStatus (resp_status r), [OutAudio (AudioResponse_GetStatus (resp_status r)) r])
  | _ => (200, OutStatus 200 jsonType :: match resp_body r with Some doc => [OutJSON doc] | None => [] end)
  end.

Lemma whole_written next request (w w1 : World X) r
    (Hmethod : hr_Method request <> "OPTIONS") (Hopen : getDrained env (w_ext w) = false)
    (Hnext : next request (entered env address request w) = Ret (w1, (Some (AnswerLLM (Whole r)), None))) :
  exists w', serve next request w = Ret (w', (None, None)) /\
    getOut env (w_ext w') = getOut env (w_ext w1) ++ snd (whole_output r) /\
    w_meta w' = setStatusCode (fst (whole_output r)) (w_meta w1).
Proof.
  eexists. split; [eapply serve_step; [done|]|].
  - unfold WithResponseHandler. erewrite Eff_bind_Ret.
    2: { unfold WithRecoverWithError, WithRejectAfterDrainedWithError. erewrite Eff_bind_Ret by reflexivity.
         cbn [w_ext entered]. rewrite drained_inflight, Hopen. by rewrite Hnext. }
    cbn beta iota.
    rewrite (Eff_bind_Ret _ _ w1 (mkWorld (setStatusCode (fst (whole_output r)) (w_meta w1)) (w_req w1)
      (setOut env (getOut env (w_ext w1) ++ snd (whole_output r)) (w_ext w1))) tt); [reflexivity|].
    unfold ResponseHandler, writeWhole, whole_output. by destruct (resp_kind r).
  - cbn. by rewrite out_inflight, out_out.
Qed.

(** A response of an upstream that is not an error is written once, with
    status 200 and the body as the cluster left it. *)
Theorem whole_answer_written next request (w w1 : World X) r doc
    (Hmethod : hr_Method request <> "OPTIONS") (Hopen : getDrained env (w_ext w) = false)
    (Hnext : next request (entered env address request w) = Ret (w1, (Some (AnswerLLM (Whole r)), None)))
    (Hkind : resp_kind r = KChat \/ resp_kind r = KImages) (Hdoc : resp_body r = Some doc) :
  exists w', serve next request w = Ret (w', (None, None)) /\
    getOut env (w_ext w') = getOut env (w_ext w1) ++ [OutStatus 200 jsonType; OutJSON doc] /\
    StatusCode (w_meta w') = 200.
Proof.
  destruct (whole_written next request w w1 r Hmethod Hopen Hnext) as (w' & Es & Ho & Hm).
  exists w'. split; [done|]. rewrite Ho, Hm. unfold whole_output. by destruct Hkind as [-> | ->]; rewrite ?Hdoc.
Qed.

(** A handler that has written a stream has nothing added to it. *)
Lemma stream_left_alone next request (w w1 : World X) resp :
  hr_Method request <> "OPTIONS" -> getDrained env (w_ext w) = false ->
  next request (entered env address request w) = Ret (w1, (resp, Some ESkipStream)) ->
  exists w', serve next request w = Ret (w', (None, None)) /\
    getOut env (w_ext w') = getOut env (w_ext w1) /\ StatusCode (w_meta w') = 200.
Proof.
  intros Hmethod Hopen Hnext. eexists. split; [eapply serve_step; [done|]|].
  - unfold WithResponseHandler. erewrite Eff_bind_Ret.
    2: { unfold WithRecoverWithError, WithRejectAfterDrainedWithError. erewrite Eff_bind_Ret by reflexivity.
         cbn [w_ext entered]. rewrite drained_inflight, Hopen. by rewrite Hnext. }
    cbn beta iota. erewrite Eff_bind_Ret; reflexivity.
  - cbn. by rewrite out_inflight.
Qed.
End Properties.

Section Access.
Context `{JSONPatch} `{JSONPath} `{JSONText} {X : Type} `{Router X}.
Variable Marshal : json -> string.
Variable write_ok : string -> string -> bool.
Variable env : ListenerEnv X.

(** A speech request is only authenticated: whatever request filters
    the listener has, none of them but [OnRequestPre] sees it before it goes
    to its route, and the route's request filters do not see it either; the
    models its key may use and its rate limits are not looked at. *)
Theorem speech_skips_request_filters listenerFilters reversedFilters (request : HTTPRequest) (w w1 w2 : World X)
    (parse : HTTPRequest -> Eff X (option gerror)) (m : routeDefault X)
    (Hpre : firstFailure (OnRequestPreFilters listenerFilters) request w = Ret (w1, None))
    (Hparse : parse request w1 = Ret (w2, None))
    (Htts : GetRequestType (w_req w2) = RequestTypeTextToSpeech) :
  CommonListenerHandler Marshal write_ok env listenerFilters reversedFilters parse request w
  = ('(resp, err, result) ← respond Marshal write_ok env reversedFilters request;
     _ ← completionHooks reversedFilters resp;
     _ ← postHooks (OnResponsePostFilters reversedFilters) (as_llm <$> resp) err;
     mret result) w2 /\
  requestHooks m (GetRequestType (w_req w2)) request w2 = Ret (w2, None).
Proof.
  split; [|by rewrite Htts].
  unfold CommonListenerHandler. etransitivity; [eapply Eff_bind_Ret; exact Hpre|].
  etransitivity; [eapply Eff_bind_Ret; exact Hparse|]. etransitivity; [eapply Eff_bind_Ret; reflexivity|].
  rewrite Htts. by etransitivity; [eapply Eff_bind_Ret; reflexivity|].
Qed.
End Access.

(** ** The list of models *)
Lemma name_le_total : Total name_le.
Proof.
  intros c d. unfold name_le. destruct (String.leb_total (cl_name c) (cl_name d)) as [E|E]; rewrite E; [by left|by right].
Qed.

(** The list of models is, sorted by name, exactly the registered clusters
    that the key may use, one entry each. *)
Theorem list_models_exact {X} (Match : string -> string -> option bool) (listClusters : Eff X (list Cluster))
    (filters : list (RequestFilter X)) (request : HTTPRequest) (w w1 w2 : World X) (cs : list Cluster)
    (info : APIKeyAuthResponse)
    (Hpre : firstFailure (OnRequestPreFilters filters) request w = Ret (w1, None))
    (Hlist : listClusters w1 = Ret (w2, cs))
    (Hauth : EnabledAuthFilter (w_meta w2) = true) (Hinfo : AuthInfo (w_meta w2) = Some info) :
  exists shown, listModels Match listClusters filters request w
    = Ret (w2, (Some (AnswerModels (ClustersToOpenAIModels shown)), None)) /\
    Sorted name_le shown /\
    shown ≡ₚ List.filter (fun c => CanAccessModel Match (cl_name c) (auth_allow_models info) (auth_deny_models info)) cs.
Proof.
  eexists. split.
  - unfold listModels. etransitivity; [eapply Eff_bind_Ret; exact Hpre|].
    etransitivity; [eapply Eff_bind_Ret; exact Hlist|]. etransitivity; [eapply Eff_bind_Ret; reflexivity|].
    unfold accessible. rewrite Hauth, Hinfo. reflexivity.
  - split; [apply Sorted_merge_sort, name_le_total|apply merge_sort_Permutation].
Qed.

(** ** Examples *)
Record ex_state : Type := mkExState { es_out : list Output; es_drained : bool; es_inflight : gset Z }.
Definition ex_listener : ListenerEnv ex_state :=
  mkListenerEnv es_out (fun o x => mkExState o (es_drained x) (es_inflight x))
    es_drained (fun d x => mkExState (es_out x) d (es_inflight x))
    es_inflight (fun i x => mkExState (es_out x) (es_drained x) i).
#[local] Instance ex_listener_laws : ListenerLaws ex_listener.
Proof. by split. Qed.

Definition ex_served (drained : bool) : World ex_state :=
  mkWorld InitMetadata ex_llm_request (mkExState [] drained ∅).
Definition ex_address (r : HTTPRequest) : Z := 7.
Definition ex_panic (r : HTTPRequest) (w : World ex_state) : World ex_state := w.
Definition ex_fails : HandlerFunc ex_state := fun _ => mret (None, Some (EBase (NewErrorModelNotFoundOrNotAccessible "public"))).
Definition ex_chat_answer : LLMResponse := mkLLMResponse KChat 200 "gpt-4o" None None (Some (JObj ex_fields)).
Definition ex_answers : HandlerFunc ex_state := fun _ => mret (Some (AnswerLLM (Whole ex_chat_answer)), None).

Definition ex_lost_error : gerror := EBase (NewErrorModelNotFoundOrNotAccessible "public").
Definition ex_translated : ErrorResponse :=
  match NewErrorFromLLMError ex_lost_error with Ret r => r | Panic _ => openai_NewErrorInternalError end.
Definition ex_entered : World ex_state := entered ex_listener ex_address ex_http (ex_served false).

Lemma error_reaches_client_witness :
  exists w', stack ex_listener ex_panic ex_address ex_fails ex_http (ex_served false) = Ret (w', (None, None)) /\
    es_out (w_ext w') = [OutStatus 404 jsonType; OutJSON (openai_MarshalJSON ex_translated)] /\
    StatusCode (w_meta w') = 404 /\
    ErrorMessage (w_meta w') = "The model `public` does not exist or you do not have access to it." /\
    es_inflight (w_ext w') = es_inflight (w_ext ex_entered) ∖ {[ 7 ]}.
Proof.
  by apply (error_reaches_client ex_listener ex_panic ex_address ex_fails ex_http (ex_served false) ex_entered None
              ex_lost_error ex_translated (FromPtrOr (er_body ex_translated) (mkError None "" None ""))
              "The model `public` does not exist or you do not have access to it.").
Defined.

Lemma drained_rejects_witness :
  exists w', stack ex_listener ex_panic ex_address ex_answers ex_http (ex_served true) = Ret (w', (None, None)) /\
    es_out (w_ext w') = [OutStatus 503 jsonType; OutJSON (openai_MarshalJSON openai_NewErrorServiceUnavailable)] /\
    StatusCode (w_meta w') = 503 /\ es_inflight (w_ext w') = ∅ ∖ {[ 7 ]}.
Proof. by apply (drained_rejects ex_listener ex_panic ex_address ex_answers ex_http (ex_served true)). Defined.

Lemma panic_answers_500_witness :
  exists w', stack ex_listener ex_panic ex_address (fun _ => panic "boom") ex_http (ex_served false) = Ret (w', (None, None)) /\
    es_out (w_ext w') = [OutStatus 500 jsonType; OutJSON (openai_MarshalJSON openai_NewErrorInternalError)] /\
    w_meta w' = InitMetadata.
Proof.
  by apply (panic_answers_500 ex_listener ex_panic ex_address (fun _ => panic "boom") ex_http (ex_served false) "boom").
Defined.

Lemma whole_answer_written_witness :
  exists w', stack ex_listener ex_panic ex_address ex_answers ex_http (ex_served false) = Ret (w', (None, None)) /\
    es_out (w_ext w') = [OutStatus 200 jsonType; OutJSON (JObj ex_fields)] /\ StatusCode (w_meta w') = 200.
Proof.
  apply (whole_answer_written ex_listener ex_panic ex_address ex_answers ex_http (ex_served false)
           (entered ex_listener ex_address ex_http (ex_served false)) ex_chat_answer); try done. by left.
Defined.

#[local] Existing Instances ex_Unmarshal dotted_paths.
Definition ex_speech_request : LLMRequest := mkLLMRequest RequestTypeTextToSpeech "tts-1" false None None None None None None.
Definition ex_router : Router ex_state := fun _ => mret (None, [], Some (EBase (NewErrorModelNotFoundOrNotAccessible "tts-1"))).
Definition ex_strict : RequestFilter ex_state :=
  let deny : HTTPRequest -> Eff ex_state RequestFilterResult := fun _ => mret (NewFailed (EBase NewErrorRateLimitExceeded)) in
  mkFilter None (Some deny) (Some deny) None None None None.
Definition ex_spoken : World ex_state := mkWorld InitMetadata ex_speech_request (mkExState [] false ∅).

Lemma speech_skips_request_filters_witness :
  CommonListenerHandler (H2 := ex_router) ex_Marshal (fun _ _ => true) ex_listener [ex_strict] [ex_strict]
    (fun _ => _ ← putReq ex_speech_request; mret None) ex_http (ex_served false)
  = ('(resp, err, result) ← respond (H2 := ex_router) ex_Marshal (fun _ _ => true) ex_listener [ex_strict] ex_http;
     _ ← completionHooks [ex_strict] resp;
     _ ← postHooks (OnResponsePostFilters [ex_strict]) (as_llm <$> resp) err;
     mret result) ex_spoken /\
  requestHooks (mkRouteDefault (InitDirectModelRoute "tts-1") ∅ [ex_strict] [ex_strict]) RequestTypeTextToSpeech ex_http ex_spoken
  = Ret (ex_spoken, None).
Proof.
  by apply (speech_skips_request_filters (H2 := ex_router) ex_Marshal (fun _ _ => true) ex_listener [ex_strict] [ex_strict]
              ex_http (ex_served false) (ex_served false) ex_spoken).
Defined.

Definition ex_info : APIKeyAuthResponse := mkAPIKeyAuthResponse true ["gpt-*"] "key" "user" [].
Definition ex_key_world : World unit := mkWorld (setAuth true (Some ex_info) InitMetadata) ex_llm_request tt.
Definition ex_glob (rule model : string) : option bool := Some (HasPrefix model "gpt-").

Lemma list_models_exact_witness :
  exists shown, listModels ex_glob (mret [ex_second; ex_cluster]) [] ex_http ex_key_world
    = Ret (ex_key_world, (Some (AnswerModels (ClustersToOpenAIModels shown)), None)) /\
    Sorted name_le shown /\
    shown ≡ₚ List.filter (fun c => CanAccessModel ex_glob (cl_name c) ["gpt-*"] []) [ex_second; ex_cluster].
Proof. by apply (list_models_exact ex_glob (mret [ex_second; ex_cluster]) [] ex_http ex_key_world ex_key_world ex_key_world _ ex_info). Defined.
