(* ===== verification/AccessLog.v ===== *)
(** * The access log and the request timer (pkg/listener/middlewares.go)

    The full stack of middlewares of an endpoint: [Listener.stack] with the
    two that it leaves out, and the time stamps of the metadata, which only
    they and the stamps' writers touch.  Times are nanoseconds since the epoch
    and [zeroTime] is Go's zero time. *)
From S2P Require Import Prelude GoFloat Json Api Errors Request Response Effects RateLimit Stream Filters ClusterFilters Cluster Route Listener.

Definition zeroTime : Z := -62135596800 * nanosPerSecond.
Definition IsZero (t : Z) : bool := t =? zeroTime.

(** pkg/metadata: the stamps of [RequestMetadata]. *)
Record Stamps : Type := mkStamps {
  RequestAt : Z;
  RespondAt : Z;
  UpstreamRequestAt : Z;
  UpstreamRespondAt : Z;
  UpstreamFirstValidChunkAt : Z }.

Definition InitStamps : Stamps := mkStamps zeroTime zeroTime zeroTime zeroTime zeroTime.
Definition setRequestAt (t : Z) (s : Stamps) : Stamps :=
  mkStamps t (RespondAt s) (UpstreamRequestAt s) (UpstreamRespondAt s) (UpstreamFirstValidChunkAt s).
Definition setRespondAt (t : Z) (s : Stamps) : Stamps :=
  mkStamps (RequestAt s) t (UpstreamRequestAt s) (UpstreamRespondAt s) (UpstreamFirstValidChunkAt s).

(** An attribute of log/slog. *)
Inductive Attr : Type :=
| AString (s : string)
| AInt (n : Z)
| AUint64 (n : Z)
| ADuration (ns : Z).

Abbreviation LogLine := (list (string * Attr)).

(** What the log prints of the HTTP request itself. *)
Record RequestLine : Type := mkRequestLine {
  rl_Proto : string; rl_Host : string; rl_RequestURI : string; rl_RemoteAddr : string; rl_XForwardedFor : string }.

(** The stamps, the lines logged so far and the clock. *)
Record LogEnv (X : Type) : Type := mkLogEnv {
  getStamps : X -> Stamps;
  setStamps : Stamps -> X -> X;
  getLog : X -> list LogLine;
  setLog : list LogLine -> X -> X;
  timeOf : X -> Z;
  advance : X -> X }.          (* between two readings of the clock *)
Arguments mkLogEnv {X}.
Arguments getStamps {X}.
Arguments setStamps {X}.
Arguments getLog {X}.
Arguments setLog {X}.
Arguments timeOf {X}.
Arguments advance {X}.

Definition accessAttrs (line : RequestLine) (request : HTTPRequest) (rMeta : RequestMetadata) (s : Stamps) : LogLine :=
  [("method", AString (hr_Method request)); ("protocol", AString (rl_Proto line)); ("host", AString (rl_Host line));
   ("uri", AString (rl_RequestURI line)); ("remote_address", AString (rl_RemoteAddr line));
   ("x_forwarded_for", AString (rl_XForwardedFor line));
   ("response_duration", ADuration (Sub (RespondAt s) (RequestAt s)));
   ("auth_info_api_key_id", AString (GetApiKeyId (AuthInfo rMeta)));
   ("auth_info_user_id", AString (GetUserId (AuthInfo rMeta)));
   ("request_model", AString (RequestModel rMeta)); ("response_model", AString (ResponseModel rMeta));
   ("response_status", AInt (StatusCode rMeta));
   ("upstream_provider", AString (ClusterProvider_String (UpstreamProvider rMeta)));
   ("upstream_request_model", AString (UpstreamRequestModel rMeta));
   ("upstream_response_model", AString (UpstreamResponseModel rMeta));
   ("upstream_response_status_code", AInt (UpstreamResponseStatusCode rMeta))]
  ++ match LLMUpstreamTokensUsage rMeta with
     | Some u => [("llm_usage_prompt_tokens", AUint64 (GetPromptTokens u)); ("llm_usage_completion_tokens", AUint64 (GetCompletionTokens u))]
     | None => []
     end
  ++ match LLMUpstreamImagesUsage rMeta with
     | Some u => [("llm_usage_images", AUint64 (Z.of_nat (length (GetOutputImages u))))]
     | None => []
     end
  ++ (if IsZero (UpstreamRespondAt s) then []
      else [("upstream_duration", ADuration (Sub (UpstreamRespondAt s) (UpstreamRequestAt s)))])
  ++ (if IsZero (UpstreamFirstValidChunkAt s) then []
      else [("upstream_first_chunk_duration", ADuration (Sub (UpstreamFirstValidChunkAt s) (UpstreamRequestAt s)))]).

Section Stack.
Context {X : Type} (env : ListenerEnv X) (log : LogEnv X).
Variable at_panic : HTTPRequest -> World X -> World X.
Variable address : HTTPRequest -> Z.
Variable line : HTTPRequest -> RequestLine.

Definition stampNow (set : Z -> Stamps -> Stamps) : Eff X unit :=
  x ← getExt;
  let t := timeOf log x in
  let x := advance log x in
  putExt (setStamps log (set t (getStamps log x)) x).

Definition WithRequestTimer : Middleware X := fun next request =>
  _ ← stampNow setRequestAt;
  r ← next request;
  _ ← stampNow setRespondAt;
  mret r.

Definition WithAccessLog (enable : bool) : Middleware X := fun next request =>
  r ← next request;
  _ ← (if enable : bool then
         rMeta ← getMeta;
         x ← getExt;
         putExt (setLog log (getLog log x ++ [accessAttrs (line request) request rMeta (getStamps log x)]) x)
       else mret tt);
  mret r.

(** [metadata.InitMetadataContext] makes new metadata, stamps included. *)
Definition InitStampsOf : Middleware X := fun next request =>
  x ← getExt; _ ← putExt (setStamps log InitStamps x); next request.

(** What is inside the timer. *)
Definition answered : Middleware X :=
  WithMiddlewares [WithOptions env; WithResponseHandler (ResponseHandler env);
                   WithRecoverWithError env at_panic; WithRejectAfterDrainedWithError env].

(** The stack as the listeners have it. *)
Definition loggedStack (enable : bool) : Middleware X :=
  WithMiddlewares [WithCancellable env address; WithInitMetadata; InitStampsOf; WithAccessLog enable; WithRequestTimer; answered].

Lemma stack_answered next request : stack env at_panic address next request
  = WithCancellable env address (WithInitMetadata (answered next)) request.
Proof. done. Qed.

(** ** Laws of the surroundings: the parts are independent of each other. *)
Class LogLaws : Prop := mkLogLaws {
  log_log l x : getLog log (setLog log l x) = l;
  log_stamps s x : getLog log (setStamps log s x) = getLog log x;
  log_advance x : getLog log (advance log x) = getLog log x;
  log_inflight i x : getLog log (setInflight env i x) = getLog log x;
  log_out o x : getLog log (setOut env o x) = getLog log x;
  stamps_stamps s x : getStamps log (setStamps log s x) = s;
  stamps_advance x : getStamps log (advance log x) = getStamps log x;
  out_log l x : getOut env (setLog log l x) = getOut env x;
  out_stamps s x : getOut env (setStamps log s x) = getOut env x;
  out_advance x : getOut env (advance log x) = getOut env x;
  drained_stamps s x : getDrained env (setStamps log s x) = getDrained env x;
  drained_advance x : getDrained env (advance log x) = getDrained env x }.

Context `{!ListenerLaws env} `{!LogLaws}.

(** The state that the layers inside the timer start from. *)
Definition timed (request : HTTPRequest) (w : World X) : World X :=
  let x := setStamps log InitStamps (w_ext (entered env address request w)) in
  mkWorld InitMetadata (w_req w)
    (setStamps log (setRequestAt (timeOf log x) (getStamps log (advance log x))) (advance log x)).

Lemma loggedStack_run enable next request w w2 r :
  answered next request (timed request w) = Ret (w2, r) ->
  exists w', loggedStack enable next request w = Ret (w', r) /\
    w_meta w' = w_meta w2 /\ getOut env (w_ext w') = getOut env (w_ext w2) /\
    getLog log (w_ext w')
    = getLog log (w_ext w2)
      ++ (if enable then [accessAttrs (line request) request (w_meta w2) (setRespondAt (timeOf log (w_ext w2)) (getStamps log (w_ext w2)))]
          else []).
Proof.
  intros E. unfold loggedStack, WithMiddlewares. cbn [fold_right].
  unfold WithCancellable, WithInitMetadata, InitStampsOf, WithAccessLog, WithRequestTimer, stampNow. run_eff. cbv zeta.
  unfold timed, entered in E. cbn [w_ext w_req] in E. cbv zeta in E. rewrite E.
  destruct enable; run_eff; cbv zeta; eexists; (split; [done|]); cbn [w_meta w_ext].
  - rewrite (out_inflight), out_log, out_stamps, out_advance, log_inflight, log_log, log_stamps, log_advance.
    by rewrite stamps_stamps, stamps_advance.
  - rewrite out_inflight, out_stamps, out_advance, log_inflight, log_stamps, log_advance. by rewrite app_nil_r.
Qed.

Lemma timed_open request w : getDrained env (w_ext (timed request w)) = getDrained env (w_ext w).
Proof. unfold timed. cbn. by rewrite drained_stamps, drained_advance, drained_stamps, drained_inflight. Qed.

(** ** What a line says of a request *)
Fixpoint attr (k : string) (l : LogLine) : option Attr :=
  match l with
  | [] => None
  | (k', a) :: l => if String.eqb k' k then Some a else attr k l
  end.

Lemma attr_status ln request m s : attr "response_status" (accessAttrs ln request m s) = Some (AInt (StatusCode m)).
Proof. done. Qed.

(** A request that fails is logged in one line, with the status that its
    client was sent. *)
Theorem error_logged next request (w w1 : World X) resp e r b t
    (Hmethod : hr_Method request <> "OPTIONS") (Hopen : getDrained env (w_ext w) = false)
    (Hnext : next request (timed request w) = Ret (w1, (resp, Some e)))
    (Hskip : IsSkipStream e = false) (Hr : NewErrorFromLLMError e = Ret r)
    (Hb : er_body r = Some b) (Ht : ErrorText e = Ret t) :
  exists w' l, loggedStack true next request w = Ret (w', (None, None)) /\
    getOut env (w_ext w') = getOut env (w_ext w1) ++ [OutStatus (er_status r) jsonType; OutJSON (openai_MarshalJSON r)] /\
    getLog log (w_ext w') = getLog log (w_ext w1) ++ [l] /\
    attr "response_status" l = Some (AInt (er_status r)).
Proof.
  edestruct (loggedStack_run true next request w) as (w' & E & Em & Eo & El).
  - unfold answered, WithMiddlewares. cbn [fold_right]. unfold WithOptions. rewrite (proj2 (String.eqb_neq _ _) Hmethod).
    unfold WithResponseHandler. erewrite Eff_bind_Ret.
    2: { unfold WithRecoverWithError, WithRejectAfterDrainedWithError. erewrite Eff_bind_Ret by reflexivity.
         rewrite timed_open, Hopen, Hnext. reflexivity. }
    cbn beta iota. erewrite Eff_bind_Ret by (by eapply ResponseHandler_error). reflexivity.
  - exists w'. eexists. split; [exact E|]. cbn [w_ext] in Eo, El. rewrite Eo, out_out. rewrite log_out in El.
    split; [done|]. by split.
Qed.

(** A request whose handler panics is logged with the status that the metadata
    had when it did, 0 when the handler had set none, though its client was
    sent 500. *)
Theorem panic_logged next request (w : World X) msg
    (Hmethod : hr_Method request <> "OPTIONS") (Hopen : getDrained env (w_ext w) = false)
    (Hnext : next request (timed request w) = Panic msg) :
  let w1 := at_panic request (timed request w) in
  exists w' l, loggedStack true next request w = Ret (w', (None, None)) /\
    getOut env (w_ext w') = getOut env (w_ext w1) ++
      [OutStatus 500 jsonType; OutJSON (openai_MarshalJSON openai_NewErrorInternalError)] /\
    getLog log (w_ext w') = getLog log (w_ext w1) ++ [l] /\
    attr "response_status" l = Some (AInt (StatusCode (w_meta w1))).
Proof.
  cbv zeta. edestruct (loggedStack_run true next request w) as (w' & E & Em & Eo & El).
  - unfold answered, WithMiddlewares. cbn [fold_right]. unfold WithOptions. rewrite (proj2 (String.eqb_neq _ _) Hmethod).
    unfold WithResponseHandler. erewrite Eff_bind_Ret.
    2: { unfold WithRecoverWithError, WithRejectAfterDrainedWithError.
         cbv beta iota zeta delta [mbind Eff_bind getExt]. rewrite timed_open, Hopen, Hnext. reflexivity. }
    reflexivity.
  - exists w'. eexists. split; [exact E|]. cbn [w_ext] in Eo, El. rewrite Eo, out_out. rewrite log_out in El.
    split; [done|]. by split.
Qed.
End Stack.

(** ** Examples *)
Record ex_logged : Type := mkExLogged {
  el_state : ex_state; el_stamps : Stamps; el_log : list LogLine; el_now : Z }.
Definition ex_out : ListenerEnv ex_logged :=
  let on f x := mkExLogged (f (el_state x)) (el_stamps x) (el_log x) (el_now x) in
  mkListenerEnv (fun x => getOut ex_listener (el_state x)) (fun o => on (setOut ex_listener o))
    (fun x => getDrained ex_listener (el_state x)) (fun d => on (setDrained ex_listener d))
    (fun x => getInflight ex_listener (el_state x)) (fun i => on (setInflight ex_listener i)).
Definition ex_log : LogEnv ex_logged :=
  mkLogEnv el_stamps (fun s x => mkExLogged (el_state x) s (el_log x) (el_now x))
    el_log (fun l x => mkExLogged (el_state x) (el_stamps x) l (el_now x))
    el_now (fun x => mkExLogged (el_state x) (el_stamps x) (el_log x) (el_now x + 1000)).
#[local] Instance ex_out_laws : ListenerLaws ex_out.
Proof. by split. Qed.
#[local] Instance ex_log_laws : LogLaws ex_out ex_log.
Proof. by split. Qed.

Definition ex_line (r : HTTPRequest) : RequestLine := mkRequestLine "HTTP/1.1" "gateway" (hr_URL r) "10.0.0.7:4711" "".
Definition ex_unlogged : World ex_logged := mkWorld InitMetadata ex_llm_request (mkExLogged (mkExState [] false ∅) InitStamps [] 5000).

(** A handler that panics: its client is sent 500, the log says 0. *)
Lemma panic_logged_witness :
  exists w' l, loggedStack ex_out ex_log (fun _ w => w) ex_address ex_line true (fun _ => panic "boom") ex_http ex_unlogged
      = Ret (w', (None, None)) /\
    getOut ex_out (w_ext w') = [OutStatus 500 jsonType; OutJSON (openai_MarshalJSON openai_NewErrorInternalError)] /\
    el_log (w_ext w') = [l] /\ attr "response_status" l = Some (AInt 0).
Proof.
  by apply (panic_logged ex_out ex_log (fun _ w => w) ex_address ex_line (fun _ => panic "boom") ex_http ex_unlogged "boom").
Defined.

Lemma error_logged_witness :
  exists w' l, loggedStack ex_out ex_log (fun _ w => w) ex_address ex_line true
      (fun _ => mret (None, Some ex_lost_error)) ex_http ex_unlogged = Ret (w', (None, None)) /\
    getOut ex_out (w_ext w') = [OutStatus 404 jsonType; OutJSON (openai_MarshalJSON ex_translated)] /\
    el_log (w_ext w') = [l] /\ attr "response_status" l = Some (AInt 404).
Proof.
  by apply (error_logged ex_out ex_log (fun _ w => w) ex_address ex_line (fun _ => mret (None, Some ex_lost_error)) ex_http
    ex_unlogged (timed ex_out ex_log ex_address ex_http ex_unlogged) None ex_lost_error ex_translated
    (FromPtrOr (er_body ex_translated) (mkError None "" None "")) "The model `public` does not exist or you do not have access to it.").
Defined.
