(* ===== verification/Serve.v ===== *)
(** * A request through all the layers

    The router of the listener over the route manager, the routes and the
    register of clusters; what a chat request goes through from its arrival to
    the bytes written; static clusters (cmd/gateway/devClusters.go and
    cmd/main.go), after whose registration the requests are served. *)
From S2P Require Import Prelude Strconv Utils GoFloat Json Api LoadBalance Errors Request Response Effects Stream Filters.
From S2P Require Import Auth Usage RateLimit ClusterFilters Cluster Speech Route RouteManager Listener.

(** ** A request through all the layers *)
Section Composed.
Context `{JSONPatch} `{JSONPath} `{JSONText} {X : Type}.
Context `{RouteInterface (routeDefault X)}.
Variable doRequest : HTTPRequest -> Eff X (RawResponse + gerror).
Variable renv : RouteEnv X.

(** The routes and the clusters as the request finds them.  A route's
    fallback loop has fuel; [Route.fallback_bounded] says how much is enough. *)
Definition gateway_router (fuel : nat) (cr : Register X) (rm : RouteManager (routeDefault X)) : Router X := fun raw =>
  r ← RouteManager_HandleRequest
        (fun m => Route_HandleRequest (H := cluster_manager doRequest cr) renv fuel m raw) rm;
  match r with Some r => mret r | None => panic "the fallback loop goes on" end.
End Composed.

Section Layers.
Context `{JSONPatchLaws} `{JSONPathLaws} `{JSONText} {X : Type}.
Variable url_Parse : string -> string + string.
Variable BuildSpeechRequest : ClusterProvider -> string -> string -> LLMRequest -> Header -> option Header ->
                              outcome (HTTPRequest + gerror).
Variable decodeBase64 fetchURL : string -> (Z * Z * string) + gerror.
Variable doRequest : HTTPRequest -> Eff X (RawResponse + gerror).
Abbreviation new := (Cluster_NewWithConfigs (X := X) url_Parse BuildSpeechRequest decodeBase64 fetchURL).

(** The body of a chat request as it is kept: one that asks for a stream is
    made to ask for its usage, too. *)
Definition chat_fields (stream : bool) (fields : gmap string json) : gmap string json :=
  if stream && negb (GetByJSONPath_bool (Some fields) "{ .stream_options.include_usage }")
  then <["stream_options" := includeUsage]> fields else fields.

Definition chat_request (stream : bool) (name : string) (fields : gmap string json) : LLMRequest :=
  mkLLMRequest RequestTypeChatCompletions name stream (Some (JObj (chat_fields stream fields))) (Some (chat_fields stream fields))
    None None None None.

(** A body that asks the cluster of that name for a whole answer or for a
    stream. *)
Record asks (stream : bool) (fields : gmap string json) (name : string) : Prop := {
  as_model : fields !! "model" = Some (JStr name);
  as_named : isEmptyString name = false;
  as_stream : fields !! "stream" = if stream then Some (JBool true) else None }.

Lemma chat_fields_model stream fields : chat_fields stream fields !! "model" = fields !! "model".
Proof. unfold chat_fields. destruct (_ && _); [|done]. by rewrite lookup_insert_ne. Qed.

Lemma chat_parsed stream name fields :
  asks stream fields name ->
  NewChatCompletionRequest RequestTypeChatCompletions (Some (JObj fields)) = Ret (inl (chat_request stream name fields)).
Proof.
  intros [Hm Hn Hs]. unfold NewChatCompletionRequest, ReadAsJSON. cbn [decode_object].
  assert (GetByJSONPath_bool (Some fields) "{ .stream }" = stream) as ->.
  { unfold GetByJSONPath_bool. destruct stream.
    - by rewrite (jsonpath_bool (Some fields) "stream" true eq_refl Hs).
    - by rewrite (jsonpath_missing (Some fields) "stream" eq_refl Hs). }
  assert (GetByJSONPath_string (Some fields) "{ .model }" = name) as ->.
  { unfold GetByJSONPath_string. rewrite (jsonpath_string (Some fields) "model" name eq_refl Hm).
    unfold FromString_string. by rewrite Hn. }
  unfold chat_request, chat_fields. destruct (stream && _); [|done].
  unfold patchRequest, modifyBufferBodyAndParsed, NewAdd. cbn [req_body].
  change "/stream_options" with ("/" +:+ "stream_options"). by rewrite patch_add.
Qed.

Lemma chat_response_kind response r : NewChatCompletionResponse response = Ret (inl r) -> resp_kind r = KChat.
Proof.
  unfold NewChatCompletionResponse. destruct (http_Body response) as [bs|]; [|done].
  intros ([r'|e] & E & [= <-])%outcome_bind_Ret. revert E.
  unfold ChatCompletionsResponse_processBytes. destruct (Unmarshal bs); [|done].
  destruct (decode_object _); [|done]. destruct (FromMap_ChatCompletionsUsage _); [|done].
  by intros ([err|e] & _ & [= <-])%outcome_bind_Ret.
Qed.

(** The answer as the cluster hands it on. *)
Definition renamed (c : Cluster) (r : LLMResponse) (answer : gmap string json) : LLMResponse :=
  mkLLMResponse KChat (resp_status r) (cl_name c) (resp_usage r) None (Some (JObj (<["model" := JStr (cl_name c)]> answer))).

Lemma noteUsage_chat r (w : World X) :
  resp_IsStream r = false ->
  noteUsage RequestTypeChatCompletions (Whole r) w
  = Ret (mkWorld (match resp_usage r with Some u => setTokensUsage u (w_meta w) | None => w_meta w end) (w_req w) (w_ext w), tt).
Proof. intros Hs. unfold noteUsage. cbn [any_IsStream any_GetUsage]. rewrite Hs. destruct (resp_usage r), w; reflexivity. Qed.

Lemma chat_answered c m w raw r answer :
  new c = inl m -> cl_filters c = [] -> GetRequestType (w_req w) = RequestTypeChatCompletions ->
  HasPrefix (raw_ContentType raw) "application/json" = true ->
  NewChatCompletionResponse (buffered raw) = Ret (inl r) -> resp_error r = None ->
  resp_body r = Some (JObj answer) -> is_Some (answer !! "model") ->
  exists meta, handleUpstreamResponse m raw w
               = Ret (mkWorld meta (w_req w) (w_ext w), (Some (Whole (renamed c r answer)), None)).
Proof.
  intros Hnew Hf Ht Hj Hr He Hb Hm.
  pose proof (new_spec (X := X) url_Parse BuildSpeechRequest decodeBase64 fetchURL c) as Hn. rewrite Hnew in Hn.
  destruct Hn as (_ & Hc & _ & _ & Hun & Hmod & Hcom). rewrite Hf in Hun, Hmod. cbn [count List.filter length replicate] in Hun, Hmod.
  assert (responseHandler_ResponseModifier (X := X) c (Some (Whole r)) = mret (inl (Some (Whole (renamed c r answer))))) as Emod.
  { unfold responseHandler_ResponseModifier, any_SetModel, resp_SetModel, modifyBytesBodyAndParsed, NewReplace.
    rewrite (chat_response_kind _ _ Hr), He, Hb. change "/model" with ("/" +:+ "model"). by rewrite patch_replace. }
  unfold handleUpstreamResponse, ForEachResponseUnmarshaller, ForEachResponseModifier. rewrite Hun, Hmod, Hc.
  cbn [unmarshalLoop threadUntilError map].
  eexists. etransitivity.
  { eapply Eff_bind_Ret. erewrite Eff_bind_Ret by (by apply chat_json_step with (r := inl r)). reflexivity. }
  cbn [whole]. etransitivity; [eapply Eff_bind_Ret; reflexivity|].
  etransitivity.
  { eapply Eff_bind_Ret. erewrite Eff_bind_Ret by (by rewrite Emod). reflexivity. }
  cbn [any_IsStream resp_IsStream renamed resp_kind].
  etransitivity; [eapply Eff_bind_Ret; unfold noteResponse; cbn [any_GetError renamed resp_error]; reflexivity|].
  etransitivity.
  { eapply Eff_bind_Ret. unfold doUpstreamResponseComplete, ForEachResponseComplete. rewrite Hcom. reflexivity. }
  etransitivity; [eapply Eff_bind_Ret; reflexivity|]. cbn [w_meta w_req w_ext]. rewrite Ht.
  erewrite Eff_bind_Ret by (by apply noteUsage_chat). reflexivity.
Qed.

(** A stream is handed on as it comes, under the cluster's name. *)
Definition upstream_stream (c : Cluster) (raw : RawResponse) : StreamResponse :=
  sr_SetModel (NewChatCompletionStreamResponse (raw_Text raw) (raw_End raw)) (cl_name c).

Lemma stream_not_json s : HasPrefix s "text/event-stream" = true -> HasPrefix s "application/json" = false.
Proof. destruct s as [|a s]; [done|]. cbn. case_match; [|done]. intros _. by subst a. Qed.

Lemma stream_answered c m w raw :
  new c = inl m -> cl_filters c = [] -> GetRequestType (w_req w) = RequestTypeChatCompletions ->
  HasPrefix (raw_ContentType raw) "text/event-stream" = true ->
  exists meta, handleUpstreamResponse m raw w
               = Ret (mkWorld meta (w_req w) (w_ext w), (Some (Streaming (upstream_stream c raw)), None)).
Proof.
  intros Hnew Hf Ht Hj.
  pose proof (new_spec (X := X) url_Parse BuildSpeechRequest decodeBase64 fetchURL c) as Hn. rewrite Hnew in Hn.
  destruct Hn as (_ & Hc & _ & _ & Hun & Hmod & Hcom). rewrite Hf in Hun, Hmod. cbn [count List.filter length replicate] in Hun, Hmod.
  unfold handleUpstreamResponse, ForEachResponseUnmarshaller, ForEachResponseModifier. rewrite Hun, Hmod, Hc.
  cbn [unmarshalLoop threadUntilError map].
  eexists. etransitivity.
  { eapply Eff_bind_Ret. erewrite Eff_bind_Ret.
    2: { unfold responseHandler_UnmarshalResponseBody. etransitivity; [eapply Eff_bind_Ret; reflexivity|].
         cbv zeta. rewrite Ht, (stream_not_json _ Hj), Hj. reflexivity. }
    reflexivity. }
  etransitivity; [eapply Eff_bind_Ret; reflexivity|].
  etransitivity; [eapply Eff_bind_Ret; reflexivity|].
  etransitivity; [eapply Eff_bind_Ret; reflexivity|].
  etransitivity; [eapply Eff_bind_Ret; reflexivity|].
  etransitivity; [eapply Eff_bind_Ret; reflexivity|]. cbn [w_meta w_req w_ext]. rewrite Ht.
  erewrite Eff_bind_Ret by reflexivity. reflexivity.
Qed.

(** A request for a direct route gets what its cluster answers. *)
Lemma direct_route_handles `{HM : ClusterManager X} (renv : RouteEnv X) fuel (route : routeDefault X) name raw (w w' : World X) resp :
  rd_cfg route = InitDirectModelRoute name -> rd_routeFilters route = [] -> rd_reversedRouteFilters route = [] ->
  GetRequestType (w_req w') = GetRequestType (w_req w) ->
  manager_HandleRequest name w = Ret (w', (Some resp, None)) ->
  Route_HandleRequest renv (S fuel) route raw w
  = Ret (mkWorld (setResponseModel (GetModel (w_req w')) (w_meta w')) (w_req w') (w_ext w'),
         Some (Some resp, streamCallbacks route (Some resp), None)).
Proof.
  intros Hcfg Hf Hrev Ht Hm. unfold Route_HandleRequest.
  etransitivity; [eapply Eff_bind_Ret; reflexivity|].
  etransitivity; [eapply Eff_bind_Ret with (w' := w) (a := None)|].
  { unfold requestHooks. rewrite Hf. by destruct (GetRequestType (w_req w)). }
  cbn [fallback_loop].
  etransitivity; [eapply (Eff_bind_Ret _ _ _ (mkWorld (setResponseModel (GetModel (w_req w')) (w_meta w')) (w_req w') (w_ext w'))
    (Some resp, streamCallbacks route (Some resp), None))|reflexivity].
  unfold attempt, pickCluster. rewrite Hcfg. cbn [InitDirectModelRoute route_lb_policy route_fallback route_targets].
  etransitivity; [eapply Eff_bind_Ret; reflexivity|]. etransitivity; [eapply Eff_bind_Ret; reflexivity|].
  etransitivity; [eapply Eff_bind_Ret; exact Hm|]. cbn beta iota.
  etransitivity; [eapply Eff_bind_Ret; reflexivity|].
  etransitivity; [eapply Eff_bind_Ret with (w' := w') (a := tt)|].
  { unfold responseHooks. rewrite Ht, Hrev. by destruct (GetRequestType (w_req w)); try destruct (negb _). }
  reflexivity.
Qed.

(** A cluster's upstream is sent a body, rewritten, and answers. *)
Definition posts (c : Cluster) (path : string) (stream : bool) (body : gmap string json) (x x' : X) (raw : RawResponse) : Prop :=
  exists u, url_Parse (TrimSuffix1 (up_url (GetUpstream c)) "/" +:+ path) = inl u /\
  forall meta req fields', (forall k, fields' !! k = upstream_field c body k) ->
  doRequest (mkHTTPRequest "POST" u
      (setHeaders (up_headers (GetUpstream c)) (streamHeaders stream (Header_Set ∅ "Content-Type" "application/json")))
      (BodyJSON (JObj fields'))) (mkWorld meta req x) = Ret (mkWorld meta req x', inl raw).

(** The call of a cluster's upstream for a chat body. *)
Definition upstream_gets (c : Cluster) (stream : bool) (fields : gmap string json) : X -> X -> RawResponse -> Prop :=
  posts c "/chat/completions" stream (chat_fields stream fields).

(** The manager's answer to a request for a cluster: a response, with what it
    and the metadata say. *)
Definition hands_out (cr : Register X) (name : string) (w : World X) (x1 : X) (R : AnyResponse -> RequestMetadata -> Prop) : Prop :=
  exists meta req resp, Manager_HandleRequest doRequest cr name w = Ret (mkWorld meta req x1, (Some resp, None)) /\
    GetRequestType req = GetRequestType (w_req w) /\ R resp meta.

(** The cluster called by its name: what its call gives. *)
Lemma manager_calls cr name m w w1 resp :
  FindClusterByName cr name = Some m -> any_GetError resp = None ->
  DoUpstreamRequest doRequest m (mkWorld (setSelectedCluster name (w_meta w)) (w_req w) (w_ext w)) = Ret (w1, (Some resp, None)) ->
  Manager_HandleRequest doRequest cr name w = Ret (w1, (Some resp, None)).
Proof.
  intros Hfind Herr E. unfold Manager_HandleRequest.
  etransitivity; [eapply Eff_bind_Ret; reflexivity|]. rewrite Hfind.
  etransitivity; [eapply Eff_bind_Ret; reflexivity|]. etransitivity; [eapply Eff_bind_Ret; exact E|].
  cbn beta iota. by rewrite Herr.
Qed.

(** A request of a type with a path gets what its upstream answers. *)
Lemma manager_answers cr c m w path body raw x1 (R : AnyResponse -> RequestMetadata -> Prop) :
  FindClusterByName cr (cl_name c) = Some m -> new c = inl m -> cl_filters c = [] ->
  synced (w_req w) body -> is_Some (body !! "model") -> params_ok c (w_req w) ->
  upstreamPath (GetRequestType (w_req w)) = Some path -> posts c path (IsStream (w_req w)) body (w_ext w) x1 raw ->
  (forall w', same_request (w_req w) (w_req w') ->
    (req_type (w_req w) = RequestTypeImageGenerations -> req_size (w_req w') = upstream_size c body (w_req w)) ->
    exists meta resp, handleUpstreamResponse m raw w' = Ret (mkWorld meta (w_req w') (w_ext w'), (Some resp, None)) /\
      any_GetError resp = None /\ R resp meta) ->
  hands_out cr (cl_name c) w x1 R.
Proof.
  intros Hfind Hnew Hf Hsync Hm Hp Hpath (u & Hu & Hup) Hans.
  set (w1 := mkWorld (setSelectedCluster (cl_name c) (w_meta w)) (w_req w) (w_ext w)).
  destruct (upstream_call_sized url_Parse BuildSpeechRequest decodeBase64 fetchURL doRequest c m w1 body path u Hnew Hf Hsync Hm Hp Hpath Hu)
    as (req & fields' & Hf' & Hs & Hsame & _ & Hsize & E).
  set (w2 := mkWorld (setUpstreamRequestModel (upstream_model c) (setUpstreamProvider (cl_provider c) (w_meta w1))) req (w_ext w)) in E.
  destruct (Hans (mkWorld (w_meta w2) req x1) Hsame Hsize) as (meta & resp & Ea & Herr & HR).
  exists meta, req, resp. split; [|split; [|done]].
  - eapply manager_calls; [done|done|]. etransitivity; [exact E|].
    erewrite Eff_bind_Ret by (by apply Hup). exact Ea.
  - destruct Hsame as [Ht _]. exact Ht.
Qed.

(** ** What a served model is *)

(** The registers send the requests for the cluster's name to the cluster. *)
Record serves `{RouteInterface (routeDefault X)} (cr : Register X) (rm : RouteManager (routeDefault X)) (c : Cluster) : Prop := {
  sv_cluster : exists m, FindClusterByName cr (cl_name c) = Some m /\ new c = inl m;
  sv_route req : GetModel req = cl_name c ->
    exists route, MatchRoute rm req = Some route /\ rd_cfg route = InitDirectModelRoute (cl_name c) /\
      rd_routeFilters route = [] /\ rd_reversedRouteFilters route = [] }.

(** The upstream answers a chat body with [raw], a chat completion without an
    error, or with an event stream of one object per data line. *)
Record upstream_answers (c : Cluster) (fields : gmap string json) (x x' : X) (raw : RawResponse) (r : LLMResponse)
    (answer : gmap string json) : Prop := {
  ua_sent : upstream_gets c false fields x x' raw;
  ua_json : HasPrefix (raw_ContentType raw) "application/json" = true;
  ua_parsed : NewChatCompletionResponse (buffered raw) = Ret (inl r);
  ua_no_error : resp_error r = None;
  ua_body : resp_body r = Some (JObj answer);
  ua_model : is_Some (answer !! "model") }.
Record upstream_streams (c : Cluster) (fields : gmap string json) (x x' : X) (raw : RawResponse) (bodies : list string)
    (events : list (gmap string json)) (rest : string) : Prop := {
  us_sent : upstream_gets c true fields x x' raw;
  us_type : HasPrefix (raw_ContentType raw) "text/event-stream" = true;
  us_text : raw_Text raw = upstream_text bodies rest;
  us_events : Forall2 good_body bodies events }.

Section Served.
Context `{RouteInterface (routeDefault X)}.
Variable renv : RouteEnv X.

Lemma routed cr rm c fuel raw_request w x1 (R : AnyResponse -> RequestMetadata -> Prop) :
  serves cr rm c -> GetModel (w_req w) = cl_name c ->
  (forall resp s meta, R resp meta -> R resp (setResponseModel s meta)) ->
  (forall meta, hands_out cr (cl_name c) (mkWorld meta (w_req w) (w_ext w)) x1 R) ->
  exists meta req resp cbs, gateway_router doRequest renv (S fuel) cr rm raw_request w
    = Ret (mkWorld meta req x1, (Some resp, cbs, None)) /\ Forall idle_callback cbs /\ R resp meta.
Proof.
  intros [_ Hroute] Hname Hstable Hans.
  destruct (Hroute (w_req w) Hname) as (route & Hmatch & Hcfg & Hfs & Hrev).
  set (w1 := mkWorld (setMatchedRoute (route_name (route_GetRouteConfig route)) (w_meta w)) (w_req w) (w_ext w)).
  destruct (Hans (w_meta w1)) as (meta & req & resp & Em & Ht & HR).
  eexists _, req, resp, (streamCallbacks route (Some resp)). split; [|split].
  - unfold gateway_router.
    etransitivity; [eapply (Eff_bind_Ret _ _ _ (mkWorld _ req x1) (Some (Some resp, streamCallbacks route (Some resp), None)))|reflexivity].
    unfold RouteManager_HandleRequest. etransitivity; [eapply Eff_bind_Ret; reflexivity|]. rewrite Hmatch.
    etransitivity; [eapply Eff_bind_Ret; reflexivity|]. fold w1.
    eapply (direct_route_handles (HM := cluster_manager doRequest cr) renv fuel route (cl_name c) raw_request w1 (mkWorld meta req x1)); done.
  - destruct resp as [r|r]; cbn; [constructor|]. rewrite Hrev. by repeat constructor.
  - by apply Hstable.
Qed.

Variable Marshal : json -> string.
Variable write_ok : string -> string -> bool.
Context (env : ListenerEnv X) `{!ListenerLaws env}.
Variable at_panic : HTTPRequest -> World X -> World X.
Variable address : HTTPRequest -> Z.

(** The endpoint of chat completions, behind its middlewares. *)
Definition serve_chat (fuel : nat) (cr : Register X) (rm : RouteManager (routeDefault X))
    (filters : list (RequestFilter X)) : HandlerFunc X :=
  stack env at_panic address
    (CommonListenerHandler (H2 := gateway_router doRequest renv fuel cr rm) Marshal write_ok env filters (rev (Clone filters))
       unmarshalChatCompletionsRequestToLLMRequest).

(** The listener's filters let the request through, as they do for an
    authorized key, and have no hook on what comes back. *)
Record let_through (filters : list (RequestFilter X)) (request : HTTPRequest) (req : LLMRequest) (w : World X) (x : X) : Prop := {
  lt_pre : exists meta req', firstFailure (OnRequestPreFilters filters) request w = Ret (mkWorld meta req' x, None) /\
    exists meta', listenerRequestHooks filters (GetRequestType req) request (mkWorld (setRequestModel (GetModel req) meta) req x)
                  = Ret (mkWorld meta' req x, None);
  lt_responses : if IsStream req then OnCompletionStreamResponseFilters (rev (Clone filters)) = []
                 else OnCompletionResponseFilters (rev (Clone filters)) = [];
  lt_posts : OnResponsePostFilters (rev (Clone filters)) = [] }.

Lemma parsed_chat request stream fields name (w : World X) :
  hr_Body request = BodyJSON (JObj fields) -> asks stream fields name ->
  unmarshalChatCompletionsRequestToLLMRequest request w
  = Ret (mkWorld (setRequestModel name (w_meta w)) (chat_request stream name fields) (w_ext w), None).
Proof.
  intros Hb Has. unfold unmarshalChatCompletionsRequestToLLMRequest, parseWith. rewrite Hb.
  etransitivity; [eapply Eff_bind_Ret; unfold lift; rewrite (chat_parsed stream name fields) by done; reflexivity|].
  cbn [GetModel chat_request req_model]. destruct Has as [_ Hn _]. destruct (String.eqb_spec name "") as [->|Hne]; [done|].
  reflexivity.
Qed.

(** Up to the router's answer, and from there on. *)
Definition answered (filters : list (RequestFilter X)) (cbs : list Callback) (resp : AnyResponse)
    : Eff X (option Answer * option gerror) :=
  '(resp, err, result) ←
    match resp with
    | Streaming r => _ ← pipe Marshal write_ok env (rev (Clone filters)) cbs r;
                     mret (Some resp, None, (Some (AnswerLLM resp), Some ESkipStream))
    | Whole r => if any_IsStream (Whole r) then
                   e ← lift (WithCause openai_NewErrorInternalError (EPlain "failed to cast to object.LLMStreamResponse"));
                   mret (Some resp, None, (Some (AnswerLLM resp), Some (EOpenAI e)))
                 else mret (Some resp, None, (Some (AnswerLLM resp), None))
    end;
  _ ← completionHooks (rev (Clone filters)) resp;
  _ ← postHooks (OnResponsePostFilters (rev (Clone filters))) (as_llm <$> resp) err;
  mret result.

(** A parser gives the request of a body. *)
Definition parses (parse : HTTPRequest -> Eff X (option gerror)) (request : HTTPRequest) (req : LLMRequest) : Prop :=
  forall w, parse request w = Ret (mkWorld (setRequestModel (GetModel req) (w_meta w)) req (w_ext w), None).

Lemma handled cr rm c fuel filters parse request w req x x1 (R : AnyResponse -> RequestMetadata -> Prop) :
  serves cr rm c -> parses parse request req -> GetModel req = cl_name c -> let_through filters request req w x ->
  (forall resp s meta, R resp meta -> R resp (setResponseModel s meta)) ->
  (forall meta, hands_out cr (cl_name c) (mkWorld meta req x) x1 R) ->
  exists meta req' resp cbs, Forall idle_callback cbs /\ R resp meta /\
    CommonListenerHandler (H2 := gateway_router doRequest renv (S fuel) cr rm) Marshal write_ok env filters (rev (Clone filters))
      parse request w
    = answered filters cbs resp (mkWorld meta req' x1).
Proof.
  intros Hs Hparse Hname [(meta & req' & Hpre & meta' & Hchat) _ _] Hstable Hans.
  destruct (routed cr rm c fuel request (mkWorld meta' req x) x1 R Hs Hname Hstable Hans)
    as (meta1 & req1 & resp & cbs & Er & Hcbs & HR).
  exists meta1, req1, resp, cbs. split; [done|]. split; [done|]. unfold CommonListenerHandler, answered.
  etransitivity; [eapply Eff_bind_Ret; exact Hpre|].
  etransitivity; [eapply Eff_bind_Ret; by apply Hparse|].
  etransitivity; [eapply Eff_bind_Ret; reflexivity|]. cbn [w_req w_meta w_ext].
  etransitivity; [eapply Eff_bind_Ret; exact Hchat|].
  apply Eff_bind_cong. unfold respond. etransitivity; [eapply Eff_bind_Ret; exact Er|]. by destruct resp.
Qed.

(** A chat request is parsed and called as such. *)
Lemma chat_parses request stream fields name :
  hr_Body request = BodyJSON (JObj fields) -> asks stream fields name ->
  parses unmarshalChatCompletionsRequestToLLMRequest request (chat_request stream name fields).
Proof. intros Hb Has w. by apply parsed_chat. Qed.

Lemma chat_handed cr rm c stream fields x x1 raw resp :
  serves cr rm c -> cl_filters c = [] -> asks stream fields (cl_name c) -> params_ok c (chat_request stream (cl_name c) fields) ->
  upstream_gets c stream fields x x1 raw -> any_GetError resp = None ->
  (forall m w', new c = inl m -> GetRequestType (w_req w') = RequestTypeChatCompletions ->
    exists meta, handleUpstreamResponse m raw w' = Ret (mkWorld meta (w_req w') (w_ext w'), (Some resp, None))) ->
  forall meta, hands_out cr (cl_name c) (mkWorld meta (chat_request stream (cl_name c) fields) x) x1 (fun r _ => r = resp).
Proof.
  intros [(m & Hfind & Hnew) _] Hf [Hm _ _] Hp Hu Herr Hans meta.
  apply (manager_answers cr c m _ "/chat/completions" (chat_fields stream fields) raw); try done.
  { by rewrite chat_fields_model, Hm. }
  intros w' [Ht _] _. destruct (Hans m w' Hnew) as (meta' & E); [by cbn in Ht|]. by exists meta', resp.
Qed.

Lemma chat_served cr rm c fuel filters request w fields x x1 raw r answer
    (Hserves : serves cr rm c) (Hdefault : cl_filters c = [])
    (Hmethod : hr_Method request <> "OPTIONS") (Hopen : getDrained env (w_ext w) = false)
    (Hbody : hr_Body request = BodyJSON (JObj fields)) (Hasks : asks false fields (cl_name c))
    (Hfilters : let_through filters request (chat_request false (cl_name c) fields) (entered env address request w) x)
    (Hparams : params_ok c (chat_request false (cl_name c) fields))
    (Hupstream : upstream_answers c fields x x1 raw r answer) :
  exists w', serve_chat (S fuel) cr rm filters request w = Ret (w', (None, None)) /\
    getOut env (w_ext w')
    = getOut env x1 ++ [OutStatus 200 jsonType; OutJSON (JObj (<["model" := JStr (cl_name c)]> answer))] /\
    StatusCode (w_meta w') = 200.
Proof.
  destruct Hupstream as [Hsent Hj Hr He Hb Hm].
  destruct (handled cr rm c fuel filters _ request _ _ x x1 (fun resp _ => resp = Whole (renamed c r answer))
              Hserves (chat_parses _ _ _ _ Hbody Hasks) eq_refl Hfilters (fun _ _ _ E => E)) as (meta & req & resp & cbs & _ & -> & E).
  { apply (chat_handed cr rm c false fields x x1 raw (Whole (renamed c r answer))); try done.
    intros m w' Hnew Ht. by apply chat_answered. }
  destruct Hfilters as [_ Hresp Hpost]. cbn [IsStream chat_request req_stream] in Hresp. unfold answered in E.
  cbn [any_IsStream resp_IsStream renamed resp_kind] in E. unfold completionHooks in E. cbn [any_IsStream resp_IsStream resp_kind] in E.
  rewrite Hresp, Hpost in E.
  destruct (whole_answer_written env at_panic address _ request w _ (renamed c r answer) _ Hmethod Hopen E (or_introl eq_refl) eq_refl)
    as (w' & Es & Ho & Hst).
  exists w'. split; [exact Es|]. by split.
Qed.

(** C1: a chat request, from its arrival to the bytes of the answer, through
    every layer: when the registers serve a cluster, the listener's filters
    let the request through and the upstream answers the rewritten request
    with a chat completion, then the client is written exactly one status line
    and one body, the upstream's answer under the name the client asked for. *)
Theorem chat_request_served cr rm c fuel filters request w fields x x1 raw r answer
    (Hserves : serves cr rm c) (Hdefault : cl_filters c = [])
    (Hmethod : hr_Method request <> "OPTIONS") (Hopen : getDrained env (w_ext w) = false)
    (Hbody : hr_Body request = BodyJSON (JObj fields)) (Hasks : asks false fields (cl_name c))
    (Hfilters : let_through filters request (chat_request false (cl_name c) fields) (entered env address request w) x)
    (Hparams : params_ok c (chat_request false (cl_name c) fields))
    (Hupstream : upstream_answers c fields x x1 raw r answer) :
  exists w', serve_chat (S fuel) cr rm filters request w = Ret (w', (None, None)) /\
    getOut env (w_ext w')
    = getOut env x1 ++ [OutStatus 200 jsonType; OutJSON (JObj (<["model" := JStr (cl_name c)]> answer))] /\
    StatusCode (w_meta w') = 200.
Proof. by eapply chat_served. Qed.

(** C3: a chat request for a stream, from its arrival to the bytes of the
    answer: the upstream is asked for its usage as well, and each of its
    events is written to the client in order, unchanged, the model name of
    the upstream included, before the end mark; nothing else is written. *)
Theorem chat_stream_served cr rm c fuel filters request w fields x x1 raw bodies events rest
    (Hserves : serves cr rm c) (Hdefault : cl_filters c = [])
    (Hmethod : hr_Method request <> "OPTIONS") (Hopen : getDrained env (w_ext w) = false)
    (Hbody : hr_Body request = BodyJSON (JObj fields)) (Hasks : asks true fields (cl_name c))
    (Hfilters : let_through filters request (chat_request true (cl_name c) fields) (entered env address request w) x)
    (Hparams : params_ok c (chat_request true (cl_name c) fields))
    (Hclient : forall out s, write_ok out s = true)
    (Hmarshal : forall m, Marshal (JObj m) <> "" /\ one_line (Marshal (JObj m)) = true)
    (Hupstream : upstream_streams c fields x x1 raw bodies events rest) :
  exists w', serve_chat (S fuel) cr rm filters request w = Ret (w', (None, None)) /\
    getOut env (w_ext w')
    = getOut env x1 ++ [OutStatus 200 "text/event-stream; charset=utf-8";
                        OutText (concat_strings (map (fun m => frame (Marshal (JObj m))) events) +:+ frame "[DONE]")] /\
    StatusCode (w_meta w') = 200.
Proof.
  destruct Hupstream as [Hsent Ht Htext Hev].
  destruct (handled cr rm c fuel filters _ request _ _ x x1 (fun resp _ => resp = Streaming (upstream_stream c raw))
              Hserves (chat_parses _ _ _ _ Hbody Hasks) eq_refl Hfilters (fun _ _ _ E => E)) as (meta & req & resp & cbs & Hcbs & -> & E).
  { apply (chat_handed cr rm c true fields x x1 raw (Streaming (upstream_stream c raw))); try done.
    intros m w' Hnew Hreq. by apply stream_answered. }
  destruct Hfilters as [_ Hresp Hpost]. cbn [IsStream chat_request req_stream] in Hresp. unfold answered in E.
  set (all := cbs ++ [streamCallback (rev (Clone filters))]).
  assert (Forall idle_callback all) as Hidle.
  { apply Forall_app. split; [done|]. repeat constructor. intros ctx r chunk w0. unfold streamCallback. by rewrite Hresp. }
  set (w1 := mkWorld meta req (setOut env (getOut env x1 ++ [OutStatus 200 "text/event-stream; charset=utf-8"]) x1)).
  destruct (pipe_loop_wellformed Marshal write_ok all rest bodies events (S (String.length (sr_input (upstream_stream c raw))))
              (upstream_stream c raw) "" w1) as (w2 & r' & Ep & _); try done.
  { eapply Forall_impl; [exact Hidle|]. intros cb. apply idle_quiet. }
  { lia. }
  pose proof (pipe_loop_idle_ext _ _ _ _ Hidle _ _ _ _ _ Ep) as Hext.
  set (text := concat_strings _ +:+ _) in Ep.
  assert (pipe Marshal write_ok env (rev (Clone filters)) cbs (upstream_stream c raw) (mkWorld meta req x1)
          = Ret (mkWorld (w_meta w2) (w_req w2) (setOut env (getOut env (w_ext w2) ++ [OutText text]) (w_ext w2)), tt)) as Epipe.
  { unfold pipe. etransitivity; [eapply Eff_bind_Ret; reflexivity|].
    etransitivity; [eapply Eff_bind_Ret; exact Ep|]. reflexivity. }
  rewrite (Eff_bind_cong _ (mret (Some (Streaming (upstream_stream c raw)), None,
    (Some (AnswerLLM (Streaming (upstream_stream c raw))), Some ESkipStream))) _ _
    (mkWorld (w_meta w2) (w_req w2) (setOut env (getOut env (w_ext w2) ++ [OutText text]) (w_ext w2)))) in E.
  2: { by etransitivity; [eapply Eff_bind_Ret; exact Epipe|]. }
  rewrite Hpost in E.
  destruct (stream_left_alone env at_panic address _ request w _ _ Hmethod Hopen E) as (w' & Es & Ho & Hst).
  exists w'. split; [exact Es|]. split; [|done]. rewrite Ho. cbn [w_ext]. rewrite out_out, Hext. unfold w1. cbn [w_ext].
  rewrite out_out. by rewrite <- app_assoc.
Qed.
End Served.
End Layers.

(** ** devClusters.go and cmd/main.go: static clusters *)

(** main.go: the clusters of the configuration file, with the readers of YAML
    (sigs.k8s.io/yaml and protoyaml).  The last of a name stays. *)
Section ToClusterMap.
Context {C : Type}.
Variable yaml_Marshal : C -> string + string.
Variable protoyaml_Unmarshal : string -> Cluster + string.

Definition readCluster (i : Z) (c : C) : Cluster + gerror :=
  match yaml_Marshal c with
  | inr e => inr (EWrap ("failed to marshal static cluster " +:+ Itoa i) (EPlain e))
  | inl bs =>
      match protoyaml_Unmarshal bs with
      | inr e => inr (EWrap ("failed to unmarshal static cluster " +:+ Itoa i) (EPlain e))
      | inl cluster =>
          if String.eqb (cl_name cluster) "" then inr (EPlain ("static cluster " +:+ Itoa i +:+ " missing name"))
          else inl cluster
      end
  end.

Fixpoint toClusterMap_loop (i : Z) (staticCluster : list C) (clusterMap : gmap string Cluster) : gmap string Cluster + gerror :=
  match staticCluster with
  | [] => inl clusterMap
  | c :: staticCluster =>
      match readCluster i c with
      | inr e => inr e
      | inl cluster => toClusterMap_loop (i + 1) staticCluster (<[cl_name cluster := cluster]> clusterMap)
      end
  end.
Definition toClusterMap (staticCluster : list C) : gmap string Cluster + gerror := toClusterMap_loop 0 staticCluster ∅.

Definition named (m : gmap string Cluster) : Prop := map_Forall (fun name c => cl_name c = name /\ name <> "") m.

Lemma readCluster_named i c cluster : readCluster i c = inl cluster -> cl_name cluster <> "".
Proof.
  unfold readCluster. destruct (yaml_Marshal c); [|done]. destruct (protoyaml_Unmarshal _); [|done].
  case_match eqn:E; [done|]. intros [= ->] En. by rewrite En in E.
Qed.

Lemma toClusterMap_loop_named cs : forall i m m', named m -> toClusterMap_loop i cs m = inl m' -> named m'.
Proof.
  induction cs as [|c cs IH]; intros i m m' Hm; cbn [toClusterMap_loop]; [by intros [= <-]|].
  destruct (readCluster i c) as [cluster|e] eqn:Ec; [|done]. apply IH.
  apply map_Forall_insert_2; [|done]. split; [done|by apply (readCluster_named i c)].
Qed.

(** Every configured name is in the map. *)
Lemma toClusterMap_loop_names cs : forall i m m', toClusterMap_loop i cs m = inl m' ->
  (forall n, is_Some (m !! n) -> is_Some (m' !! n)) /\
  (forall (k : nat) c, cs !! k = Some c -> exists cluster, readCluster (i + Z.of_nat k) c = inl cluster /\ is_Some (m' !! cl_name cluster)).
Proof.
  induction cs as [|c cs IH]; intros i m m'; cbn [toClusterMap_loop]; [by intros [= <-]|].
  destruct (readCluster i c) as [cluster|e] eqn:Ec; [|done]. intros [Hsub Hcs]%IH. split.
  - intros n Hn. apply Hsub. destruct (decide (n = cl_name cluster)) as [->|?];
      [rewrite lookup_insert_eq; by eexists|by rewrite lookup_insert_ne].
  - intros [|k] c' Hk.
    + injection Hk as <-. exists cluster. rewrite Z.add_0_r. split; [done|]. apply Hsub. rewrite lookup_insert_eq. by eexists.
    + destruct (Hcs k c' Hk) as (cluster' & Hr & Hm). exists cluster'. split; [|done].
      replace (i + Z.of_nat (S k)) with (i + 1 + Z.of_nat k) by lia. done.
Qed.
End ToClusterMap.

(** The names in any order of a [range] over the map. *)
Lemma named_range m order : named m -> order ≡ₚ (map_to_list m).*2 ->
  NoDup (map cl_name order) /\ Forall (fun c => cl_name c <> "") order.
Proof.
  intros Hm Ho. assert (forall c, c ∈ order -> m !! cl_name c = Some c /\ cl_name c <> "") as Hin.
  { intros c. rewrite Ho, list_elem_of_fmap. intros ([n c'] & -> & Hn%elem_of_map_to_list).
    destruct (Hm n c' Hn) as [En Hne]. cbn. rewrite En. split; [done|congruence]. }
  split.
  - rewrite Ho. assert (map cl_name (map_to_list m).*2 = (map_to_list m).*1) as ->; [|apply NoDup_fst_map_to_list].
    assert (Forall (fun nc => cl_name nc.2 = nc.1) (map_to_list m)) as Hf.
    { apply Forall_forall. intros [n c] Hn%elem_of_map_to_list. exact (proj1 (Hm n c Hn)). }
    clear Ho. induction Hf as [|nc l Hnc Hf IH]; [done|]. rewrite !fmap_cons. cbn [map]. by f_equal.
  - apply Forall_forall. intros c Hc. by apply Hin.
Qed.

Section Static.
Context `{JSONPatch} `{JSONPath} `{JSONText} {X : Type}.
Variable url_Parse : string -> string + string.
Variable BuildSpeechRequest : ClusterProvider -> string -> string -> LLMRequest -> Header -> option Header ->
                              outcome (HTTPRequest + gerror).
Variable decodeBase64 fetchURL : string -> (Z * Z * string) + gerror.
Variable Match : string -> string -> option bool.
Variable APIKeyAuth : string -> Z -> string -> Eff X (APIKeyAuthResponse + (gerror * option Auth.grpcCode)).
Variable UsageReport : string -> Z -> Usage.UsageReportRequest -> Eff X (option gerror).
Variable newRedisClient : RateLimitConfig -> option gerror.
Variable invalid : Z.
Variable limiters : nat -> RateLimit.Surroundings X.

(** The order in which a [range] visits a map. *)
Variable keys : gmap string (routeDefault X) -> list string.

Abbreviation new := (Cluster_NewWithConfigs (X := X) url_Parse BuildSpeechRequest decodeBase64 fetchURL).
Abbreviation upsert := (UpsertAndRegisterCluster (X := X) url_Parse BuildSpeechRequest decodeBase64 fetchURL).
#[local] Instance routes_of_gateway : RouteInterface (routeDefault X) :=
  default_route Match APIKeyAuth UsageReport newRedisClient invalid limiters.

Definition registerBase (rm : RouteManager (routeDefault X)) (cfg : Api.Route) : RouteManager (routeDefault X) * option gerror :=
  RegisterBaseRouteWithConfig rm (keys (uniqueRoutes (rm_exec rm [] (OpRegisterBase cfg)))) cfg.

(** The map in the order of the [range]. *)
Fixpoint StaticRegisterClusters (clusterDetails : list Cluster) (cr : Register X) (rm : RouteManager (routeDefault X))
    : Register X * RouteManager (routeDefault X) * option gerror :=
  match clusterDetails with
  | [] => (cr, rm, None)
  | c :: clusterDetails =>
      let '(cr, err) := upsert cr c in
      match err with
      | Some e => (cr, rm, Some e)
      | None =>
          let '(rm, err) := registerBase rm (InitDirectModelRoute (cl_name c)) in
          match err with
          | Some e => (cr, rm, Some e)
          | None => StaticRegisterClusters clusterDetails cr rm
          end
      end
  end.

(** The route of a model name. *)
Definition direct (name : string) : routeDefault X :=
  mkRouteDefault (InitDirectModelRoute name) (buildBackendNsMap (InitDirectModelRoute name)) [] [].

Lemma direct_New name : route_New (InitDirectModelRoute name) = inl (direct name).
Proof. reflexivity. Qed.

Hypothesis keys_order : forall m, key_order (keys m) m.

Definition direct_routes (bases : gmap string (routeDefault X)) : Prop := forall n r, bases !! n = Some r -> r = direct n.

Lemma registerBase_direct rm bases name :
  rm_ok rm (∅, bases) -> exists rm', registerBase rm (InitDirectModelRoute name) = (rm', None) /\
    rm_ok rm' (∅, <[name := direct name]> bases).
Proof.
  intros Hok. pose proof (rm_matches _ _ Hok) as Hm.
  destruct (registerBase rm (InitDirectModelRoute name)) as [rm' e] eqn:E.
  assert (e = None) as ->.
  { revert E. unfold registerBase, RegisterBaseRouteWithConfig. rewrite direct_New. cbn [matchRouteRegistry].
    destruct (matchRouteRegistry rm !! _); by intros [= _ <-]. }
  exists rm'. split; [done|].
  assert (rm_step rm (OpRegisterBase (InitDirectModelRoute name)) rm') as Hstep.
  { revert E. unfold registerBase. set (order := keys _). intros E.
    pose proof (rm_step_intro rm (OpRegisterBase (InitDirectModelRoute name)) order) as Hs.
    unfold rm_exec in Hs. rewrite E in Hs. apply Hs. cbn [fst]. unfold order.
    assert (uniqueRoutes (rm_exec rm [] (OpRegisterBase (InitDirectModelRoute name))) = uniqueRoutes rm') as ->; [|apply keys_order].
    rewrite !uniqueRoutes_union. revert E. unfold rm_exec, RegisterBaseRouteWithConfig. rewrite direct_New. cbn [matchRouteRegistry].
    destruct (matchRouteRegistry rm !! _); by intros [= <-]. }
  apply (rm_step_ok _ _ _ _ Hstep) in Hok. cbn [spec_registries] in Hok. by rewrite direct_New in Hok.
Qed.

(** What the loop has registered. *)
Record static_ok (cr : Register X) (rm : RouteManager (routeDefault X)) (bases : gmap string (routeDefault X)) : Prop := {
  st_routes : rm_ok rm (∅, bases);
  st_direct : direct_routes bases }.

Lemma static_step cr rm bases c :
  static_ok cr rm bases ->
  if supported c then exists m cr' rm', new c = inl m /\ FindClusterByName cr' (cl_name c) = Some m /\
    (forall name, name <> cl_name c -> FindClusterByName cr' name = FindClusterByName cr name) /\
    static_ok cr' rm' (<[cl_name c := direct (cl_name c)]> bases) /\
    forall cs, StaticRegisterClusters (c :: cs) cr rm = StaticRegisterClusters cs cr' rm'
  else forall cs, exists cr' rm' e, StaticRegisterClusters (c :: cs) cr rm = (cr', rm', Some e).
Proof.
  intros [Hr Hd]. pose proof (upsert_spec url_Parse BuildSpeechRequest decodeBase64 fetchURL cr c) as Hu.
  destruct (supported c).
  - destruct Hu as (m & Hn & Eu). destruct (registerBase_direct rm bases (cl_name c) Hr) as (rm' & Er & Hr').
    exists m, (mkRegister (<[cl_name c := m]> (reg_clusters cr)) (<[cl_name c := c]> (reg_clustersDetails cr))), rm'.
    unfold FindClusterByName. cbn [reg_clusters]. split; [done|]. split; [|split; [|split]].
    + apply lookup_insert_eq.
    + intros name Hne. by apply lookup_insert_ne.
    + split; [done|]. intros n r. destruct (decide (n = cl_name c)) as [->|Hne].
      * rewrite lookup_insert_eq. by intros [= <-].
      * rewrite lookup_insert_ne by done. apply Hd.
    + intros cs. cbn [StaticRegisterClusters]. by rewrite Eu, Er.
  - destruct Hu as (e & Eu). intros cs. cbn [StaticRegisterClusters]. rewrite Eu. by eexists _, _, e.
Qed.

Lemma static_run cs : forall cr rm bases, static_ok cr rm bases -> NoDup (map cl_name cs) ->
  match StaticRegisterClusters cs cr rm with
  | (cr', rm', None) =>
      forallb supported cs = true /\
      (forall name, name ∉ map cl_name cs -> FindClusterByName cr' name = FindClusterByName cr name) /\
      exists bases', static_ok cr' rm' bases' /\ (forall n, is_Some (bases !! n) -> is_Some (bases' !! n)) /\
        Forall (fun c => is_Some (bases' !! cl_name c) /\
                  exists m, FindClusterByName cr' (cl_name c) = Some m /\ new c = inl m) cs
  | (_, _, Some _) => forallb supported cs = false
  end.
Proof.
  induction cs as [|c cs IH]; intros cr rm bases Hok Hnd.
  { split; [done|]. split; [done|]. by exists bases. }
  cbn [map forallb] in *. apply NoDup_cons in Hnd as [Hnin Hnd].
  pose proof (static_step cr rm bases c Hok) as Hs. destruct (supported c).
  - destruct Hs as (m & cr1 & rm1 & Hn & Hf & Hother & Hok1 & E). rewrite E.
    specialize (IH cr1 rm1 _ Hok1 Hnd). destruct (StaticRegisterClusters cs cr1 rm1) as [[cr' rm'] [e|]]; [done|].
    destruct IH as (Hall & Hkept & bases' & Hok' & Hsub & Hcs). split; [done|]. split.
    + intros name Hne. rewrite Hkept, Hother; [done| |]; intros Hin; apply Hne; [subst; left|by right].
    + exists bases'. split; [done|]. split.
      * intros n Hb. apply Hsub. destruct (decide (n = cl_name c)) as [->|?]; [rewrite lookup_insert_eq; by eexists|by rewrite lookup_insert_ne].
      * constructor; [|done]. split; [apply Hsub; rewrite lookup_insert_eq; by eexists|].
        exists m. split; [by rewrite Hkept|done].
  - destruct (Hs cs) as (cr' & rm' & e & ->). done.
Qed.

(** A request for a name with a direct route is matched by that route. *)
Lemma direct_matched cr rm bases name req :
  static_ok cr rm bases -> is_Some (bases !! name) -> name <> "" -> GetModel req = name ->
  MatchRoute rm req = Some (direct name).
Proof.
  intros [Hr Hd] [r Hb] Hne Hreq.
  assert (forall n, Route_Match (InitDirectModelRoute n) req = true <-> n = name /\ n <> "") as Hmatch.
  { intros n. rewrite (direct_route_matches n req), Hreq. by split; intros [-> ?]. }
  assert (forall r', r' ∈ routes rm -> exists n, r' = direct n /\ bases !! n = Some r') as Hin.
  { intros r'. rewrite (rm_routes _ _ Hr). cbn [fst snd]. rewrite map_empty_union, list_elem_of_fmap.
    intros ([n r0] & -> & Hn%elem_of_map_to_list). exists n. by rewrite <- (Hd n r0 Hn). }
  unfold MatchRoute. destruct (List.find _ (routes rm)) as [r'|] eqn:E.
  - apply find_some in E as [Hi%list_elem_of_In Hm]. destruct (Hin r' Hi) as (n & -> & _). apply Hmatch in Hm as [-> _]. done.
  - assert (direct name ∈ routes rm) as Hi.
    { rewrite (rm_routes _ _ Hr). cbn [fst snd]. rewrite map_empty_union, list_elem_of_fmap.
      exists (name, r). split; [by rewrite (Hd name r Hb)|]. by apply elem_of_map_to_list. }
    apply list_elem_of_In in Hi. pose proof (find_none _ _ E _ Hi) as Hf. cbn in Hf.
    by rewrite (proj2 (Hmatch name)) in Hf.
Qed.

Lemma static_served cs cr rm err :
  NoDup (map cl_name cs) -> Forall (fun c => cl_name c <> "") cs ->
  StaticRegisterClusters cs NewClusterRegister emptyManager = (cr, rm, err) ->
  (err = None <-> forallb supported cs = true) /\
  (err = None -> Forall (serves url_Parse BuildSpeechRequest decodeBase64 fetchURL cr rm) cs).
Proof.
  intros Hnames Hnamed Hrun.
  pose proof (static_run cs NewClusterRegister emptyManager ∅) as Hs. rewrite Hrun in Hs.
  assert (static_ok NewClusterRegister emptyManager ∅) as Hok.
  { split; [|done]. split; [done|done|]. cbn. by rewrite map_empty_union, map_to_list_empty. }
  specialize (Hs Hok Hnames). destruct err as [e|]; [by rewrite Hs|].
  destruct Hs as (Hall & _ & bases & Hok' & _ & Hcs). split; [done|]. intros _.
  rewrite Forall_forall in *. intros c Hc. destruct (Hcs c Hc) as [Hb Hm]. split; [done|].
  intros req Hreq. exists (direct (cl_name c)). split; [|done]. apply (direct_matched cr rm bases); auto.
Qed.

Lemma static_map_served {C} (yaml_Marshal : C -> string + string) (protoyaml_Unmarshal : string -> Cluster + string)
    configs m order cr rm err
    (Hread : toClusterMap yaml_Marshal protoyaml_Unmarshal configs = inl m) (Horder : order ≡ₚ (map_to_list m).*2)
    (Hrun : StaticRegisterClusters order NewClusterRegister emptyManager = (cr, rm, err)) :
  (forall (k : nat) c, configs !! k = Some c -> exists cluster, readCluster yaml_Marshal protoyaml_Unmarshal (Z.of_nat k) c = inl cluster /\
     is_Some (m !! cl_name cluster)) /\
  (err = None <-> map_Forall (fun _ c => supported c = true) m) /\
  (err = None -> map_Forall (fun name c => cl_name c = name /\
     serves url_Parse BuildSpeechRequest decodeBase64 fetchURL cr rm c) m).
Proof.
  assert (named m) as Hm by (by apply (toClusterMap_loop_named _ _ _ _ _ _ (map_Forall_empty _) Hread)).
  destruct (named_range m order Hm Horder) as [Hnd Hne].
  destruct (static_served order cr rm err Hnd Hne Hrun) as [Herr Hserved].
  assert (forall n c, m !! n = Some c -> c ∈ order) as Hin.
  { intros n c Hn. rewrite Horder, list_elem_of_fmap. exists (n, c). split; [done|]. by apply elem_of_map_to_list. }
  split; [|split].
  - apply (toClusterMap_loop_names _ _ _ _ _ _ Hread).
  - rewrite Herr, forallb_forall. split.
    + intros Hs n c Hn. apply Hs, list_elem_of_In. by apply (Hin n).
    + intros Hs c Hc%list_elem_of_In. rewrite Horder, list_elem_of_fmap in Hc.
      destruct Hc as ([n c'] & -> & Hn%elem_of_map_to_list). by apply (Hs n).
  - intros E n c Hn. split; [exact (proj1 (Hm n c Hn))|]. specialize (Hserved E). rewrite Forall_forall in Hserved.
    apply Hserved. by apply (Hin n).
Qed.

(** C27: the static clusters of a configuration are registered exactly when
    each of them is supported, whatever the order in which the map is ranged
    over, and then the gateway serves every one of them: the requests for its
    name are routed to it and it is found.  Every configured name is one. *)
Theorem static_clusters_served {C} (yaml_Marshal : C -> string + string) (protoyaml_Unmarshal : string -> Cluster + string)
    configs m order cr rm err
    (Hread : toClusterMap yaml_Marshal protoyaml_Unmarshal configs = inl m) (Horder : order ≡ₚ (map_to_list m).*2)
    (Hrun : StaticRegisterClusters order NewClusterRegister emptyManager = (cr, rm, err)) :
  (forall (k : nat) c, configs !! k = Some c -> exists cluster, readCluster yaml_Marshal protoyaml_Unmarshal (Z.of_nat k) c = inl cluster /\
     is_Some (m !! cl_name cluster)) /\
  (err = None <-> map_Forall (fun _ c => supported c = true) m) /\
  (err = None -> map_Forall (fun name c => cl_name c = name /\
     serves url_Parse BuildSpeechRequest decodeBase64 fetchURL cr rm c) m).
Proof. by eapply static_map_served. Qed.
End Static.

(** ** Examples *)
#[local] Existing Instances rfc6902 rfc6902_laws dotted_paths dotted_paths_laws ex_Unmarshal whole_floats plain_urls ex_listener_laws.

Definition ex_service (url : string) (timeout : Z) (key : string)
    : Eff ex_state (APIKeyAuthResponse + (gerror * option Auth.grpcCode)) :=
  mret (inl (mkAPIKeyAuthResponse true ["gpt-*"] "key-1" "user-1" [])).
Definition ex_report (url : string) (timeout : Z) (r : Usage.UsageReportRequest) : Eff ex_state (option gerror) := mret None.
Definition ex_limiter : RateLimit.Surroundings ex_state :=
  RateLimit.mkSurroundings (fun _ => RateLimit.RateLimit_NewWithConfig ex_rlc) (fun _ x => x) (mret (0, []))
    (fun _ _ => mret (inl 0)).
Definition ex_routes_of : RouteInterface (routeDefault ex_state) :=
  default_route ex_glob ex_service ex_report (fun _ => None) 0 (fun _ => ex_limiter).
Definition ex_upstreams (r : HTTPRequest) : Eff ex_state (RawResponse + gerror) := mret (inl ex_raw).
Definition ex_routing : RouteEnv ex_state := mkRouteEnv (fun _ => LB_empty) (fun _ x => x) (mret (Some 0)) (fun _ => mret tt).

(** Two static clusters, read from a file and visited in the order of the
    map's list. *)
Definition ex_yaml (c : Cluster) : string + string := inl (cl_name c).
Definition ex_protoyaml (s : string) : Cluster + string :=
  if String.eqb s "gpt-4o" then inl ex_cluster else if String.eqb s "backup" then inl ex_second else inr "unknown field".
Definition ex_map : gmap string Cluster := <["backup" := ex_second]> {[ "gpt-4o" := ex_cluster ]}.
Definition ex_static : Register ex_state * RouteManager (routeDefault ex_state) * option gerror :=
  StaticRegisterClusters ex_parse ex_speech ex_picture ex_picture ex_glob ex_service ex_report (fun _ => None) 0
    (fun _ => ex_limiter) (fun m => (map_to_list m).*1) (map_to_list ex_map).*2 NewClusterRegister emptyManager.
Definition ex_clusters : Register ex_state := ex_static.1.1.
Definition ex_base : RouteManager (routeDefault ex_state) := ex_static.1.2.

Lemma ex_static_run : ex_static = (ex_clusters, ex_base, None).
Proof.
  unfold ex_clusters, ex_base. assert (ex_static.2 = None) as E by (vm_compute; reflexivity).
  destruct ex_static as [[cr rm] err]. cbn in E. by subst.
Qed.

Example static_missing_name :
  toClusterMap (fun _ : string => inl "{}") (fun _ => inl (mkCluster "" CLB_ROUND_ROBIN None [] OPEN_AI 0 LLM None)) ["a"]
  = inr (EPlain "static cluster 0 missing name").
Proof. reflexivity. Qed.

Lemma ex_serves : serves (H4 := ex_routes_of) ex_parse ex_speech ex_picture ex_picture ex_clusters ex_base ex_cluster.
Proof.
  destruct (named_range ex_map (map_to_list ex_map).*2) as [Hnd Hne]; [|done|].
  { apply (bool_decide_unpack _). vm_compute. exact I. }
  pose proof (static_served ex_parse ex_speech ex_picture ex_picture ex_glob ex_service ex_report (fun _ => None) 0
    (fun _ => ex_limiter) (fun m => (map_to_list m).*1) (fun m => reflexivity _) (map_to_list ex_map).*2 ex_clusters ex_base None Hnd Hne) as Hs.
  pose proof ex_static_run as Hrun. unfold ex_static in Hrun. specialize (Hs Hrun) as [_ Hs]. specialize (Hs eq_refl).
  rewrite Forall_forall in Hs. apply Hs, (list_elem_of_fmap_2 snd _ ("gpt-4o", ex_cluster)), elem_of_map_to_list; reflexivity.
Qed.

Lemma static_clusters_served_witness :
  (forall (k : nat) c, [ex_cluster; ex_second] !! k = Some c -> exists cluster, readCluster ex_yaml ex_protoyaml (Z.of_nat k) c = inl cluster /\
     is_Some (ex_map !! cl_name cluster)) /\
  (None = None (A := gerror) <-> map_Forall (fun _ c => supported c = true) ex_map) /\
  (None = None (A := gerror) -> map_Forall (fun name c => cl_name c = name /\
     serves (H4 := ex_routes_of) ex_parse ex_speech ex_picture ex_picture ex_clusters ex_base c) ex_map).
Proof.
  apply (static_clusters_served ex_parse ex_speech ex_picture ex_picture ex_glob ex_service ex_report (fun _ => None) 0
           (fun _ => ex_limiter) (fun m => (map_to_list m).*1) (fun m => reflexivity _) ex_yaml ex_protoyaml [ex_cluster; ex_second]
           ex_map (map_to_list ex_map).*2); [reflexivity|reflexivity|].
  pose proof ex_static_run as Hrun. unfold ex_static in Hrun. exact Hrun.
Defined.

(** A chat of a key that may use the models "gpt-*", against the first of the
    two clusters, behind the authorization filter. *)
Definition ex_chat_fields : gmap string json := <["messages" := JArr []]> {[ "model" := JStr "gpt-4o" ]}.
Definition ex_chat : HTTPRequest :=
  mkHTTPRequest "POST" "/v1/chat/completions" (Header_Set ∅ "Authorization" "Bearer sk-1") (BodyJSON (JObj ex_chat_fields)).
Definition ex_auth : RequestFilter ex_state := AuthFilter ex_glob (ex_service "http://auth" 3).
Definition ex_state_in : ex_state := w_ext (entered ex_listener ex_address ex_chat (ex_served false)).
Definition ex_response : LLMResponse :=
  match NewChatCompletionResponse (buffered ex_raw) with Ret (inl r) => r | _ => ex_chat_answer end.

Lemma ex_let_through :
  let_through [ex_auth] ex_chat (chat_request false "gpt-4o" ex_chat_fields) (entered ex_listener ex_address ex_chat (ex_served false)) ex_state_in.
Proof.
  split; [|reflexivity|reflexivity]. do 2 eexists. split; [vm_compute; reflexivity|]. eexists. vm_compute. reflexivity.
Qed.

Lemma ex_chat_params : params_ok ex_cluster (chat_request false "gpt-4o" ex_chat_fields).
Proof. split; try done; try (by repeat constructor); try (by apply (bool_decide_unpack _); vm_compute). Qed.

Lemma chat_request_served_witness :
  exists w', serve_chat (H4 := ex_routes_of) ex_upstreams ex_routing ex_Marshal (fun _ _ => true) ex_listener
               ex_panic ex_address 1 ex_clusters ex_base [ex_auth] ex_chat (ex_served false) = Ret (w', (None, None)) /\
    es_out (w_ext w') = [OutStatus 200 jsonType; OutJSON (JObj (<["model" := JStr "gpt-4o"]> ex_obj1))] /\
    StatusCode (w_meta w') = 200.
Proof.
  apply (chat_request_served (H4 := ex_routes_of) ex_parse ex_speech ex_picture ex_picture ex_upstreams ex_routing ex_Marshal
           (fun _ _ => true) ex_listener ex_panic ex_address ex_clusters ex_base ex_cluster 0 [ex_auth] ex_chat (ex_served false)
           ex_chat_fields ex_state_in ex_state_in ex_raw ex_response ex_obj1);
    [exact ex_serves|reflexivity|discriminate|reflexivity|reflexivity|split; reflexivity|exact ex_let_through|exact ex_chat_params|].
  split; [|reflexivity|vm_compute; reflexivity|vm_compute; reflexivity|vm_compute; reflexivity|by eexists].
  eexists. split; [reflexivity|]. done.
Defined.

(** The same chat as a stream. *)
Definition ex_stream_fields : gmap string json := <["stream" := JBool true]> ex_chat_fields.
Definition ex_stream : HTTPRequest :=
  mkHTTPRequest "POST" "/v1/chat/completions" (Header_Set ∅ "Authorization" "Bearer sk-1") (BodyJSON (JObj ex_stream_fields)).
Definition ex_events : RawResponse := mkRaw 200 "200 OK" "text/event-stream" (upstream_text [ex_body1; ex_body1] "") EEOF.
Definition ex_streaming (r : HTTPRequest) : Eff ex_state (RawResponse + gerror) := mret (inl ex_events).
Definition ex_stream_state : ex_state := w_ext (entered ex_listener ex_address ex_stream (ex_served false)).

Lemma ex_stream_through :
  let_through [ex_auth] ex_stream (chat_request true "gpt-4o" ex_stream_fields)
    (entered ex_listener ex_address ex_stream (ex_served false)) ex_stream_state.
Proof.
  split; [|reflexivity|reflexivity]. do 2 eexists. split; [vm_compute; reflexivity|]. eexists. vm_compute. reflexivity.
Qed.

Lemma ex_stream_params : params_ok ex_cluster (chat_request true "gpt-4o" ex_stream_fields).
Proof. split; try done; try (by repeat constructor); try (by apply (bool_decide_unpack _); vm_compute). Qed.

Lemma chat_stream_served_witness :
  exists w', serve_chat (H4 := ex_routes_of) ex_streaming ex_routing ex_Marshal (fun _ _ => true) ex_listener
               ex_panic ex_address 1 ex_clusters ex_base [ex_auth] ex_stream (ex_served false) = Ret (w', (None, None)) /\
    es_out (w_ext w') = [OutStatus 200 "text/event-stream; charset=utf-8";
                         OutText (concat_strings (map (fun m => frame (ex_Marshal (JObj m))) [ex_obj1; ex_obj1]) +:+ frame "[DONE]")] /\
    StatusCode (w_meta w') = 200.
Proof.
  apply (chat_stream_served (H4 := ex_routes_of) ex_parse ex_speech ex_picture ex_picture ex_streaming ex_routing ex_Marshal
           (fun _ _ => true) ex_listener ex_panic ex_address ex_clusters ex_base ex_cluster 0 [ex_auth] ex_stream (ex_served false)
           ex_stream_fields ex_stream_state ex_stream_state ex_events [ex_body1; ex_body1] [ex_obj1; ex_obj1] "");
    [exact ex_serves|reflexivity|discriminate|reflexivity|reflexivity|split; reflexivity|exact ex_stream_through|exact ex_stream_params
    |reflexivity|by intros m; split; vm_compute; [discriminate|]|].
  split; [|reflexivity|reflexivity|constructor; [exact ex_good|constructor; [exact ex_good|constructor]]].
  eexists. split; [reflexivity|]. done.
Defined.
