(* ===== verification/ServeMedia.v ===== *)
(** * Images and speech through all the layers

    What [Serve] shows for chat requests, for the endpoints of pictures
    (listener/manager/image) and of speech (listener/manager/tts). *)
From S2P Require Import Prelude Strconv Utils GoFloat Json Api LoadBalance Errors Request Response Effects Stream Filters.
From S2P Require Import Auth Usage RateLimit ClusterFilters Cluster Speech Route RouteManager Listener Serve.

(** ** Pictures *)
Section Pictures.
Context `{JSONPatchLaws} `{JSONPathLaws} `{JSONText} {X : Type}.
Variable url_Parse : string -> string + string.
Variable BuildSpeechRequest : ClusterProvider -> string -> string -> LLMRequest -> Header -> option Header ->
                              outcome (HTTPRequest + gerror).
Variable decodeBase64 fetchURL : string -> (Z * Z * string) + gerror.
Variable doRequest : HTTPRequest -> Eff X (RawResponse + gerror).
Abbreviation new := (Cluster_NewWithConfigs (X := X) url_Parse BuildSpeechRequest decodeBase64 fetchURL).
Abbreviation serves := (serves url_Parse BuildSpeechRequest decodeBase64 fetchURL).

Definition sizeFrom (c : Cluster) : SizeFrom := FromPtrOr (GetSizeFrom <$> cl_metering c) SIZE_FROM_UNSPECIFIED.

(** The pictures of an answer, and whether each can be looked at. *)
Definition pictures (body : gmap string json) : list ImageGenerationsImage :=
  omap NewImageGenerationsImage (GetByJSONPath_maps (Some body) "{ .data }").
Definition readable (images : list ImageGenerationsImage) : Prop :=
  Forall (fun i => exists j, resolveImage decodeBase64 fetchURL i = inl j) images.

Lemma readable_no_errors images : readable images -> snd (batchResolveImages decodeBase64 fetchURL images) = [].
Proof. unfold readable, batchResolveImages. cbn. induction 1 as [|i images [j Hj] _ IH]; [done|]. cbn. by rewrite Hj. Qed.

(** A picture with the size of what it shows. *)
Definition resolved (i : ImageGenerationsImage) : ImageGenerationsImage :=
  match resolveImage decodeBase64 fetchURL i with inl j => j | inr _ => i end.

(** What is accounted for the pictures of an answer, in their order. *)
Definition accounted (c : Cluster) (req : LLMRequest) (images : list ImageGenerationsImage) : LLMUsage :=
  ImagesUsage (map (fun i => metered (sizeFrom c) req (resolved i)) images).

Lemma resolveUsage_accounted c req images :
  req_type req = RequestTypeImageGenerations -> readable images ->
  exists shown, resolveUsage decodeBase64 fetchURL (cl_metering c) req images
                = Ret (inl (shown, map (fun i => metered (sizeFrom c) req (resolved i)) images)).
Proof.
  intros Ht Hp. unfold resolveUsage. rewrite Ht. pose proof (readable_no_errors _ Hp) as Hnone.
  assert (forall f, zip_with (meterImage f req) (map resolved images) (map (fun _ => requestUsage req) images)
                    = map (fun i => metered f req (resolved i)) images) as Hz.
  { intros f. clear Hp Hnone. induction images as [|i images IH]; [done|]. cbn. by rewrite meterImage_metered, IH. }
  assert (batchResolveImages decodeBase64 fetchURL images = (map resolved images, [])) as -> by (by rewrite <- Hnone).
  unfold sizeFrom. cbn [errorsJoin mbind outcome_bind].
  destruct (GetSizeFrom <$> cl_metering c) as [[| | | |n]|]; cbn [FromPtrOr]; try (by eexists); eexists; by rewrite Hz.
Qed.

Lemma accounted_same c req req' size images :
  same_request req req' -> req_size req' = size -> accounted c req' images = accounted c (setSize req size) images.
Proof.
  intros (_ & _ & Hst & Hq & _) Hs. unfold accounted. f_equal. apply map_ext. intros i. unfold metered, requestUsage.
  cbn. by rewrite Hst, Hq, Hs.
Qed.

(** The upstream answers a body with pictures. *)
Record upstream_draws (c : Cluster) (fields : gmap string json) (x x' : X) (raw : RawResponse) (body : gmap string json) : Prop := {
  ud_sent : posts url_Parse doRequest c "/images/generations" false fields x x' raw;
  ud_json : HasPrefix (raw_ContentType raw) "application/json" = true;
  ud_read : IsEOFError (raw_End raw) = true;
  ud_body : Unmarshal (raw_Text raw) = Some (JObj body);
  ud_no_error : unmarshalErrorResponseFromParsedBody (Some body) (buffered raw) (raw_Text raw) = Ret (inl None);
  ud_pictures : readable (pictures body) }.

(** The answer with the usage of the pictures. *)
Definition drawn (name : string) (raw : RawResponse) (body : gmap string json) (usage : LLMUsage) : LLMResponse :=
  mkLLMResponse KImages (raw_StatusCode raw) name (Some usage) None (Some (JObj body)).

Lemma pictures_parsed c raw body fields x x' req :
  upstream_draws c fields x x' raw body -> req_type req = RequestTypeImageGenerations ->
  NewImageGenerationsResponse decodeBase64 fetchURL (cl_metering c) req (buffered raw)
  = Ret (inl (drawn "" raw body (accounted c req (pictures body)))).
Proof.
  intros [_ _ Hr Hb He Hp] Ht. destruct (resolveUsage_accounted c req _ Ht Hp) as [shown E].
  unfold NewImageGenerationsResponse. assert (http_Body (buffered raw) = Some (raw_Text raw)) as ->
    by (unfold buffered; cbn; by rewrite Hr).
  unfold ImageGenerationsResponse_processBytes. rewrite Hb. cbn [decode_object]. fold (pictures body). rewrite E.
  cbn [mbind outcome_bind]. rewrite He. cbn [mbind outcome_bind]. done.
Qed.

(** What a cluster makes of them: the body as it came, under the cluster's name
    in the response's own record, and the usage in the metadata. *)
Definition metered_answer (c : Cluster) (raw : RawResponse) (body : gmap string json) (usage : LLMUsage)
    (resp : AnyResponse) (meta : RequestMetadata) : Prop :=
  resp = Whole (drawn (cl_name c) raw body usage) /\ LLMUpstreamImagesUsage meta = Some usage.

Lemma pictures_answered c m req0 size w raw body fields x x' :
  new c = inl m -> cl_filters c = [] -> upstream_draws c fields x x' raw body ->
  req_type req0 = RequestTypeImageGenerations -> same_request req0 (w_req w) -> req_size (w_req w) = size ->
  exists meta resp, handleUpstreamResponse m raw w = Ret (mkWorld meta (w_req w) (w_ext w), (Some resp, None)) /\
    any_GetError resp = None /\
    metered_answer c raw body (accounted c (setSize req0 size) (pictures body)) resp meta.
Proof.
  intros Hnew Hf Hup Ht0 Hsame Hsize. assert (req_type (w_req w) = RequestTypeImageGenerations) as Ht by (destruct Hsame; congruence).
  pose proof (pictures_parsed c raw body fields x x' (w_req w) Hup Ht) as Hparsed.
  rewrite (accounted_same c _ _ _ _ Hsame Hsize) in Hparsed.
  pose proof (new_spec (X := X) url_Parse BuildSpeechRequest decodeBase64 fetchURL c) as Hn. rewrite Hnew in Hn.
  destruct Hn as (_ & Hc & _ & _ & Hun & Hmod & Hcom). rewrite Hf in Hun, Hmod. cbn [count List.filter length replicate] in Hun, Hmod.
  set (usage := accounted c (setSize req0 size) (pictures body)) in *.
  exists (setImagesUsage usage (setUpstreamStatus (raw_StatusCode raw) (setUpstreamResponseModel "" (w_meta w)))),
    (Whole (drawn (cl_name c) raw body usage)).
  split; [|split; [done|done]].
  unfold handleUpstreamResponse, ForEachResponseUnmarshaller, ForEachResponseModifier. rewrite Hun, Hmod, Hc.
  cbn [unmarshalLoop threadUntilError map].
  etransitivity.
  { eapply Eff_bind_Ret. erewrite Eff_bind_Ret.
    2: { unfold responseHandler_UnmarshalResponseBody, GetRequestType. etransitivity; [eapply Eff_bind_Ret; reflexivity|].
         cbv zeta. rewrite Ht, (ud_json _ _ _ _ _ _ Hup).
         etransitivity; [eapply Eff_bind_Ret; unfold lift; rewrite Hparsed; reflexivity|]. reflexivity. }
    reflexivity. }
  cbn [whole]. etransitivity; [eapply Eff_bind_Ret; reflexivity|].
  etransitivity; [eapply Eff_bind_Ret; reflexivity|].
  etransitivity; [eapply Eff_bind_Ret; reflexivity|].
  etransitivity.
  { eapply Eff_bind_Ret. unfold doUpstreamResponseComplete, ForEachResponseComplete. rewrite Hcom. reflexivity. }
  etransitivity; [eapply Eff_bind_Ret; reflexivity|]. cbn [w_meta w_req w_ext]. unfold GetRequestType. rewrite Ht.
  erewrite Eff_bind_Ret by reflexivity. reflexivity.
Qed.

(** ** The endpoint of pictures *)
Section Served.
Context `{RouteInterface (routeDefault X)}.
Variable renv : RouteEnv X.
Variable Marshal : json -> string.
Variable write_ok : string -> string -> bool.
Context (env : ListenerEnv X) `{!ListenerLaws env}.
Variable at_panic : HTTPRequest -> World X -> World X.
Variable address : HTTPRequest -> Z.

Definition serve_image (fuel : nat) (cr : Register X) (rm : RouteManager (routeDefault X))
    (filters : list (RequestFilter X)) : HandlerFunc X :=
  stack env at_panic address
    (CommonListenerHandler (H2 := gateway_router doRequest renv fuel cr rm) Marshal write_ok env filters (rev (Clone filters))
       unmarshalImageGenerationsRequestToImageGenerationRequest).

Lemma image_fields fields req name :
  fields !! "model" = Some (JStr name) -> isEmptyString name = false ->
  NewImageGenerationsRequest (Some (JObj fields)) = inl req ->
  req_type req = RequestTypeImageGenerations /\ req_stream req = false /\ synced req fields /\ GetModel req = name.
Proof.
  intros Hm Hn. unfold NewImageGenerationsRequest. cbn [ReadAsJSON decode_object].
  assert (GetByJSONPath_string (Some fields) "{ .model }" = name) as ->.
  { unfold GetByJSONPath_string. rewrite (jsonpath_string (Some fields) "model" name eq_refl Hm).
    unfold FromString_string. by rewrite Hn. }
  destruct (GetByJSONPath_string_ptr _ "{ .size }") as [size|]; [destruct (parseImageGenerationsSizeString _)|];
    intros [= <-]; done.
Qed.

Lemma image_parses request fields req :
  hr_Body request = BodyJSON (JObj fields) -> NewImageGenerationsRequest (Some (JObj fields)) = inl req -> GetModel req <> "" ->
  parses (X := X) unmarshalImageGenerationsRequestToImageGenerationRequest request req.
Proof.
  intros Hb Hreq Hn w. unfold unmarshalImageGenerationsRequestToImageGenerationRequest, parseWith. rewrite Hb.
  etransitivity; [eapply Eff_bind_Ret; unfold lift; rewrite Hreq; reflexivity|].
  cbn beta iota. apply String.eqb_neq in Hn. by rewrite Hn.
Qed.

(** What the handler's remaining steps make of a whole answer. *)
Lemma answered_whole filters cbs r (w : World X) :
  resp_IsStream r = false -> OnCompletionResponseFilters (rev (Clone filters)) = [] ->
  OnResponsePostFilters (rev (Clone filters)) = [] ->
  answered Marshal write_ok env filters cbs (Whole r) w = Ret (w, (Some (AnswerLLM (Whole r)), None)).
Proof.
  intros Hs Hresp Hpost. unfold answered. rewrite Hpost. cbn [any_IsStream]. rewrite Hs.
  etransitivity; [eapply Eff_bind_Ret; reflexivity|]. cbn beta iota.
  unfold completionHooks. cbn [any_IsStream]. rewrite Hs, Hresp. done.
Qed.

(** C4: a request for pictures, from its arrival to the bytes of the answer,
    through every layer: when the registers serve a cluster, the listener's
    filters let the request through and the upstream answers the rewritten
    request with pictures, then the client is written one status line and the
    upstream's body, unchanged, and the metadata hold the usage of each picture,
    in their order, as the code reads the cluster's metering policy: with
    SIZE_FROM_OUTPUT the size of what the picture shows, and with every other
    one, SIZE_FROM_GREATEST included, the size that the rewritten request asks
    for. *)
Theorem image_request_served cr rm c fuel filters request w fields req x x1 raw body
    (Hserves : serves cr rm c) (Hdefault : cl_filters c = [])
    (Hmethod : hr_Method request <> "OPTIONS") (Hopen : getDrained env (w_ext w) = false)
    (Hbody : hr_Body request = BodyJSON (JObj fields))
    (Hmodel : fields !! "model" = Some (JStr (cl_name c))) (Hnamed : isEmptyString (cl_name c) = false)
    (Hreq : NewImageGenerationsRequest (Some (JObj fields)) = inl req)
    (Hfilters : let_through filters request req (entered env address request w) x)
    (Hparams : params_ok c req) (Hupstream : upstream_draws c fields x x1 raw body) :
  exists w', serve_image (S fuel) cr rm filters request w = Ret (w', (None, None)) /\
    getOut env (w_ext w') = getOut env x1 ++ [OutStatus 200 jsonType; OutJSON (JObj body)] /\
    StatusCode (w_meta w') = 200 /\
    LLMUpstreamImagesUsage (w_meta w') = Some (accounted c (setSize req (upstream_size c fields req)) (pictures body)).
Proof.
  destruct (image_fields fields req (cl_name c) Hmodel Hnamed Hreq) as (Ht & Hst & Hsync & Hname).
  assert (GetModel req <> "") as Hne by (rewrite Hname; by intros E; rewrite E in Hnamed).
  destruct (handled url_Parse BuildSpeechRequest decodeBase64 fetchURL doRequest renv Marshal write_ok env cr rm c fuel filters _ request
              _ req x x1 (metered_answer c raw body (accounted c (setSize req (upstream_size c fields req)) (pictures body))) Hserves (image_parses _ _ _ Hbody Hreq Hne) Hname Hfilters)
    as (meta & req1 & resp & cbs & _ & [-> Huse] & E).
  { by intros resp s meta [? ?]. }
  { intros meta. destruct Hserves as [(m & Hfind & Hnew) _].
    apply (manager_answers url_Parse BuildSpeechRequest decodeBase64 fetchURL doRequest cr c m _ "/images/generations" fields raw); try done.
    - unfold GetRequestType. cbn [w_req]. by rewrite Ht.
    - unfold IsStream. cbn [w_req w_ext]. rewrite Hst. by destruct Hupstream.
    - intros w' Hsame Hsize. eapply pictures_answered; try done. by apply Hsize. }
  destruct Hfilters as [_ Hresp Hpost]. unfold IsStream in Hresp. rewrite Hst in Hresp.
  rewrite answered_whole in E by done.
  destruct (whole_written env at_panic address _ request w _ _ Hmethod Hopen E) as (w' & Es & Ho & Hm).
  exists w'. split; [exact Es|]. split; [exact Ho|]. rewrite Hm. by split.
Qed.
End Served.
End Pictures.

(** ** Speech *)
Section Speaking.
Context `{NetURL} `{JSONPatchLaws} `{JSONPathLaws} `{JSONText} `{FloatText} {X : Type}.
Variable userUUID requestUUID : string.
Variable xml_Unmarshal : string -> option ssml.
Variable decodeBase64 fetchURL : string -> (Z * Z * string) + gerror.
Variable doRequest : HTTPRequest -> Eff X (RawResponse + gerror).
Abbreviation build := (BuildSpeechRequest userUUID requestUUID xml_Unmarshal).
Abbreviation new := (Cluster_NewWithConfigs (X := X) url_Parse build decodeBase64 fetchURL).
Abbreviation serves := (serves url_Parse build decodeBase64 fetchURL).

(** The upstream of a cluster answers a request that says a text and carries
    the cluster's headers. *)
Record upstream_speaks (c : Cluster) (text : string) (x x' : X) (raw : RawResponse) : Prop := {
  usp_sent http meta req :
    hr_Method http = "POST" -> spoken (cl_provider c) (hr_Body http) text ->
    (exists h, hr_Header http = setHeaders (up_headers (GetUpstream c)) h) ->
    doRequest http (mkWorld meta req x) = Ret (mkWorld meta req x', inl raw);
  usp_status : raw_StatusCode raw < StatusBadRequest }.

(** The provider's builder makes a request of the speech of [req]. *)
Definition buildable (c : Cluster) (req : LLMRequest) : Prop :=
  forall req', req_speech req' = req_speech req -> GetModel req' = upstream_model c -> is_Some (req_body req') ->
  exists http, build (cl_provider c) (up_url (GetUpstream c)) "" req' (setHeaders (up_headers (GetUpstream c)) ∅) None
               = Ret (inl http).

Lemma audio_answered c m w raw :
  new c = inl m -> cl_filters c = [] -> GetRequestType (w_req w) = RequestTypeTextToSpeech ->
  raw_StatusCode raw < StatusBadRequest ->
  exists meta, handleUpstreamResponse m raw w
    = Ret (mkWorld meta (w_req w) (w_ext w), (Some (Whole (NewAudioResponseFromHTTP raw (cl_name c))), None)).
Proof.
  intros Hnew Hf Ht Hs.
  pose proof (new_spec (X := X) url_Parse build decodeBase64 fetchURL c) as Hn. rewrite Hnew in Hn.
  destruct Hn as (_ & Hc & _ & _ & Hun & Hmod & Hcom). rewrite Hf in Hun, Hmod. cbn [count List.filter length replicate] in Hun, Hmod.
  eexists. unfold handleUpstreamResponse, ForEachResponseUnmarshaller, ForEachResponseModifier. rewrite Hun, Hmod, Hc.
  cbn [unmarshalLoop threadUntilError map].
  etransitivity.
  { eapply Eff_bind_Ret. erewrite Eff_bind_Ret.
    2: { unfold responseHandler_UnmarshalResponseBody. etransitivity; [eapply Eff_bind_Ret; reflexivity|].
         cbv zeta. rewrite Ht. unfold lift, unmarshalSpeech. apply Z.leb_gt in Hs. rewrite Hs. reflexivity. }
    reflexivity. }
  etransitivity; [eapply Eff_bind_Ret; reflexivity|]. etransitivity; [eapply Eff_bind_Ret; reflexivity|].
  etransitivity; [eapply Eff_bind_Ret; reflexivity|].
  etransitivity.
  { eapply Eff_bind_Ret. unfold doUpstreamResponseComplete, ForEachResponseComplete. rewrite Hcom. reflexivity. }
  etransitivity; [eapply Eff_bind_Ret; reflexivity|]. cbn [w_meta w_req w_ext]. rewrite Ht.
  erewrite Eff_bind_Ret by reflexivity. reflexivity.
Qed.

(** The cluster called for a speech request: what its provider is sent says the
    text of the client. *)
Lemma speech_handed cr c m fields req text x x1 raw meta :
  FindClusterByName cr (cl_name c) = Some m -> new c = inl m -> cl_filters c = [] ->
  NewTextToSpeechRequest (Some (JObj fields)) = inl req -> is_Some (fields !! "model") -> params_ok c req ->
  fields !! "input" = Some (JStr text) -> isEmptyString text = false -> upstream_field c fields "input" = Some (JStr text) ->
  FromPtrOr (GetExtraBody req) ∅ !! "text" = None -> Contains text "<speak" = false ->
  buildable c req -> upstream_speaks c text x x1 raw ->
  hands_out doRequest cr (cl_name c) (mkWorld meta req x) x1
    (fun resp _ => resp = Whole (NewAudioResponseFromHTTP raw (cl_name c))).
Proof.
  intros Hfind Hnew Hf Hreq Hm Hp Hin Htext Hkept Hextra Hplain Hbuild [Hsent Hstatus].
  destruct (speech_fields fields req Hreq) as (Ht & Hsync & Hi & _). specialize (Hi text Hin Htext).
  set (w1 := mkWorld (setSelectedCluster (cl_name c) meta) req x).
  destruct (speech_call userUUID requestUUID xml_Unmarshal decodeBase64 fetchURL doRequest c m w1 fields Hnew Hf Hsync Hm Hp Ht)
    as (req' & fields' & Hf' & [Hb Hparsed] & Hsp & Hmodel & Ht' & E). cbv zeta in E.
  assert (GetInput req' = text) as Hinput by (unfold GetInput, speech in *; by rewrite Hsp).
  destruct (Hbuild req' Hsp Hmodel ltac:(by rewrite Hb)) as [http Ehttp]. rewrite Ehttp in E.
  destruct (audio_answered c m (mkWorld (setUpstreamRequestModel (upstream_model c) (setUpstreamProvider (cl_provider c) (w_meta w1))) req' x1)
              raw Hnew Hf Ht' Hstatus) as (meta' & Ea).
  exists meta', req', (Whole (NewAudioResponseFromHTTP raw (cl_name c))). split; [|split; [cbn [w_req]; congruence|done]].
  eapply manager_calls; [done|done|]. etransitivity; [exact E|].
  etransitivity; [refine (Eff_bind_Ret _ _ _ (mkWorld _ req' x1) (inl raw) _)|exact Ea].
  apply Hsent; cbn [hr_Method hr_Body hr_Header].
  - by eapply build_POST.
  - eapply (build_spoken userUUID requestUUID xml_Unmarshal _ _ _ req' _ _ http text fields'); try done.
    + by rewrite Hf'.
    + unfold GetExtraBody, speech in *. by rewrite Hsp.
  - by eexists.
Qed.

Section Served.
Context `{RouteInterface (routeDefault X)}.
Variable renv : RouteEnv X.
Variable Marshal : json -> string.
Variable write_ok : string -> string -> bool.
Context (env : ListenerEnv X) `{!ListenerLaws env}.
Variable at_panic : HTTPRequest -> World X -> World X.
Variable address : HTTPRequest -> Z.

Definition serve_speech (fuel : nat) (cr : Register X) (rm : RouteManager (routeDefault X))
    (filters : list (RequestFilter X)) : HandlerFunc X :=
  stack env at_panic address
    (CommonListenerHandler (H2 := gateway_router doRequest renv fuel cr rm) Marshal write_ok env filters (rev (Clone filters))
       unmarshalTextToSpeechRequestToLLMRequest).

Lemma speech_named fields req name :
  fields !! "model" = Some (JStr name) -> isEmptyString name = false ->
  NewTextToSpeechRequest (Some (JObj fields)) = inl req -> GetModel req = name /\ req_stream req = false.
Proof.
  intros Hm Hn [= <-]. split; [|done]. unfold GetModel, GetByJSONPath_string. cbn.
  rewrite (jsonpath_string (Some fields) "model" name eq_refl Hm). unfold FromString_string. by rewrite Hn.
Qed.

Lemma speech_parses request fields req :
  hr_Body request = BodyJSON (JObj fields) -> NewTextToSpeechRequest (Some (JObj fields)) = inl req -> GetModel req <> "" ->
  parses (X := X) unmarshalTextToSpeechRequestToLLMRequest request req.
Proof.
  intros Hb Hreq Hn w. unfold unmarshalTextToSpeechRequestToLLMRequest, parseWith. rewrite Hb.
  etransitivity; [eapply Eff_bind_Ret; unfold lift; rewrite Hreq; reflexivity|].
  cbn beta iota. apply String.eqb_neq in Hn. by rewrite Hn.
Qed.

(** C5: a request for speech, from its arrival to the bytes of the answer, through
    every layer: when the registers serve a cluster of any provider that a
    request can be built for, and its upstream answers a request that says the
    client's text under the cluster's headers, then the client is written that
    answer's audio with its status, and nothing else. *)
Theorem speech_request_served cr rm c fuel filters request w fields req text x x1 raw
    (Hserves : serves cr rm c) (Hdefault : cl_filters c = [])
    (Hmethod : hr_Method request <> "OPTIONS") (Hopen : getDrained env (w_ext w) = false)
    (Hbody : hr_Body request = BodyJSON (JObj fields))
    (Hmodel : fields !! "model" = Some (JStr (cl_name c))) (Hnamed : isEmptyString (cl_name c) = false)
    (Hinput : fields !! "input" = Some (JStr text)) (Htext : isEmptyString text = false)
    (Hreq : NewTextToSpeechRequest (Some (JObj fields)) = inl req)
    (Hkept : upstream_field c fields "input" = Some (JStr text))
    (Hextra : FromPtrOr (GetExtraBody req) ∅ !! "text" = None) (Hplain : Contains text "<speak" = false)
    (Hfilters : let_through filters request req (entered env address request w) x)
    (Hparams : params_ok c req) (Hbuild : buildable c req) (Hupstream : upstream_speaks c text x x1 raw) :
  let audio := NewAudioResponseFromHTTP raw (cl_name c) in
  exists w', serve_speech (S fuel) cr rm filters request w = Ret (w', (None, None)) /\
    getOut env (w_ext w') = getOut env x1 ++ [OutAudio (AudioResponse_GetStatus (raw_StatusCode raw)) audio] /\
    StatusCode (w_meta w') = AudioResponse_GetStatus (raw_StatusCode raw).
Proof.
  destruct (speech_named fields req (cl_name c) Hmodel Hnamed Hreq) as [Hname Hst].
  assert (GetModel req <> "") as Hne by (rewrite Hname; by intros E; rewrite E in Hnamed).
  destruct (handled url_Parse build decodeBase64 fetchURL doRequest renv Marshal write_ok env cr rm c fuel filters _ request
              _ req x x1 (fun resp _ => resp = Whole (NewAudioResponseFromHTTP raw (cl_name c)))
              Hserves (speech_parses _ _ _ Hbody Hreq Hne) Hname Hfilters (fun _ _ _ E => E))
    as (meta & req1 & resp & cbs & _ & -> & E).
  { intros meta. destruct Hserves as [(m & Hfind & Hnew) _].
    by apply (speech_handed cr c m fields req text x x1 raw meta). }
  destruct Hfilters as [_ Hresp Hpost]. unfold IsStream in Hresp. rewrite Hst in Hresp.
  rewrite answered_whole in E by done.
  destruct (whole_written env at_panic address _ request w _ _ Hmethod Hopen E) as (w' & Es & Ho & Hm).
  exists w'. split; [exact Es|]. split; [exact Ho|]. by rewrite Hm.
Qed.
End Served.
End Speaking.

(** ** Examples

    A cluster that draws and one that speaks, both static. *)
#[local] Existing Instances rfc6902 rfc6902_laws whole_floats plain_urls ex_listener_laws.

Definition ex_data_text : string := "[{" +:+ quote +:+ "url" +:+ quote +:+ ":" +:+ quote +:+ "http://p" +:+ quote +:+ "}]".
Definition ex_data : json := JArr [JObj {[ "url" := JStr "http://p" ]}].
Definition ex_art_body : string := "{" +:+ quote +:+ "data" +:+ quote +:+ ":" +:+ ex_data_text +:+ "}".
Definition ex_art : gmap string json := {[ "data" := ex_data ]}.
#[local] Instance ex_art_text : JSONText := fun s =>
  if String.eqb s ex_art_body then Some (JObj ex_art) else if String.eqb s ex_data_text then Some ex_data else None.

(** The path library gives the text of the data, too. *)
#[local] Instance ex_art_path : JSONPath := fun p template =>
  match lookup_parsed p "data" with
  | Some (JArr _) => if String.eqb template "{ .data }" then inl ex_data_text else dotted_paths p template
  | _ => dotted_paths p template
  end.

Lemma ex_art_path_plain p k : (forall l, lookup_parsed p k <> Some (JArr l)) ->
  ex_art_path p ("{ ." +:+ k +:+ " }") = dotted_paths p ("{ ." +:+ k +:+ " }").
Proof.
  intros Hk. unfold ex_art_path. destruct (lookup_parsed p "data") as [[]|] eqn:E; try done.
  destruct (String.eqb_spec ("{ ." +:+ k +:+ " }") "{ .data }") as [Ek|]; [|done].
  assert (k = "data") as ->; [|by destruct (Hk l)]. clear -Ek. cbn in Ek. injection Ek as Ek.
  change "data }" with ("data" +:+ " }") in Ek. revert Ek. generalize "data" as d.
  induction k as [|c k IH]; intros [|e d] Ek; cbn in Ek; try done.
  - injection Ek as -> Ek. destruct d as [|? [|? [|]]]; done.
  - injection Ek as <- Ek. destruct k as [|? [|? [|]]]; done.
  - injection Ek as -> Ek. f_equal. by apply IH.
Qed.

#[local] Instance ex_art_path_laws : JSONPathLaws.
Proof.
  split; intros p k.
  - intros Hk Hl. unfold jsonpath. rewrite ex_art_path_plain by (by rewrite Hl). by apply (@jsonpath_missing dotted_paths dotted_paths_laws).
  - intros s Hk Hl. unfold jsonpath. rewrite ex_art_path_plain by (by rewrite Hl). by apply (@jsonpath_string dotted_paths dotted_paths_laws).
  - intros b Hk Hl. unfold jsonpath. rewrite ex_art_path_plain by (by rewrite Hl). by apply (@jsonpath_bool dotted_paths dotted_paths_laws).
Qed.

Definition ex_painter : Cluster :=
  mkCluster "art" CLB_ROUND_ROBIN (Some (mkUpstream "https://a" [] 0 [] [] [])) [] OPEN_AI 0 IMAGE_GENERATION
    (Some (mkMeteringPolicy (Some SIZE_FROM_OUTPUT))).
Definition ex_speaker : Cluster :=
  mkCluster "voice" CLB_ROUND_ROBIN (Some (mkUpstream "https://v" [("Authorization", "Token t")] 0 [] [] [])) []
    DEEPGRAM_WEBSOCKET_V1 0 SPEECH_GENERATION None.

Definition ex_voices := BuildSpeechRequest "user" "request" (fun _ => None).
Definition ex_media : Register ex_state * RouteManager (routeDefault ex_state) * option gerror :=
  StaticRegisterClusters url_Parse ex_voices ex_picture ex_picture ex_glob ex_service ex_report (fun _ => None) 0
    (fun _ => ex_limiter) (fun m => (map_to_list m).*1) [ex_painter; ex_speaker] NewClusterRegister emptyManager.
Definition ex_media_clusters : Register ex_state := ex_media.1.1.
Definition ex_media_routes : RouteManager (routeDefault ex_state) := ex_media.1.2.

Lemma ex_media_served :
  Forall (serves (H4 := ex_routes_of) url_Parse ex_voices ex_picture ex_picture ex_media_clusters ex_media_routes) [ex_painter; ex_speaker].
Proof.
  assert (ex_media = (ex_media_clusters, ex_media_routes, None)) as Hrun.
  { unfold ex_media_clusters, ex_media_routes. assert (ex_media.2 = None) as E by (vm_compute; reflexivity).
    destruct ex_media as [[cr rm] err]. cbn in E. by subst. }
  apply (static_served url_Parse ex_voices ex_picture ex_picture ex_glob ex_service ex_report (fun _ => None) 0
    (fun _ => ex_limiter) (fun m => (map_to_list m).*1) (fun m => reflexivity _) [ex_painter; ex_speaker]
    ex_media_clusters ex_media_routes None); [|by repeat constructor|exact Hrun|done].
  apply (bool_decide_unpack _). vm_compute. exact I.
Qed.

(** A key that may use both. *)
Definition ex_exact (rule model : string) : option bool := Some (String.eqb rule model).
Definition ex_media_service (url : string) (timeout : Z) (key : string)
    : Eff ex_state (APIKeyAuthResponse + (gerror * option Auth.grpcCode)) :=
  mret (inl (mkAPIKeyAuthResponse true ["art"; "voice"] "key-1" "user-1" [])).
Definition ex_media_auth : RequestFilter ex_state := AuthFilter ex_exact (ex_media_service "http://auth" 3).
Definition ex_asks (path : string) (fields : gmap string json) : HTTPRequest :=
  mkHTTPRequest "POST" path (Header_Set ∅ "Authorization" "Bearer sk-1") (BodyJSON (JObj fields)).

(** A picture of 256 by 256 is asked for, and one of 512 by 512 comes. *)
Definition ex_art_fields : gmap string json := <["size" := JStr "256x256"]> {[ "model" := JStr "art" ]}.
Definition ex_art_asked : HTTPRequest := ex_asks "/v1/images/generations" ex_art_fields.
Definition ex_art_request : LLMRequest :=
  match NewImageGenerationsRequest (Some (JObj ex_art_fields)) with inl r => r | inr _ => ex_llm_request end.
Definition ex_art_raw : RawResponse := mkRaw 200 "200 OK" "application/json" ex_art_body EEOF.
Definition ex_draws (r : HTTPRequest) : Eff ex_state (RawResponse + gerror) := mret (inl ex_art_raw).
Definition ex_art_state : ex_state := w_ext (entered ex_listener ex_address ex_art_asked (ex_served false)).

Lemma ex_art_through :
  let_through [ex_media_auth] ex_art_asked ex_art_request (entered ex_listener ex_address ex_art_asked (ex_served false)) ex_art_state.
Proof.
  split; [|reflexivity|reflexivity]. do 2 eexists. split; [vm_compute; reflexivity|]. eexists. vm_compute. reflexivity.
Qed.

Lemma ex_art_params : params_ok ex_painter ex_art_request.
Proof. split; try (by repeat constructor); by intros _ v ?%elem_of_nil. Qed.

Lemma ex_art_drawn : upstream_draws url_Parse ex_picture ex_picture ex_draws ex_painter ex_art_fields ex_art_state ex_art_state ex_art_raw ex_art.
Proof.
  split; [|reflexivity|reflexivity|reflexivity|vm_compute; reflexivity|].
  - eexists. split; [reflexivity|]. done.
  - assert (pictures ex_art = [mkImage "" "http://p" "" 0 0 ""]) as -> by (vm_compute; reflexivity).
    constructor; [|constructor]. eexists. reflexivity.
Qed.

Lemma image_request_served_witness :
  exists w', serve_image (H4 := ex_routes_of) ex_draws ex_routing ex_Marshal (fun _ _ => true) ex_listener
      ex_panic ex_address 1 ex_media_clusters ex_media_routes [ex_media_auth] ex_art_asked (ex_served false) = Ret (w', (None, None)) /\
    es_out (w_ext w') = [OutStatus 200 jsonType; OutJSON (JObj ex_art)] /\
    StatusCode (w_meta w') = 200 /\
    LLMUpstreamImagesUsage (w_meta w')
    = Some (accounted ex_picture ex_picture ex_painter (setSize ex_art_request (upstream_size ex_painter ex_art_fields ex_art_request))
              (pictures ex_art)).
Proof.
  apply (image_request_served (H4 := ex_routes_of) url_Parse ex_voices ex_picture ex_picture ex_draws ex_routing ex_Marshal
           (fun _ _ => true) ex_listener ex_panic ex_address ex_media_clusters ex_media_routes ex_painter 0 [ex_media_auth]
           ex_art_asked (ex_served false) ex_art_fields ex_art_request ex_art_state ex_art_state ex_art_raw ex_art);
    [exact (Forall_inv ex_media_served)|reflexivity|discriminate|reflexivity|reflexivity|reflexivity|reflexivity|reflexivity
    |exact ex_art_through|exact ex_art_params|exact ex_art_drawn].
Defined.

(** A text to say. *)
Definition ex_words : gmap string json := <["input" := JStr "Hello"]> {[ "model" := JStr "voice" ]}.
Definition ex_words_asked : HTTPRequest := ex_asks "/v1/audio/speech" ex_words.
Definition ex_words_request : LLMRequest :=
  match NewTextToSpeechRequest (Some (JObj ex_words)) with inl r => r | inr _ => ex_llm_request end.
Definition ex_sound : RawResponse := mkRaw 200 "200 OK" "audio/mpeg" "ID3" EEOF.
Definition ex_speaks (r : HTTPRequest) : Eff ex_state (RawResponse + gerror) := mret (inl ex_sound).
Definition ex_words_state : ex_state := w_ext (entered ex_listener ex_address ex_words_asked (ex_served false)).

Lemma ex_words_through :
  let_through [ex_media_auth] ex_words_asked ex_words_request (entered ex_listener ex_address ex_words_asked (ex_served false)) ex_words_state.
Proof.
  split; [|reflexivity|reflexivity]. do 2 eexists. split; [vm_compute; reflexivity|]. eexists. vm_compute. reflexivity.
Qed.

Lemma ex_words_params : params_ok ex_speaker ex_words_request.
Proof. split; try done; try (by repeat constructor); try (by apply (bool_decide_unpack _); vm_compute). Qed.

Lemma ex_words_built : buildable "user" "request" (fun _ => None) ex_speaker ex_words_request.
Proof. intros req' _ _ _. eexists. reflexivity. Qed.

Lemma ex_words_spoken : upstream_speaks ex_speaks ex_speaker "Hello" ex_words_state ex_words_state ex_sound.
Proof. by split. Qed.

Lemma speech_request_served_witness :
  let audio := NewAudioResponseFromHTTP ex_sound "voice" in
  exists w', serve_speech (H6 := ex_routes_of) ex_speaks ex_routing ex_Marshal (fun _ _ => true) ex_listener
      ex_panic ex_address 1 ex_media_clusters ex_media_routes [ex_media_auth] ex_words_asked (ex_served false) = Ret (w', (None, None)) /\
    es_out (w_ext w') = [OutAudio 200 audio] /\ StatusCode (w_meta w') = 200.
Proof.
  apply (speech_request_served (H6 := ex_routes_of) "user" "request" (fun _ => None) ex_picture ex_picture ex_speaks ex_routing ex_Marshal
           (fun _ _ => true) ex_listener ex_panic ex_address ex_media_clusters ex_media_routes ex_speaker 0 [ex_media_auth]
           ex_words_asked (ex_served false) ex_words ex_words_request "Hello" ex_words_state ex_words_state ex_sound);
    [exact (Forall_inv (Forall_inv_tail ex_media_served))|reflexivity|discriminate|reflexivity|reflexivity|reflexivity|reflexivity|reflexivity
    |reflexivity|reflexivity|reflexivity|reflexivity|reflexivity|exact ex_words_through|exact ex_words_params|exact ex_words_built
    |exact ex_words_spoken].
Defined.

Example ex_art_accounted :
  accounted ex_picture ex_picture ex_painter (setSize ex_art_request (upstream_size ex_painter ex_art_fields ex_art_request)) (pictures ex_art)
  = ImagesUsage [mkUsageImage 512 512 "" ""].
Proof. vm_compute. reflexivity. Qed.
