(* ===== verification/KeyServer.v ===== *)
(** * The sample authorization service

    samples/api-key-server/main.go: a gRPC server that answers the
    authorization filter from the keys of a YAML file, and what a gateway whose
    filter asks it lets through.  The other files take the service as a
    parameter; here it is the one of the repository. *)
From S2P Require Import Prelude Strconv Utils GoFloat Json Api LoadBalance Errors Request Response Effects Stream Filters.
From S2P Require Import Auth Usage RateLimit ClusterFilters Cluster Speech Route RouteManager Listener Serve.

(** ** The server *)

(** [APIKeyAuthResponse], as the server keeps it. *)
Record KeyAccount : Type := mkKeyAccount {
  ka_IsValid : bool;
  ka_AllowModels : list string;
  ka_APIKeyID : string;
  ka_UserID : string }.

(** An element of [api_keys] in the file. *)
Record KeyEntry : Type := mkKeyEntry {
  ke_APIKey : string;
  ke_IsValid : bool;
  ke_AllowModels : list string;
  ke_APIKeyID : string;
  ke_UserID : string }.

Record APIKeyAuthServer : Type := mkAPIKeyAuthServer { ValidAPIKeys : gmap string KeyAccount }.

Definition accountOf (e : KeyEntry) : KeyAccount :=
  mkKeyAccount (ke_IsValid e) (ke_AllowModels e) (ke_APIKeyID e) (ke_UserID e).

Definition toValidAPIKeys (entries : list KeyEntry) : gmap string KeyAccount :=
  foldl (fun m e => <[ke_APIKey e := accountOf e]> m) ∅ entries.

(** [os.ReadFile] and [yaml.Unmarshal] into the list of entries. *)
Definition loadAPIKeysFromYAML (ReadFile : string -> string + gerror) (yaml_Unmarshal : string -> list KeyEntry + gerror)
    (filePath : string) : gmap string KeyAccount + gerror :=
  match ReadFile filePath with
  | inr err => inr (EWrap "failed to read YAML file" err)
  | inl data =>
      match yaml_Unmarshal data with
      | inr err => inr (EWrap "failed to unmarshal YAML data" err)
      | inl entries => inl (toValidAPIKeys entries)
      end
  end.

(** The handler of the call; it never fails. *)
Definition APIKeyAuth (s : APIKeyAuthServer) (apiKey : string) : APIKeyAuthResponse :=
  match ValidAPIKeys s !! apiKey with
  | Some res => mkAPIKeyAuthResponse (ka_IsValid res) (ka_AllowModels res) (ka_APIKeyID res) (ka_UserID res) []
  | None => mkAPIKeyAuthResponse false [] "" "" []
  end.

(** [main]: what the process ends with, [log.Fatalf] or the return of
    [server.Serve], and what it has served until then. *)
Inductive ending : Type :=
| Fatal (format : string) (err : gerror)
| Served (s : APIKeyAuthServer) (err : option gerror).

Definition KeyServer_main (ReadFile : string -> string + gerror) (yaml_Unmarshal : string -> list KeyEntry + gerror)
    (Listen : string -> option gerror) (Serve : APIKeyAuthServer -> option gerror) : ending :=
  match loadAPIKeysFromYAML ReadFile yaml_Unmarshal "samples/api-key-server/config.yaml" with
  | inr err => Fatal "Error loading API keys from YAML: %v" err
  | inl validAPIKeys =>
      let authServer := mkAPIKeyAuthServer validAPIKeys in
      match Listen ":50051" with
      | Some err => Fatal "failed to listen: %v" err
      | None => Served authServer (Serve authServer)
      end
  end.

(** ** What it answers *)

(** The entry that counts for a key: the last one of the file. *)
Definition listed (entries : list KeyEntry) (key : string) : option KeyEntry :=
  last (filter (fun e => ke_APIKey e = key) entries).

Lemma valid_keys_listed entries key : toValidAPIKeys entries !! key = accountOf <$> listed entries key.
Proof.
  unfold toValidAPIKeys, listed. induction entries as [|e entries IH] using rev_ind; [done|].
  rewrite foldl_snoc, filter_app, filter_cons, filter_nil. case_decide as He.
  - by rewrite last_snoc, He, lookup_insert_eq.
  - by rewrite app_nil_r, lookup_insert_ne by done.
Qed.

(** The answer of the started server for a key. *)
Definition answered_as (e : option KeyEntry) : APIKeyAuthResponse :=
  match e with
  | Some e => mkAPIKeyAuthResponse (ke_IsValid e) (ke_AllowModels e) (ke_APIKeyID e) (ke_UserID e) []
  | None => mkAPIKeyAuthResponse false [] "" "" []
  end.

Lemma APIKeyAuth_listed entries key :
  APIKeyAuth (mkAPIKeyAuthServer (toValidAPIKeys entries)) key = answered_as (listed entries key).
Proof. unfold APIKeyAuth. cbn [ValidAPIKeys]. rewrite valid_keys_listed. by destruct (listed entries key). Qed.

(** ** Behind the filter *)
Section Verdict.
Variable Match : string -> string -> option bool.

(** What is refused to a chat request for a model, and how. *)
Definition verdict (entries : list KeyEntry) (request : HTTPRequest) (model : string) : option BaseLLMError :=
  match BearerMarshal request with
  | inr _ => Some NewErrorMissingAPIKey
  | inl key =>
      match listed entries key with
      | None => Some (NewErrorIncorrectAPIKey key)
      | Some e =>
          if negb (ke_IsValid e) then Some (NewErrorIncorrectAPIKey key)
          else if IsGranted Match model (ke_AllowModels e) then None
          else Some (NewErrorModelNotFoundOrNotAccessible model)
      end
  end.

Lemma verdict_gateway entries request model err : verdict entries request model = Some err ->
  gateway_error err /\ err <> NewErrorMissingModel /\ has_text (EBase err) = true.
Proof.
  unfold verdict. destruct (BearerMarshal request) as [key|]; [|intros [= <-]; by repeat constructor].
  destruct (listed entries key) as [e|]; [|intros [= <-]; by repeat constructor].
  destruct (negb _); [intros [= <-]; by repeat constructor|].
  destruct (IsGranted _ _ _); [done|]. intros [= <-]. by repeat constructor.
Qed.

Section Asking.
Context {X : Type}.
(** The connection of the filter's client: an error with its status, or none. *)
Variable connection : Eff X (option (gerror * option grpcCode)).
(** It holds, and takes its time. *)
Variable after : X -> X.
Hypothesis Hholds : forall w, connection w = Ret (mkWorld (w_meta w) (w_req w) (after (w_ext w)), None).

Definition ask (s : APIKeyAuthServer) (key : string) : Eff X (APIKeyAuthResponse + (gerror * option grpcCode)) :=
  failed ← connection;
  match failed with Some e => mret (inr e) | None => mret (inl (APIKeyAuth s key)) end.

Variable entries : list KeyEntry.
Abbreviation keyFilter := (AuthFilter Match (ask (mkAPIKeyAuthServer (toValidAPIKeys entries)))).

(** What the filter makes of a request before it is parsed. *)
Lemma key_filter_pre (request : HTTPRequest) (w : World X) :
  exists meta, AuthFilter_OnRequestPre (ask (mkAPIKeyAuthServer (toValidAPIKeys entries))) request w =
  match BearerMarshal request with
  | inr _ => Ret (mkWorld meta (w_req w) (w_ext w), NewFailed (EBase NewErrorMissingAPIKey))
  | inl key =>
      Ret (mkWorld meta (w_req w) (after (w_ext w)),
           if auth_is_valid (answered_as (listed entries key)) then NewOK else NewFailed (EBase (NewErrorIncorrectAPIKey key)))
  end /\
  (forall key, BearerMarshal request = inl key -> AuthInfo meta = Some (answered_as (listed entries key))).
Proof.
  unfold AuthFilter_OnRequestPre. destruct (BearerMarshal request) as [key|]; [|by eexists].
  eexists. split.
  - etransitivity; [eapply Eff_bind_Ret; reflexivity|]. etransitivity; [eapply Eff_bind_Ret; reflexivity|]. cbn beta iota.
    etransitivity; [eapply Eff_bind_Ret; unfold ask; etransitivity; [eapply Eff_bind_Ret; apply Hholds|reflexivity]|].
    cbn beta iota. etransitivity; [eapply Eff_bind_Ret; reflexivity|].
    rewrite APIKeyAuth_listed. cbn [w_meta w_req w_ext]. by destruct (auth_is_valid _).
  - by intros ? [= <-].
Qed.
End Asking.
End Verdict.

(** ** A gateway that asks it *)
Section Gateway.
Context `{JSONPatchLaws} `{JSONPathLaws} `{JSONText} {X : Type}.
Variable url_Parse : string -> string + string.
Variable BuildSpeechRequest : ClusterProvider -> string -> string -> LLMRequest -> Header -> option Header ->
                              outcome (HTTPRequest + gerror).
Variable decodeBase64 fetchURL : string -> (Z * Z * string) + gerror.
Variable doRequest : HTTPRequest -> Eff X (RawResponse + gerror).
Context `{RouteInterface (routeDefault X)}.
Variable renv : RouteEnv X.
Variable Marshal : json -> string.
Variable write_ok : string -> string -> bool.
Context (env : ListenerEnv X) `{!ListenerLaws env}.
Variable at_panic : HTTPRequest -> World X -> World X.
Variable address : HTTPRequest -> Z.
Variable Match : string -> string -> option bool.
Variable connection : Eff X (option (gerror * option grpcCode)).
Variable after : X -> X.
Hypothesis Hholds : forall w, connection w = Ret (mkWorld (w_meta w) (w_req w) (after (w_ext w)), None).
Hypothesis Hout : forall x, getOut env (after x) = getOut env x.
Variable entries : list KeyEntry.
Abbreviation keyFilter := (AuthFilter Match (ask connection (mkAPIKeyAuthServer (toValidAPIKeys entries)))).
Abbreviation serves := (serves url_Parse BuildSpeechRequest decodeBase64 fetchURL).
Abbreviation handler fuel cr rm :=
  (CommonListenerHandler (H2 := gateway_router doRequest renv fuel cr rm) Marshal write_ok env [keyFilter] (rev (Clone [keyFilter]))
     unmarshalChatCompletionsRequestToLLMRequest).

Lemma one_hook {A} (hook : A -> Eff X RequestFilterResult) a (w w' : World X) r :
  hook a w = Ret (w', r) -> firstFailure [hook] a w = Ret (w', if IsFailed r then Some r else None).
Proof. intros E. etransitivity; [eapply Eff_bind_Ret; exact E|]. by destruct (IsFailed r). Qed.

(** What the filter makes of a parsed request. *)
Lemma key_filter_chat (request : HTTPRequest) (w : World X) model key :
  AuthInfo (w_meta w) = Some (answered_as (listed entries key)) -> GetModel (w_req w) = model -> model <> "" ->
  AuthFilter_OnCompletionRequest Match request w
  = Ret (w, if IsGranted Match model (auth_allow_models (answered_as (listed entries key))) then NewOK
            else NewFailed (EBase (NewErrorModelNotFoundOrNotAccessible model))).
Proof.
  intros Hi Hm Hne. unfold AuthFilter_OnCompletionRequest. run_eff. rewrite Hi, Hm.
  apply String.eqb_neq in Hne as ->.
  assert (auth_deny_models (answered_as (listed entries key)) = []) as -> by (by destruct (listed entries key)).
  cbn [IsDenied CanAccessModelFromValues negb andb]. by destruct (IsGranted _ _ _).
Qed.

(** A request that is let through, to the chat of the model. *)
Lemma verdict_lets_through request fields name stream (w : World X) :
  asks stream fields name -> verdict Match entries request name = None ->
  let_through [keyFilter] request (chat_request stream name fields) w (after (w_ext w)).
Proof.
  intros [Hm Hn _] Hv. assert (name <> "") as Hne by (by intros ->).
  destruct (key_filter_pre connection after Hholds entries request w) as (meta & Epre & Hinfo).
  unfold verdict in Hv. destruct (BearerMarshal request) as [key|]; [|done].
  specialize (Hinfo key eq_refl). destruct (listed entries key) as [e|] eqn:El; [|done].
  destruct (ke_IsValid e) eqn:Ev; [|done]. cbn [negb] in Hv. destruct (IsGranted _ _ _) eqn:Eg; [|done].
  split; [|by destruct (IsStream _)|done]. exists meta, (w_req w). split.
  - etransitivity; [apply one_hook; exact Epre|]. cbn [answered_as auth_is_valid]. by rewrite Ev.
  - eexists. etransitivity; [apply one_hook, (key_filter_chat request _ name key); [|done|done]|].
    + cbn. by rewrite El.
    + rewrite El. cbn [answered_as auth_allow_models]. rewrite Eg. reflexivity.
Qed.

(** A request that is not. *)
Lemma verdict_refuses fuel cr rm request fields name (w : World X) err :
  hr_Body request = BodyJSON (JObj fields) -> asks false fields name -> verdict Match entries request name = Some err ->
  exists w', handler fuel cr rm request w = Ret (w', (None, Some (EBase err))) /\ getOut env (w_ext w') = getOut env (w_ext w).
Proof.
  intros Hb Hasks Hv. assert (name <> "") as Hne by (destruct Hasks as [_ Hn _]; by intros ->).
  destruct (key_filter_pre connection after Hholds entries request w) as (meta & Epre & Hinfo).
  unfold verdict in Hv. unfold CommonListenerHandler. destruct (BearerMarshal request) as [key|].
  2: { injection Hv as <-. exists (mkWorld meta (w_req w) (w_ext w)). split; [|reflexivity].
       etransitivity; [eapply Eff_bind_Ret; apply one_hook; exact Epre|]. reflexivity. }
  specialize (Hinfo key eq_refl). destruct (auth_is_valid (answered_as (listed entries key))) eqn:Ev.
  2: { assert (err = NewErrorIncorrectAPIKey key) as ->.
       { destruct (listed entries key); cbn in *; [rewrite Ev in Hv|]; by injection Hv. }
       exists (mkWorld meta (w_req w) (after (w_ext w))). split; [|apply Hout].
       etransitivity; [eapply Eff_bind_Ret; apply one_hook; exact Epre|]. reflexivity. }
  assert (IsGranted Match name (auth_allow_models (answered_as (listed entries key))) = false /\
          err = NewErrorModelNotFoundOrNotAccessible name) as [Eg ->].
  { destruct (listed entries key); cbn in *; [|done]. rewrite Ev in Hv. cbn in Hv. destruct (IsGranted _ _ _); [done|].
    by injection Hv. }
  eexists. split.
  - etransitivity; [eapply Eff_bind_Ret; apply one_hook; exact Epre|]. cbn beta iota.
    etransitivity; [eapply Eff_bind_Ret; by apply (parsed_chat request false fields name)|]. cbn beta iota.
    etransitivity; [eapply Eff_bind_Ret; reflexivity|].
    etransitivity.
    { eapply Eff_bind_Ret. apply one_hook. by apply (key_filter_chat request _ name key). }
    rewrite Eg.
    reflexivity.
  - cbn. apply Hout.
Qed.

(** What the server serves is what its file says. *)
Lemma served_keys ReadFile yaml_Unmarshal Listen Serve data s ended :
  ReadFile "samples/api-key-server/config.yaml" = inl data -> yaml_Unmarshal data = inl entries ->
  KeyServer_main ReadFile yaml_Unmarshal Listen Serve = Served s ended -> s = mkAPIKeyAuthServer (toValidAPIKeys entries).
Proof.
  intros Hf Hy. unfold KeyServer_main, loadAPIKeysFromYAML. rewrite Hf, Hy. cbv zeta. destruct (Listen _); [done|].
  by intros [= <- _].
Qed.

(** C6: from the file of keys to the bytes of the answer: behind a filter that
    asks the sample server, started on its file, a chat request for a served
    model is answered with the upstream's answer exactly when it carries a key
    whose last entry in the file is valid and has no rules or one that matches
    the model; otherwise, whatever the upstream would do, the client is told 401
    with no key or with one that is not valid, 404 with one that may not use
    the model. *)
Theorem key_server_decides cr rm c fuel ReadFile yaml_Unmarshal Listen Serve data s ended request w fields x1 raw r answer
    (Hfile : ReadFile "samples/api-key-server/config.yaml" = inl data) (Hyaml : yaml_Unmarshal data = inl entries)
    (Hstarted : KeyServer_main ReadFile yaml_Unmarshal Listen Serve = Served s ended)
    (Hserves : serves cr rm c) (Hdefault : cl_filters c = [])
    (Hmethod : hr_Method request <> "OPTIONS") (Hopen : getDrained env (w_ext w) = false)
    (Hbody : hr_Body request = BodyJSON (JObj fields)) (Hasks : asks false fields (cl_name c))
    (Hparams : params_ok c (chat_request false (cl_name c) fields))
    (Hupstream : verdict Match entries request (cl_name c) = None ->
       upstream_answers url_Parse doRequest c fields (after (w_ext (entered env address request w))) x1 raw r answer) :
  exists w', serve_chat doRequest renv Marshal write_ok env at_panic address (S fuel) cr rm [AuthFilter Match (ask connection s)] request w
             = Ret (w', (None, None)) /\
    match verdict Match entries request (cl_name c) with
    | None =>
        getOut env (w_ext w')
        = getOut env x1 ++ [OutStatus 200 jsonType; OutJSON (JObj (<["model" := JStr (cl_name c)]> answer))]
    | Some err =>
        exists e, NewErrorFromLLMError (EBase err) = Ret e /\
          getOut env (w_ext w') = getOut env (w_ext w) ++ [OutStatus (ble_status err) jsonType; OutJSON (openai_MarshalJSON e)]
    end.
Proof.
  rewrite (served_keys _ _ _ _ _ _ _ Hfile Hyaml Hstarted). destruct (verdict _ _ _ _) as [err|] eqn:Hv.
  - destruct (verdict_refuses (S fuel) cr rm request fields (cl_name c) (entered env address request w) err Hbody Hasks Hv)
      as (w1 & E & Ho).
    destruct (verdict_gateway _ _ _ _ _ Hv) as (Hg & Hne & Htext).
    destruct (NewErrorFromLLMError_status err Hg) as (e & b & He & Hb & Hst). rewrite decide_False in Hst by done.
    destruct (has_text_Ret _ Htext) as [t Ht].
    destruct (error_written env at_panic address _ request w w1 None (EBase err) e b t Hmethod Hopen E eq_refl He Hb Ht)
      as (w' & Es & Ho' & _).
    exists w'. split; [exact Es|]. exists e. split; [done|]. by rewrite Ho', Ho, Hst, entered_out.
  - destruct (chat_served url_Parse BuildSpeechRequest decodeBase64 fetchURL doRequest renv Marshal write_ok env at_panic address
                cr rm c fuel [keyFilter] request w fields _ x1 raw r answer Hserves Hdefault Hmethod Hopen Hbody Hasks
                (verdict_lets_through _ _ _ _ _ Hasks Hv) Hparams (Hupstream eq_refl)) as (w' & Es & Ho & _).
    by exists w'.
Qed.
End Gateway.

(** ** The file of the repository (samples/api-key-server/config.yaml) *)
#[local] Existing Instances rfc6902 rfc6902_laws dotted_paths dotted_paths_laws ex_Unmarshal ex_listener_laws.

Definition sample_keys : list KeyEntry :=
  [mkKeyEntry "valid-api-key-1" true ["kebe/*"; "llama2-70b"; "openai/*"] "1" "user-1";
   mkKeyEntry "valid-api-key-2" true ["*"] "2" "user-2";
   mkKeyEntry "invalid-api-key" false [] "3" "xxx"].
Definition ex_star (rule model : string) : option bool := Some (String.eqb rule "*" || String.eqb rule model).
Definition ex_bearing (key : string) : HTTPRequest :=
  mkHTTPRequest "POST" "/v1/chat/completions" (Header_Set ∅ "Authorization" ("Bearer " +:+ key)) (BodyJSON (JObj ex_chat_fields)).

Example sample_verdicts :
  map (fun key => ble_status <$> verdict ex_star sample_keys (ex_bearing key) "gpt-4o")
    ["valid-api-key-1"; "valid-api-key-2"; "invalid-api-key"; "another"; ""]
  = [Some 404; None; Some 401; Some 401; Some 401].
Proof. vm_compute. reflexivity. Qed.

Definition ex_key_server : APIKeyAuthServer := mkAPIKeyAuthServer (toValidAPIKeys sample_keys).
Definition ex_connection : Eff ex_state (option (gerror * option grpcCode)) := mret None.
Definition ex_key_state : ex_state := w_ext (entered ex_listener ex_address (ex_bearing "valid-api-key-2") (ex_served false)).

Lemma key_server_decides_witness :
  verdict ex_star sample_keys (ex_bearing "valid-api-key-2") "gpt-4o" = None /\
  exists w', serve_chat (H4 := ex_routes_of) ex_upstreams ex_routing ex_Marshal (fun _ _ => true) ex_listener
               ex_panic ex_address 1 ex_clusters ex_base [AuthFilter ex_star (ask ex_connection ex_key_server)]
               (ex_bearing "valid-api-key-2") (ex_served false) = Ret (w', (None, None)) /\
    es_out (w_ext w') = [OutStatus 200 jsonType; OutJSON (JObj (<["model" := JStr "gpt-4o"]> ex_obj1))].
Proof.
  split; [vm_compute; reflexivity|].
  apply (key_server_decides (H4 := ex_routes_of) ex_parse ex_speech ex_picture ex_picture ex_upstreams ex_routing ex_Marshal
           (fun _ _ => true) ex_listener ex_panic ex_address ex_star ex_connection id ltac:(by intros []) (fun _ => eq_refl) sample_keys
           ex_clusters ex_base ex_cluster 0 (fun _ => inl "api_keys") (fun _ => inl sample_keys) (fun _ => None) (fun _ => None)
           "api_keys" ex_key_server None (ex_bearing "valid-api-key-2") (ex_served false) ex_chat_fields ex_key_state ex_raw
           ex_response ex_obj1);
    [reflexivity|reflexivity|reflexivity|exact ex_serves|reflexivity|discriminate|reflexivity|reflexivity|split; reflexivity|exact ex_chat_params|].
  intros _. split; [|reflexivity|vm_compute; reflexivity|vm_compute; reflexivity|vm_compute; reflexivity|by eexists].
  eexists. split; [reflexivity|]. done.
Defined.
