(* ===== verification/Voices.v ===== *)
(** * pkg/listener/manager/tts/voices.go: the list of voices

    The voices of the speech clusters that a key may use, as the clients of
    the providers (github.com/moeru-ai/unspeech) list them. *)
From stdpp Require Import sorting.
From S2P Require Import Prelude Strconv Utils GoFloat Json Api LoadBalance Errors Request Response Effects Stream Filters.
From S2P Require Import Auth Usage RateLimit ClusterFilters Cluster Speech Route RouteManager Listener.

(** [strings.EqualFold] of a key with an ASCII one, under the same folding as
    that of encoding/json. *)
Definition EqualFold (s t : string) : bool := String.eqb (foldName s) (foldName t).

Fixpoint headerValue_loop (headers : list (string * string)) (key : string) : string :=
  match headers with
  | [] => ""
  | (k, v) :: headers => if EqualFold k key then v else headerValue_loop headers key
  end.
Definition headerValue (cluster : Cluster) (key : string) : string :=
  headerValue_loop (up_headers (GetUpstream cluster)) key.

Definition cluster_bearerToken (cluster : Cluster) : string := bearerToken (headerValue cluster "Authorization").

(** The clients of the providers. *)
Class Unspeech (X : Type) : Type := {
  openai_ListVoices : Eff X (list Voice + gerror);
  microsoft_ListVoices : string -> string -> Eff X (list Voice + gerror);   (* region, key *)
  elevenlabs_ListVoices : string -> Eff X (list Voice + gerror);
  deepgram_ListVoices : string -> Eff X (list Voice + gerror);
  alibaba_ListVoices : Eff X (list Voice + gerror);
  volcengine_ListVoices : Eff X (list Voice + gerror) }.

Section Voices.
Context `{NetURL} {X : Type} `{Unspeech X}.

(** The first label of the host's name. *)
Definition microsoftRegion (upstreamURL : string) : string + gerror :=
  match url_parse upstreamURL with
  | inr e => inr (EWrap "parse upstream URL" (EPlain e))
  | inl u =>
      let host := hd "" (Split "." (url_Hostname u)) in
      if String.eqb host "" then inr (EPlain ("unexpected hostname format: " +:+ url_Hostname u)) else inl host
  end.

Definition listVoicesForCluster (cluster : Cluster) : Eff X (list Voice + gerror) :=
  match cl_provider cluster with
  | OPEN_AI | OPEN_AI_V1_SPEECH => openai_ListVoices
  | MICROSOFT_SPEECH_SERVICE_V1 =>
      match microsoftRegion (up_url (GetUpstream cluster)) with
      | inr e => mret (inr e)
      | inl region =>
          let key := headerValue cluster "Ocp-Apim-Subscription-Key" in
          microsoft_ListVoices region (orDefault key (cluster_bearerToken cluster))
      end
  | ELEVEN_LABS_V1 => elevenlabs_ListVoices (orDefault (headerValue cluster "xi-api-key") (cluster_bearerToken cluster))
  | DEEPGRAM_WEBSOCKET_V1 => deepgram_ListVoices (TrimPrefix (cluster_bearerToken cluster) "Token ")
  | ALIBABA_COSY_VOICE_SERVICE => alibaba_ListVoices
  | VOLCENGINE_SEED_SPEECH_V1 => volcengine_ListVoices
  | _ => mret (inl [])
  end.

Definition setCompatibleModels (models : list string) (v : Voice) : Voice := mkVoiceEntry (voice_Document v) models.

(** A cluster whose voices cannot be listed is left out. *)
Fixpoint allVoices (clusters : list Cluster) : Eff X (list Voice) :=
  match clusters with
  | [] => mret []
  | c :: clusters =>
      voices ← listVoicesForCluster c;
      rest ← allVoices clusters;
      mret (match voices with inl vs => map (setCompatibleModels [cl_name c]) vs ++ rest | inr _ => rest end)
  end.

(** Glob matching, and the register as it is read. *)
Variable Match : string -> string -> option bool.
Variable readRegister : Eff X (Register X * list string).

Definition listVoices (filters : list (RequestFilter X)) : HandlerFunc X := fun request =>
  failed ← firstFailure (OnRequestPreFilters filters) request;
  match failed with
  | Some fResult => mret (None, frr_Error fResult)
  | None =>
      clusters ← Manager_ListTTSClusters readRegister;
      rMeta ← getMeta;
      voices ← allVoices (merge_sort name_le (accessible Match rMeta clusters));
      mret (Some (AnswerVoices voices), None)
  end.

(** What was listed, cluster by cluster. *)
Lemma allVoices_listed cs : forall w w' vs,
  allVoices cs w = Ret (w', vs) ->
  exists listed, Forall2 (fun c l => exists w1 w2, listVoicesForCluster c w1 = Ret (w2, l)) cs listed /\
    vs = concat (zip_with (fun c l => match l with inl vs => map (setCompatibleModels [cl_name c]) vs | inr _ => [] end) cs listed).
Proof.
  induction cs as [|c cs IH]; intros w w' vs E; cbn [allVoices] in E.
  { injection E as <- <-. by exists []. }
  apply Eff_bind_inv in E as (w1 & l & El & E). apply Eff_bind_inv in E as (w2 & rest & Er & [= _ <-]).
  destruct (IH _ _ _ Er) as (listed & Hf & ->). exists (l :: listed). split.
  - constructor; [by exists w, w1|done].
  - cbn. by destruct l.
Qed.
End Voices.

Lemma list_filter_Permutation {A} (f : A -> bool) l k : l ≡ₚ k -> List.filter f l ≡ₚ List.filter f k.
Proof.
  induction 1 as [|x l k _ IH|x y l|l k m _ IH1 _ IH2]; cbn [List.filter]; [done| | |by rewrite IH1].
  - destruct (f x); by rewrite IH.
  - destruct (f x), (f y); try done. constructor.
Qed.

(** The speech clusters, each once, whatever order the range takes. *)
Lemma ListTTSClusters_register {X} (cr : Register X) order :
  order ≡ₚ (map_to_list (reg_clustersDetails cr)).*1 ->
  ListTTSClusters cr order ≡ₚ filter (fun c => cl_type c = SPEECH_GENERATION) (map_to_list (reg_clustersDetails cr)).*2.
Proof.
  intros Hp. unfold ListTTSClusters, ListModels. apply filter_Permutation. rewrite Hp. clear Hp order.
  assert (Hl : forall x, x ∈ map_to_list (reg_clustersDetails cr) -> reg_clustersDetails cr !! x.1 = Some x.2).
  { intros [k c]. apply elem_of_map_to_list. }
  induction (map_to_list (reg_clustersDetails cr)) as [|[k c] l IH]; [done|]. cbn.
  pose proof (Hl (k, c) ltac:(constructor)) as Ek. cbn in Ek. rewrite Ek. constructor. apply IH. intros x Hx. apply Hl. by constructor.
Qed.

(** C29: the list of voices is made of the voices of exactly the clusters of
    the register whose type is speech generation and which the key may use,
    each once and in the order of their names, whatever order the range over
    the register takes; each voice is under the name of its cluster alone; a
    cluster whose provider cannot be asked is left out and does not fail the
    others. *)
Theorem list_voices_exact `{NetURL} {X} `{Unspeech X} (Match : string -> string -> option bool)
    (readRegister : Eff X (Register X * list string)) (filters : list (RequestFilter X)) (request : HTTPRequest)
    (w w1 w2 w3 : World X) (cr : Register X) (order : list string) (info : APIKeyAuthResponse) (answer : option Answer)
    (err : option gerror)
    (Hpre : firstFailure (OnRequestPreFilters filters) request w = Ret (w1, None))
    (Hread : readRegister w1 = Ret (w2, (cr, order)))
    (Hrange : order ≡ₚ (map_to_list (reg_clustersDetails cr)).*1)
    (Hauth : EnabledAuthFilter (w_meta w2) = true) (Hinfo : AuthInfo (w_meta w2) = Some info)
    (Hret : listVoices Match readRegister filters request w = Ret (w3, (answer, err))) :
  exists shown listed, err = None /\ Sorted name_le shown /\
    shown ≡ₚ List.filter (fun c => CanAccessModel Match (cl_name c) (auth_allow_models info) (auth_deny_models info))
      (filter (fun c => cl_type c = SPEECH_GENERATION) (map_to_list (reg_clustersDetails cr)).*2) /\
    Forall2 (fun c l => exists v v', listVoicesForCluster c v = Ret (v', l)) shown listed /\
    answer = Some (AnswerVoices (concat (zip_with (fun c l =>
      match l with inl vs => map (fun v => mkVoiceEntry (voice_Document v) [cl_name c]) vs | inr _ => [] end) shown listed))).
Proof.
  unfold listVoices in Hret. apply Eff_bind_inv in Hret as (w1' & failed & E1 & Hret).
  rewrite Hpre in E1. injection E1 as <- <-. apply Eff_bind_inv in Hret as (w2' & cs' & E2 & Hret).
  apply Eff_bind_inv in E2 as (w2'' & [cr' order'] & E2 & E3).
  rewrite Hread in E2. injection E2 as <- <- <-. injection E3 as <- <-.
  apply Eff_bind_inv in Hret as (w2' & rMeta & [= <- <-] & Hret).
  apply Eff_bind_inv in Hret as (w3' & vs & Ev & [= _ <- <-]).
  apply allVoices_listed in Ev as (listed & Hl & ->).
  eexists _, listed. split; [done|]. split; [apply Sorted_merge_sort, name_le_total|].
  split; [|split; [exact Hl|done]].
  rewrite merge_sort_Permutation. unfold accessible. rewrite Hauth, Hinfo.
  by apply list_filter_Permutation, ListTTSClusters_register.
Qed.

(** ** Examples *)
#[local] Existing Instances plain_urls rfc6902 dotted_paths ex_Unmarshal no_nested_text.
#[local] Instance ex_unspeech : Unspeech unit :=
  let listed id : Eff unit (list Voice + gerror) := mret (inl [mkVoiceEntry {[ "id" := JStr id ]} ["v1"]]) in
  {| openai_ListVoices := listed "alloy";
     microsoft_ListVoices region key := listed ("ms-" +:+ region);
     elevenlabs_ListVoices key := mret (inr (EPlain "unauthorized"));
     deepgram_ListVoices key := listed "aura";
     alibaba_ListVoices := listed "cosy";
     volcengine_ListVoices := listed "bv" |}.

Definition ex_tts (name : string) (p : ClusterProvider) : Cluster :=
  mkCluster name CLB_ROUND_ROBIN (Some (mkUpstream "https://eastasia.tts.speech.microsoft.com/x" [] 0 [] [] [])) [] p 0
    SPEECH_GENERATION None.
(** A register of three speech clusters and a chat one. *)
Definition ex_tts_clusters : list Cluster :=
  [ex_tts "gpt-ms" MICROSOFT_SPEECH_SERVICE_V1; ex_tts "other" OPEN_AI; ex_cluster; ex_tts "gpt-eleven" ELEVEN_LABS_V1].
Definition ex_tts_register : Register unit :=
  foldl (fun cr c => fst (UpsertAndRegisterCluster ex_parse (fun _ _ _ _ _ _ => Ret (inr (EPlain "no speech")))
                            (fun _ => inr (EPlain "no audio")) (fun _ => inr (EPlain "no image")) cr c))
        NewClusterRegister ex_tts_clusters.
Definition ex_tts_order : list string := (map_to_list (reg_clustersDetails ex_tts_register)).*1.

Example region_of_url : microsoftRegion "https://eastasia.tts.speech.microsoft.com/cognitiveservices/v1" = inl "eastasia".
Proof. reflexivity. Qed.
Example region_of_nothing : microsoftRegion "://invalid-url" = inr (EWrap "parse upstream URL" (EPlain "missing protocol scheme")).
Proof. reflexivity. Qed.
Example header_folded : headerValue_loop [("XI-API-KEY", "a")] "xi-api-key" = "a".
Proof. reflexivity. Qed.

Lemma list_voices_exact_witness :
  exists shown listed, None (A := gerror) = None /\ Sorted name_le shown /\
    shown ≡ₚ List.filter (fun c => CanAccessModel ex_glob (cl_name c) ["gpt-*"] [])
      (filter (fun c => cl_type c = SPEECH_GENERATION) (map_to_list (reg_clustersDetails ex_tts_register)).*2) /\
    Forall2 (fun c l => exists v v', listVoicesForCluster c v = Ret (v', l)) shown listed /\
    Some (AnswerVoices [mkVoiceEntry {[ "id" := JStr "ms-eastasia" ]} ["gpt-ms"]])
    = Some (AnswerVoices (concat (zip_with (fun c l =>
        match l with inl vs => map (fun v => mkVoiceEntry (voice_Document v) [cl_name c]) vs | inr _ => [] end) shown listed))).
Proof.
  apply (list_voices_exact ex_glob (mret (ex_tts_register, rev ex_tts_order)) [] ex_http ex_key_world ex_key_world ex_key_world
           ex_key_world ex_tts_register (rev ex_tts_order) ex_info); [reflexivity..| |reflexivity|reflexivity|vm_compute; reflexivity].
  unfold ex_tts_order. by rewrite <- Permutation_rev.
Defined.
