(* ===== verification/Bootkit.v ===== *)
(** * pkg/bootkit: start-up and life cycle

    The goroutines, channels and contexts of bootkit.go and lifecycle.go as
    transition systems: a group of goroutines that one caller waits for
    ([callRunnable], [callStopHooks]), and the kit, whose [Start] and [Stop]
    run in different goroutines under one mutex.  Hooks may be registered at
    any time once a runnable has been called, so that [Start] and [Stop] have
    hooks of the moment at which they ask for them.  What a runnable or a hook
    does is a parameter: the outcomes it may return with. *)
From stdpp Require Import relations.
From S2P Require Import Prelude Errors.

(** ** Waiting for a group of goroutines *)

(** A goroutine runs its function, may block on the unbuffered [errChan] with
    its error, and is done ([wg.Done]) with an outcome. *)
Inductive task : Type :=
| Running
| Sending (e : gerror)
| Finished (err : option gerror).

(** [gr_done] is the closed channel of [waitDoneOrContextDone], [gr_ctx] the
    error of its context once it is done, [gr_result] what it has returned. *)
Record group : Type := mkGroup {
  gr_tasks : list task;
  gr_done : bool;
  gr_ctx : option gerror;
  gr_result : option (option gerror) }.

Definition setTask (i : nat) (t : task) (g : group) : group :=
  mkGroup (<[i := t]> (gr_tasks g)) (gr_done g) (gr_ctx g) (gr_result g).

(** The goroutines are started before the wait begins. *)
Definition spawn (n : nat) : group := mkGroup (replicate n Running) false None None.

Section Wait.
(** The outcomes of the functions, by position, and the errors the context can
    end with. *)
Variable outcomes : nat -> option gerror -> Prop.
Variable ctxErr : gerror -> Prop.

(** One step of a goroutine, of the context, or of the waiting [select]. *)
Inductive group_step : group -> group -> Prop :=
| task_returns g i : gr_tasks g !! i = Some Running -> outcomes i None ->
    group_step g (setTask i (Finished None) g)
| task_fails g i e : gr_tasks g !! i = Some Running -> outcomes i (Some e) ->
    group_step g (setTask i (Sending e) g)
| wait_group g : (forall i t, gr_tasks g !! i = Some t -> exists err, t = Finished err) -> gr_done g = false ->
    group_step g (mkGroup (gr_tasks g) true (gr_ctx g) (gr_result g))
| context_ends g e : gr_ctx g = None -> ctxErr e ->
    group_step g (mkGroup (gr_tasks g) (gr_done g) (Some e) (gr_result g))
| select_done g : gr_result g = None -> gr_done g = true ->
    group_step g (mkGroup (gr_tasks g) (gr_done g) (gr_ctx g) (Some None))
| select_context g e : gr_result g = None -> gr_ctx g = Some e ->
    group_step g (mkGroup (gr_tasks g) (gr_done g) (gr_ctx g) (Some (Some e)))
| select_error g i e : gr_result g = None -> gr_tasks g !! i = Some (Sending e) ->
    group_step g (mkGroup (<[i := Finished (Some e)]> (gr_tasks g)) (gr_done g) (gr_ctx g) (Some (Some e))).
End Wait.

(** ** Hooks and runnables

    [RF] and [HF] are the types of the functions handed to the kit. *)
Record LifeCycleHook (HF : Type) : Type := mkHook {
  OnStart : option HF;
  OnStop : option HF }.
Arguments mkHook {HF}.
Arguments OnStart {HF}.
Arguments OnStop {HF}.

(** What a step of the kit is: a signal, a hook that is registered, or a step
    of its own. *)
Inductive event : Type := Signal | Appended | Internal.

(** The goroutine that has the kit's mutex. *)
Inductive caller : Type := ByStart | ByStop.

(** Where [Start] and [Stop] are: with the runnables; between the two calls of
    [GetHooks], the one that sizes the channel and the one whose hooks are
    called; with the start hooks; from [b.stop()] on, with the hooks it found and
    their goroutines, which may outlive the call. *)
Inductive startState (HF : Type) : Type :=
| StartIdle
| StartRunnables
| StartChannel
| StartHooks
| StartStopping (hs : list (LifeCycleHook HF)) (g : group)
| StartReturned (hs : list (LifeCycleHook HF)) (g : group).
Arguments StartIdle {HF}.
Arguments StartRunnables {HF}.
Arguments StartChannel {HF}.
Arguments StartHooks {HF}.
Arguments StartStopping {HF}.
Arguments StartReturned {HF}.

Inductive stopState (HF : Type) : Type :=
| StopIdle
| StopLocking
| StopStopping (hs : list (LifeCycleHook HF)) (g : group)
| StopReturned (hs : list (LifeCycleHook HF)) (g : group).
Arguments StopIdle {HF}.
Arguments StopLocking {HF}.
Arguments StopStopping {HF}.
Arguments StopReturned {HF}.

(** The channel of the start hooks' errors: its capacity and what is in it. *)
Record errChannel : Type := mkErrChan { ch_cap : nat; ch_buffer : list gerror }.

(** The kit and its goroutines: [bk_hooks] are those of its [lifeCycle],
    [bk_cancelled] says whether [selfCtx] is cancelled, [bk_notify] whether the
    signals are handled, [bk_starting] are the start hooks that were called,
    with their goroutines. *)
Record BootKit (RF HF : Type) : Type := mkBootKit {
  bk_mutex : option caller;
  bk_parallelRun : list RF;
  bk_hooks : list (LifeCycleHook HF);
  bk_cancelled : bool;
  bk_notify : bool;
  bk_start : startState HF;
  bk_stop : stopState HF;
  bk_runnables : group;
  bk_starting : list (LifeCycleHook HF * task);
  bk_errChan : errChannel }.
Arguments mkBootKit {RF HF}.
Arguments bk_mutex {RF HF}.
Arguments bk_parallelRun {RF HF}.
Arguments bk_hooks {RF HF}.
Arguments bk_cancelled {RF HF}.
Arguments bk_notify {RF HF}.
Arguments bk_start {RF HF}.
Arguments bk_stop {RF HF}.
Arguments bk_runnables {RF HF}.
Arguments bk_starting {RF HF}.
Arguments bk_errChan {RF HF}.

Definition DefaultStartTimeout : Z := 15000000000.
Definition DefaultStopTimeout : Z := 60000000000.

(** [New]: the timeouts are when the contexts may end, which a step does at
    any time. *)
Definition New_BootKit {RF HF} : BootKit RF HF :=
  mkBootKit None [] [] false false StartIdle StopIdle (spawn 0) [] (mkErrChan 0 []).

Definition DeadlineExceeded : gerror := EPlain "context deadline exceeded".
Definition Canceled : gerror := EPlain "context canceled".

Section Kit.
Context {RF HF : Type}.
(** What a runnable and a hook's function may return. *)
Variable runs : RF -> option gerror -> Prop.
Variable returns : HF -> option gerror -> Prop.

(** lifecycle.go: a hook without a function returns nil. *)
Definition hook_returns (f : option HF) (err : option gerror) : Prop :=
  match f with None => err = None | Some f => returns f err end.
Definition hook_Start (h : LifeCycleHook HF) : option gerror -> Prop := hook_returns (OnStart h).
Definition hook_Stop (h : LifeCycleHook HF) : option gerror -> Prop := hook_returns (OnStop h).

Definition lifeCycle_Append (hooks : list (LifeCycleHook HF)) (h : LifeCycleHook HF) : list (LifeCycleHook HF) :=
  hooks ++ [h].

(** The runnables' goroutines; their context is that of [Start], a child of
    [selfCtx] with the start timeout. *)
Definition callRunnable (parallelRun : list RF) (cancelled : bool) : group -> group -> Prop :=
  group_step (fun i err => exists f, parallelRun !! i = Some f /\ runs f err)
    (fun e => e = DeadlineExceeded \/ cancelled = true /\ e = Canceled).

(** [callStopHooks], on the reversed hooks, with the stop timeout. *)
Definition callStopHooks (hs : list (LifeCycleHook HF)) : group -> group -> Prop :=
  group_step (fun i err => exists h, reverse hs !! i = Some h /\ hook_Stop h err) (fun e => e = DeadlineExceeded).

(** [b.stop()]: without hooks it returns nil at once. *)
Definition stop (hs : list (LifeCycleHook HF)) : group :=
  match hs with
  | [] => mkGroup [] true None (Some None)
  | _ => spawn (length hs)
  end.

(** [callStartHook] *)
Definition callStartHook (hs : list (LifeCycleHook HF)) : list (LifeCycleHook HF * task) := map (fun h => (h, Running)) hs.

(** What a start hook's goroutine does once its function has returned. *)
Definition returned (err : option gerror) : task := match err with Some e => Sending e | None => Finished None end.

(** One step of the kit.  A second signal ends the process, and with it the
    run.  [Append]: the runnables hand the life cycle on, to the hooks they
    register, to controllers and to routes, so that once a runnable has been
    called hooks may come at any time, during and after [Start]'s own work. *)
Inductive boot_step : event -> BootKit RF HF -> BootKit RF HF -> Prop :=
| Add f ps hs c n s t r st es :
    boot_step Internal (mkBootKit None ps hs c n s t r st es) (mkBootKit None (ps ++ [f]) hs c n s t r st es)
| Start_locks ps hs c n t r st es :
    boot_step Internal (mkBootKit None ps hs c n StartIdle t r st es)
      (mkBootKit (Some ByStart) ps hs c n StartRunnables t (spawn (length ps)) st es)
| Append h m ps hs c n s t r st es : gr_tasks r <> [] ->
    boot_step Appended (mkBootKit m ps hs c n s t r st es) (mkBootKit m ps (lifeCycle_Append hs h) c n s t r st es)
| runnables_step m ps hs c n s t r r' st es : callRunnable ps c r r' ->
    boot_step Internal (mkBootKit m ps hs c n s t r st es) (mkBootKit m ps hs c n s t r' st es)
| runnables_fail e m ps hs c n t r st es : gr_result r = Some (Some e) ->
    boot_step Internal (mkBootKit m ps hs c n StartRunnables t r st es)
      (mkBootKit m ps hs c n (StartStopping hs (stop hs)) t r st es)
| runnables_succeed m ps hs c n t r st es : gr_result r = Some None ->
    boot_step Internal (mkBootKit m ps hs c n StartRunnables t r st es)
      (mkBootKit m ps hs c n StartChannel t r st (mkErrChan (length hs) []))
| start_hooks_called m ps hs c n t r st es :
    boot_step Internal (mkBootKit m ps hs c n StartChannel t r st es)
      (mkBootKit m ps hs c true StartHooks t r (callStartHook hs) es)
| start_hook_returns i h err m ps hs c n s t r st es : st !! i = Some (h, Running) -> hook_Start h err ->
    boot_step Internal (mkBootKit m ps hs c n s t r st es)
      (mkBootKit m ps hs c n s t r (<[i := (h, returned err)]> st) es)
| start_hook_sends i h e m ps hs c n s t r st cap buf : st !! i = Some (h, Sending e) -> (length buf < cap)%nat ->
    boot_step Internal (mkBootKit m ps hs c n s t r st (mkErrChan cap buf))
      (mkBootKit m ps hs c n s t r (<[i := (h, Finished (Some e))]> st) (mkErrChan cap (buf ++ [e])))
| select_start_error e m ps hs c n t r st cap buf :
    boot_step Internal (mkBootKit m ps hs c n StartHooks t r st (mkErrChan cap (e :: buf)))
      (mkBootKit m ps hs c n (StartStopping hs (stop hs)) t r st (mkErrChan cap buf))
| select_start_send i h e m ps hs c n t r st : st !! i = Some (h, Sending e) ->
    boot_step Internal (mkBootKit m ps hs c n StartHooks t r st (mkErrChan 0 []))
      (mkBootKit m ps hs c n (StartStopping hs (stop hs)) t r (<[i := (h, Finished (Some e))]> st) (mkErrChan 0 []))
| select_started m ps hs c n t r st es : Forall (fun hb => exists err, hb.2 = Finished err) st ->
    boot_step Internal (mkBootKit m ps hs c n StartHooks t r st es)
      (mkBootKit m ps hs c n (StartStopping hs (stop hs)) t r st es)
| select_cancelled m ps hs n t r st es :
    boot_step Internal (mkBootKit m ps hs true n StartHooks t r st es)
      (mkBootKit m ps hs true n (StartStopping hs (stop hs)) t r st es)
| Start_stop_step hs' g g' m ps hs c n t r st es : callStopHooks hs' g g' ->
    boot_step Internal (mkBootKit m ps hs c n (StartStopping hs' g) t r st es)
      (mkBootKit m ps hs c n (StartStopping hs' g') t r st es)
| Start_left_step hs' g g' m ps hs c n t r st es : callStopHooks hs' g g' ->
    boot_step Internal (mkBootKit m ps hs c n (StartReturned hs' g) t r st es)
      (mkBootKit m ps hs c n (StartReturned hs' g') t r st es)
| Start_returns hs' g err m ps hs c n t r st es : gr_result g = Some err ->
    boot_step Internal (mkBootKit m ps hs c n (StartStopping hs' g) t r st es)
      (mkBootKit None ps hs c n (StartReturned hs' g) t r st es)
| signal m ps hs s t r st es :
    boot_step Signal (mkBootKit m ps hs false true s t r st es) (mkBootKit m ps hs true true s t r st es)
| Stop_called m ps hs c n s r st es :
    boot_step Internal (mkBootKit m ps hs c n s StopIdle r st es) (mkBootKit m ps hs c n s StopLocking r st es)
| Stop_locks ps hs c n s r st es :
    boot_step Internal (mkBootKit None ps hs c n s StopLocking r st es)
      (mkBootKit (Some ByStop) ps hs true n s (StopStopping hs (stop hs)) r st es)
| Stop_stop_step hs' g g' m ps hs c n s r st es : callStopHooks hs' g g' ->
    boot_step Internal (mkBootKit m ps hs c n s (StopStopping hs' g) r st es)
      (mkBootKit m ps hs c n s (StopStopping hs' g') r st es)
| Stop_left_step hs' g g' m ps hs c n s r st es : callStopHooks hs' g g' ->
    boot_step Internal (mkBootKit m ps hs c n s (StopReturned hs' g) r st es)
      (mkBootKit m ps hs c n s (StopReturned hs' g') r st es)
| Stop_returns hs' g err m ps hs c n s r st es : gr_result g = Some err ->
    boot_step Internal (mkBootKit m ps hs c n s (StopStopping hs' g) r st es)
      (mkBootKit None ps hs c n s (StopReturned hs' g) r st es).

(** Any step. *)
Definition boot_any (b b' : BootKit RF HF) : Prop := exists l, boot_step l b b'.

(** Any but a hook that is registered; any but a signal. *)
Definition boot_quiet (b b' : BootKit RF HF) : Prop := exists l, l <> Appended /\ boot_step l b b'.
Definition boot_unsignalled (b b' : BootKit RF HF) : Prop := exists l, l <> Signal /\ boot_step l b b'.
End Kit.

(** ** Groups *)
Record group_ok (g : group) : Prop := {
  ok_done i t : gr_done g = true -> gr_tasks g !! i = Some t -> exists err, t = Finished err;
  ok_none : gr_result g = Some None -> gr_done g = true;
  ok_received i e : gr_tasks g !! i = Some (Finished (Some e)) -> gr_result g = Some (Some e);
  ok_error e : gr_result g = Some (Some e) ->
    (exists i, gr_tasks g !! i = Some (Finished (Some e))) \/ gr_ctx g = Some e;
  ok_unique i j e e' : gr_tasks g !! i = Some (Finished (Some e)) -> gr_tasks g !! j = Some (Finished (Some e')) -> i = j }.

Lemma spawn_ok n : group_ok (spawn n).
Proof.
  assert (forall i t, replicate n Running !! i = Some t -> t = Running) as Hrun
    by (intros i t [-> _]%lookup_replicate; done).
  split; simpl; try done.
  - intros i e H. by apply Hrun in H.
  - intros i j e e' H. by apply Hrun in H.
Qed.

Lemma stop_ok {HF} (hs : list (LifeCycleHook HF)) : group_ok (stop hs).
Proof. destruct hs; [|apply spawn_ok]. by split. Qed.

Section GroupFacts.
Variable outcomes : nat -> option gerror -> Prop.
Variable ctxErr : gerror -> Prop.
Abbreviation step := (group_step outcomes ctxErr).

(** [inserts]: what a lookup in an updated list says of the old one. *)
Ltac inserts :=
  repeat match goal with
  | H : <[_ := _]> _ !! _ = Some _ |- _ => apply list_lookup_insert_Some in H as [(? & ? & ?) | [? ?]]
  end; simplify_eq/=.

Lemma group_step_ok g g' : group_ok g -> step g g' -> group_ok g'.
Proof.
  intros [Hd Hn Hr He Hu] Hstep.
  assert (forall i, gr_tasks g !! i = Some Running -> gr_done g = false) as Hlive.
  { intros i Hi. destruct (gr_done g) eqn:E; [|done]. by destruct (Hd i _ eq_refl Hi). }
  assert (forall i t0 t e, gr_tasks g !! i = Some t0 -> (forall e, t0 <> Finished (Some e)) ->
            (exists k, gr_tasks g !! k = Some (Finished (Some e))) ->
            exists k, <[i:=t]> (gr_tasks g) !! k = Some (Finished (Some e))) as Hkeep.
  { intros i t0 t e Hi Hne [k Hk]. exists k. rewrite list_lookup_insert_ne; [done|]. intros ->. naive_solver. }
  destruct Hstep as [g i Hi _|g i e Hi _|g Hall _|g e Hc _|g Hres Hdone|g e Hres Hc|g i e Hres Hi];
    split; simpl in *; try (intros; inserts; by eauto).
  - intros e [Hex|Hctx]%He; [left; by eapply Hkeep|by right].
  - intros k t Hdone. by rewrite (Hlive i Hi) in Hdone.
  - intros e0 [Hex|Hctx]%He; [left; by eapply Hkeep|by right].
  - intros e0 [Hex|Hctx]%He; [by left|congruence].
  - intros i e Hi%Hr. congruence.
  - intros i e0 Hi%Hr. congruence.
  - intros k e0 Hk. inserts; [done|]. match goal with H : _ !! k = _ |- _ => apply Hr in H end. congruence.
  - intros e0 [= <-]. left. exists i. apply list_lookup_insert_eq. by eapply lookup_lt_Some.
  - intros k j e0 e' Hk Hj. inserts; try done;
      match goal with H : _ !! _ = Some (Finished (Some _)) |- _ => apply Hr in H end; congruence.
Qed.

Lemma group_steps_ok g g' : group_ok g -> rtc step g g' -> group_ok g'.
Proof. intros Hok Hsteps. induction Hsteps; eauto using group_step_ok. Qed.

(** What a goroutine is done with is an outcome of its function. *)
Definition group_true (g : group) : Prop :=
  (forall i err, gr_tasks g !! i = Some (Finished err) -> outcomes i err) /\
  (forall i e, gr_tasks g !! i = Some (Sending e) -> outcomes i (Some e)) /\
  (forall e, gr_ctx g = Some e -> ctxErr e).

Lemma spawn_true n : group_true (spawn n).
Proof. split_and!; simpl; try done; intros i e [? _]%lookup_replicate; done. Qed.

Lemma group_step_true g g' : group_true g -> step g g' -> group_true g'.
Proof.
  intros (Hf & Hs & Hc) Hstep. destruct Hstep; split_and!; simpl in *; intros; inserts; by eauto.
Qed.

Lemma group_steps_true g g' : group_true g -> rtc step g g' -> group_true g'.
Proof. intros Hok Hsteps. induction Hsteps; eauto using group_step_true. Qed.

(** Once the wait is over its result stays, and no blocked goroutine gets on. *)
Lemma group_step_over g g' r : gr_result g = Some r -> step g g' ->
  gr_result g' = Some r /\ forall i e, gr_tasks g !! i = Some (Sending e) -> gr_tasks g' !! i = Some (Sending e).
Proof.
  intros Hr Hstep. destruct Hstep; simpl in *; try congruence; (split; [done|]); intros k e' Hk; try done;
    (rewrite list_lookup_insert_ne; [done|]; intros ->; congruence).
Qed.

Lemma group_steps_over g g' r : gr_result g = Some r -> rtc step g g' ->
  gr_result g' = Some r /\ forall i e, gr_tasks g !! i = Some (Sending e) -> gr_tasks g' !! i = Some (Sending e).
Proof.
  intros Hr Hsteps. revert Hr. induction Hsteps as [g|g g1 g' Hstep Hsteps IH]; [done|]. intros Hr.
  apply (group_step_over _ _ r) in Hstep as [Hr1 Hs1]; [|done]. destruct (IH Hr1) as [Hr' Hs']. eauto.
Qed.

(** A failed goroutine stays one. *)
Definition failed (g : group) (i : nat) : Prop :=
  exists e, gr_tasks g !! i = Some (Sending e) \/ gr_tasks g !! i = Some (Finished (Some e)).

(** Every step uses something up. *)
Definition task_size (t : task) : nat := match t with Running => 2 | Sending _ => 1 | Finished _ => 0 end.
Definition tasks_size (l : list task) : nat := sum_list (map task_size l).
Definition pending {A} (o : option A) : nat := match o with None => 1 | Some _ => 0 end.
Definition group_size (g : group) : nat :=
  (tasks_size (gr_tasks g) + (if gr_done g then 0 else 1) + pending (gr_ctx g) + pending (gr_result g))%nat.

Lemma tasks_size_insert l i t t' :
  l !! i = Some t -> (task_size t' < task_size t)%nat -> (tasks_size (<[i := t']> l) < tasks_size l)%nat.
Proof.
  unfold tasks_size. revert i. induction l as [|u l IH]; intros [|i] Hi Hlt; simplify_eq/=; [lia|].
  specialize (IH i Hi Hlt). lia.
Qed.

Lemma group_step_size g g' : step g g' -> (group_size g' < group_size g)%nat.
Proof.
  unfold group_size, pending. destruct 1 as [g i Hi _|g i e Hi _|g _ Hd|g e Hc _|g Hr _|g e Hr _|g i e Hr Hi]; simpl.
  - pose proof (tasks_size_insert _ _ _ (Finished None) Hi). simpl in *. lia.
  - pose proof (tasks_size_insert _ _ _ (Sending e) Hi). simpl in *. lia.
  - rewrite Hd. lia.
  - rewrite Hc. lia.
  - rewrite Hr. lia.
  - rewrite Hr. lia.
  - pose proof (tasks_size_insert _ _ _ (Finished (Some e)) Hi). rewrite Hr. simpl in *. lia.
Qed.

(** While the wait is on, something can happen, if the functions can return. *)
Lemma group_progress g :
  (forall i, (i < length (gr_tasks g))%nat -> exists err, outcomes i err) -> gr_result g = None -> exists g', step g g'.
Proof.
  intros Hout Hr.
  assert (forall t, {exists err, t = Finished err} + {~ exists err, t = Finished err}) as Hdec
    by (intros [|e|err]; [right; by intros [? ?]..|left; by eexists]).
  destruct (Forall_Exists_dec _ (fun t => ~ exists err, t = Finished err) Hdec (gr_tasks g)) as [Hall|Hex].
  - destruct (gr_done g) eqn:Hd; [eexists; by apply select_done|].
    eexists. apply wait_group; [|done]. by apply Forall_lookup.
  - apply Exists_exists in Hex as (t & [i Hi]%list_elem_of_lookup & Ht).
    destruct t as [|e|err]; [|eexists; by apply (select_error _ _ _ i)|by destruct Ht; eexists].
    destruct (Hout i) as [[e|] He]; [by eapply lookup_lt_Some| |].
    + eexists. by apply (task_fails _ _ g i e).
    + eexists. by apply (task_returns _ _ g i).
Qed.
Lemma group_step_length g g' : step g g' -> length (gr_tasks g') = length (gr_tasks g).
Proof. by destruct 1; simpl; rewrite ?length_insert. Qed.

Lemma group_steps_length g g' : rtc step g g' -> length (gr_tasks g') = length (gr_tasks g).
Proof. induction 1 as [|g g1 g' H _ IH]; [done|]. by rewrite IH, (group_step_length g). Qed.

(** From any group the wait ends, if the functions can return. *)
Lemma group_inevitable g :
  (forall i, (i < length (gr_tasks g))%nat -> exists err, outcomes i err) ->
  inevitable step (fun g' => is_Some (gr_result g')) g.
Proof.
  intros Hout. apply (inevitable_measure _ _ (fun g' => length (gr_tasks g') = length (gr_tasks g)) group_size); [|done].
  intros a Ha. destruct (gr_result a) eqn:Hr; [by left; eexists|]. right. split.
  - apply group_progress; [by rewrite Ha|done].
  - intros a' Hstep. right. split; [by rewrite (group_step_length a)|by apply group_step_size].
Qed.

(** All goroutines of a group whose wait returned nil have returned nil. *)
Lemma nil_all_finished g i : group_ok g -> gr_result g = Some None -> (i < length (gr_tasks g))%nat ->
  gr_tasks g !! i = Some (Finished None).
Proof.
  intros Hok Hr [t Ht]%lookup_lt_is_Some. destruct (ok_done g Hok i t (ok_none g Hok Hr) Ht) as [[e|] ->]; [|done].
  apply (ok_received g Hok) in Ht. congruence.
Qed.
End GroupFacts.

(** What [waitDoneOrContextDone] returns is the truth about its
    goroutines: nil only when each of them has returned nil, an error only
    when one of them has returned that error or the context has ended with
    it. *)
Theorem wait_result (outcomes : nat -> option gerror -> Prop) (ctxErr : gerror -> Prop) (n : nat) (g : group)
    (Hrun : rtc (group_step outcomes ctxErr) (spawn n) g) :
  match gr_result g with
  | None => True
  | Some None => forall i, (i < n)%nat -> gr_tasks g !! i = Some (Finished None) /\ outcomes i None
  | Some (Some e) => ctxErr e \/ exists i, (i < n)%nat /\ gr_tasks g !! i = Some (Finished (Some e)) /\ outcomes i (Some e)
  end.
Proof.
  pose proof (group_steps_ok _ _ _ _ (spawn_ok n) Hrun) as Hok.
  pose proof (group_steps_true _ _ _ _ (spawn_true outcomes ctxErr n) Hrun) as (Hf & _ & Hc).
  pose proof (group_steps_length _ _ _ _ Hrun) as Hlen. simpl in Hlen. rewrite length_replicate in Hlen.
  destruct (gr_result g) as [[e|]|] eqn:Hr; [|..|done].
  - destruct (ok_error g Hok e Hr) as [[i Hi] | Hctx]; [right|by left; apply Hc].
    exists i. split_and!; [|done|by apply Hf]. rewrite <- Hlen. by eapply lookup_lt_Some.
  - intros i Hi. rewrite <- Hlen in Hi. pose proof (nil_all_finished g i Hok Hr Hi). split; [done|by apply Hf].
Qed.

(** Whatever the scheduler does, the wait for goroutines that can return
    comes to an end. *)
Theorem wait_terminates (outcomes : nat -> option gerror -> Prop) (ctxErr : gerror -> Prop) (n : nat) (g : group)
    (Hret : forall i, (i < n)%nat -> exists err, outcomes i err)
    (Hrun : rtc (group_step outcomes ctxErr) (spawn n) g) :
  inevitable (group_step outcomes ctxErr) (fun g' => is_Some (gr_result g')) g.
Proof.
  apply group_inevitable. apply group_steps_length in Hrun. simpl in Hrun. rewrite length_replicate in Hrun.
  by rewrite Hrun.
Qed.

(** Of two goroutines that fail, one never ends: [errChan] is unbuffered
    and read once, so that when the wait is over the other stays blocked on
    its send, and [wg.Wait] with it. *)
Theorem failed_goroutine_leaks (outcomes : nat -> option gerror -> Prop) (ctxErr : gerror -> Prop) (n : nat)
    (g g' : group) (i j : nat) (Hrun : rtc (group_step outcomes ctxErr) (spawn n) g) (Hij : i <> j)
    (Hi : failed g i) (Hj : failed g j) (Hover : is_Some (gr_result g))
    (Hlater : rtc (group_step outcomes ctxErr) g g') :
  gr_done g' = false /\ exists k e, (k = i \/ k = j) /\ gr_tasks g' !! k = Some (Sending e).
Proof.
  pose proof (group_steps_ok _ _ _ _ (spawn_ok n) Hrun) as Hok.
  assert (exists k e, (k = i \/ k = j) /\ gr_tasks g' !! k = Some (Sending e)) as Hblocked.
  { destruct Hover as [r Hr]. destruct (group_steps_over _ _ _ _ _ Hr Hlater) as [_ Hstay].
    destruct Hi as [e [Hi|Hi]]; [exists i, e; auto|]. destruct Hj as [e' [Hj|Hj]]; [exists j, e'; auto|].
    by destruct (Hij (ok_unique g Hok _ _ _ _ Hi Hj)). }
  split; [|done]. destruct Hblocked as (k & e & _ & Hk). destruct (gr_done g') eqn:Hd; [|done].
  by destruct (ok_done g' (group_steps_ok _ _ _ _ Hok Hlater) k _ Hd Hk).
Qed.

(** ** The kit *)
Definition start_busy {HF} (s : startState HF) : bool :=
  match s with StartRunnables | StartChannel | StartHooks | StartStopping _ _ => true | _ => false end.
(** [Start] has not called the start hooks yet. *)
Definition start_before {HF} (s : startState HF) : bool :=
  match s with StartIdle | StartRunnables | StartChannel => true | _ => false end.
Definition stop_busy {HF} (t : stopState HF) : bool := match t with StopStopping _ _ => true | _ => false end.

Section KitFacts.
Context {RF HF : Type}.
Variable runs : RF -> option gerror -> Prop.
Variable returns : HF -> option gerror -> Prop.
Abbreviation kit := (BootKit RF HF).
Abbreviation step := (boot_step runs returns).
Abbreviation reach := (rtc (boot_any runs returns) New_BootKit).

(** The stop hooks [hs] and their goroutines. *)
Definition stops_ok (hs : list (LifeCycleHook HF)) (g : group) : Prop :=
  group_ok g /\ length (gr_tasks g) = length hs /\
  group_true (fun i err => exists h, reverse hs !! i = Some h /\ hook_Stop returns h err) (fun e => e = DeadlineExceeded) g.

Lemma stop_stops_ok hs : stops_ok hs (stop hs).
Proof.
  split; [apply stop_ok|]. destruct hs; [by split_and!|].
  split; [simpl; by rewrite length_replicate|]. apply spawn_true.
Qed.

Lemma callStopHooks_ok hs g g' : stops_ok hs g -> callStopHooks returns hs g g' -> stops_ok hs g'.
Proof.
  intros (Hok & Hlen & Htrue) Hstep. split_and!.
  - by eapply group_step_ok.
  - by rewrite (group_step_length _ _ _ _ Hstep).
  - by eapply group_step_true.
Qed.

(** Who has the mutex. *)
Definition mutex_ok (m : option caller) (s : startState HF) (t : stopState HF) : Prop :=
  match m with
  | Some ByStart => start_busy s = true /\ stop_busy t = false
  | Some ByStop => start_busy s = false /\ stop_busy t = true
  | None => start_busy s = false /\ stop_busy t = false
  end.

(** The start hooks: none before every runnable has succeeded, then those that
    were registered when they were called. *)
Definition starting_ok (n : bool) (hs : list (LifeCycleHook HF)) (s : startState HF) (r : group)
    (st : list (LifeCycleHook HF * task)) : Prop :=
  (n = true \/ s = StartChannel -> gr_result r = Some None) /\
  if n then start_before s = false /\ map fst st `prefix_of` hs else st = [] /\ s <> StartHooks.

(** What a start hook's goroutine is done with, or blocked with, is what its
    function returned. *)
Definition starting_true (st : list (LifeCycleHook HF * task)) : Prop :=
  forall i h t, st !! i = Some (h, t) ->
    match t with Running => True | Sending e => hook_Start returns h (Some e) | Finished err => hook_Start returns h err end.

(** The stop hooks called by [Start], those of the started hooks among them,
    and by [Stop]. *)
Definition stopping_ok (hs : list (LifeCycleHook HF)) (s : startState HF) (st : list (LifeCycleHook HF * task)) : Prop :=
  match s with
  | StartStopping hs' g => stops_ok hs' g /\ hs' `prefix_of` hs /\ map fst st `prefix_of` hs'
  | StartReturned hs' g => stops_ok hs' g /\ hs' `prefix_of` hs /\ map fst st `prefix_of` hs' /\ is_Some (gr_result g)
  | _ => True
  end.
Definition Stop_ok (c : bool) (hs : list (LifeCycleHook HF)) (t : stopState HF) : Prop :=
  match t with
  | StopStopping hs' g | StopReturned hs' g => stops_ok hs' g /\ hs' `prefix_of` hs /\ c = true
  | _ => True
  end.

Record boot_ok (b : kit) : Prop := {
  ok_mutex : mutex_ok (bk_mutex b) (bk_start b) (bk_stop b);
  ok_group : group_ok (bk_runnables b);
  ok_starting : starting_ok (bk_notify b) (bk_hooks b) (bk_start b) (bk_runnables b) (bk_starting b);
  ok_true : starting_true (bk_starting b);
  ok_stopping : stopping_ok (bk_hooks b) (bk_start b) (bk_starting b);
  ok_Stop : Stop_ok (bk_cancelled b) (bk_hooks b) (bk_stop b) }.

Lemma New_ok : boot_ok New_BootKit.
Proof. split; try done. split; [by intros [?|?]|done]. Qed.

Lemma map_fst_callStartHook (hs : list (LifeCycleHook HF)) : map fst (callStartHook hs) = hs.
Proof. unfold callStartHook. rewrite map_map. apply map_id. Qed.

Lemma callStartHook_true hs : starting_true (callStartHook hs).
Proof.
  intros i h t. unfold callStartHook. change (map ?f ?l) with (f <$> l). rewrite list_lookup_fmap.
  destruct (hs !! i); cbn; [|done]. by intros [= <- <-].
Qed.

Lemma map_fst_moved (st : list (LifeCycleHook HF * task)) i h t t' :
  st !! i = Some (h, t) -> map fst (<[i := (h, t')]> st) = map fst st.
Proof.
  intros Hi. change (map fst ?l) with (fst <$> l). rewrite list_fmap_insert. simpl. apply list_insert_id.
  by rewrite list_lookup_fmap, Hi.
Qed.

Lemma starting_true_moved st i h t :
  starting_true st ->
  match t with Running => True | Sending e => hook_Start returns h (Some e) | Finished err => hook_Start returns h err end ->
  starting_true (<[i := (h, t)]> st).
Proof. intros Hst Ht j h' t' [(-> & [= -> ->] & _)|[_ Hj]]%list_lookup_insert_Some; [done|by eapply Hst]. Qed.

Lemma starting_moved n hs s r st i h t t' :
  starting_ok n hs s r st -> st !! i = Some (h, t) -> starting_ok n hs s r (<[i := (h, t')]> st).
Proof.
  intros [Hr Hn] Hi. split; [done|]. destruct n.
  - by rewrite (map_fst_moved _ _ _ _ _ Hi).
  - destruct Hn as [-> _]. done.
Qed.

Lemma stopping_moved hs s st i h t t' :
  stopping_ok hs s st -> st !! i = Some (h, t) -> stopping_ok hs s (<[i := (h, t')]> st).
Proof. intros Hs Hi. destruct s; simpl in *; by rewrite ?(map_fst_moved _ _ _ _ _ Hi). Qed.

Lemma stopping_started n hs r st : starting_ok n hs StartHooks r st -> stopping_ok hs (StartStopping hs (stop hs)) st.
Proof.
  intros [_ Hn]. split; [apply stop_stops_ok|]. split; [done|]. destruct n; [by destruct Hn|]. by destruct Hn as [_ ?].
Qed.

Lemma stopping_failed n hs r st : starting_ok n hs StartRunnables r st -> stopping_ok hs (StartStopping hs (stop hs)) st.
Proof.
  intros [_ Hn]. split; [apply stop_stops_ok|]. split; [done|]. destruct n; [by destruct Hn|]. destruct Hn as [-> _]. apply prefix_nil.
Qed.

Lemma starting_left n hs s s' r st :
  starting_ok n hs s r st -> start_before s' = false -> s' <> StartHooks -> starting_ok n hs s' r st.
Proof. intros [Hr Hn] Hs Hh. split; [intros [->| ->]; [by apply Hr; left|done]|]. by destruct n, Hn. Qed.

Lemma starting_locks n hs r r' st : starting_ok n hs StartIdle r st -> starting_ok n hs StartRunnables r' st.
Proof. intros [_ Hn]. destruct n; [by destruct Hn|]. split; [by intros [?|?]|]. by destruct Hn. Qed.

Lemma starting_run n hs s r r' st :
  starting_ok n hs s r st -> (forall x, gr_result r = Some x -> gr_result r' = Some x) -> starting_ok n hs s r' st.
Proof. intros [Hr Hn] Hx. split; [intros H; by apply Hx, Hr|done]. Qed.

Lemma starting_channel n hs r st :
  starting_ok n hs StartRunnables r st -> gr_result r = Some None -> starting_ok n hs StartChannel r st.
Proof. intros [_ Hn] Hr. split; [done|]. destruct n; [by destruct Hn|]. by destruct Hn. Qed.

Lemma starting_called n hs r st : starting_ok n hs StartChannel r st -> starting_ok true hs StartHooks r (callStartHook hs).
Proof. intros [Hr _]. split; [intros _; apply Hr; by right|]. split; [done|]. by rewrite map_fst_callStartHook. Qed.

Lemma stopping_stops hs s st hs' g g' :
  s = StartStopping hs' g -> stopping_ok hs s st -> callStopHooks returns hs' g g' -> stopping_ok hs (StartStopping hs' g') st.
Proof. intros -> (? & ? & ?) ?. split_and!; [by eapply callStopHooks_ok|done|done]. Qed.

Lemma stopping_after hs s st hs' g g' :
  s = StartReturned hs' g -> stopping_ok hs s st -> callStopHooks returns hs' g g' -> stopping_ok hs (StartReturned hs' g') st.
Proof.
  intros -> (? & ? & ? & [err Hr]) Hstep. split_and!; [by eapply callStopHooks_ok|done|done|].
  exists err. by destruct (group_step_over _ _ _ _ _ Hr Hstep).
Qed.

Lemma Stop_goes c hs t hs' g g' :
  t = StopStopping hs' g \/ t = StopReturned hs' g -> Stop_ok c hs t -> callStopHooks returns hs' g g' ->
  Stop_ok c hs (StopStopping hs' g') /\ Stop_ok c hs (StopReturned hs' g').
Proof. intros [-> | ->] (? & ? & ?) ?; split; (split_and!; [by eapply callStopHooks_ok|done|done]). Qed.

Lemma starting_appended n hs h s r st : starting_ok n hs s r st -> starting_ok n (lifeCycle_Append hs h) s r st.
Proof. intros [Hr Hn]. split; [done|]. destruct n; [|done]. destruct Hn. split; [done|by apply prefix_app_r]. Qed.

Lemma stopping_appended hs h s st : stopping_ok hs s st -> stopping_ok (lifeCycle_Append hs h) s st.
Proof. destruct s; simpl; intros; destruct_and?; split_and?; try done; by apply prefix_app_r. Qed.

Lemma Stop_appended c hs h t : Stop_ok c hs t -> Stop_ok c (lifeCycle_Append hs h) t.
Proof. destruct t; simpl; intros; destruct_and?; split_and?; try done; by apply prefix_app_r. Qed.

#[local] Hint Resolve spawn_ok stop_stops_ok starting_moved stopping_moved stopping_started stopping_failed starting_appended
  starting_left starting_locks starting_channel starting_called stopping_stops stopping_after group_step_ok
  stopping_appended Stop_appended callStartHook_true : knoway.

Lemma boot_step_ok l b b' : boot_ok b -> step l b b' -> boot_ok b'.
Proof.
  intros [Hm Hg Hn Htr Hs Ht] Hstep.
  destruct Hstep; split;
    cbn [bk_mutex bk_runnables bk_notify bk_hooks bk_start bk_starting bk_stop bk_cancelled] in *;
    try done; try (by destruct Hm); eauto with knoway.
  - eapply starting_run; [done|]. intros x Hx. by destruct (group_step_over _ _ _ _ _ Hx H).
  - apply starting_true_moved; [done|]. by destruct err.
  - apply starting_true_moved; [done|]. by apply (Htr i h (Sending e)).
  - apply starting_true_moved; [done|]. by apply (Htr i h (Sending e)).
  - by destruct m as [[]|]; destruct Hm.
  - destruct Hs as (? & ? & ?). by split_and!; [..|eexists].
  - destruct t; simpl in *; try done; by destruct_and?; split_and?.
  - by split; [apply stop_stops_ok|].
  - by eapply Stop_goes; [left|..].
  - by eapply Stop_goes; [right|..].
  - by destruct m as [[]|]; destruct Hm.
Qed.

Lemma reach_ok b : reach b -> boot_ok b.
Proof.
  intros Hreach. remember New_BootKit as b0 eqn:Hb0. assert (boot_ok b0) as H0 by (subst; apply New_ok). clear Hb0.
  induction Hreach as [|b1 b2 b3 [l Hl] _ IH]; [done|]. apply IH. by eapply boot_step_ok.
Qed.
(** What the start hooks still have to do, and the kit. *)
Definition starting_size (st : list (LifeCycleHook HF * task)) : nat := tasks_size (map snd st).
Definition start_size (hs : list (LifeCycleHook HF)) (s : startState HF) : nat :=
  match s with StartHooks => S (group_size (stop hs)) | StartStopping _ g => group_size g | _ => 0%nat end.
Definition Stop_size (t : stopState HF) : nat :=
  match t with StopIdle => 1%nat | StopReturned _ g => group_size g | _ => 0%nat end.
Definition kit_size (b : kit) : nat :=
  (group_size (bk_runnables b) + starting_size (bk_starting b) + start_size (bk_hooks b) (bk_start b)
   + Stop_size (bk_stop b) + if bk_cancelled b then 0 else 1)%nat.

Lemma starting_size_moved st i h t t' :
  st !! i = Some (h, t) -> (task_size t' < task_size t)%nat -> (starting_size (<[i := (h, t')]> st) < starting_size st)%nat.
Proof.
  intros Hi Hlt. unfold starting_size. change (map snd ?l) with (snd <$> l). rewrite list_fmap_insert.
  apply (tasks_size_insert _ _ t); [|done]. by rewrite list_lookup_fmap, Hi.
Qed.

Lemma task_size_returned err : (task_size (returned err) < task_size Running)%nat.
Proof. destruct err; simpl; lia. Qed.

(** [Start] is past the runnables and on its way out. *)
Definition leaving (b : kit) : Prop :=
  bk_notify b = true /\
  match bk_start b with StartHooks => bk_cancelled b = true | StartStopping _ _ => True | _ => False end.

Lemma leaving_progress b : boot_ok b -> leaving b ->
  (forall h, h ∈ bk_hooks b -> exists err, hook_Stop returns h err) -> exists b', boot_quiet runs returns b b'.
Proof.
  intros [_ _ _ _ Hs _] [Hn Hl] Hret. destruct b as [m ps hs c n s t r st es]. simpl in *. subst n.
  destruct s as [| | | |hs' g|]; try done; simpl in *.
  - subst c. eexists _, Internal. split; [done|]. apply select_cancelled.
  - destruct Hs as ((Hg & Hlen & Htrue) & Hpre & _).
    destruct (gr_result g) as [err|] eqn:Hr; [eexists _, Internal; split; [done|by eapply Start_returns]|].
    destruct (group_progress (fun i err => exists h, reverse hs' !! i = Some h /\ hook_Stop returns h err)
                (fun e => e = DeadlineExceeded) g) as [g' Hg']; [|done|eexists _, Internal; split; [done|by apply Start_stop_step]].
    intros i Hi. rewrite Hlen, <- (length_reverse hs') in Hi. apply lookup_lt_is_Some in Hi as [h Hh].
    destruct (Hret h) as [err Herr]; [|by exists err, h].
    eapply elem_of_prefix; [|exact Hpre]. apply elem_of_reverse. by eapply list_elem_of_lookup_2.
Qed.

Lemma leaving_step b b' : boot_ok b -> leaving b -> boot_quiet runs returns b b' ->
  (exists hs g, bk_start b' = StartReturned hs g) \/
  (boot_ok b' /\ leaving b' /\ bk_hooks b' = bk_hooks b) /\ (kit_size b' < kit_size b)%nat.
Proof.
  intros Hok Hl (l & Hq & Hstep). pose proof (boot_step_ok _ _ _ Hok Hstep) as Hok'. destruct Hok as [Hm Hg Hn _ Hs Ht].
  destruct Hl as [Hnt Hl]. assert (start_busy (bk_start b) = true) as Hbusy by (by destruct (bk_start b)).
  assert (bk_mutex b = Some ByStart /\ stop_busy (bk_stop b) = false) as [Hmx Hidle].
  { unfold mutex_ok in Hm. destruct (bk_mutex b) as [[]|]; destruct Hm; split; congruence. }
  unfold leaving, kit_size in *.
  destruct Hstep; simpl in *; subst; try done;
    try match goal with
      | H : callRunnable _ _ _ _ _ |- _ => apply group_step_size in H
      | H : callStopHooks _ _ _ _ |- _ => apply group_step_size in H
      | H : _ !! _ = Some (_, Running) |- _ =>
          pose proof (starting_size_moved _ _ _ _ _ H (task_size_returned err))
      | H : _ !! _ = Some (_, Sending ?e) |- _ =>
          pose proof (starting_size_moved _ _ _ _ (Finished (Some e)) H (Nat.lt_succ_diag_r 0))
      end; try (right; split; [done|lia]).
  - left. by eexists _, _.
  - right. split; [|lia]. split_and!; [done|done|by destruct s|done].
Qed.

(** The stop of a kit that never stops: [h]'s start function does not return. *)
Definition waiting (h : LifeCycleHook HF) (b : kit) : Prop :=
  bk_mutex b = Some ByStart /\ bk_start b = StartHooks /\ bk_cancelled b = false /\ ch_buffer (bk_errChan b) = [] /\
  (exists i, bk_starting b !! i = Some (h, Running)) /\ (bk_stop b = StopIdle \/ bk_stop b = StopLocking) /\
  forall i h' t, bk_starting b !! i = Some (h', t) -> forall e, ~ hook_Start returns h' (Some e).

Lemma waiting_step h b b' l : (forall err, ~ hook_Start returns h err) -> boot_ok b -> waiting h b ->
  l <> Signal -> step l b b' -> waiting h b'.
Proof.
  intros Hnever Hok (Hm & Hs & Hc & He & [k Hk] & Ht & Hfail) Hl Hstep. unfold waiting.
  assert (forall i h' e, bk_starting b !! i = Some (h', Sending e) -> False) as Hsend.
  { intros i h' e Hi. exact (Hfail i h' _ Hi e (ok_true b Hok i h' _ Hi)). }
  destruct Hstep; simpl in *; simplify_eq/=; try done; try (by destruct Ht); try (by split_and!; [..|eexists|auto|done]);
    try (exfalso; by eapply Hsend).
  - assert (i <> k) as Hik by (intros ->; simplify_eq; by eapply Hnever).
    split_and!; try done.
    + exists k. by rewrite list_lookup_insert_ne.
    + intros j h' t' [(<- & [= <- _] & _)|[_ Hj]]%list_lookup_insert_Some e; by eapply Hfail.
  - exfalso. rename select (Forall _ _) into Hall. rewrite Forall_lookup in Hall. by apply Hall in Hk as [? [=]].
Qed.

(** [Start] has called the stop hooks of [hs]. *)
Definition stopped (hs : list (LifeCycleHook HF)) (b : kit) : Prop :=
  exists g, bk_start b = StartStopping hs g \/ bk_start b = StartReturned hs g.

(** The step in which [Start] reads the hooks that it stops. *)
Definition stop_called (hs : list (LifeCycleHook HF)) (b b' : kit) : Prop :=
  bk_hooks b = hs /\ (bk_start b = StartRunnables \/ bk_start b = StartHooks) /\ bk_start b' = StartStopping hs (stop hs).

Lemma stopped_step b b' hs : boot_any runs returns b b' -> stopped hs b' -> stopped hs b \/ stop_called hs b b'.
Proof.
  intros [l Hstep] [g Hg]. unfold stopped, stop_called.
  destruct Hstep; simpl in *; destruct Hg; simplify_eq; try (left; by eauto); right; by auto.
Qed.

Lemma stopped_history b hs : reach b -> stopped hs b ->
  exists b1 b2, reach b1 /\ boot_any runs returns b1 b2 /\ stop_called hs b1 b2 /\ rtc (boot_any runs returns) b2 b.
Proof.
  intros Hreach. revert b Hreach hs. refine (rtc_ind_r _ _ _ _).
  - intros hs [g [[=]|[=]]].
  - intros b1 b2 Hreach Hstep IH hs Hs. destruct (stopped_step _ _ _ Hstep Hs) as [Hb|Hcall].
    + destruct (IH hs Hb) as (c1 & c2 & ? & ? & ? & ?). exists c1, c2. split_and!; try done. by eapply rtc_r.
    + by exists b1, b2.
Qed.

End KitFacts.

(** The runnables of a kit that has started, and their goroutines: what one
    is done with is an outcome of its function. *)
Definition runnables_true {RF HF} (runs : RF -> option gerror -> Prop) (ps : list RF) (b : BootKit RF HF) : Prop :=
  ps `prefix_of` bk_parallelRun b /\
  (bk_start b <> StartIdle -> (length ps <= length (gr_tasks (bk_runnables b)))%nat) /\
  group_true (fun i err => exists f, bk_parallelRun b !! i = Some f /\ runs f err) (fun _ => True) (bk_runnables b).

Lemma callRunnable_true {RF} (runs : RF -> option gerror -> Prop) ps c g g' :
  group_true (fun i err => exists f, ps !! i = Some f /\ runs f err) (fun _ => True) g -> callRunnable runs ps c g g' ->
  length (gr_tasks g') = length (gr_tasks g) /\
  group_true (fun i err => exists f, ps !! i = Some f /\ runs f err) (fun _ => True) g'.
Proof.
  intros Hg Hstep. split; [by eapply group_steps_length, rtc_once|]. destruct Hg as (Hf & Hs & _).
  destruct Hstep; split_and!; simpl in *; intros; try done;
    repeat match goal with H : <[_ := _]> _ !! _ = Some _ |- _ => apply list_lookup_insert_Some in H as [(? & ? & ?) | [? ?]] end;
    simplify_eq/=; by eauto.
Qed.

Lemma boot_step_true {RF HF} (runs : RF -> option gerror -> Prop) (returns : HF -> option gerror -> Prop) ps b b' :
  runnables_true runs ps b -> boot_any runs returns b b' -> runnables_true runs ps b'.
Proof.
  intros (Hp & Hl & Ht) [l Hstep]. destruct Hstep as [f| | | | | | | | | | | | | | | | | | | | |];
    unfold runnables_true in *; cbn [bk_parallelRun bk_start bk_runnables] in *; try (by split_and!; auto).
  - split_and!; [by apply prefix_app_r|done|]. destruct Ht as (Hf & Hs & _).
    split_and!; [intros i err Hi; destruct (Hf i err Hi) as (f' & E & ?)|intros i e Hi; destruct (Hs i e Hi) as (f' & E & ?)|done];
      exists f'; (split; [|done]); rewrite lookup_app_l; [done|by eapply lookup_lt_Some|done|by eapply lookup_lt_Some].
  - split_and!; [done| |apply spawn_true]. intros _. simpl. rewrite length_replicate. by apply prefix_length.
  - match goal with H : callRunnable _ _ _ _ _ |- _ => apply callRunnable_true in H as [-> ?]; [|done] end. by split_and!.
Qed.

(** When a start hook has been called, every runnable that the kit had before
    its start has returned nil. *)
Lemma started_has_run {RF HF} (runs : RF -> option gerror -> Prop) (returns : HF -> option gerror -> Prop) (b0 b : BootKit RF HF) :
  rtc (boot_any runs returns) New_BootKit b0 -> bk_start b0 = StartIdle -> bk_runnables b0 = spawn 0 ->
  rtc (boot_any runs returns) b0 b -> bk_starting b <> [] ->
  forall f, f ∈ bk_parallelRun b0 -> runs f None.
Proof.
  intros Hreach Hidle Hnone Hrun Hstarted f [i Hf]%list_elem_of_lookup.
  assert (runnables_true runs (bk_parallelRun b0) b) as (Hp & Hl & Htrue & _).
  { assert (runnables_true runs (bk_parallelRun b0) b0) as H0 by (split_and!; [done|done|rewrite Hnone; apply spawn_true]).
    revert H0. generalize (bk_parallelRun b0). clear -Hrun. intros ps. induction Hrun; eauto using boot_step_true. }
  pose proof (reach_ok _ _ _ (transitivity Hreach Hrun)) as Hok. pose proof (ok_starting _ _ Hok) as Hn. unfold starting_ok in Hn.
  destruct (bk_notify b); [|by destruct Hn as (_ & ? & _)]. destruct Hn as (Hr & Hs & _). specialize (Hr (or_introl eq_refl)).
  assert (bk_start b <> StartIdle) as Hb by (by intros E; rewrite E in Hs).
  assert (gr_tasks (bk_runnables b) !! i = Some (Finished None)) as Hi.
  { apply nil_all_finished; [by eapply ok_group|done|]. specialize (Hl Hb). apply lookup_lt_Some in Hf. lia. }
  destruct (Htrue i None Hi) as (f' & Hf' & Hruns). rewrite (prefix_lookup_Some _ _ i f Hf Hp) in Hf'. by simplify_eq.
Qed.


(** A start hook is called only after every runnable has returned nil, and
    those called are the first of the registered hooks: a hook that is
    registered after the call, as those of a route that a controller makes, is
    never started. *)
Theorem start_hooks_after_runnables {RF HF} (runs : RF -> option gerror -> Prop) (returns : HF -> option gerror -> Prop)
    (b : BootKit RF HF) (Hreach : rtc (boot_any runs returns) New_BootKit b) (Hstarted : bk_starting b <> []) :
  (forall i, (i < length (gr_tasks (bk_runnables b)))%nat -> gr_tasks (bk_runnables b) !! i = Some (Finished None)) /\
  map fst (bk_starting b) `prefix_of` bk_hooks b.
Proof.
  pose proof (reach_ok _ _ _ Hreach) as Hok. pose proof (ok_starting _ _ Hok) as Hn. unfold starting_ok in Hn.
  destruct (bk_notify b); [|by destruct Hn as (_ & ? & _)]. destruct Hn as (Hr & _ & Hmap). split; [|done].
  intros i Hi. apply nil_all_finished; [by eapply ok_group|by apply Hr; left|done].
Qed.

(** C37: [Start] never returns without having stopped what it started: at one
    moment of its run it has called the stop hooks of all the hooks that were
    registered then, the started ones among them, and it has waited until each
    returned nil, or one failed, or the stop timeout was over.  The hooks that
    were registered after that moment, by a controller that goes on for one, are
    not among those that are stopped. *)
Theorem start_stops_hooks {RF HF} (runs : RF -> option gerror -> Prop) (returns : HF -> option gerror -> Prop)
    (b : BootKit RF HF) (hs : list (LifeCycleHook HF)) (g : group)
    (Hreach : rtc (boot_any runs returns) New_BootKit b) (Hret : bk_start b = StartReturned hs g) :
  (exists b1 b2, rtc (boot_any runs returns) New_BootKit b1 /\ boot_any runs returns b1 b2 /\
     stop_called hs b1 b2 /\ rtc (boot_any runs returns) b2 b) /\
  map fst (bk_starting b) `prefix_of` hs /\ hs `prefix_of` bk_hooks b /\
  match gr_result g with
  | None => False
  | Some None => forall i h, reverse hs !! i = Some h -> gr_tasks g !! i = Some (Finished None) /\ hook_Stop returns h None
  | Some (Some e) => e = DeadlineExceeded \/ exists h, h ∈ hs /\ hook_Stop returns h (Some e)
  end.
Proof.
  split; [apply stopped_history; [done|]; exists g; by right|].
  pose proof (ok_stopping _ _ (reach_ok _ _ _ Hreach)) as Hs. rewrite Hret in Hs.
  destruct Hs as ((Hok & Hlen & Hf & _ & Hc) & Hpre & Hst & [r Hr]). split; [done|]. split; [done|]. rewrite Hr.
  destruct r as [e|].
  - destruct (ok_error g Hok e Hr) as [[i Hi] | Hctx]; [right|left; by apply Hc].
    destruct (Hf _ _ Hi) as (h & Hh & Herr). exists h. split; [|done].
    apply elem_of_reverse. by eapply list_elem_of_lookup_2.
  - intros i h Hh. assert (gr_tasks g !! i = Some (Finished None)) as Hi.
    { apply nil_all_finished; [done|done|]. rewrite Hlen, <- (length_reverse hs). by eapply lookup_lt_Some. }
    split; [done|]. apply Hf in Hi as (h' & Hh' & Herr). by simplify_eq.
Qed.

(** [Stop] cannot stop a running kit: it asks for the mutex before it
    cancels, and [Start] has the mutex for as long as it runs.  While one
    start hook runs on (a server's does until it is shut down), none fails and
    no signal arrives, no run gets [Stop] past its first line. *)
Theorem stop_cannot_interrupt {RF HF} (runs : RF -> option gerror -> Prop) (returns : HF -> option gerror -> Prop)
    (b b' : BootKit RF HF) (h : LifeCycleHook HF) (i : nat)
    (Hreach : rtc (boot_any runs returns) New_BootKit b) (Hs : bk_start b = StartHooks)
    (Hc : bk_cancelled b = false) (He : ch_buffer (bk_errChan b) = [])
    (Hfail : forall h', h' ∈ map fst (bk_starting b) -> forall e, ~ hook_Start returns h' (Some e))
    (Hi : bk_starting b !! i = Some (h, Running)) (Hnever : forall err, ~ hook_Start returns h err)
    (Hrun : rtc (boot_unsignalled runs returns) b b') :
  bk_start b' = StartHooks /\ bk_cancelled b' = false /\ (bk_stop b' = StopIdle \/ bk_stop b' = StopLocking).
Proof.
  pose proof (reach_ok _ _ _ Hreach) as Hok.
  assert (waiting returns h b) as Hw.
  { destruct Hok as [Hm _ _ _ _ Ht]. destruct b as [m ps hs c n s t r st es]. unfold waiting. simpl in *. subst.
    split_and!; try done.
    - destruct m as [[]|]; by destruct Hm.
    - by exists i.
    - destruct t; auto; destruct Ht as (_ & _ & Hc); done.
    - intros j h' t' Hj. apply Hfail. apply list_elem_of_fmap. exists (h', t'). split; [done|]. by eapply list_elem_of_lookup_2. }
  clear -Hok Hw Hnever Hrun. induction Hrun as [b|b b1 b' (l & Hl & Hstep) _ IH].
  - destruct Hw as (_ & ? & ? & _ & _ & ? & _). done.
  - apply IH; [by eapply boot_step_ok|by eapply waiting_step].
Qed.

(** Once [selfCtx] is cancelled, by a signal or by [Stop], a [Start] that
    waits for its start hooks returns, whatever the scheduler does and whether
    or not those hooks return, as long as the stop hooks do and no more hooks
    are registered without end. *)
Theorem cancelled_start_returns {RF HF} (runs : RF -> option gerror -> Prop) (returns : HF -> option gerror -> Prop)
    (b : BootKit RF HF) (Hreach : rtc (boot_any runs returns) New_BootKit b) (Hs : bk_start b = StartHooks)
    (Hc : bk_cancelled b = true) (Hret : forall h, h ∈ bk_hooks b -> exists err, hook_Stop returns h err) :
  inevitable (boot_quiet runs returns) (fun b' => exists hs g, bk_start b' = StartReturned hs g) b.
Proof.
  apply (inevitable_measure _ _ (fun b' => boot_ok returns b' /\ leaving b' /\ bk_hooks b' = bk_hooks b) kit_size).
  - intros a (Hok & Hl & Hh). right. split.
    + apply leaving_progress; [done|done|by rewrite Hh].
    + intros a' Hstep. destruct (leaving_step _ _ _ _ Hok Hl Hstep) as [? | [(? & ? & ?) ?]]; [by left|right].
      split; [|done]. split_and!; [done|done|congruence].
  - pose proof (reach_ok _ _ _ Hreach) as Hok. split; [done|]. split; [|done].
    pose proof (ok_starting _ _ Hok) as Hn. unfold leaving, starting_ok in *. rewrite Hs in *.
    destruct (bk_notify b); [done|]. by destruct Hn as (_ & _ & ?).
Qed.

(** ** Examples *)

(** One runnable, and a hook whose start function serves until it is stopped. *)
Definition ex_runs (f : unit) (err : option gerror) : Prop := err = None.
Definition ex_returns (serves : bool) (err : option gerror) : Prop := serves = false /\ err = None.
Definition ex_hook : LifeCycleHook bool := mkHook (Some true) None.

Definition ex_ran : group := mkGroup [Finished None] true None (Some None).
Definition ex_started (cancelled : bool) (t : stopState bool) : BootKit unit bool :=
  mkBootKit (Some ByStart) [tt] [ex_hook] cancelled true StartHooks t ex_ran [(ex_hook, Running)] (mkErrChan 1 []).

Lemma ex_reach_started : rtc (boot_any ex_runs ex_returns) New_BootKit (ex_started false StopIdle).
Proof.
  eapply rtc_l; [exists Internal; apply (Add _ _ tt)|]. simpl.
  eapply rtc_l; [exists Internal; apply Start_locks|]. simpl.
  eapply rtc_l; [exists Appended; by apply (Append _ _ ex_hook)|]. simpl.
  eapply rtc_l; [exists Internal; apply runnables_step, (task_returns _ _ _ 0); [done|by exists tt]|]. simpl.
  eapply rtc_l; [exists Internal; apply runnables_step, wait_group; [|done]|].
  { intros [|i] t Ht; simplify_eq/=. by eexists. }
  eapply rtc_l; [exists Internal; apply runnables_step, select_done; done|]. simpl.
  eapply rtc_l; [exists Internal; apply runnables_succeed; done|]. simpl.
  eapply rtc_l; [exists Internal; apply start_hooks_called|]. apply rtc_refl.
Qed.

Lemma ex_reach_cancelled : rtc (boot_any ex_runs ex_returns) New_BootKit (ex_started true StopIdle).
Proof.
  etransitivity; [apply ex_reach_started|]. eapply rtc_l; [exists Signal; apply signal|]. apply rtc_refl.
Qed.

(** A hook that is registered while [Start] waits for the stop hooks. *)
Definition ex_late : LifeCycleHook bool := mkHook None (Some false).
Definition ex_returned : BootKit unit bool :=
  mkBootKit None [tt] [ex_hook; ex_late] true true (StartReturned [ex_hook] ex_ran) StopIdle ex_ran [(ex_hook, Running)] (mkErrChan 1 []).

Lemma ex_reach_returned : rtc (boot_any ex_runs ex_returns) New_BootKit ex_returned.
Proof.
  etransitivity; [apply ex_reach_cancelled|]. unfold ex_started.
  eapply rtc_l; [exists Internal; apply select_cancelled|].
  eapply rtc_l; [exists Appended; by apply (Append _ _ ex_late)|]. simpl.
  eapply rtc_l; [exists Internal; apply Start_stop_step, (task_returns _ _ _ 0); [done|by exists ex_hook]|].
  eapply rtc_l; [exists Internal; apply Start_stop_step, wait_group; [|done]|].
  { intros [|i] t Ht; simplify_eq/=. by eexists. }
  eapply rtc_l; [exists Internal; apply Start_stop_step, select_done; done|].
  eapply rtc_l; [exists Internal; by eapply Start_returns|]. apply rtc_refl.
Qed.

(** It is never stopped. *)
Example late_hook_missed : ~ (ex_late ∈ [ex_hook]) /\ ex_late ∈ bk_hooks ex_returned.
Proof. split; [by intros [=]%list_elem_of_singleton|right; left]. Qed.

Definition ex_fails (i : nat) (err : option gerror) : Prop := err = Some (EPlain "boom").
Definition ex_failed : group := mkGroup [Finished (Some (EPlain "boom")); Sending (EPlain "boom")] false None (Some (Some (EPlain "boom"))).

Lemma ex_reach_failed : rtc (group_step ex_fails (fun _ => False)) (spawn 2) ex_failed.
Proof.
  eapply rtc_l; [by apply (task_fails _ _ _ 0 (EPlain "boom"))|].
  eapply rtc_l; [by apply (task_fails _ _ _ 1 (EPlain "boom"))|].
  eapply rtc_l; [by apply (select_error _ _ _ 0 (EPlain "boom"))|]. apply rtc_refl.
Qed.

Lemma wait_result_witness :
  False \/ exists i, (i < 2)%nat /\ gr_tasks ex_failed !! i = Some (Finished (Some (EPlain "boom"))) /\ ex_fails i (Some (EPlain "boom")).
Proof. apply (wait_result ex_fails (fun _ => False) 2 ex_failed ex_reach_failed). Defined.

Lemma wait_terminates_witness :
  inevitable (group_step ex_fails (fun _ => False)) (fun g => is_Some (gr_result g)) (spawn 2).
Proof. apply (wait_terminates _ _ 2); [intros; by exists (Some (EPlain "boom"))|apply rtc_refl]. Defined.

Lemma failed_goroutine_leaks_witness :
  gr_done ex_failed = false /\ exists k e, (k = 0 \/ k = 1)%nat /\ gr_tasks ex_failed !! k = Some (Sending e).
Proof.
  apply (failed_goroutine_leaks ex_fails (fun _ => False) 2 ex_failed ex_failed 0 1 ex_reach_failed); [done|..].
  - exists (EPlain "boom"). by right.
  - exists (EPlain "boom"). by left.
  - by eexists.
  - apply rtc_refl.
Defined.

Lemma start_hooks_after_runnables_witness :
  (forall i, (i < 1)%nat -> [Finished None] !! i = Some (Finished None)) /\
  map fst (bk_starting (ex_started false StopIdle)) `prefix_of` [ex_hook].
Proof. apply (start_hooks_after_runnables ex_runs ex_returns (ex_started false StopIdle) ex_reach_started). done. Defined.

Lemma start_stops_hooks_witness :
  (exists b1 b2, rtc (boot_any ex_runs ex_returns) New_BootKit b1 /\ boot_any ex_runs ex_returns b1 b2 /\
     stop_called [ex_hook] b1 b2 /\ rtc (boot_any ex_runs ex_returns) b2 ex_returned) /\
  [ex_hook] `prefix_of` [ex_hook] /\ [ex_hook] `prefix_of` [ex_hook; ex_late] /\
  forall i h, reverse [ex_hook] !! i = Some h -> gr_tasks ex_ran !! i = Some (Finished None) /\ hook_Stop ex_returns h None.
Proof. apply (start_stops_hooks ex_runs ex_returns ex_returned [ex_hook] ex_ran ex_reach_returned eq_refl). Defined.

Lemma stop_cannot_interrupt_witness :
  StartHooks (HF := bool) = StartHooks /\ false = false /\
  (StopLocking (HF := bool) = StopIdle \/ StopLocking (HF := bool) = StopLocking).
Proof.
  apply (stop_cannot_interrupt ex_runs ex_returns (ex_started false StopIdle) (ex_started false StopLocking) ex_hook 0
           ex_reach_started eq_refl eq_refl eq_refl); try done.
  - intros h ->%list_elem_of_singleton e [? ?]. done.
  - intros err [? ?]. done.
  - eapply rtc_l; [exists Internal; split; [done|apply Stop_called]|]. apply rtc_refl.
Defined.

Lemma cancelled_start_returns_witness :
  inevitable (boot_quiet ex_runs ex_returns) (fun b' => exists hs g, bk_start b' = StartReturned hs g) (ex_started true StopIdle).
Proof.
  apply (cancelled_start_returns ex_runs ex_returns _ ex_reach_cancelled eq_refl eq_refl).
  intros h ->%list_elem_of_singleton. by exists None.
Defined.
