(* ===== verification/Gateway.v ===== *)
(** * cmd/gateway: the listeners of the gateway

    The start of the gateway: the listeners built from their configuration,
    the routes they register and the hooks they leave (proxy.go,
    pkg/listener/listener.go and the listener.go of the listeners). *)
From S2P Require Import Prelude Strconv Utils GoFloat Json Api LoadBalance Errors Request Response Effects Stream Filters.
From S2P Require Import Auth Usage RateLimit ClusterFilters Cluster Speech Route RouteManager Listener Serve Voices Bootkit.

(** ** The listeners of a configuration

    A listener's filters are configured as a route's; its access log only
    feeds the log.  [OtherListener] is any other message, with the error that
    reading it or its type gives. *)
Inductive ListenerConfig : Type :=
| ChatCompletionListener (filters : list RouteFilter)
| ImageListener (filters : list RouteFilter)
| TextToSpeechListener (filters : list RouteFilter)
| OtherListener (err : gerror).

(** pkg/listener/listener.go *)
Record Mux (X : Type) : Type := mkMux {
  mux_routes : list (string * HandlerFunc X);
  mux_errors : list gerror }.
Arguments mkMux {X}.
Arguments mux_routes {X}.
Arguments mux_errors {X}.

Definition NewMux {X} : Mux X := mkMux [] [].

Definition Mux_Register {X} (m : Mux X) (listener : list (string * HandlerFunc X) + gerror) : Mux X :=
  match listener with
  | inr e => mkMux (mux_routes m) (mux_errors m ++ [e])
  | inl routes => mkMux (mux_routes m ++ routes) (mux_errors m)
  end.

(** The errors are joined into one. *)
Definition BuildServer {X} (m : Mux X) : list (string * HandlerFunc X) + list gerror :=
  match mux_errors m with [] => inl (mux_routes m) | es => inr es end.

(** github.com/gorilla/mux: the position of the route for a path, among the
    paths registered; the first that matches is taken. *)
Class PathRouter := path_Match : list string -> string -> option nat.
Class PathRouterLaws `{PathRouter} : Prop := {
  path_first paths p n : paths !! n = Some p -> (forall m, (m < n)%nat -> paths !! m <> Some p) ->
    path_Match paths p = Some n }.

Section Listeners.
Context `{JSONPatch} `{JSONPath} `{JSONText} `{FloatText} `{NetURL} {X : Type} `{Router X} `{Unspeech X}.
Variable Marshal : json -> string.
Variable write_ok : string -> string -> bool.

(** A listener's own state, by its position in the configuration. *)
Variable env : nat -> ListenerEnv X.
Variable at_panic : HTTPRequest -> World X -> World X.
Variable address : HTTPRequest -> Z.

(** What the filters need, and the limiters by listener and filter. *)
Variable Match : string -> string -> option bool.
Variable APIKeyAuth : string -> Z -> string -> Eff X (APIKeyAuthResponse + (gerror * option Auth.grpcCode)).
Variable UsageReport : string -> Z -> Usage.UsageReportRequest -> Eff X (option gerror).
Variable newRedisClient : RateLimitConfig -> option gerror.
Variable invalid : Z.
Variable limiters : nat -> nat -> RateLimit.Surroundings X.
Variable readRegister : Eff X (Register X * list string).

(** The functions of the hooks: a listener's [Drain], a filter's, which closes
    its connection or stops its limiter, and the server's. *)
Context {HF : Type}.
Variable drainOf : nat -> HF.
Variable closeOf : nat -> nat -> HF.
Variable serve shutdown : HF.

Definition newFilter (i position : nat) (fc : RouteFilter) : RequestFilter X + gerror :=
  NewRequestFilterWithConfig Match APIKeyAuth UsageReport newRedisClient invalid (limiters i) position (rf_name fc) (rf_config fc).

(** Each constructor of a filter appends one hook when it succeeds. *)
Definition stopHook (f : HF) : LifeCycleHook HF := mkHook None (Some f).

Fixpoint newFilters (i position : nat) (configs : list RouteFilter) (hooks : list (LifeCycleHook HF))
    : (list (RequestFilter X) + gerror) * list (LifeCycleHook HF) :=
  match configs with
  | [] => (inl [], hooks)
  | fc :: configs =>
      match newFilter i position fc with
      | inr e => (inr e, hooks)
      | inl f =>
          let hooks := lifeCycle_Append hooks (stopHook (closeOf i position)) in
          let '(fs, hooks) := newFilters i (S position) configs hooks in
          (match fs with inl fs => inl (f :: fs) | inr e => inr e end, hooks)
      end
  end.

(** [NewOpenAIChatListenerConfigs] and its two likes. *)
Definition NewListenerConfigs (i : nat) (configs : list RouteFilter) (hooks : list (LifeCycleHook HF))
    : (list (RequestFilter X) + gerror) * list (LifeCycleHook HF) :=
  newFilters i 0 configs (lifeCycle_Append hooks (stopHook (drainOf i))).

(** A path of the common handler, and one of a handler of its own. *)
Definition common (i : nat) (filters : list (RequestFilter X)) (path : string)
    (parse : HTTPRequest -> Eff X (option gerror)) : string * HandlerFunc X :=
  (path, stack (env i) at_panic address
           (CommonListenerHandler Marshal write_ok (env i) filters (rev (Clone filters)) parse)).
Definition own (i : nat) (path : string) (handler : HandlerFunc X) : string * HandlerFunc X :=
  (path, stack (env i) at_panic address handler).

(** [RegisterRoutes] of the three listeners. *)
Definition chat_RegisterRoutes (i : nat) (filters : list (RequestFilter X)) : list (string * HandlerFunc X) :=
  [common i filters "/v1/chat/completions" unmarshalChatCompletionsRequestToLLMRequest;
   common i filters "/v1/completions" unmarshalCompletionsRequestToLLMRequest;
   own i "/v1/models" (listModels Match (Manager_ListModels readRegister) filters)].
Definition image_RegisterRoutes (i : nat) (filters : list (RequestFilter X)) : list (string * HandlerFunc X) :=
  [common i filters "/v1/images/generations" unmarshalImageGenerationsRequestToImageGenerationRequest].
Definition tts_RegisterRoutes (i : nat) (filters : list (RequestFilter X)) : list (string * HandlerFunc X) :=
  [common i filters "/v1/audio/speech" unmarshalTextToSpeechRequestToLLMRequest;
   own i "/v1/audio/voices" (listVoices Match readRegister filters)].

(** A listener and its routes; its error ends up in the mux. *)
Definition registerListener (i : nat) (configs : list RouteFilter) (routes : nat -> list (RequestFilter X) -> list (string * HandlerFunc X))
    (m : Mux X) (hooks : list (LifeCycleHook HF)) : Mux X * list (LifeCycleHook HF) :=
  let '(built, hooks) := NewListenerConfigs i configs hooks in
  (Mux_Register m (match built with inl filters => inl (routes i filters) | inr e => inr e end), hooks).

(** ** proxy.go *)
Fixpoint registerAll (i : nat) (cfg : list ListenerConfig) (m : Mux X) (hooks : list (LifeCycleHook HF))
    : (Mux X + gerror) * list (LifeCycleHook HF) :=
  match cfg with
  | [] => (inl m, hooks)
  | c :: cfg =>
      match c with
      | OtherListener e => (inr e, hooks)
      | ChatCompletionListener fs =>
          let '(m, hooks) := registerListener i fs chat_RegisterRoutes m hooks in registerAll (S i) cfg m hooks
      | ImageListener fs =>
          let '(m, hooks) := registerListener i fs image_RegisterRoutes m hooks in registerAll (S i) cfg m hooks
      | TextToSpeechListener fs =>
          let '(m, hooks) := registerListener i fs tts_RegisterRoutes m hooks in registerAll (S i) cfg m hooks
      end
  end.

(** [net.Listen] *)
Variable listen : string -> option gerror.

(** The server's routes, or the errors; the hooks as they are then. *)
Definition StartGateway (listenerAddr : string) (cfg : list ListenerConfig) (hooks : list (LifeCycleHook HF))
    : (list (string * HandlerFunc X) + list gerror) * list (LifeCycleHook HF) :=
  let listenerAddr := orDefault listenerAddr ":8080" in
  match cfg with
  | [] => (inr [EPlain "no listener found"], hooks)
  | _ =>
      let '(registered, hooks) := registerAll 0 cfg NewMux hooks in
      match registered with
      | inr e => (inr [e], hooks)
      | inl m =>
          match BuildServer m with
          | inr es => (inr es, hooks)
          | inl server =>
              match listen listenerAddr with
              | Some e => (inr [e], hooks)
              | None => (inl server, lifeCycle_Append hooks (mkHook (Some serve) (Some shutdown)))
              end
          end
      end
  end.

(** The server at work; what an unknown path is answered is gorilla's. *)
Context `{PathRouter}.
Variable notFound : HandlerFunc X.
Definition ServeHTTP (server : list (string * HandlerFunc X)) : HandlerFunc X := fun request =>
  match path_Match (map fst server) (hr_URL request) with
  | Some n => match server !! n with Some (_, handler) => handler request | None => notFound request end
  | None => notFound request
  end.

(** *** What a started gateway serves *)

(** The filters of a listener, whatever hooks there were. *)
Definition built (i : nat) (configs : list RouteFilter) : list (RequestFilter X) + gerror := fst (newFilters i 0 configs []).

(** The hooks of the filters from a position on. *)
Definition closeHooks (i position : nat) (configs : list RouteFilter) : list (LifeCycleHook HF) :=
  imap (fun k _ => stopHook (closeOf i (position + k))) configs.

Lemma newFilters_built i configs : forall position hooks,
  fst (newFilters i position configs hooks) = fst (newFilters i position configs []) /\
  exists more, snd (newFilters i position configs hooks) = hooks ++ more /\
    forall fs, fst (newFilters i position configs []) = inl fs -> more = closeHooks i position configs.
Proof.
  induction configs as [|fc configs IH]; intros position hooks; cbn [newFilters].
  { split; [done|]. exists []. by rewrite app_nil_r. }
  destruct (newFilter i position fc) as [f|e]; [|split; [done|]; exists []; by rewrite app_nil_r].
  unfold lifeCycle_Append. destruct (IH (S position) (hooks ++ [stopHook (closeOf i position)])) as [E1 (more & E2 & E4)].
  destruct (IH (S position) ([] ++ [stopHook (closeOf i position)])) as [E3 _].
  destruct (newFilters i (S position) configs (hooks ++ _)) as [fs1 hooks1] eqn:Ea.
  destruct (newFilters i (S position) configs ([] ++ _)) as [fs2 hooks2] eqn:Eb.
  cbn in E1, E2, E3 |- *. subst hooks1. rewrite E1, E3. split; [done|].
  exists (stopHook (closeOf i position) :: more). split; [by rewrite <- app_assoc|].
  unfold closeHooks. intros fs E. rewrite Nat.add_0_r. f_equal.
  destruct (fst (newFilters i (S position) configs [])) as [fs'|e]; [|done].
  rewrite (E4 fs' eq_refl). unfold closeHooks. apply imap_ext. intros k c _. cbn. by rewrite Nat.add_succ_r.
Qed.

(** The routes of the listener at a position; an error of it is an error of
    the mux. *)
Definition routesOf (i : nat) (c : ListenerConfig) : list (string * HandlerFunc X) + gerror :=
  let with_filters fs (routes : nat -> list (RequestFilter X) -> list (string * HandlerFunc X)) :=
    match built i fs with inl filters => inl (routes i filters) | inr e => inr e end in
  match c with
  | ChatCompletionListener fs => with_filters fs chat_RegisterRoutes
  | ImageListener fs => with_filters fs image_RegisterRoutes
  | TextToSpeechListener fs => with_filters fs tts_RegisterRoutes
  | OtherListener e => inr e
  end.

(** The hooks of a listener: its own, and its filters'. *)
Definition filtersOf (c : ListenerConfig) : list RouteFilter :=
  match c with ChatCompletionListener fs | ImageListener fs | TextToSpeechListener fs => fs | OtherListener _ => [] end.
Definition hooksOf (i : nat) (c : ListenerConfig) : list (LifeCycleHook HF) :=
  stopHook (drainOf i) :: closeHooks i 0 (filtersOf c).

Lemma registerListener_run i fs routes m hooks :
  exists more, registerListener i fs routes m hooks
    = (Mux_Register m (match built i fs with inl filters => inl (routes i filters) | inr e => inr e end), hooks ++ more) /\
    forall filters, built i fs = inl filters -> more = stopHook (drainOf i) :: closeHooks i 0 fs.
Proof.
  unfold registerListener, NewListenerConfigs, lifeCycle_Append.
  destruct (newFilters_built i fs 0 (hooks ++ [stopHook (drainOf i)])) as [E1 (more & E2 & E3)].
  destruct (newFilters i 0 fs _) as [fs' hooks']. cbn in E1, E2. subst. exists (stopHook (drainOf i) :: more).
  unfold built. split; [by rewrite <- app_assoc|]. intros filters E. by rewrite (E3 filters E).
Qed.

Definition is_other (c : ListenerConfig) : bool := match c with OtherListener _ => true | _ => false end.

Lemma registerAll_step i c cfg m hooks :
  is_other c = false ->
  exists more, registerAll i (c :: cfg) m hooks = registerAll (S i) cfg (Mux_Register m (routesOf i c)) (hooks ++ more) /\
    forall l, routesOf i c = inl l -> more = hooksOf i c.
Proof.
  destruct c as [fs|fs|fs|e]; [..|done]; intros _; cbn [registerAll routesOf].
  all: match goal with |- context [registerListener _ _ ?routes _ _] =>
         destruct (registerListener_run i fs routes m hooks) as (more & -> & E) end; exists more.
  all: split; [done|]; destruct (built i fs) as [filters|e]; [|done]; intros _ _; by apply (E filters).
Qed.

Definition registered (i : nat) (c : ListenerConfig) : list (string * HandlerFunc X) :=
  match routesOf i c with inl l => l | inr _ => [] end.
Definition all_built (i : nat) (cfg : list ListenerConfig) : Prop :=
  forall k c, cfg !! k = Some c -> exists l, routesOf (i + k) c = inl l.

Lemma all_built_cons i c cfg : all_built i (c :: cfg) <-> (exists l, routesOf i c = inl l) /\ all_built (S i) cfg.
Proof.
  unfold all_built. split.
  - intros Hb. split; [specialize (Hb O c eq_refl); by rewrite Nat.add_0_r in Hb|].
    intros k c' Hk. specialize (Hb (S k) c' Hk). by rewrite Nat.add_succ_r in Hb.
  - intros [Hb0 Hb] [|k] c' Hk; [injection Hk as <-; by rewrite Nat.add_0_r|]. rewrite Nat.add_succ_r. by apply Hb.
Qed.

Lemma Mux_Register_routes m i c : mux_routes (Mux_Register m (routesOf i c)) = mux_routes m ++ registered i c.
Proof. unfold registered. destruct (routesOf i c); [done|]. cbn. by rewrite app_nil_r. Qed.

Lemma Mux_Register_errors m i c :
  mux_errors (Mux_Register m (routesOf i c)) = [] <-> mux_errors m = [] /\ exists l, routesOf i c = inl l.
Proof.
  destruct (routesOf i c) as [l|e]; cbn.
  - split; [intros E; split; [done|by exists l]|by intros [? _]].
  - split; [by intros [_ ?]%app_nil|by intros [_ [l ?]]].
Qed.

(** The routes, the errors and the hooks of a list of listeners. *)
Lemma registerAll_run cfg : forall i m hooks,
  match registerAll i cfg m hooks with
  | (inl m', hooks') =>
      existsb is_other cfg = false /\
      mux_routes m' = mux_routes m ++ concat (imap (fun k => registered (i + k)) cfg) /\
      (mux_errors m' = [] <-> mux_errors m = [] /\ all_built i cfg) /\
      exists more, hooks' = hooks ++ more /\ (all_built i cfg -> more = concat (imap (fun k => hooksOf (i + k)) cfg))
  | (inr e, hooks') => existsb is_other cfg = true /\ exists more, hooks' = hooks ++ more
  end.
Proof.
  induction cfg as [|c cfg IH]; intros i m hooks.
  { cbn. split; [done|]. split; [by rewrite app_nil_r|]. split; [split; [by intros ?|by intros [? _]]|].
    exists []. by rewrite app_nil_r. }
  destruct (is_other c) eqn:Ho.
  { destruct c; try done. cbn. split; [done|]. exists []. by rewrite app_nil_r. }
  destruct (registerAll_step i c cfg m hooks Ho) as (more & -> & Hmore).
  specialize (IH (S i) (Mux_Register m (routesOf i c)) (hooks ++ more)).
  cbn [existsb]. rewrite Ho. cbn [orb].
  destruct (registerAll (S i) cfg _ _) as [[m'|e] hooks'].
  - destruct IH as (Hall & Hr & He & more' & -> & Hd). split; [done|]. split; [|split].
    + rewrite Hr, Mux_Register_routes, <- app_assoc. cbn [imap concat]. rewrite Nat.add_0_r. do 3 f_equal.
      apply imap_ext. intros k c' _. cbn. by rewrite Nat.add_succ_r.
    + rewrite He, Mux_Register_errors, all_built_cons. tauto.
    + exists (more ++ more'). split; [by rewrite <- app_assoc|]. intros [[l Hl] Hb]%all_built_cons.
      cbn [imap concat]. rewrite Nat.add_0_r, (Hmore l Hl), (Hd Hb). f_equal. f_equal.
      apply imap_ext. intros k c' _. cbn. by rewrite Nat.add_succ_r.
  - destruct IH as [? (more' & ->)]. split; [done|]. eexists. by rewrite <- app_assoc.
Qed.

(** [StartGateway], on every configuration. *)
Lemma StartGateway_run addr cfg hooks :
  let ready := cfg <> [] /\ existsb is_other cfg = false /\ all_built 0 cfg /\ listen (orDefault addr ":8080") = None in
  match StartGateway addr cfg hooks with
  | (inl server, hooks') =>
      ready /\ server = concat (imap registered cfg) /\
      hooks' = hooks ++ concat (imap hooksOf cfg) ++ [mkHook (Some serve) (Some shutdown)]
  | (inr _, hooks') => ~ ready /\ exists more, hooks' = hooks ++ more
  end.
Proof.
  cbv zeta. unfold StartGateway. destruct cfg as [|c cfg].
  { split; [by intros [? _]|]. exists []. by rewrite app_nil_r. }
  pose proof (registerAll_run (c :: cfg) 0 NewMux hooks) as Hr.
  destruct (registerAll 0 (c :: cfg) NewMux hooks) as [[m|e] hooks'].
  2: { destruct Hr as [Ho (more & ->)]. split; [by rewrite Ho; intros (_ & [=] & _)|by exists more]. }
  destruct Hr as (Ho & Er & He & more & -> & Hd). unfold BuildServer. destruct (mux_errors m) as [|e es].
  - destruct (proj1 He eq_refl) as [_ Hb]. destruct (listen _) as [e|] eqn:El.
    + split; [by intros (_ & _ & _ & [=])|by exists more].
    + split; [done|]. split; [exact Er|]. rewrite (Hd Hb). unfold lifeCycle_Append. by rewrite <- app_assoc.
  - split; [|by exists more]. intros (_ & _ & Hb & _). by discriminate (proj2 He (conj eq_refl Hb)).
Qed.

(** C28: the gateway starts exactly when there is a listener, every one is of
    a known kind with filters that can be built, and the address can be
    listened on; it then serves the routes of the listeners in the order of
    the configuration, and its hooks are, listener by listener, the one that
    drains it and those that close its filters, and last the server's own.
    When it does not start, hooks appended on the way stay. *)
Theorem gateway_started addr cfg hooks :
  let ready := cfg <> [] /\ existsb is_other cfg = false /\ all_built 0 cfg /\ listen (orDefault addr ":8080") = None in
  match StartGateway addr cfg hooks with
  | (inl server, hooks') =>
      ready /\ server = concat (imap registered cfg) /\
      hooks' = hooks ++ concat (imap hooksOf cfg) ++ [mkHook (Some serve) (Some shutdown)]
  | (inr _, hooks') => ~ ready /\ exists more, hooks' = hooks ++ more
  end.
Proof. apply StartGateway_run. Qed.

(** The paths of a listener that is not for chats. *)
Lemma registered_other_paths i c n :
  (forall fs, c <> ChatCompletionListener fs) -> map fst (registered i c) !! n <> Some "/v1/chat/completions".
Proof.
  intros Hc. unfold registered. destruct c as [fs|fs|fs|e]; [by destruct (Hc fs)|..]; cbn [routesOf]; [| |done].
  - destruct (built i fs); [|done]. by destruct n as [|[|n]].
  - destruct (built i fs); [|done]. by destruct n as [|[|[|n]]].
Qed.

Lemma concat_other_paths cfg : forall i n,
  (forall fs, ChatCompletionListener fs ∉ cfg) ->
  map fst (concat (imap (fun k => registered (i + k)) cfg)) !! n <> Some "/v1/chat/completions".
Proof.
  induction cfg as [|c cfg IH]; intros i n Hc; [done|]. cbn [imap concat]. rewrite map_app, lookup_app.
  destruct (map fst (registered (i + 0) c) !! n) as [p|] eqn:E.
  - intros [= ->]. apply registered_other_paths in E; [done|]. intros fs ->. apply (Hc fs). left.
  - rewrite (imap_ext _ (fun k => registered (S i + k))).
    + apply IH. intros fs Hin. apply (Hc fs). by right.
    + intros k c' _. cbn. by rewrite Nat.add_succ_r.
Qed.

(** Of several listeners for chats, the first of the configuration
    serves: a chat request to a started gateway is handled by it, behind its
    own filters and middlewares, and the filters of the others never see it. *)
Theorem first_chat_listener_serves `{!PathRouterLaws} addr before fs after hooks server hooks' request
    (Hstart : StartGateway addr (before ++ ChatCompletionListener fs :: after) hooks = (inl server, hooks'))
    (Hfirst : forall fs', ChatCompletionListener fs' ∉ before) (Hpath : hr_URL request = "/v1/chat/completions") :
  exists filters, built (length before) fs = inl filters /\
    ServeHTTP server request
    = stack (env (length before)) at_panic address
        (CommonListenerHandler Marshal write_ok (env (length before)) filters (rev (Clone filters))
           unmarshalChatCompletionsRequestToLLMRequest) request.
Proof.
  pose proof (StartGateway_run addr (before ++ ChatCompletionListener fs :: after) hooks) as Hs.
  rewrite Hstart in Hs. cbv zeta in Hs. destruct Hs as ((_ & _ & Hb & _) & -> & _).
  destruct (Hb (length before) (ChatCompletionListener fs)) as [l Hl].
  { by rewrite lookup_app_r, Nat.sub_diag. }
  cbn [Nat.add routesOf] in Hl. destruct (built (length before) fs) as [filters|e] eqn:Eb; [|done]. injection Hl as <-.
  exists filters. split; [done|].
  assert (registered (length before) (ChatCompletionListener fs) = chat_RegisterRoutes (length before) filters) as Er.
  { unfold registered. cbn [routesOf]. by rewrite Eb. }
  unfold ServeHTTP. rewrite Hpath, imap_app, concat_app. set (l1 := concat (imap registered before)).
  cbn [imap concat]. rewrite !(Nat.add_0_r (length before)), Er. cbn [chat_RegisterRoutes app].
  rewrite (path_first _ _ (length (map fst l1))).
  - rewrite length_map, lookup_app_r, Nat.sub_diag by done. reflexivity.
  - rewrite map_app, lookup_app_r, Nat.sub_diag by done. reflexivity.
  - intros m Hm. rewrite map_app, lookup_app_l by done. by apply (concat_other_paths before 0).
Qed.
End Listeners.

(** ** Examples *)
#[local] Existing Instances rfc6902 rfc6902_laws dotted_paths dotted_paths_laws ex_Unmarshal whole_floats plain_urls ex_listener_laws.

(** The first route registered for a path, and a whole gateway on it: a chat
    listener behind an authorization filter, and a second one. *)
#[local] Instance first_path : PathRouter := fun paths path => fst <$> list_find (fun p => p = path) paths.

#[local] Instance first_path_laws : PathRouterLaws.
Proof.
  split. intros paths p n Hn Hfirst. unfold path_Match, first_path.
  assert (list_find (fun q => q = p) paths = Some (n, p)) as ->; [|done].
  apply list_find_Some. split; [done|]. split; [done|]. intros m y Hm Hlt ->. by apply (Hfirst m).
Qed.

(** The two static clusters behind a gateway of three listeners, of which the
    first for chats asks for an authorized key. *)
#[local] Instance ex_voices : Unspeech ex_state :=
  let none : Eff ex_state (list Voice + gerror) := mret (inl []) in
  {| openai_ListVoices := none; microsoft_ListVoices _ _ := none; elevenlabs_ListVoices _ := none;
     deepgram_ListVoices _ := none; alibaba_ListVoices := none; volcengine_ListVoices := none |}.
#[local] Instance ex_gateway : Router ex_state :=
  gateway_router (H2 := ex_routes_of) ex_upstreams ex_routing 1 ex_clusters ex_base.
Definition ex_keys : RouteFilter := mkRouteFilter "auth" (APIKeyAuthConfig "http://auth" 3).
Definition ex_listeners : list ListenerConfig :=
  [ImageListener []; ChatCompletionListener [ex_keys]; ChatCompletionListener []].
Definition ex_started : (list (string * HandlerFunc ex_state) + list gerror) * list (LifeCycleHook string) :=
  StartGateway ex_Marshal (fun _ _ => true) (fun _ => ex_listener) ex_panic ex_address ex_glob ex_service ex_report (fun _ => None) 0
    (fun _ _ => ex_limiter) (mret (NewClusterRegister, [])) (fun _ => "drain") (fun _ _ => "close") "serve" "shutdown" (fun _ => None)
    "" ex_listeners [].
Definition ex_server : list (string * HandlerFunc ex_state) := match ex_started.1 with inl s => s | inr _ => [] end.

Lemma first_chat_listener_serves_witness :
  exists filters, built ex_glob ex_service ex_report (fun _ => None) 0 (fun _ _ => ex_limiter) (fun _ _ => "close")
      1 [ex_keys] = inl filters /\
    ServeHTTP (fun _ => mret (None, None)) ex_server ex_chat
    = stack ex_listener ex_panic ex_address
        (CommonListenerHandler ex_Marshal (fun _ _ => true) ex_listener filters (rev (Clone filters))
           unmarshalChatCompletionsRequestToLLMRequest) ex_chat.
Proof.
  apply (first_chat_listener_serves ex_Marshal (fun _ _ => true) (fun _ => ex_listener) ex_panic ex_address ex_glob ex_service ex_report
           (fun _ => None) 0 (fun _ _ => ex_limiter) (mret (NewClusterRegister, [])) (fun _ => "drain") (fun _ _ => "close") "serve" "shutdown"
           (fun _ => None) (fun _ => mret (None, None)) "" [ImageListener []] [ex_keys] [ChatCompletionListener []] [] ex_server ex_started.2 ex_chat);
    [reflexivity| |reflexivity].
  intros fs' [E|E]%list_elem_of_In; [discriminate|destruct E].
Defined.
