(* ===== verification/Access.v ===== *)
(** * Access control of a listener

    A listener whose configuration has an authorization filter, whatever other
    filters stand before and behind it, lets a request reach the router only
    for a key that the authorization service accepted, and only for a model
    that the key's rules give access to (pkg/listener/common.go with
    pkg/filters/auth and pkg/registry/config).  "Does not reach the router" is
    said without a trace: the whole result is the same for every router. *)
From S2P Require Import Prelude Strconv Utils GoFloat Json Api LoadBalance Errors Request Response Effects Stream Filters.
From S2P Require Import Auth Usage RateLimit ClusterFilters Cluster Speech Route RouteManager Listener Serve Voices Bootkit Gateway.

(** ** Computations that leave the request and its metadata alone *)
Definition aside {X A} (m : Eff X A) : Prop :=
  forall w w' a, m w = Ret (w', a) -> w_meta w' = w_meta w /\ w_req w' = w_req w.

Section Aside.
Context {X : Type}.

Lemma aside_ret {A} (a : A) : aside (mret a : Eff X A).
Proof. by intros w w' b [= <- _]. Qed.
Lemma aside_bind {A B} (m : Eff X A) (f : A -> Eff X B) : aside m -> (forall a, aside (f a)) -> aside (m ≫= f).
Proof.
  intros Hm Hf w w' b. unfold mbind, Eff_bind. destruct (m w) as [[w1 a]|] eqn:E; [|done].
  intros E'. destruct (Hm _ _ _ E) as [<- <-]. by apply (Hf a w1 w' b).
Qed.
Lemma aside_getMeta : aside (getMeta : Eff X _).
Proof. by intros w w' a [= <- _]. Qed.
Lemma aside_getReq : aside (getReq : Eff X _).
Proof. by intros w w' a [= <- _]. Qed.
Lemma aside_getExt : aside (getExt : Eff X X).
Proof. by intros w w' a [= <- _]. Qed.
Lemma aside_putExt x : aside (putExt x : Eff X unit).
Proof. by intros w w' a [= <- _]. Qed.
Lemma aside_lift {A} (m : outcome A) : aside (lift m : Eff X A).
Proof. intros w w' a. unfold lift. destruct m; [by intros [= <- _]|done]. Qed.
End Aside.

#[export] Hint Resolve aside_ret aside_getMeta aside_getReq aside_getExt aside_putExt aside_lift : knoway.

(** [stay_aside]: a handler keeps aside when each of its steps does. *)
Ltac stay_aside :=
  repeat first
    [ progress auto with knoway
    | apply aside_bind; [|intros]
    | match goal with
      | |- aside (match ?x with _ => _ end) => destruct x
      | |- aside (if ?x then _ else _) => destruct x
      | |- aside (let '_ := ?x in _) => destruct x
      end ].

(** The middlewares do not tell handlers apart that do the same on the request
    as they hand it on. *)
Lemma stack_cong {X} (env : ListenerEnv X) at_panic address (next next' : HandlerFunc X) http w :
  next http (entered env address http w) = next' http (entered env address http w) ->
  stack env at_panic address next http w = stack env at_panic address next' http w.
Proof.
  intros E. unfold stack, WithMiddlewares. cbn [fold_right]. unfold WithCancellable, WithInitMetadata, WithOptions,
    WithResponseHandler, WithRecoverWithError, WithRejectAfterDrainedWithError.
  run_eff. unfold entered in E. destruct (String.eqb (hr_Method http) "OPTIONS"); [done|]. destruct (getDrained _ _); [done|].
  by rewrite E.
Qed.

Section Access.
Context `{JSONPatch} `{JSONPath} `{JSONText} {X : Type}.
Variable Marshal : json -> string.
Variable write_ok : string -> string -> bool.
Variable env : nat -> ListenerEnv X.
Variable at_panic : HTTPRequest -> World X -> World X.
Variable address : HTTPRequest -> Z.
Variable Match : string -> string -> option bool.
Variable APIKeyAuth : string -> Z -> string -> Eff X (APIKeyAuthResponse + (gerror * option Auth.grpcCode)).
Variable UsageReport : string -> Z -> Usage.UsageReportRequest -> Eff X (option gerror).
Variable newRedisClient : RateLimitConfig -> option gerror.
Variable invalid : Z.
Variable limiters : nat -> nat -> RateLimit.Surroundings X.

(** The clock and the redis server have no hold of the request. *)
Hypothesis clocks_aside : forall i k, aside (clock (limiters i k)).
Hypothesis redis_aside : forall i k key args, aside (redisEval (limiters i k) key args).

Abbreviation newFilter := (newFilter Match APIKeyAuth UsageReport newRedisClient invalid limiters).

(** A request hook that looks at the request without changing it. *)
Definition looks (f : RequestFilter X) : Prop :=
  (forall h http, OnCompletionRequest f = Some h -> aside (h http)) /\
  (forall h http, OnImageGenerationsRequest f = Some h -> aside (h http)).

Lemma ratelimit_aside i k : aside (onRequest invalid (limiters i k)).
Proof. unfold onRequest, allowRequest, checkBucket, checkBucketRedis. stay_aside. Qed.

Lemma auth_aside service (http : HTTPRequest) :
  aside (AuthFilter_OnCompletionRequest (X := X) Match http) /\ aside (AuthFilter_OnImageGenerationsRequest (X := X) Match http) /\
  looks (AuthFilter Match service).
Proof.
  assert (forall http, aside (AuthFilter_OnCompletionRequest (X := X) Match http)) as Hc
    by (intros; unfold AuthFilter_OnCompletionRequest; stay_aside).
  assert (forall http, aside (AuthFilter_OnImageGenerationsRequest (X := X) Match http)) as Hi
    by (intros; unfold AuthFilter_OnImageGenerationsRequest; stay_aside).
  split_and!; [done|done|]. split; by intros h http' [= <-].
Qed.

(** The filters of a configuration, one by one. *)
Lemma built_each {HF} (closeOf : nat -> nat -> HF) i configs : forall position hooks filters,
  fst (newFilters Match APIKeyAuth UsageReport newRedisClient invalid limiters closeOf i position configs hooks) = inl filters ->
  Forall2 (fun fc f => exists k, newFilter i k fc = inl f) configs filters.
Proof.
  induction configs as [|fc configs IH]; intros position hooks filters; cbn [newFilters]; [by intros [= <-]|].
  destruct (newFilter i position fc) as [f|e] eqn:E; [|done].
  set (hooks' := lifeCycle_Append _ _).
  specialize (IH (S position) hooks'). destruct (newFilters _ _ _ _ _ _ _ i (S position) configs hooks') as [[fs|e] hooks''] eqn:Efs; [|done].
  cbn. intros [= <-]. constructor; [by exists position|]. by apply IH.
Qed.

Definition asks_key (fc : RouteFilter) : bool := match rf_config fc with APIKeyAuthConfig _ _ => true | _ => false end.

(** A filter that is registered: it asks for a key, or has no [OnRequestPre];
    its request hooks look only. *)
Lemma newFilter_kinds i k fc f :
  newFilter i k fc = inl f ->
  looks f /\ (if asks_key fc then exists url timeout, f = AuthFilter Match (APIKeyAuth url timeout) else OnRequestPre f = None).
Proof.
  unfold Gateway.newFilter, NewRequestFilterWithConfig, Auth_NewWithConfig, Usage_NewWithConfig, asks_key.
  destruct (rf_config fc) as [url t|c|url t|url]; [| | |done].
  - destruct (String.eqb url ""); [done|]. intros [= <-].
    split; [by apply (auth_aside _ (mkHTTPRequest "" "" ∅ (BodyText "")))|by do 2 eexists].
  - assert (forall e : gerror, f = RateLimitFilter invalid (limiters i k) -> looks f /\ OnRequestPre f = None) as Hrl.
    { intros _ ->. split; [|done]. split; intros h http [= <-]; apply ratelimit_aside. }
    destruct (rl_mode _), (newRedisClient c); intros [= <-]; by apply (Hrl (EPlain "")).
  - destruct (String.eqb url ""); [done|]. intros [= <-]. by split.
Qed.

(** The last authorization filter of a listener. *)
Lemma last_auth i configs filters :
  Forall2 (fun fc f => exists k, newFilter i k fc = inl f) configs filters -> existsb asks_key configs = true ->
  exists before after url timeout, filters = before ++ AuthFilter Match (APIKeyAuth url timeout) :: after /\
    Forall looks before /\ OnRequestPreFilters after = [].
Proof.
  induction 1 as [|fc f configs filters (k & Hf) Hfs IH]; [done|]. cbn [existsb]. intros Hex.
  apply newFilter_kinds in Hf as [Hl Hk]. destruct (existsb asks_key configs) eqn:Hout.
  { destruct (IH eq_refl) as (b & a & url & t & -> & Hb & Ha). exists (f :: b), a, url, t. split_and!; [done| |done]. by constructor. }
  rewrite orb_false_r in Hex. rewrite Hex in Hk. destruct Hk as (url & t & ->).
  exists [], filters, url, t. split_and!; [done|constructor|].
  clear IH. induction Hfs as [|fc' f' configs filters (k' & Hf) Hfs IH]; [done|]. cbn [existsb] in Hout.
  apply orb_false_iff in Hout as [Hno Hout]. apply newFilter_kinds in Hf as [_ Hk']. rewrite Hno in Hk'.
  unfold OnRequestPreFilters. rewrite TypeAssertFrom_cons, Hk'. by apply IH.
Qed.

(** ** The handler as a function of the router *)
Section Decision.
Variables (service : string -> Eff X (APIKeyAuthResponse + (gerror * option Auth.grpcCode))).
Variables before after : list (RequestFilter X).
Hypothesis before_looks : Forall looks before.
Hypothesis after_pre : OnRequestPreFilters after = [].
Abbreviation filters := (before ++ AuthFilter Match service :: after).

(** A key that the service accepts. *)
Definition accepted_key (http : HTTPRequest) (info : APIKeyAuthResponse) : Prop :=
  exists key w0 w1, Header_Get (hr_Header http) "Authorization" = "Bearer " +:+ key /\ key <> "" /\
    service key w0 = Ret (w1, inl info) /\ auth_is_valid info = true.

Lemma pre_passes http w w' :
  firstFailure (OnRequestPreFilters filters) http w = Ret (w', None) ->
  exists info, AuthInfo (w_meta w') = Some info /\ accepted_key http info.
Proof.
  unfold OnRequestPreFilters in *. rewrite TypeAssertFrom_app, TypeAssertFrom_cons. cbn [AuthFilter OnRequestPre]. rewrite after_pre, firstFailure_app.
  destruct (firstFailure (TypeAssertFrom OnRequestPre before) http w) as [[w1 [r|]]|]; [done| |done].
  cbn [firstFailure]. unfold mbind, Eff_bind.
  destruct (AuthFilter_OnRequestPre service http w1) as [[w2 r]|] eqn:E; [|done].
  destruct (IsFailed r) eqn:Hr; [done|]. intros [= <-].
  destruct (auth_pre_sound service http w1 w2 r E Hr) as (key & w0 & w3 & info & Hk & Hne & Hs & Hv & Hi).
  exists info. split; [done|]. by exists key, w0, w3.
Qed.

(** Hooks that look only leave what the next hook sees. *)
Lemma hooks_look (hook : RequestFilter X -> option (HTTPRequest -> Eff X RequestFilterResult)) http fs :
  Forall (fun f => forall h, hook f = Some h -> aside (h http)) fs -> aside (firstFailure (TypeAssertFrom hook fs) http).
Proof.
  induction 1 as [|f l Hf _ IH]; [apply aside_ret|]. rewrite TypeAssertFrom_cons. destruct (hook f) as [h|]; [|exact IH].
  cbn [firstFailure]. apply aside_bind; [by apply Hf|]. intros r. stay_aside.
Qed.

Lemma request_passes type http w w' info :
  type <> RequestTypeTextToSpeech -> AuthInfo (w_meta w) = Some info ->
  listenerRequestHooks filters type http w = Ret (w', None) -> may_access Match info (GetModel (w_req w)).
Proof.
  intros Ht Hi.
  assert (forall hook h, hook (AuthFilter Match service) = Some h ->
            Forall (fun f => forall h', hook f = Some h' -> aside (h' http)) before ->
            (forall w1, h http w1 = AuthFilter_OnCompletionRequest Match http w1) ->
            firstFailure (TypeAssertFrom hook filters) http w = Ret (w', None) -> may_access Match info (GetModel (w_req w))) as Hgen.
  { intros hook h Hh Hb Hsame. rewrite TypeAssertFrom_app, TypeAssertFrom_cons, Hh, firstFailure_app.
    destruct (firstFailure (TypeAssertFrom hook before) http w) as [[w1 [r|]]|] eqn:E1; [done| |done].
    apply (hooks_look hook http before Hb) in E1 as [Em Er]. cbn [firstFailure]. unfold mbind, Eff_bind. rewrite Hsame.
    destruct (AuthFilter_OnCompletionRequest Match http w1) as [[w2 r]|] eqn:E2; [|done].
    destruct (IsFailed r) eqn:Hr; [done|]. intros _.
    destruct (auth_completion_passes _ _ _ _ _ E2 Hr) as (info' & Hi' & Hma). rewrite Em, Hi in Hi'. injection Hi' as <-.
    by rewrite <- Er. }
  destruct type; [..|done]; unfold listenerRequestHooks.
  all: first [apply (Hgen OnCompletionRequest (AuthFilter_OnCompletionRequest Match))
             |apply (Hgen OnImageGenerationsRequest (AuthFilter_OnImageGenerationsRequest Match))]; [done| |done].
  all: eapply Forall_impl; [exact before_looks|]; intros f Hl h Hh; destruct Hl as [Hc Hm]; first [by apply Hc|by apply Hm].
Qed.

(** What the parser leaves. *)
Lemma parseWith_passes new http (w w' : World X) :
  parseWith new http w = Ret (w', None) ->
  exists req, new (match hr_Body http with BodyJSON doc => Some doc | BodyText _ => None end) = Ret (inl req) /\
    w_req w' = req /\ AuthInfo (w_meta w') = AuthInfo (w_meta w).
Proof.
  unfold parseWith. run_eff. destruct (new _) as [[req|e]|] eqn:E; [|done|done].
  destruct (String.eqb (GetModel req) ""); [done|]. intros [= <-]. exists req. by split.
Qed.

(** The two routers are told apart only by an authorized request. *)
Lemma handler_decides i new http w :
  (forall R R' : Router X,
     CommonListenerHandler (H2 := R) Marshal write_ok (env i) filters (rev (Clone filters)) (parseWith new) http w
     = CommonListenerHandler (H2 := R') Marshal write_ok (env i) filters (rev (Clone filters)) (parseWith new) http w) \/
  (exists info req, accepted_key http info /\
     new (match hr_Body http with BodyJSON doc => Some doc | BodyText _ => None end) = Ret (inl req) /\
     (GetRequestType req = RequestTypeTextToSpeech \/ may_access Match info (GetModel req))).
Proof.
  unfold CommonListenerHandler, mbind, Eff_bind.
  destruct (firstFailure (OnRequestPreFilters filters) http w) as [[w1 [r|]]|] eqn:Epre; [by left| |by left].
  destruct (pre_passes http w w1 Epre) as (info & Hi & Hkey).
  destruct (parseWith new http w1) as [[w2 [e|]]|] eqn:Eparse; [by left| |by left].
  destruct (parseWith_passes _ _ _ _ Eparse) as (req & Hnew & Hreq & Hmeta). cbn [getReq].
  destruct (listenerRequestHooks filters (GetRequestType (w_req w2)) http w2) as [[w3 [r|]]|] eqn:Ehook; [by left| |by left].
  right. exists info, req. split_and!; [done|done|]. rewrite Hreq in Ehook.
  destruct (decide (GetRequestType req = RequestTypeTextToSpeech)) as [Ht|Ht]; [by left|right].
  rewrite <- Hreq. rewrite Hi in Hmeta. by eapply request_passes.
Qed.
End Decision.

(** C7: a listener configured with an authorization filter, whatever other
    filters it has before and behind it, lets a request have an effect on the
    routes only for a key it holds: either the whole outcome of the request,
    what is written and what is left behind included, is the same whatever the
    router does, or its header is [Bearer key] with a key that the
    authorization service answered with a valid account, and the model that
    its body names is one that the rules of that account give access to (the
    requests for speech, whose models are not looked at, apart). *)
Theorem access_enforced {HF} (closeOf : nat -> nat -> HF) i configs filters new path http w
    (Hbuilt : built Match APIKeyAuth UsageReport newRedisClient invalid limiters closeOf i configs = inl filters)
    (Hasks : existsb asks_key configs = true) :
  (forall R R' : Router X,
     snd (common (H4 := R) Marshal write_ok env at_panic address i filters path (parseWith new)) http w
     = snd (common (H4 := R') Marshal write_ok env at_panic address i filters path (parseWith new)) http w) \/
  (exists url timeout info req, accepted_key (APIKeyAuth url timeout) http info /\
     new (match hr_Body http with BodyJSON doc => Some doc | BodyText _ => None end) = Ret (inl req) /\
     (GetRequestType req = RequestTypeTextToSpeech \/ may_access Match info (GetModel req))).
Proof.
  apply built_each in Hbuilt. destruct (last_auth _ _ _ Hbuilt Hasks) as (before & after & url & t & -> & Hb & Ha).
  set (filters := before ++ AuthFilter Match (APIKeyAuth url t) :: after).
  destruct (handler_decides (APIKeyAuth url t) before after Hb Ha i new http
              (mkWorld InitMetadata (w_req w) (setInflight (env i) ({[ address http ]} ∪ getInflight (env i) (w_ext w)) (w_ext w))))
    as [Hsame|(info & req & Hr)]; [left|right; by exists url, t, info, req].
  intros R R'. unfold common. cbn [snd]. apply stack_cong, Hsame.
Qed.
End Access.

(** ** Example: a listener with a limiter, the authorization filter and the
    usage filter, asked for a model that the key may not use. *)
#[local] Existing Instances rfc6902 rfc6902_laws dotted_paths dotted_paths_laws ex_Unmarshal.

Definition ex_filters : list RouteFilter :=
  [mkRouteFilter "limit" (RateLimitCfg ex_rlc); ex_keys; mkRouteFilter "usage" (UsageStatsConfig "http://usage" 0)].
Definition ex_built : list (RequestFilter ex_state) :=
  [RateLimitFilter 0 ex_limiter; AuthFilter ex_glob (ex_service "http://auth" 3);
   Usage.UsageFilter (ex_report "http://usage" Usage.defaultUsageServerTimeout)].
Definition ex_refused : HTTPRequest :=
  mkHTTPRequest "POST" "/v1/chat/completions" (Header_Set ∅ "Authorization" "Bearer sk-1")
    (BodyJSON (JObj {[ "model" := JStr "claude" ]})).

Lemma access_enforced_witness :
  (forall R R' : Router ex_state,
     snd (common (H4 := R) ex_Marshal (fun _ _ => true) (fun _ => ex_listener) ex_panic ex_address 0 ex_built "/v1/chat/completions"
       (parseWith (NewChatCompletionRequest RequestTypeChatCompletions))) ex_refused (ex_served false)
     = snd (common (H4 := R') ex_Marshal (fun _ _ => true) (fun _ => ex_listener) ex_panic ex_address 0 ex_built "/v1/chat/completions"
       (parseWith (NewChatCompletionRequest RequestTypeChatCompletions))) ex_refused (ex_served false)) \/
  (exists url timeout info req, accepted_key (ex_service url timeout) ex_refused info /\
     NewChatCompletionRequest RequestTypeChatCompletions (Some (JObj {[ "model" := JStr "claude" ]})) = Ret (inl req) /\
     (GetRequestType req = RequestTypeTextToSpeech \/ may_access ex_glob info (GetModel req))).
Proof.
  apply (access_enforced ex_Marshal (fun _ _ => true) (fun _ => ex_listener) ex_panic ex_address ex_glob ex_service ex_report
           (fun _ => None) 0 (fun _ _ => ex_limiter)
           ltac:(intros i k; apply aside_ret) ltac:(intros i k key args; apply aside_ret)
           (fun _ _ => "close") 0 ex_filters ex_built (NewChatCompletionRequest RequestTypeChatCompletions)
           "/v1/chat/completions" ex_refused (ex_served false)); reflexivity.
Defined.

(** The first case is the one: the answer is 404, whatever the router. *)
Example refused_404 (R : Router ex_state) :
  exists w', snd (common (H4 := R) ex_Marshal (fun _ _ => true) (fun _ => ex_listener) ex_panic ex_address 0 ex_built "/v1/chat/completions"
       (parseWith (NewChatCompletionRequest RequestTypeChatCompletions))) ex_refused (ex_served false) = Ret (w', (None, None)) /\
    StatusCode (w_meta w') = 404.
Proof. eexists. split; vm_compute; reflexivity. Qed.
