(* ===== verification/Drain.v ===== *)
(** * pkg/listener/middlewares.go: draining a listener

    The requests in flight of one listener and its [Drain], which run in
    goroutines of their own, as a transition system: each critical section of
    a mutex is one step, and time passes between the steps.  [Listener.stack]
    is what one request does with nothing in between: [stack_is_path] says
    that it is a path of these steps. *)
From stdpp Require Import relations.
From S2P Require Import Prelude Strconv Utils GoFloat Json Api Errors Request Response Effects Stream Filters.
From S2P Require Import Auth Usage RateLimit ClusterFilters Cluster Route RouteManager Listener Bootkit.

(** ** CancellableRequestMap

    A request is known by its address; its cancel function by the number of
    the context that it ends. *)
Record CancellableRequestMap : Type := mkCancellable {
  requestCancelMap : gmap Z Z;
  cancelled : gset Z }.

Definition NewCancellableRequestMap : CancellableRequestMap := mkCancellable ∅ ∅.

Definition Add (l : CancellableRequestMap) (req cancel : Z) : CancellableRequestMap :=
  mkCancellable (<[req := cancel]> (requestCancelMap l)) (cancelled l).

Definition Remove (l : CancellableRequestMap) (req : Z) : CancellableRequestMap :=
  mkCancellable (delete req (requestCancelMap l)) (cancelled l).

(** The loop of [CancelAll] and of the callback of [CancelAllAfter]: a
    [range], in any order, whose calls commute. *)
Definition CancelAll (l : CancellableRequestMap) : CancellableRequestMap :=
  mkCancellable (requestCancelMap l) (list_to_set (map_to_list (requestCancelMap l)).*2 ∪ cancelled l).

(** pkg/constants *)
Definition DefaultDrainWaitTime : Z := 30 * nanosPerSecond.

(** ** The state of a listener *)

(** Where a request is: in the middlewares before the check, in the handler,
    or on its way out. *)
Inductive place : Type := Entering | Serving | Leaving.

(** [time.AfterFunc]: due at a time, or run after that time. *)
Inductive timer : Type := NoTimer | Due (at_ : Z) | Fired (at_ : Z).

(** [Drain]: not called; past its critical section; waiting in
    [CancelAllAfterWithContext]; returned. *)
Inductive drainCall : Type := NotCalled | Marked | Waiting | Returned.
#[export] Instance drainCall_eq : EqDecision drainCall.
Proof. solve_decision. Defined.

Record listenerState : Type := mkListener {
  ls_cancellable : CancellableRequestMap;
  ls_drained : bool;
  ls_requests : gmap Z (Z * place);      (* the requests being handled, with their contexts *)
  ls_contexts : Z;                        (* the contexts made so far *)
  ls_timer : timer;
  ls_drain : drainCall;
  ls_now : Z }.

Definition newListener (now : Z) : listenerState := mkListener NewCancellableRequestMap false ∅ 0 NoTimer NotCalled now.

Section Steps.
(** When the context handed to [Drain] ends. *)
Variable ctxEnds : Z.

(** One step.  [fo.Invoke0], which is not under src/, returns when its
    function has, or when its context ends, whatever its function does then. *)
Inductive listener_step : listenerState -> listenerState -> Prop :=
| WithCancellable_adds r c d reqs n t k now : reqs !! r = None ->
    listener_step (mkListener c d reqs n t k now)
      (mkListener (Add c r n) d (<[r := (n, Entering)]> reqs) (n + 1) t k now)
| WithOptions_answers r i c d reqs n t k now : reqs !! r = Some (i, Entering) ->
    listener_step (mkListener c d reqs n t k now) (mkListener c d (<[r := (i, Leaving)]> reqs) n t k now)
| HasDrained_rejects r i c reqs n t k now : reqs !! r = Some (i, Entering) ->
    listener_step (mkListener c true reqs n t k now) (mkListener c true (<[r := (i, Leaving)]> reqs) n t k now)
| HasDrained_admits r i c reqs n t k now : reqs !! r = Some (i, Entering) ->
    listener_step (mkListener c false reqs n t k now) (mkListener c false (<[r := (i, Serving)]> reqs) n t k now)
| handler_returns r i c d reqs n t k now : reqs !! r = Some (i, Serving) ->
    listener_step (mkListener c d reqs n t k now) (mkListener c d (<[r := (i, Leaving)]> reqs) n t k now)
| WithCancellable_removes r i c d reqs n t k now : reqs !! r = Some (i, Leaving) ->
    listener_step (mkListener c d reqs n t k now) (mkListener (Remove c r) d (delete r reqs) n t k now)
| Drain_marks c d reqs n t now :
    listener_step (mkListener c d reqs n t NotCalled now) (mkListener c true reqs n t Marked now)
| CancelAllAfter_starts c d reqs n t now :
    listener_step (mkListener c d reqs n t Marked now) (mkListener c d reqs n (Due (now + DefaultDrainWaitTime)) Waiting now)
| timer_fires c d reqs n at_ k now : at_ <= now ->
    listener_step (mkListener c d reqs n (Due at_) k now) (mkListener (CancelAll c) d reqs n (Fired at_) k now)
| Drain_returns c d reqs n at_ now :
    listener_step (mkListener c d reqs n (Fired at_) Waiting now) (mkListener c d reqs n (Fired at_) Returned now)
| Drain_gives_up c d reqs n t now : ctxEnds <= now ->
    listener_step (mkListener c d reqs n t Waiting now) (mkListener c d reqs n t Returned now)
| time_passes later c d reqs n t k now : now < later ->
    listener_step (mkListener c d reqs n t k now) (mkListener c d reqs n t k later).

Definition reachable (s : listenerState) : Prop := exists now, rtc listener_step (newListener now) s.

(** The requests in a handler. *)
Definition serving (s : listenerState) (r : Z) : Prop := exists i, ls_requests s !! r = Some (i, Serving).

(** ** The invariant *)
Definition drain_started (k : drainCall) : bool := match k with NotCalled => false | _ => true end.

Record listener_ok (s : listenerState) : Prop := {
  lo_map : requestCancelMap (ls_cancellable s) = fst <$> ls_requests s;
  lo_made r i p : ls_requests s !! r = Some (i, p) -> i < ls_contexts s;
  lo_old i : i ∈ cancelled (ls_cancellable s) -> i < ls_contexts s;
  lo_drained : ls_drained s = drain_started (ls_drain s);
  lo_timer : match ls_timer s with
             | NoTimer => ls_drain s = NotCalled \/ ls_drain s = Marked
             | Due _ => ls_drain s = Waiting \/ ls_drain s = Returned
             | Fired at_ => (ls_drain s = Waiting \/ ls_drain s = Returned) /\ at_ <= ls_now s
             end;
  lo_early : (forall at_, ls_timer s <> Fired at_) -> cancelled (ls_cancellable s) = ∅;
  lo_late at_ r i : ls_timer s = Fired at_ -> ls_requests s !! r = Some (i, Serving) -> i ∈ cancelled (ls_cancellable s) }.

Lemma newListener_ok now : listener_ok (newListener now).
Proof. split; cbn; try done. by left. Qed.

Lemma fst_move (reqs : gmap Z (Z * place)) r i p q : reqs !! r = Some (i, p) -> fst <$> <[r := (i, q)]> reqs = fst <$> reqs.
Proof. intros Hr. rewrite fmap_insert. apply insert_id. by rewrite lookup_fmap, Hr. Qed.

(** A request that changes its place. *)
Lemma move_ok c d reqs n t k now r i p q :
  listener_ok (mkListener c d reqs n t k now) -> reqs !! r = Some (i, p) -> (q = Serving -> forall at_, t <> Fired at_) ->
  listener_ok (mkListener c d (<[r := (i, q)]> reqs) n t k now).
Proof.
  intros [Hm Hmade Hold Hd Ht He Hl] Hr Hq. cbn [ls_cancellable ls_requests ls_contexts ls_drained ls_timer ls_drain ls_now] in *.
  split; cbn [ls_cancellable ls_requests ls_contexts ls_drained ls_timer ls_drain ls_now]; try done.
  - by rewrite (fst_move _ _ _ p).
  - intros r' i' p'. destruct (decide (r' = r)) as [->|?]; [rewrite lookup_insert_eq; intros [= <- _]; by eapply Hmade|].
    rewrite lookup_insert_ne by done. apply Hmade.
  - intros at_ r' i' Hf. destruct (decide (r' = r)) as [->|?]; [|rewrite lookup_insert_ne by done; by apply (Hl at_)].
    rewrite lookup_insert_eq. intros [= <- ->]. by destruct (Hq eq_refl at_).
Qed.

Lemma cancelled_all l r i : requestCancelMap l !! r = Some i -> i ∈ cancelled (CancelAll l).
Proof.
  intros Hr. unfold CancelAll. cbn [cancelled]. apply elem_of_union_l, elem_of_list_to_set.
  apply (list_elem_of_fmap_2 snd _ (r, i)). by apply elem_of_map_to_list.
Qed.

Lemma cancelled_only l i : i ∈ cancelled (CancelAll l) -> i ∈ cancelled l \/ exists r, requestCancelMap l !! r = Some i.
Proof.
  unfold CancelAll. cbn [cancelled]. intros [Hi%elem_of_list_to_set|]%elem_of_union; [|by left]. right.
  apply list_elem_of_fmap in Hi as ([r j] & -> & Hr%elem_of_map_to_list). by exists r.
Qed.

Ltac fields := cbn [ls_cancellable ls_requests ls_contexts ls_drained ls_timer ls_drain ls_now] in *.

Lemma listener_step_ok s s' : listener_ok s -> listener_step s s' -> listener_ok s'.
Proof.
  intros Hok Hstep. destruct Hstep as [r c d reqs n t k now Hr|r i c d reqs n t k now Hr|r i c reqs n t k now Hr|r i c reqs n t k now Hr
    |r i c d reqs n t k now Hr|r i c d reqs n t k now Hr|c d reqs n t now|c d reqs n t now|c d reqs n at_ k now Hle|c d reqs n at_ now
    |c d reqs n t now Hle|later c d reqs n t k now Hlt].
  2, 3, 5: by eapply move_ok.
  2: { pose proof Hok as [_ _ _ Hd Ht _ _]. fields. eapply move_ok; [done|done|]. intros _ at_ ->.
       destruct Ht as [[-> | ->] _]; done. }
  all: destruct Hok as [Hm Hmade Hold Hd Ht He Hl]; fields.
  - split; fields; try done; cbn [Add requestCancelMap cancelled].
    + by rewrite Hm, fmap_insert.
    + intros r' i' p'. destruct (decide (r' = r)) as [->|?]; [rewrite lookup_insert_eq; intros [= <- _]; lia|].
      rewrite lookup_insert_ne by done. intros ?%Hmade. lia.
    + intros i ?%Hold. lia.
    + intros at_ r' i' Hf. destruct (decide (r' = r)) as [->|?]; [by rewrite lookup_insert_eq|]. rewrite lookup_insert_ne by done. by apply (Hl at_).
  - split; fields; try done; cbn [Remove requestCancelMap cancelled].
    + by rewrite Hm, fmap_delete.
    + intros r' i' p' [_ ?]%lookup_delete_Some. by eapply Hmade.
    + intros at_ r' i' Hf [_ ?]%lookup_delete_Some. by eapply Hl.
  - split; fields; try done. destruct t; [by right|destruct Ht; done|destruct Ht as [[] _]; done].
  - split; fields; try done; [by left|]. intros _. apply He. intros at_ ->. by destruct Ht as [[] _].
  - split; fields; try done.
    + intros i [Hi|(r & Hr)]%cancelled_only; [by apply Hold|]. rewrite Hm, lookup_fmap, fmap_Some in Hr.
      destruct Hr as ([i' p] & Hr & ->). by eapply Hmade.
    + intros Hne. by destruct (Hne at_).
    + intros at' r i _ Hr. apply (cancelled_all c r). by rewrite Hm, lookup_fmap, Hr.
  - split; fields; try done. destruct Ht as [_ ?]. auto.
  - split; fields; try done. destruct t; [destruct Ht; done|by right|destruct Ht as [_ ?]; auto].
  - split; fields; try done. destruct t; [done|done|]. destruct Ht. split; [done|lia].
Qed.

Lemma reachable_ok s : reachable s -> listener_ok s.
Proof.
  intros (now & Hs). remember (newListener now) as s0 eqn:E. assert (listener_ok s0) as Hok by (subst; apply newListener_ok).
  clear E. induction Hs; eauto using listener_step_ok.
Qed.

(** Once drained, the set of the requests in a handler only shrinks. *)
Lemma drained_step s s' : ls_drained s = true -> listener_step s s' ->
  ls_drained s' = true /\ forall r, serving s' r -> serving s r.
Proof.
  intros Hd Hstep. unfold serving. destruct Hstep; fields; try done; (split; [done|]); intros r' (j & Hj); [| | | |].
  all: try (apply lookup_insert_Some in Hj as [[-> [=]]|[_ Hj]]; by exists j).
  apply lookup_delete_Some in Hj as [_ Hj]. by exists j.
Qed.

(** The timer is set from the moment that the wait begins. *)
Definition due_after (t0 : Z) (s : listenerState) : Prop :=
  t0 <= ls_now s /\ match ls_timer s with NoTimer => True | Due t | Fired t => t0 + DefaultDrainWaitTime <= t end.

Lemma due_after_steps t0 s s' : due_after t0 s -> rtc listener_step s s' -> due_after t0 s'.
Proof.
  intros H0 Hrun. induction Hrun as [|s s1 s' Hstep _ IH]; [done|]. apply IH. clear IH.
  unfold due_after in *. destruct Hstep; fields; destruct H0 as [Hn Ht]; (split; [lia|]); solve [done|lia].
Qed.

(** C13: draining a listener, whatever its requests do meanwhile: from the
    moment that [Drain] has marked it, no request is let into a handler; the
    requests in flight are given [DefaultDrainWaitTime] before the context of
    any is cancelled; and once the timer has run, every request still in a
    handler has been cancelled, those whose check came before the mark
    included.  The map holds the requests in flight, each with its own
    context, and nothing else. *)
Theorem drain_safe s s' (Hreach : reachable s) (Hrun : rtc listener_step s s') :
  (ls_drained s = true -> forall r, serving s' r -> serving s r) /\
  ((forall t, ls_timer s' <> Fired t) -> cancelled (ls_cancellable s') = ∅) /\
  (ls_timer s = NoTimer -> forall t, ls_timer s' = Fired t -> ls_now s + DefaultDrainWaitTime <= t) /\
  (forall t, ls_timer s' = Fired t -> t <= ls_now s' /\
     forall r i, ls_requests s' !! r = Some (i, Serving) -> i ∈ cancelled (ls_cancellable s')) /\
  requestCancelMap (ls_cancellable s') = fst <$> ls_requests s'.
Proof.
  assert (listener_ok s') as [Hm _ _ _ Ht He Hl].
  { apply reachable_ok. destruct Hreach as (now & Hs). exists now. by etransitivity. }
  split_and!.
  - intros Hd. clear - Hd Hrun. induction Hrun as [|s s1 s' Hstep _ IH]; [done|].
    destruct (drained_step s s1 Hd Hstep) as [Hd1 Hsub]. intros r Hr. by apply Hsub, IH.
  - exact He.
  - intros Hno t Et. destruct (due_after_steps (ls_now s) s s') as [_ Hafter]; [by split; [lia|rewrite Hno]|done|]. by rewrite Et in Hafter.
  - intros t Et. rewrite Et in Ht. split; [by destruct Ht|]. intros r i. by apply (Hl t).
  - done.
Qed.

(** ** Draining ends

    A run without new requests, in which time passes only as far as the timer
    is due. *)
Inductive settles : listenerState -> listenerState -> Prop :=
| settles_step s s' : listener_step s s' -> dom (ls_requests s') ⊆ dom (ls_requests s) -> ls_now s' = ls_now s -> settles s s'
| settles_wait at_ c d reqs n k now : now < at_ ->
    settles (mkListener c d reqs n (Due at_) k now) (mkListener c d reqs n (Due at_) k at_).

Definition steps_left (p : place) : nat := match p with Entering => 3 | Serving => 2 | Leaving => 1 end.
Definition requests_left (reqs : gmap Z (Z * place)) : nat := map_fold (fun _ ip n => (steps_left ip.2 + n)%nat) 0%nat reqs.
Definition drain_left (s : listenerState) : nat :=
  (match ls_drain s with NotCalled => 3 | Marked => 2 | Waiting => 1 | Returned => 0 end +
   match ls_timer s with NoTimer => 3 | Due at_ => if decide (ls_now s < at_)%Z then 2 else 1 | Fired _ => 0 end)%nat.
Definition left_to_do (s : listenerState) : nat := (requests_left (ls_requests s) + drain_left s)%nat.

Lemma requests_left_insert reqs r ip : reqs !! r = None ->
  requests_left (<[r := ip]> reqs) = (steps_left ip.2 + requests_left reqs)%nat.
Proof. intros Hr. unfold requests_left. apply (map_fold_insert_L (fun _ (ip : Z * place) n => (steps_left ip.2 + n)%nat)); [lia|done]. Qed.

Lemma requests_left_delete reqs r ip : reqs !! r = Some ip ->
  requests_left reqs = (steps_left ip.2 + requests_left (delete r reqs))%nat.
Proof. intros Hr. rewrite <- (insert_delete_id reqs r ip Hr) at 1. apply requests_left_insert, lookup_delete_eq. Qed.

Lemma requests_left_move reqs r i p q : reqs !! r = Some (i, p) -> (steps_left q < steps_left p)%nat ->
  (requests_left (<[r := (i, q)]> reqs) < requests_left reqs)%nat.
Proof.
  intros Hr Hlt. rewrite <- insert_delete_eq, requests_left_insert by apply lookup_delete_eq.
  rewrite (requests_left_delete reqs r (i, p) Hr). cbn. lia.
Qed.

(** Called, and not over. *)
Definition draining (s : listenerState) : Prop := listener_ok s /\ ls_drain s <> NotCalled.
Definition drained_out_ (s : listenerState) : Prop := ls_requests s = ∅ /\ ls_drain s = Returned.

Lemma settles_decreases s s' : draining s -> settles s s' -> draining s' /\ (left_to_do s' < left_to_do s)%nat.
Proof.
  intros [Hok Hcalled] Hs. destruct Hs as [s s' Hstep Hdom Hnow|at_ c d reqs n k now Hlt].
  - assert (listener_ok s') as Hok' by (by eapply listener_step_ok).
    assert (Hwas := Hok). destruct Hstep; fields; unfold draining, left_to_do, drain_left; fields;
      try (split; [done|]).
    + exfalso. assert (r ∈ dom reqs) as Hin by (apply Hdom, elem_of_dom; rewrite lookup_insert_eq; by eexists).
      apply elem_of_dom in Hin as [? Hin]. by rewrite Hin in H.
    + pose proof (requests_left_move reqs r i Entering Leaving H). cbn in *. lia.
    + pose proof (requests_left_move reqs r i Entering Leaving H). cbn in *. lia.
    + pose proof (requests_left_move reqs r i Entering Serving H). cbn in *. lia.
    + pose proof (requests_left_move reqs r i Serving Leaving H). cbn in *. lia.
    + rewrite (requests_left_delete reqs r _ H). cbn. lia.
    + done.
    + destruct Hwas as [_ _ _ _ Ht _ _]. fields.
      destruct t as [|a|a]; [|by destruct Ht|by destruct Ht as [[] _]]. case_decide; lia.
    + case_decide; lia.
    + lia.
    + lia.
    + lia.
  - split.
    + split; [|done]. destruct Hok as [Hm Hmade Hold Hd Ht He Hl]. by split.
    + unfold left_to_do, drain_left. fields. do 2 case_decide; lia.
Qed.

Lemma settles_progress s : draining s -> ~ drained_out_ s -> exists s', settles s s'.
Proof.
  intros [[Hm _ _ Hd Ht _ _] Hcalled] Hnot. destruct s as [c d reqs n t k now]. fields.
  destruct (decide (reqs = ∅)) as [->|Hne].
  - destruct k; [done| | |by destruct Hnot].
    + destruct t as [|a|a]; [|by destruct Ht|by destruct Ht as [[] _]].
      eexists. apply settles_step; [apply CancelAllAfter_starts|done|done].
    + destruct t as [|a|a]; [by destruct Ht| |].
      * destruct (decide (now < a)); [eexists; by apply settles_wait|].
        eexists. apply settles_step; [apply timer_fires; lia|done|done].
      * eexists. apply settles_step; [apply Drain_returns|done|done].
  - apply map_choose in Hne as (r & [i p] & Hr). destruct p.
    + assert (d = true) as -> by (by destruct k).
      eexists. apply settles_step; [by eapply HasDrained_rejects|fields; rewrite dom_insert_lookup by (by eexists); done|done].
    + eexists. apply settles_step; [by eapply handler_returns|fields; rewrite dom_insert_lookup by (by eexists); done|done].
    + eexists. apply settles_step; [by eapply WithCancellable_removes|fields; rewrite dom_delete; set_solver|done].
Qed.

(** C14: a drain ends: once it has been called, and without new requests,
    every run, whatever the order of its steps, gets to a state in which no
    request is left in the middlewares, the map is empty and [Drain] has
    returned; there is no deadlock on the way. *)
Theorem drain_ends s (Hreach : reachable s) (Hcalled : ls_drain s <> NotCalled) :
  inevitable settles (fun s' => ls_requests s' = ∅ /\ requestCancelMap (ls_cancellable s') = ∅ /\ ls_drain s' = Returned) s.
Proof.
  apply (inevitable_measure _ _ draining left_to_do); [|split; [by apply reachable_ok|done]].
  intros a Ha. destruct (decide (ls_requests a = ∅)) as [He|He]; [destruct (decide (ls_drain a = Returned)) as [Hr|Hr]|].
  - left. split_and!; [done| |done]. destruct Ha as [[Hm _ _ _ _ _ _] _]. by rewrite Hm, He, fmap_empty.
  - right. split; [apply settles_progress; [done|]; by intros [_ ?]|]. intros a' Hs. right. by apply settles_decreases.
  - right. split; [apply settles_progress; [done|]; by intros [? _]|]. intros a' Hs. right. by apply settles_decreases.
Qed.
End Steps.

(** ** One request, with nothing in between *)
Section Path.
Context {X : Type} (env : ListenerEnv X) `{!ListenerLaws env}.
Variable at_panic : HTTPRequest -> World X -> World X.
Variable address : HTTPRequest -> Z.
Variable ctxEnds : Z.

(** What a handler sees of the listener's state. *)
Definition seen (s : listenerState) (x : X) : Prop :=
  getDrained env x = ls_drained s /\ getInflight env x = dom (requestCancelMap (ls_cancellable s)).

Definition same_listener (x x' : X) : Prop := getDrained env x' = getDrained env x /\ getInflight env x' = getInflight env x.

(** Computations that leave the listener's state alone. *)
Definition bystands {A} (m : Eff X A) : Prop := forall w w' a, m w = Ret (w', a) -> same_listener (w_ext w) (w_ext w').

Lemma bystands_ret {A} (a : A) : bystands (mret a).
Proof. by intros w w' b [= <- _]. Qed.
Lemma bystands_bind {A B} (m : Eff X A) (f : A -> Eff X B) : bystands m -> (forall a, bystands (f a)) -> bystands (m ≫= f).
Proof.
  intros Hm Hf w w' b. unfold mbind, Eff_bind. destruct (m w) as [[w1 a]|] eqn:E; [|done].
  intros [Hd Hi]%Hf. destruct (Hm _ _ _ E). split; congruence.
Qed.
Lemma bystands_modifyMeta f : bystands (modifyMeta f).
Proof. by intros w w' a [= <- _]. Qed.
Lemma bystands_lift {A} (m : outcome A) : bystands (lift m).
Proof. intros w w' a. unfold lift. destruct m; [by intros [= <- _]|done]. Qed.
Lemma bystands_panic {A} msg : bystands (panic msg : Eff X A).
Proof. by intros w w' a. Qed.
Lemma bystands_emit out : bystands (emit env out).
Proof. intros w w' a [= <- _]. split; cbn [w_ext]; [apply drained_out|apply inflight_out]. Qed.

Lemma bystands_ResponseHandler resp err : bystands (ResponseHandler env resp err).
Proof.
  assert (bystands (modifyMeta (X := X) (setStatusCode StatusOK))) as Hm by apply bystands_modifyMeta.
  unfold ResponseHandler, writeWhole, WriteJSONForHTTP.
  repeat first
    [ apply bystands_ret | apply bystands_modifyMeta | apply bystands_lift | apply bystands_panic | apply bystands_emit
    | apply bystands_bind; [|intros]
    | match goal with
      | |- bystands (match ?x with _ => _ end) => destruct x
      | |- bystands (if ?x then _ else _) => destruct x
      end ].
Qed.

(** A handler that is one: it leaves the listener's state to others, also
    where it panics. *)
Definition handler_ok (next : HandlerFunc X) : Prop :=
  (forall request, bystands (next request)) /\
  (forall request w, same_listener (w_ext w) (w_ext (at_panic request w))).

(** The middlewares from the options on: which way the request goes. *)
Lemma inner_run next request w w' r :
  handler_ok next ->
  WithOptions env (WithResponseHandler (ResponseHandler env)
    (WithRecoverWithError env at_panic (WithRejectAfterDrainedWithError env next))) request w = Ret (w', r) ->
  same_listener (w_ext w) (w_ext w').
Proof.
  intros [Hnext Hpanic]. unfold WithOptions. destruct (String.eqb _ _).
  { intros E. refine (bystands_bind _ _ (bystands_emit _) _ w w' r E). intros a. apply bystands_ret. }
  unfold WithResponseHandler. intros E.
  refine (bystands_bind _ _ _ _ w w' r E).
  - clear E w w' r. intros w w' r. unfold WithRecoverWithError.
    destruct (WithRejectAfterDrainedWithError env next request w) as [[w1 a]|] eqn:Er.
    + intros [= <- <-]. revert Er. unfold WithRejectAfterDrainedWithError. run_eff.
      destruct (getDrained env (w_ext w)); [by intros [= <- _]|]. apply Hnext.
    + intros Ew. destruct (Hpanic request w) as [Hd Hi].
      assert (same_listener (w_ext (at_panic request w)) (w_ext w')) as [Hd' Hi'].
      { refine (bystands_bind _ _ (bystands_emit _) _ _ _ _ Ew). intros a. apply bystands_ret. }
      split; congruence.
  - intros [resp err]. apply bystands_bind; [apply bystands_ResponseHandler|intros; apply bystands_ret].
Qed.

(** The states that a request goes through with nothing in between; the
    handler is among them when the request may be let in. *)
Lemma path_of_one s r : listener_ok s -> ls_requests s !! r = None ->
  exists s', rtc (listener_step ctxEnds) s s' /\ ls_requests s' = ls_requests s /\ ls_drained s' = ls_drained s /\
    requestCancelMap (ls_cancellable s') = requestCancelMap (ls_cancellable s) /\
    (ls_drained s = false -> exists s1, rtc (listener_step ctxEnds) s s1 /\ serving s1 r /\ rtc (listener_step ctxEnds) s1 s').
Proof.
  intros Hok Hr. destruct s as [c d reqs n t k now]. cbn [ls_requests ls_drained ls_cancellable] in *.
  assert (requestCancelMap c !! r = None) as Hc.
  { pose proof (lo_map _ Hok) as Hm. cbn in Hm. by rewrite Hm, lookup_fmap, Hr. }
  set (at_place p := mkListener (Add c r n) d (<[r := (n, p)]> reqs) (n + 1) t k now).
  exists (mkListener (Remove (Add c r n) r) d reqs (n + 1) t k now).
  assert (rtc (listener_step ctxEnds) (mkListener c d reqs n t k now) (at_place Entering)) as Hin
    by (apply rtc_once; by apply WithCancellable_adds).
  assert (rtc (listener_step ctxEnds) (at_place Leaving) (mkListener (Remove (Add c r n) r) d reqs (n + 1) t k now)) as Hout.
  { apply rtc_once. unfold at_place. replace reqs with (delete r (<[r := (n, Leaving)]> reqs)) at 2 by (by rewrite delete_insert_id).
    apply (WithCancellable_removes _ r n), lookup_insert_eq. }
  assert (d = false -> rtc (listener_step ctxEnds) (at_place Entering) (at_place Serving)) as Hadmit.
  { intros ->. apply rtc_once. unfold at_place. rewrite <- (insert_insert_eq reqs r (n, Serving) (n, Entering)).
    apply (HasDrained_admits _ r n), lookup_insert_eq. }
  assert (rtc (listener_step ctxEnds) (at_place Serving) (at_place Leaving)) as Hserve.
  { apply rtc_once. unfold at_place. rewrite <- (insert_insert_eq reqs r (n, Leaving) (n, Serving)).
    apply (handler_returns _ r n), lookup_insert_eq. }
  split; [|split_and!; try done].
  - etransitivity; [exact Hin|]. destruct d; [|by etransitivity; [by apply Hadmit|etransitivity]].
    etransitivity; [|exact Hout]. apply rtc_once. unfold at_place. rewrite <- (insert_insert_eq reqs r (n, Leaving) (n, Entering)).
    apply (HasDrained_rejects _ r n), lookup_insert_eq.
  - cbn. by rewrite delete_insert_id.
  - intros Hd. exists (at_place Serving). split_and!; [by etransitivity; [exact Hin|apply Hadmit]| |by etransitivity].
    exists n. apply lookup_insert_eq.
Qed.

(** C26: the middlewares of a listener, as a function of the world, are what
    the transition system says of one request: whatever the handler does and
    answers, a request that is not in flight takes the listener through its
    steps, from where it was to where it leaves it, and nothing of the request
    stays behind; and either a step of the path is in the handler, or the
    outcome would have been the same with any other handler. *)
Theorem stack_is_path next request (w w' : World X) r s
    (Hnext : handler_ok next) (Hreach : reachable ctxEnds s) (Hseen : seen s (w_ext w))
    (Hfresh : ls_requests s !! address request = None)
    (Hrun : stack env at_panic address next request w = Ret (w', r)) :
  exists s', rtc (listener_step ctxEnds) s s' /\ seen s' (w_ext w') /\ ls_requests s' = ls_requests s /\
    ((exists s1, rtc (listener_step ctxEnds) s s1 /\ serving s1 (address request) /\ rtc (listener_step ctxEnds) s1 s') \/
     forall next', stack env at_panic address next' request w = Ret (w', r)).
Proof.
  apply reachable_ok in Hreach.
  destruct (path_of_one s (address request) Hreach Hfresh) as (s' & Hpath & Hreqs & Hd & Hmap & Hthrough).
  exists s'. split; [done|]. destruct Hseen as [Hsd Hsi]. split; [|split; [done|]].
  - unfold seen. rewrite Hd, Hmap. revert Hrun. unfold stack, WithMiddlewares. cbn [fold_right]. unfold WithCancellable, WithInitMetadata.
    set (inner := WithOptions _ _). unfold mbind, Eff_bind. cbn [getExt putExt modifyMeta w_meta w_req w_ext].
    set (w1 := mkWorld _ _ _). destruct (inner request w1) as [[w2 a]|] eqn:Ei; [|done].
    intros [= <- <-]. cbn [w_ext]. apply inner_run in Ei as [Hd2 Hi2]; [|done]. rewrite drained_inflight, inflight_inflight, Hd2, Hi2.
    unfold w1. cbn [w_ext]. rewrite drained_inflight, inflight_inflight, Hsd, Hsi. split; [done|].
    assert (address request ∉ dom (requestCancelMap (ls_cancellable s))).
    { rewrite (lo_map _ Hreach), dom_fmap. by apply not_elem_of_dom. }
    set_solver.
  - destruct (ls_drained s) eqn:Ed; [right|left; by apply Hthrough].
    intros next'. rewrite <- Hrun. unfold stack, WithMiddlewares. cbn [fold_right].
    assert (forall next, WithRejectAfterDrainedWithError env next request (entered env address request w)
              = Ret (entered env address request w, (None, Some (EBase NewErrorServiceUnavailable)))) as Hrej.
    { intros next0. unfold WithRejectAfterDrainedWithError. etransitivity; [eapply Eff_bind_Ret; reflexivity|].
      cbn [w_ext entered]. by rewrite drained_inflight, Hsd. }
    unfold WithCancellable, WithInitMetadata, WithOptions, WithResponseHandler, WithRecoverWithError.
    run_eff. destruct (String.eqb (hr_Method request) "OPTIONS"); [done|]. unfold entered in Hrej. by rewrite !Hrej.
Qed.
End Path.

(** ** Examples

    A request in its handler when the listener is drained, which is cancelled
    after the wait. *)
Definition ex_minute : Z := 60 * nanosPerSecond.
Definition ex_busy : listenerState :=
  mkListener (mkCancellable {[ 7 := 0 ]} ∅) false {[ 7 := (0, Serving) ]} 1 NoTimer NotCalled 0.
Definition ex_marked : listenerState :=
  mkListener (mkCancellable {[ 7 := 0 ]} ∅) true {[ 7 := (0, Serving) ]} 1 NoTimer Marked 0.
Definition ex_fired : listenerState :=
  mkListener (CancelAll (mkCancellable {[ 7 := 0 ]} ∅)) true {[ 7 := (0, Serving) ]} 1 (Fired DefaultDrainWaitTime) Waiting
    DefaultDrainWaitTime.

Lemma ex_busy_reachable : reachable ex_minute ex_busy.
Proof.
  exists 0. eapply rtc_l; [by apply (WithCancellable_adds ex_minute 7)|].
  eapply rtc_l; [apply (HasDrained_admits ex_minute 7 0); apply lookup_insert_eq|]. rewrite insert_insert_eq. constructor.
Qed.

Lemma ex_busy_marked : listener_step ex_minute ex_busy ex_marked.
Proof. apply Drain_marks. Qed.

Lemma ex_marked_fired : rtc (listener_step ex_minute) ex_marked ex_fired.
Proof.
  eapply rtc_l; [apply CancelAllAfter_starts|]. eapply rtc_l; [by apply (time_passes ex_minute DefaultDrainWaitTime)|].
  eapply rtc_l; [by apply timer_fires|]. constructor.
Qed.

Lemma drain_safe_witness :
  reachable ex_minute ex_busy /\ rtc (listener_step ex_minute) ex_busy ex_fired /\
  (ls_drained ex_busy = true -> forall r, serving ex_fired r -> serving ex_busy r) /\
  ((forall t, ls_timer ex_fired <> Fired t) -> cancelled (ls_cancellable ex_fired) = ∅) /\
  (ls_timer ex_busy = NoTimer -> forall t, ls_timer ex_fired = Fired t -> ls_now ex_busy + DefaultDrainWaitTime <= t) /\
  (forall t, ls_timer ex_fired = Fired t -> t <= ls_now ex_fired /\
     forall r i, ls_requests ex_fired !! r = Some (i, Serving) -> i ∈ cancelled (ls_cancellable ex_fired)) /\
  requestCancelMap (ls_cancellable ex_fired) = fst <$> ls_requests ex_fired.
Proof.
  assert (rtc (listener_step ex_minute) ex_busy ex_fired) as Hrun by (eapply rtc_l; [exact ex_busy_marked|exact ex_marked_fired]).
  split; [exact ex_busy_reachable|]. split; [exact Hrun|].
  exact (drain_safe ex_minute ex_busy ex_fired ex_busy_reachable Hrun).
Defined.

Lemma ex_marked_reachable : reachable ex_minute ex_marked.
Proof.
  destruct ex_busy_reachable as (now & Hrun). exists now. eapply rtc_r; [exact Hrun|exact ex_busy_marked].
Qed.

Lemma drain_ends_witness :
  inevitable (settles ex_minute)
    (fun s' => ls_requests s' = ∅ /\ requestCancelMap (ls_cancellable s') = ∅ /\ ls_drain s' = Returned) ex_marked.
Proof. apply (drain_ends ex_minute ex_marked ex_marked_reachable). discriminate. Defined.

(** The request of [Listener]'s examples, while another one is served. *)
#[local] Existing Instance ex_listener_laws.
Definition ex_other : listenerState :=
  mkListener (mkCancellable {[ 9 := 0 ]} ∅) false {[ 9 := (0, Serving) ]} 1 NoTimer NotCalled 0.
Definition ex_before : World ex_state := mkWorld InitMetadata ex_llm_request (mkExState [] false {[ 9 ]}).
Definition ex_path_run : outcome (World ex_state * (option Answer * option gerror)) :=
  stack ex_listener ex_panic ex_address ex_answers ex_http ex_before.
Definition ex_path_end : World ex_state := match ex_path_run with Ret (w, _) => w | Panic _ => ex_before end.

Lemma stack_is_path_witness :
  exists s', rtc (listener_step ex_minute) ex_other s' /\ seen ex_listener s' (w_ext ex_path_end) /\ ls_requests s' = ls_requests ex_other /\
    ((exists s1, rtc (listener_step ex_minute) ex_other s1 /\ serving s1 7 /\ rtc (listener_step ex_minute) s1 s') \/
     forall next', stack ex_listener ex_panic ex_address next' ex_http ex_before = Ret (ex_path_end, (None, None))).
Proof.
  apply (stack_is_path ex_listener ex_panic ex_address ex_minute ex_answers ex_http ex_before ex_path_end (None, None) ex_other).
  - split; [intros request; apply bystands_ret|by intros request w].
  - exists 0. eapply rtc_l; [by apply (WithCancellable_adds ex_minute 9)|].
    eapply rtc_l; [apply (HasDrained_admits ex_minute 9 0); apply lookup_insert_eq|]. rewrite insert_insert_eq. constructor.
  - split; [reflexivity|]. cbn. by rewrite dom_singleton_L.
  - reflexivity.
  - unfold ex_path_end, ex_path_run. reflexivity.
Defined.
