(* ===== verification/Kube.v ===== *)
(** * api/v1alpha1: custom resources

    The custom resources the gateway is configured with, and what the
    controllers see of Kubernetes. *)
From S2P Require Import Prelude GoFloat Json.

(** ** Objects of Kubernetes, as far as they are read *)
Record NamespacedName : Type := mkNamespacedName {
  nn_Namespace : string;
  nn_Name : string }.

Definition NamespacedName_String (n : NamespacedName) : string := nn_Namespace n +:+ "/" +:+ nn_Name n.

Record ObjectMeta : Type := mkObjectMeta {
  om_Name : string;
  om_Namespace : string;
  om_Finalizers : list string;
  om_CreationTimestamp : Z;            (* in seconds, as Unix() gives it *)
  om_DeletionTimestamp : option Z }.   (* in nanoseconds *)

Definition setFinalizers (fs : list string) (m : ObjectMeta) : ObjectMeta :=
  mkObjectMeta (om_Name m) (om_Namespace m) fs (om_CreationTimestamp m) (om_DeletionTimestamp m).

(** [metav1.Condition]; its status is a string. *)
Record Condition : Type := mkCondition {
  cond_Type : string;
  cond_Status : string;
  cond_Reason : string;
  cond_Message : string;
  cond_LastTransitionTime : Z }.

Definition ConditionTrue : string := "True".
Definition ConditionFalse : string := "False".

(** ** common_types.go *)
Definition StatusEnum : Type := string.
Definition Unknown : StatusEnum := "Unknown".
Definition Healthy : StatusEnum := "Healthy".
Definition Failed : StatusEnum := "Failed".

Record CRDHeader : Type := mkCRDHeader {
  h_Key : string;
  h_Value : string }.

Record HeaderFromSource : Type := mkHeaderFromSource {
  hf_Prefix : string;
  hf_RefType : string;
  hf_RefName : string }.

(** ** modelroute_types.go *)
Record CRDStringMatch : Type := mkCRDStringMatch {
  sm_Exact : string;
  sm_Prefix : string }.

Record RateLimitRule : Type := mkRateLimitRule {
  rule_Match : option CRDStringMatch;
  rule_Limit : Z;          (* int *)
  rule_BasedOn : string;
  rule_Duration : Z }.     (* int64, in seconds *)

Record ModelRouteRouteTargetDestination : Type := mkTargetDestination {
  td_Namespace : string;
  td_Backend : string;
  td_Weight : option Z }.  (* *int *)

Record ModelRouteRouteTarget : Type := mkModelRouteRouteTarget {
  mt_Destination : ModelRouteRouteTargetDestination }.

Record ModelRouteRoute : Type := mkModelRouteRoute {
  mrr_LoadBalancePolicy : string;
  mrr_Targets : list ModelRouteRouteTarget }.

Record ModelRouteFallback : Type := mkModelRouteFallback {
  mrf_PreDelay : option Z;     (* *int64, in seconds *)
  mrf_PostDelay : option Z;
  mrf_MaxRetires : option Z }. (* *uint64 *)

(** [RateLimitPolicy] is its [Rules], a slice of pointers. *)
Record ModelRouteFilter : Type := mkModelRouteFilter {
  mf_Name : string;
  mf_Type : string;
  mf_RateLimit : option (list (option RateLimitRule)) }.

Record ModelRouteSpec : Type := mkModelRouteSpec {
  mrs_ModelName : string;
  mrs_Filters : list ModelRouteFilter;
  mrs_Route : option ModelRouteRoute;
  mrs_Fallback : option ModelRouteFallback }.

Record ModelRouteStatusTarget : Type := mkStatusTarget {
  st_Namespace : string;
  st_Backend : string;
  st_ModelName : string;
  st_Status : StatusEnum }.

Record ModelRouteStatus : Type := mkModelRouteStatus {
  mst_Status : StatusEnum;
  mst_Conditions : list Condition;
  mst_Targets : list ModelRouteStatusTarget }.

Record ModelRoute : Type := mkModelRoute {
  mr_Meta : ObjectMeta;
  mr_Spec : ModelRouteSpec;
  mr_Status : ModelRouteStatus }.

(** ** llmbackend_types.go, imagegenerationbackend_types.go

    The two kinds of backends have the same shape, over their parameters. *)
Record BackendUpstreamOf (P : Type) : Type := mkBackendUpstream {
  bu_BaseURL : string;
  bu_Headers : list CRDHeader;
  bu_HeadersFrom : list HeaderFromSource;
  bu_DefaultParams : option P;
  bu_OverrideParams : option P;
  bu_RemoveParamKeys : list string;
  bu_Timeout : Z }.   (* int32 *)
Arguments mkBackendUpstream {P}.
Arguments bu_BaseURL {P}.
Arguments bu_Headers {P}.
Arguments bu_HeadersFrom {P}.
Arguments bu_DefaultParams {P}.
Arguments bu_OverrideParams {P}.
Arguments bu_RemoveParamKeys {P}.
Arguments bu_Timeout {P}.

Record StreamOptions : Type := mkStreamOptions { so_IncludeUsage : option bool }.

Record CommonParams : Type := mkCommonParams {
  cp_Model : string;
  cp_Temperature : option string }.

Record OpenAIParam : Type := mkOpenAIParam {
  op_CommonParams : CommonParams;
  op_MaxTokens : option Z;
  op_MaxCompletionTokens : option Z;
  op_TopP : option string;
  op_Stream : option bool;
  op_StreamOptions : option StreamOptions }.

(** [ModelParams], by its only field. *)
Record ModelParams : Type := mkModelParams { mp_OpenAI : option OpenAIParam }.

Record ImageGenerationCommonParams : Type := mkImageCommonParams {
  icp_Model : string;
  icp_Prompt : option string }.

Record OpenAIImageGenerationParam : Type := mkImageParam {
  ip_CommonParams : ImageGenerationCommonParams;
  ip_N : option string;
  ip_Quality : option string;
  ip_ResponseFormat : option string;   (* a named string type *)
  ip_Size : option string;
  ip_Style : option string;            (* a named string type *)
  ip_User : option string;
  ip_NegativePrompt : option string;
  ip_GuidanceScale : option string }.

Record ImageGenerationModelParams : Type := mkImageModelParams { imp_OpenAI : option OpenAIImageGenerationParam }.

(** [LLMBackendStatus] and [ImageGenerationBackendStatus]. *)
Record BackendStatus : Type := mkBackendStatus {
  bs_Status : StatusEnum;
  bs_Conditions : list Condition;
  bs_Endpoints : list string }.

(** The filters of a backend are only logged. *)
Record LLMBackend : Type := mkLLMBackend {
  lb_Meta : ObjectMeta;
  lb_ModelName : option string;
  lb_Provider : string;
  lb_Upstream : BackendUpstreamOf ModelParams;
  lb_Status : BackendStatus }.

(** [MeteringPolicy] and its [SizeFrom] are pointers. *)
Record ImageGenerationBackend : Type := mkImageBackend {
  ib_Meta : ObjectMeta;
  ib_ModelName : option string;
  ib_Provider : string;
  ib_Upstream : BackendUpstreamOf ImageGenerationModelParams;
  ib_MeteringPolicy : option (option string);
  ib_Status : BackendStatus }.

(** ** Objects with conditions *)
Class Reconciled (O : Type) : Type := {
  ro_Kind : string;
  ro_Meta : O -> ObjectMeta;
  ro_SetMeta : ObjectMeta -> O -> O;
  ro_Conditions : O -> list Condition;
  ro_SetConditions : list Condition -> O -> O;
  ro_Status : O -> StatusEnum;
  ro_SetStatus : StatusEnum -> O -> O }.

#[export] Instance ModelRoute_Reconciled : Reconciled ModelRoute := {|
  ro_Kind := "ModelRoute";
  ro_Meta := mr_Meta;
  ro_SetMeta m r := mkModelRoute m (mr_Spec r) (mr_Status r);
  ro_Conditions r := mst_Conditions (mr_Status r);
  ro_SetConditions cs r :=
    mkModelRoute (mr_Meta r) (mr_Spec r) (mkModelRouteStatus (mst_Status (mr_Status r)) cs (mst_Targets (mr_Status r)));
  ro_Status r := mst_Status (mr_Status r);
  ro_SetStatus s r :=
    mkModelRoute (mr_Meta r) (mr_Spec r) (mkModelRouteStatus s (mst_Conditions (mr_Status r)) (mst_Targets (mr_Status r))) |}.

#[export] Instance LLMBackend_Reconciled : Reconciled LLMBackend := {|
  ro_Kind := "LLMBackend";
  ro_Meta := lb_Meta;
  ro_SetMeta m b := mkLLMBackend m (lb_ModelName b) (lb_Provider b) (lb_Upstream b) (lb_Status b);
  ro_Conditions b := bs_Conditions (lb_Status b);
  ro_SetConditions cs b :=
    mkLLMBackend (lb_Meta b) (lb_ModelName b) (lb_Provider b) (lb_Upstream b)
      (mkBackendStatus (bs_Status (lb_Status b)) cs (bs_Endpoints (lb_Status b)));
  ro_Status b := bs_Status (lb_Status b);
  ro_SetStatus s b :=
    mkLLMBackend (lb_Meta b) (lb_ModelName b) (lb_Provider b) (lb_Upstream b)
      (mkBackendStatus s (bs_Conditions (lb_Status b)) (bs_Endpoints (lb_Status b))) |}.

#[export] Instance ImageGenerationBackend_Reconciled : Reconciled ImageGenerationBackend := {|
  ro_Kind := "ImageGenerationBackend";
  ro_Meta := ib_Meta;
  ro_SetMeta m b := mkImageBackend m (ib_ModelName b) (ib_Provider b) (ib_Upstream b) (ib_MeteringPolicy b) (ib_Status b);
  ro_Conditions b := bs_Conditions (ib_Status b);
  ro_SetConditions cs b :=
    mkImageBackend (ib_Meta b) (ib_ModelName b) (ib_Provider b) (ib_Upstream b) (ib_MeteringPolicy b)
      (mkBackendStatus (bs_Status (ib_Status b)) cs (bs_Endpoints (ib_Status b)));
  ro_Status b := bs_Status (ib_Status b);
  ro_SetStatus s b :=
    mkImageBackend (ib_Meta b) (ib_ModelName b) (ib_Provider b) (ib_Upstream b) (ib_MeteringPolicy b)
      (mkBackendStatus s (bs_Conditions (ib_Status b)) (bs_Endpoints (ib_Status b))) |}.

(** ** The client

    The answers of the API server, and the server itself, are a parameter: a
    call is a function of its state, a failure says whether the object was not
    found.  An [Update] writes the server's answer into its argument. *)
Record KubeError : Type := mkKubeError {
  ke_NotFound : bool;
  ke_Text : string }.

(** [client.IgnoreNotFound] *)
Definition IgnoreNotFound (e : KubeError) : option KubeError := if ke_NotFound e then None else Some e.

Class KubeResource (K O : Type) : Type := {
  kube_Get : NamespacedName -> K -> K * (O + KubeError);
  kube_List : K -> K * (list O + KubeError);
  kube_Update : O -> K -> K * (O * option KubeError);
  kube_StatusUpdate : O -> K -> K * option KubeError }.

(** The clock, the order of a [range] over a map with the given keys, and the
    data of Secrets ([StringData]) and ConfigMaps ([Data]). *)
Class KubeEnv (K : Type) : Type := {
  kube_Now : K -> K * Z;
  kube_RangeOrder : list string -> K -> K * list string;
  kube_GetSecret : NamespacedName -> K -> K * (gmap string string + KubeError);
  kube_GetConfigMap : NamespacedName -> K -> K * (gmap string string + KubeError) }.
