(* ===== verification/Controller.v ===== *)
(** * internal/controller: what the controllers share

    common.go, backends.go, route.go, enums.go: conditions, phases, headers,
    parameters; and the loop of [Reconcile], which the three controllers have
    in the same words. *)
From S2P Require Import Prelude Strconv Utils GoFloat Json Api Errors Request Response Effects Stream Filters.
From S2P Require Import ClusterFilters Cluster Route RouteManager Kube.

(** ** Computations of a controller

    A controller acts on the API server and on the gateway's two registers. *)
Record Gateway (K R X : Type) : Type := mkGateway {
  gw_kube : K;
  gw_routes : RouteManager R;
  gw_clusters : Register X }.
Arguments mkGateway {K R X}.
Arguments gw_kube {K R X}.
Arguments gw_routes {K R X}.
Arguments gw_clusters {K R X}.

Definition Ctl (S A : Type) : Type := S -> outcome (S * A).

#[export] Instance Ctl_ret S : MRet (Ctl S) := fun A a s => Ret (s, a).
#[export] Instance Ctl_bind S : MBind (Ctl S) := fun A B f m s =>
  match m s with Ret (s, a) => f a s | Panic msg => Panic msg end.

Definition ctl_lift {S A} (m : outcome A) : Ctl S A :=
  fun s => match m with Ret a => Ret (s, a) | Panic msg => Panic msg end.

Definition kube {K R X A} (f : K -> K * A) : Ctl (Gateway K R X) A := fun g =>
  let '(k, a) := f (gw_kube g) in Ret (mkGateway k (gw_routes g) (gw_clusters g), a).
(** An operation of the route manager, which merges the two registries in the
    order a [range] over them has. *)
Definition modifyRoutes {K R X A} `{RouteInterface R} `{KubeEnv K}
    (f : RouteManager R -> list string -> RouteManager R * A) : Ctl (Gateway K R X) A := fun g =>
  let keys := (map_to_list (uniqueRoutes (fst (f (gw_routes g) [])))).*1 in
  let '(k, order) := kube_RangeOrder keys (gw_kube g) in
  let '(r, a) := f (gw_routes g) order in Ret (mkGateway k r (gw_clusters g), a).
Definition modifyClusters {K R X A} (f : Register X -> Register X * A) : Ctl (Gateway K R X) A := fun g =>
  let '(c, a) := f (gw_clusters g) in Ret (mkGateway (gw_kube g) (gw_routes g) c, a).

(** [run_ctl]: execute the primitive operations on their state. *)
Ltac run_ctl :=
  cbv beta iota zeta delta [mbind mret Ctl_bind Ctl_ret ctl_lift kube modifyRoutes modifyClusters];
  cbn [gw_kube gw_routes gw_clusters].

(** ** enums.go *)
Definition ProviderOpenAI : string := "OpenAI".
Definition ProviderVLLM : string := "vLLM".
Definition ProviderOllama : string := "Ollama".

(** A missing key of a Go map is the zero value. *)
Definition MapClusterProviderToBackendProvider (provider : ClusterProvider) : string :=
  match provider with
  | OPEN_AI => ProviderOpenAI
  | VLLM => ProviderVLLM
  | OLLAMA => ProviderOllama
  | _ => ""
  end.

Definition MapBackendProviderToClusterProvider (provider : string) : ClusterProvider :=
  if String.eqb provider ProviderOpenAI then OPEN_AI
  else if String.eqb provider ProviderVLLM then VLLM
  else if String.eqb provider ProviderOllama then OLLAMA
  else CLUSTER_PROVIDER_UNSPECIFIED.

Definition SizeFromInput : string := "Input".
Definition SizeFromOutput : string := "Output".
Definition SizeFromGreatest : string := "Greatest".

Definition MapClusterSizeFromBackendSizeFrom (sizeFrom : option SizeFrom) : option string :=
  match sizeFrom with None => None | Some _ => Some "" end.

Definition MapBackendSizeFromClusterSizeFrom (sizeFrom : option string) : option SizeFrom :=
  match sizeFrom with
  | None => None
  | Some s =>
      Some (if String.eqb s SizeFromInput then SIZE_FROM_INPUT
            else if String.eqb s SizeFromOutput then SIZE_FROM_OUTPUT
            else if String.eqb s SizeFromGreatest then SIZE_FROM_GREATEST
            else SIZE_FROM_UNSPECIFIED)
  end.

Definition LoadBalancePolicyWeightedRoundRobin : string := "WeightedRoundRobin".
Definition LoadBalancePolicyWeightedLeastRequest : string := "WeightedLeastRequest".

Definition MapConfigLoadBalancePolicyCRDLoadBalancePolicy (policy : RouteLoadBalancePolicy) : string :=
  match policy with
  | LB_LEAST_REQUEST => LoadBalancePolicyWeightedLeastRequest
  | LB_ROUND_ROBIN => LoadBalancePolicyWeightedRoundRobin
  | _ => ""
  end.

Definition MapCRDLoadBalancePolicyModelConfigLoadBalancePolicy (policy : string) : RouteLoadBalancePolicy :=
  if String.eqb policy LoadBalancePolicyWeightedLeastRequest then LB_LEAST_REQUEST
  else if String.eqb policy LoadBalancePolicyWeightedRoundRobin then LB_ROUND_ROBIN
  else LB_UNSPECIFIED.

Definition ModelRouteRateLimitBasedOnAPIKey : string := "APIKey".
Definition ModelRouteRateLimitBasedOnUserID : string := "UserID".

Definition MapConfigRateLimitBaseOnCRDRateLimitBaseOn (baseOn : RateLimitBaseOn) : string :=
  match baseOn with
  | USER_ID => ModelRouteRateLimitBasedOnUserID
  | API_KEY => ModelRouteRateLimitBasedOnAPIKey
  | _ => ""
  end.

Definition MapCRDRateLimitBaseOnConfigRateLimitBaseOn (baseOn : string) : RateLimitBaseOn :=
  if String.eqb baseOn ModelRouteRateLimitBasedOnUserID then USER_ID
  else if String.eqb baseOn ModelRouteRateLimitBasedOnAPIKey then API_KEY
  else BASE_ON_UNSPECIFIED.

(** ** backends.go *)
Inductive Backend : Type :=
| BackendFromLLMBackend (b : LLMBackend)
| BackendFromImageGenerationBackend (b : ImageGenerationBackend).

(** [modelNameOrNamespacedName] at either kind of backend. *)
Definition modelNameOrNamespacedName (specModelName : option string) (meta : ObjectMeta) : string :=
  match specModelName with
  | Some n => n
  | None => om_Namespace meta +:+ "/" +:+ om_Name meta
  end.

Definition LLMBackend_GetModelName (b : LLMBackend) : string := modelNameOrNamespacedName (lb_ModelName b) (lb_Meta b).
Definition ImageGenerationBackend_GetModelName (b : ImageGenerationBackend) : string :=
  modelNameOrNamespacedName (ib_ModelName b) (ib_Meta b).

Definition GetModelName (b : Backend) : string :=
  match b with
  | BackendFromLLMBackend b => LLMBackend_GetModelName b
  | BackendFromImageGenerationBackend b => ImageGenerationBackend_GetModelName b
  end.

Definition GetBackendStatus (b : Backend) : StatusEnum :=
  match b with
  | BackendFromLLMBackend b => bs_Status (lb_Status b)
  | BackendFromImageGenerationBackend b => bs_Status (ib_Status b)
  end.

(** ** common.go: conditions *)
Definition graceDeletePeriod : Z := 600 * nanosPerSecond.

Definition sameCondition (c d : Condition) : bool :=
  String.eqb (cond_Type c) (cond_Type d) && String.eqb (cond_Status c) (cond_Status d)
  && String.eqb (cond_Reason c) (cond_Reason d) && String.eqb (cond_Message c) (cond_Message d).

(** The loops over two slices that were found to have the same length. *)
Fixpoint allSame {A} (same : A -> A -> bool) (l k : list A) : bool :=
  match l, k with
  | a :: l, b :: k => same a b && allSame same l k
  | _, _ => true
  end.

Definition statusEqual (conds1 conds2 : list Condition) (status1 status2 : StatusEnum) : bool :=
  if negb (len conds1 =? len conds2) then false
  else if negb (allSame sameCondition conds1 conds2) then false
  else String.eqb status1 status2.

Definition sameTarget (t u : ModelRouteStatusTarget) : bool :=
  String.eqb (st_Namespace t) (st_Namespace u) && String.eqb (st_Backend t) (st_Backend u)
  && String.eqb (st_ModelName t) (st_ModelName u) && String.eqb (st_Status t) (st_Status u).

Definition routeStatusEqual (s1 s2 : ModelRouteStatus) : bool :=
  if negb (statusEqual (mst_Conditions s1) (mst_Conditions s2) (mst_Status s1) (mst_Status s2)) then false
  else if negb (len (mst_Targets s1) =? len (mst_Targets s2)) then false
  else allSame sameTarget (mst_Targets s1) (mst_Targets s2).

(** The new conditions, at the time [now]. *)
Definition setCondition (now : Z) (typ : string) (ready : bool) (message : string) (conds : list Condition)
    : list Condition :=
  let cs := if ready then ConditionTrue else ConditionFalse in
  let newCond := mkCondition typ cs typ message now in
  match list_find (fun cond => cond_Type cond = typ) conds with
  | None => conds ++ [newCond]
  | Some (index, old) =>
      if String.eqb (cond_Status old) (cond_Status newCond) && String.eqb (cond_Message old) (cond_Message newCond)
      then conds else <[index := newCond]> conds
  end.

(** ** The three [Reconcile]s

    The handlers share the object by pointer: each returns it as it left it. *)
Definition KnowayFinalzer : string := "knoway.dev".
Definition deleteCondPrefix : string := "delete-".
Definition condConfig : string := "config".
Definition condValidator : string := "validator".
Definition condUpstreamHealthy : string := "upstreamHealthy".
Definition condDestinationHealthy : string := "destinationHealthy".
Definition condRegister : string := "register".
Definition condFinalDelete : string := "finalDelete".

Definition kube_error (e : KubeError) : gerror := EPlain (ke_Text e).

Section Reconciling.
Context {K R X O : Type} `{Reconciled O} `{KubeResource K O} `{KubeEnv K}.
Abbreviation S := (Gateway K R X).

Record reconcileHandler : Type := mkHandler {
  rh_typ : string;
  rh_reconciler : O -> Ctl S (O * option gerror) }.

Definition isDeleted (o : O) : bool := bool_decide (is_Some (om_DeletionTimestamp (ro_Meta o))).

Definition shouldForceDelete (o : O) : Ctl S bool :=
  match om_DeletionTimestamp (ro_Meta o) with
  | None => mret false
  | Some t => now ← kube kube_Now; mret (t + graceDeletePeriod <? now)
  end.

Definition setStatusCondition (typ : string) (ready : bool) (message : string) (o : O) : Ctl S O :=
  now ← kube kube_Now;
  mret (ro_SetConditions (setCondition now typ ready message (ro_Conditions o)) o).

Fixpoint reconcileLoop (rrs : list reconcileHandler) (o : O) : Ctl S O :=
  match rrs with
  | [] => mret o
  | rr :: rrs =>
      '(o, err) ← rh_reconciler rr o;
      match err with
      | Some e =>
          force ← (if isDeleted o then shouldForceDelete o else mret false);
          if (force : bool) then reconcileLoop rrs o
          else text ← ctl_lift (ErrorText e); setStatusCondition (rh_typ rr) false text o
      | None => o ← setStatusCondition (rh_typ rr) true "" o; reconcileLoop rrs o
      end
  end.

(** The result: the delay after which to come back, 0 for none. *)
Definition Reconcile (getReconciles getDeleteReconciles : list reconcileHandler) (reconcilePhase : O -> O)
    (sameStatus : O -> O -> bool) (withStatusOf : O -> O -> O) (req : NamespacedName)
    : Ctl S (Z * option KubeError) :=
  r ← kube (kube_Get req);
  match r with
  | inr e => mret (0, IgnoreNotFound e)
  | inl current =>
      let rrs := if isDeleted current then getDeleteReconciles else getReconciles in
      current ← reconcileLoop rrs (ro_SetConditions [] current);
      let current := reconcilePhase current in
      let after := if String.eqb (ro_Status current) Failed then 30 * nanosPerSecond else 0 in
      r ← kube (kube_Get req);
      match r with
      | inr e => mret (0, IgnoreNotFound e)
      | inl new =>
          if sameStatus current new then mret (after, None)
          else
            err ← kube (kube_StatusUpdate (withStatusOf current new));
            match err with
            | Some e => mret (0, IgnoreNotFound e)
            | None => mret (after, None)
            end
      end
  end.

Definition reconcileConfig (o : O) : Ctl S (O * option gerror) :=
  if len (om_Finalizers (ro_Meta o)) =? 0 then
    let o := ro_SetMeta (setFinalizers [KnowayFinalzer] (ro_Meta o)) o in
    '(_, err) ← kube (kube_Update o);   (* of a copy *)
    mret (o, kube_error <$> err)
  else mret (o, None).

Definition deleteNotReady (con : Condition) : bool :=
  Contains (cond_Type con) deleteCondPrefix && String.eqb (cond_Status con) ConditionFalse.

Definition reconcileFinalDelete (o : O) : Ctl S (O * option gerror) :=
  let canDelete := negb (existsb deleteNotReady (ro_Conditions o)) in
  refuse ← (if canDelete then mret false else force ← shouldForceDelete o; mret (negb force));
  if (refuse : bool) then mret (o, Some (EPlain "have delete condition not ready"))
  else
    let o := ro_SetMeta (setFinalizers [] (ro_Meta o)) o in
    '(o, err) ← kube (kube_Update o);
    mret (o, kube_error <$> err).
End Reconciling.
Arguments reconcileHandler K R X O : clear implicits.

(** ** common.go: phases *)
Definition someConditionFalse (conds : list Condition) : bool :=
  existsb (fun cond => String.eqb (cond_Status cond) ConditionFalse) conds.

Definition reconcileBackendPhase {O} `{Reconciled O} (b : O) : O :=
  let b := ro_SetStatus Healthy b in
  if isDeleted b then ro_SetStatus Healthy b
  else if someConditionFalse (ro_Conditions b) then ro_SetStatus Failed b else b.

Definition reconcileModelRoutePhase (modelRoute : ModelRoute) : ModelRoute :=
  let modelRoute := ro_SetStatus Healthy modelRoute in
  if isDeleted modelRoute then ro_SetStatus Healthy modelRoute
  else if someConditionFalse (ro_Conditions modelRoute) then ro_SetStatus Failed modelRoute
  else if existsb (fun target => String.eqb (st_Status target) Failed) (mst_Targets (mr_Status modelRoute))
  then ro_SetStatus Failed modelRoute
  else modelRoute.

(** ** Lemmas *)

(** What a status says, the times aside. *)
Definition reported (c : Condition) : string * string * string * string :=
  (cond_Type c, cond_Status c, cond_Reason c, cond_Message c).
Definition report (typ : string) (ready : bool) (message : string) : string * string * string * string :=
  (typ, if ready then ConditionTrue else ConditionFalse, typ, message).

Lemma sameCondition_spec c d : sameCondition c d = true <-> reported c = reported d.
Proof.
  unfold sameCondition, reported. rewrite !andb_true_iff, !String.eqb_eq. split; [|naive_solver].
  intros (((-> & ->) & ->) & ->). done.
Qed.

Lemma sameTarget_spec t u : sameTarget t u = true <-> t = u.
Proof.
  unfold sameTarget. rewrite !andb_true_iff, !String.eqb_eq. destruct t, u; simpl. split; [|naive_solver].
  by intros (((-> & ->) & ->) & ->).
Qed.

Lemma allSame_spec {A B} (f : A -> B) (same : A -> A -> bool) l k :
  (forall a b, same a b = true <-> f a = f b) -> len l = len k ->
  allSame same l k = true <-> map f l = map f k.
Proof.
  intros Hs. unfold len. intros Hlen%Nat2Z.inj. revert k Hlen.
  induction l as [|a l IH]; intros [|b k]; simpl; try done. intros [= Hlen].
  rewrite andb_true_iff, Hs, IH by done. split; [intros [-> ->]; done | by intros [= -> ->]].
Qed.

(** Slices are compared by their lengths first. *)
Lemma sameSlices_spec {A B} (f : A -> B) (same : A -> A -> bool) l k :
  (forall a b, same a b = true <-> f a = f b) ->
  (len l =? len k) && allSame same l k = true <-> map f l = map f k.
Proof.
  intros Hs. rewrite andb_true_iff, Z.eqb_eq. split.
  - intros [Hlen H]. by apply (allSame_spec f same).
  - intros H. assert (len l = len k) as Hlen by (unfold len; by rewrite <- (length_map f l), H, length_map).
    split; [done|]. by apply (allSame_spec f same).
Qed.

Lemma statusEqual_spec conds1 conds2 status1 status2 :
  statusEqual conds1 conds2 status1 status2 = true <->
  map reported conds1 = map reported conds2 /\ status1 = status2.
Proof.
  rewrite <- (sameSlices_spec reported sameCondition), andb_true_iff by exact sameCondition_spec.
  unfold statusEqual. destruct (len conds1 =? len conds2), (allSame sameCondition conds1 conds2); simpl;
    rewrite ?String.eqb_eq; intuition congruence.
Qed.

(** A new condition type is appended. *)
Lemma setCondition_new now typ ready message conds :
  typ ∉ map cond_Type conds ->
  map reported (setCondition now typ ready message conds) = map reported conds ++ [report typ ready message].
Proof.
  intros Hnew. unfold setCondition.
  destruct (list_find _ conds) as [[i old]|] eqn:E.
  - apply list_find_Some in E as (Hi & <- & _). exfalso. apply Hnew.
    apply list_elem_of_fmap. exists old. split; [done|]. by eapply list_elem_of_lookup_2.
  - by rewrite map_app.
Qed.

Lemma setCondition_types now typ ready message conds :
  typ ∉ map cond_Type conds ->
  map cond_Type (setCondition now typ ready message conds) = map cond_Type conds ++ [typ].
Proof.
  intros Hnew. apply (setCondition_new now typ ready message) in Hnew.
  apply (f_equal (map (fun r => fst (fst (fst r))))) in Hnew. rewrite map_app, !map_map in Hnew. exact Hnew.
Qed.

(** The setters of an object change what they set. *)
Class ReconciledLaws (O : Type) `{Reconciled O} : Prop := {
  conditions_set cs (o : O) : ro_Conditions (ro_SetConditions cs o) = cs;
  meta_set_conditions cs (o : O) : ro_Meta (ro_SetConditions cs o) = ro_Meta o;
  conditions_set_meta m (o : O) : ro_Conditions (ro_SetMeta m o) = ro_Conditions o;
  meta_set m (o : O) : ro_Meta (ro_SetMeta m o) = m;
  status_set s (o : O) : ro_Status (ro_SetStatus s o) = s;
  meta_set_status s (o : O) : ro_Meta (ro_SetStatus s o) = ro_Meta o;
  conditions_set_status s (o : O) : ro_Conditions (ro_SetStatus s o) = ro_Conditions o }.

#[export] Instance ModelRoute_laws : ReconciledLaws ModelRoute.
Proof. split; done. Qed.
#[export] Instance LLMBackend_laws : ReconciledLaws LLMBackend.
Proof. split; done. Qed.
#[export] Instance ImageGenerationBackend_laws : ReconciledLaws ImageGenerationBackend.
Proof. split; done. Qed.

Ltac reconciled := repeat first [rewrite conditions_set | rewrite meta_set_conditions | rewrite conditions_set_meta
  | rewrite meta_set | rewrite status_set | rewrite meta_set_status | rewrite conditions_set_status].

(** [inv_ctl H]: advance an equation on a run of a controller to its result. *)
Ltac inv_ctl H :=
  repeat first
    [ progress (cbv beta iota zeta delta [mbind mret Ctl_bind Ctl_ret ctl_lift kube modifyClusters] in H;
                cbn [gw_kube gw_routes gw_clusters fst snd] in H)
    | discriminate H
    | match type of H with
      | context [match ?m with Ret _ => _ | Panic _ => _ end] =>
          let E := fresh "E" in destruct m as [[? ?]|] eqn:E; [|discriminate H]
      | context [let '(_, _) := ?p in _] => let E := fresh "E" in destruct p as [? ?] eqn:E
      end ].

Section Loop.
Context {K R X O : Type} `{ReconciledLaws O} `{KubeResource K O} `{KubeEnv K}.
Abbreviation S := (Gateway K R X).

(** The two states differ in the API server only. *)
Definition same_registers (g h : S) : Prop := gw_routes g = gw_routes h /\ gw_clusters g = gw_clusters h.

Lemma kube_registers {A} (f : K -> K * A) (g h : S) a : kube f g = Ret (h, a) -> same_registers h g.
Proof. unfold kube. destruct (f (gw_kube g)). by intros [= <- _]. Qed.

Lemma setStatusCondition_run typ ready message (o o' : O) (g g' : S) :
  setStatusCondition typ ready message o g = Ret (g', o') ->
  same_registers g' g /\ exists now, o' = ro_SetConditions (setCondition now typ ready message (ro_Conditions o)) o.
Proof.
  unfold setStatusCondition. run_ctl. destruct (kube_Now (gw_kube g)) as [k now]. intros [= <- <-].
  split; [done | by exists now].
Qed.

(** One turn of the loop on an object that is not being deleted. *)
Lemma reconcileLoop_step rr rrs (o o' : O) (g g' : S) :
  reconcileLoop (rr :: rrs) o g = Ret (g', o') ->
  exists g1 o1 err, rh_reconciler rr o g = Ret (g1, (o1, err)) /\
  (isDeleted o1 = false ->
   match err with
   | None => exists g2 o2, setStatusCondition (rh_typ rr) true "" o1 g1 = Ret (g2, o2) /\
       reconcileLoop rrs o2 g2 = Ret (g', o')
   | Some e => exists text now, ErrorText e = Ret text /\ same_registers g' g1 /\
       o' = ro_SetConditions (setCondition now (rh_typ rr) false text (ro_Conditions o1)) o1
   end).
Proof.
  cbn [reconcileLoop]. unfold mbind at 1, Ctl_bind at 1.
  destruct (rh_reconciler rr o g) as [[g1 [o1 err]]|]; [|done]. intros Hrun.
  exists g1, o1, err. split; [done|]. intros Hlive. destruct err as [e|].
  - rewrite Hlive in Hrun. revert Hrun. run_ctl. destruct (ErrorText e) as [text|]; [|done].
    intros Hrun. apply setStatusCondition_run in Hrun as [Hs [now ->]]. by exists text, now.
  - revert Hrun. unfold mbind, Ctl_bind.
    destruct (setStatusCondition (rh_typ rr) true "" o1 g1) as [[g2 o2]|]; [|done]. intros Hrun. by exists g2, o2.
Qed.
End Loop.

(** ** Computations that leave the registers alone *)
Section Reads.
Context {K R X : Type}.
Abbreviation S := (Gateway K R X).

Definition reads {A} (m : Ctl S A) : Prop := forall g g' a, m g = Ret (g', a) -> same_registers g' g.

Lemma reads_ret {A} (a : A) : reads (mret a).
Proof. by intros g g' b [= <- _]. Qed.

Lemma reads_kube {A} (f : K -> K * A) : reads (kube f).
Proof. intros g g' a H. by eapply kube_registers. Qed.

Lemma reads_lift {A} (m : outcome A) : reads (ctl_lift m).
Proof. intros g g' a. unfold ctl_lift. destruct m; [|done]. by intros [= <- _]. Qed.

Lemma reads_bind {A B} (m : Ctl S A) (f : A -> Ctl S B) :
  reads m -> (forall a, reads (f a)) -> reads (m ≫= f).
Proof.
  intros Hm Hf g g' b. unfold mbind, Ctl_bind. destruct (m g) as [[h a]|] eqn:E; [|done].
  intros E'. apply Hf in E'. apply Hm in E. destruct E, E'. split; congruence.
Qed.
End Reads.
#[export] Hint Resolve reads_ret reads_kube reads_lift reads_bind : knoway.

(** [reads]: by the structure of the computation. *)
Ltac reads :=
  repeat first
    [ progress intros | solve [auto with knoway] | apply reads_bind
    | match goal with |- reads (match ?x with _ => _ end) => destruct x end
    | match goal with |- reads (let '(_, _) := ?x in _) => destruct x end ].

Section Shared.
Context {K R X O : Type} `{ReconciledLaws O} `{KubeResource K O} `{KubeEnv K}.
Abbreviation S := (Gateway K R X).

Lemma reads_shouldForceDelete (o : O) : reads (shouldForceDelete (R := R) (X := X) o).
Proof. unfold shouldForceDelete. reads. Qed.

Lemma reads_reconcileConfig (o : O) : reads (reconcileConfig (R := R) (X := X) o).
Proof. unfold reconcileConfig. reads. Qed.

(** Only the finalizers change. *)
Lemma reconcileConfig_run (o o' : O) (g g' : S) err :
  reconcileConfig o g = Ret (g', (o', err)) ->
  o' = o \/ o' = ro_SetMeta (setFinalizers [KnowayFinalzer] (ro_Meta o)) o.
Proof.
  unfold reconcileConfig. destruct (_ =? 0).
  - run_ctl. destruct (kube_Update _ _) as [k [o1 e]]. intros [= _ <- _]. by right.
  - intros [= _ <- _]. by left.
Qed.
End Shared.
#[export] Hint Resolve reads_shouldForceDelete reads_reconcileConfig : knoway.

(** ** The route manager under the controllers

    The order of a [range] is some order of the keys. *)
Class KubeLaws (K : Type) `{KubeEnv K} : Prop := {
  range_order keys k k' order : kube_RangeOrder keys k = (k', order) -> order ≡ₚ keys }.

Section Routes.
Context {K R X : Type} `{RouteInterface R} `{KubeLaws K}.
Abbreviation S := (Gateway K R X).

Lemma uniqueRoutes_order (s : RouteManager R) o1 o2 op : uniqueRoutes (rm_exec s o1 op) = uniqueRoutes (rm_exec s o2 op).
Proof.
  rewrite !uniqueRoutes_union. destruct op as [cfg|n|cfg|n]; simpl; try done.
  - unfold RegisterMatchRouteWithConfig. by destruct (route_New cfg).
  - unfold RegisterBaseRouteWithConfig. destruct (route_New cfg); [|done]. cbn zeta. cbn [matchRouteRegistry].
    by destruct (matchRouteRegistry s !! route_name cfg).
Qed.

(** What a controller does to the routes is a step of the manager. *)
Lemma modifyRoutes_step {A} (op : rm_op) (f : RouteManager R -> list string -> RouteManager R * A) (g g' : S) a :
  (forall s order, fst (f s order) = rm_exec s order op) ->
  modifyRoutes f g = Ret (g', a) ->
  rm_step (gw_routes g) op (gw_routes g') /\ gw_clusters g' = gw_clusters g /\
  exists order, a = snd (f (gw_routes g) order).
Proof.
  intros Hf. unfold modifyRoutes. cbn zeta. rewrite Hf.
  destruct (kube_RangeOrder _ (gw_kube g)) as [k order] eqn:E. apply range_order in E.
  specialize (Hf (gw_routes g) order). destruct (f (gw_routes g) order) as [r b] eqn:Ef. simpl in Hf.
  intros [= <- <-]. cbn [gw_routes gw_clusters]. split; [|split; [done|exists order; by rewrite Ef]].
  rewrite Hf. constructor. unfold key_order. by rewrite (uniqueRoutes_order _ order []).
Qed.

Lemma modifyRoutes_total {A} (f : RouteManager R -> list string -> RouteManager R * A) (g : S) :
  exists g' a, modifyRoutes f g = Ret (g', a).
Proof.
  unfold modifyRoutes. destruct (kube_RangeOrder _ _) as [k order].
  destruct (f (gw_routes g) order) as [r a]. eauto.
Qed.

Lemma rm_step_registries (s s' : RouteManager R) op :
  rm_step s op s' ->
  (matchRouteRegistry s', routeRegistry s') = spec_registries (matchRouteRegistry s, routeRegistry s) op.
Proof.
  destruct 1 as [s op order _]. destruct op as [cfg|n|cfg|n]; simpl; try done.
  - unfold RegisterMatchRouteWithConfig. by destruct (route_New cfg).
  - unfold RegisterBaseRouteWithConfig. destruct (route_New cfg); [|done]. cbn zeta. cbn [matchRouteRegistry].
    by destruct (matchRouteRegistry s !! route_name cfg).
Qed.
End Routes.

(** ** The loop on an object that is not being deleted

    [P l] holds where the handlers [l] are still to run, [Q l] where the first
    of [l] has failed. *)
Section Shape.
Context {K R X O : Type} `{ReconciledLaws O} `{KubeResource K O} `{KubeEnv K}.
Abbreviation S := (Gateway K R X).
Variables P Q : list (reconcileHandler K R X O) -> O -> S -> Prop.
Hypothesis P_kept : forall l o cs g g', P l o g -> same_registers g' g -> P l (ro_SetConditions cs o) g'.
Hypothesis Q_kept : forall l o cs g g', Q l o g -> same_registers g' g -> Q l (ro_SetConditions cs o) g'.
Hypothesis P_step : forall rr l o g o1 g1 err, P (rr :: l) o g -> rh_reconciler rr o g = Ret (g1, (o1, err)) ->
  isDeleted o1 = false /\ ro_Conditions o1 = ro_Conditions o /\
  match err with None => P l o1 g1 | Some _ => Q (rr :: l) o1 g1 end.

(** The handlers [l] have succeeded in turn, from one object and state to
    another. *)
Inductive succeeded : list (reconcileHandler K R X O) -> O -> S -> O -> S -> Prop :=
| succeeded_none o g : succeeded [] o g o g
| succeeded_next rr l o g o1 g1 o2 g2 o' g' :
    rh_reconciler rr o g = Ret (g1, (o1, None)) ->
    setStatusCondition (rh_typ rr) true "" o1 g1 = Ret (g2, o2) ->
    succeeded l o2 g2 o' g' -> succeeded (rr :: l) o g o' g'.

Lemma succeeded_app l k o g o' g' :
  succeeded (l ++ k) o g o' g' -> exists o1 g1, succeeded l o g o1 g1 /\ succeeded k o1 g1 o' g'.
Proof.
  revert o g. induction l as [|rr l IH]; intros o g Hrun; cbn [app] in Hrun.
  { exists o, g. split; [constructor|done]. }
  inversion Hrun as [|? ? ? ? oa ga ob gb ? ? E1 E2 Hl]; subst. apply IH in Hl as (o1 & g1 & Hl & Hk).
  exists o1, g1. split; [by econstructor|done].
Qed.

Lemma succeeded_P l k : forall o g o1 g1, P (l ++ k) o g -> succeeded l o g o1 g1 -> P k o1 g1.
Proof.
  induction l as [|rr l IH]; intros o g o' g' HP Hrun; inversion Hrun as [|? ? ? ? oa ga ob gb ? ? E1 E2 Hl]; subst; [done|].
  eapply IH; [|exact Hl]. apply (P_step rr (l ++ k) o g oa ga None HP) in E1 as (_ & _ & HPa).
  apply setStatusCondition_run in E2 as [Hreg [now ->]]. by eapply P_kept.
Qed.

(** The conditions of a loop that stopped at the head of [failed]. *)
Definition stopped (passed failed : list string) (text : string) : list (string * string * string * string) :=
  map (fun t => report t true "") passed ++ match failed with [] => [] | t :: _ => [report t false text] end.

Lemma setCondition_report now typ ready message conds passed :
  map reported conds = map (fun t => report t true "") passed -> typ ∉ passed ->
  map reported (setCondition now typ ready message conds)
  = map (fun t => report t true "") passed ++ [report typ ready message].
Proof.
  intros Hc Hnew. rewrite <- Hc. apply setCondition_new. intros Hin. apply Hnew.
  apply (f_equal (map (fun r => fst (fst (fst r))))) in Hc. rewrite !map_map in Hc. simpl in Hc.
  rewrite map_id in Hc. by rewrite <- Hc.
Qed.

Lemma reconcileLoop_shape rrs : forall passed o o' g g',
  P rrs o g -> map reported (ro_Conditions o) = map (fun t => report t true "") passed ->
  NoDup (passed ++ map rh_typ rrs) ->
  reconcileLoop rrs o g = Ret (g', o') ->
  exists ran failed text, rrs = ran ++ failed /\
    map reported (ro_Conditions o') = stopped (passed ++ map rh_typ ran) (map rh_typ failed) text /\
    match failed with [] => P [] o' g' | _ => Q failed o' g' end /\
    exists o1 g1, succeeded ran o g o1 g1 /\
      match failed with
      | [] => o' = o1 /\ g' = g1
      | rr :: _ => exists o2 g2 e, rh_reconciler rr o1 g1 = Ret (g2, (o2, Some e)) /\ same_registers g' g2
      end.
Proof.
  induction rrs as [|rr rrs IH]; intros passed o o' g g' HP Hc Hnd Hrun.
  - injection Hrun as <- <-. exists [], [], "". unfold stopped. simpl. rewrite !app_nil_r.
    do 3 (split; [done|]). exists o, g. split; [constructor|done].
  - apply reconcileLoop_step in Hrun as (g1 & o1 & err & Hr & Hnext).
    pose proof (P_step rr rrs o g o1 g1 err HP Hr) as (Hlive & Hsame & Herr). specialize (Hnext Hlive).
    assert (rh_typ rr ∉ passed) as Hnew.
    { apply NoDup_app in Hnd as (_ & Hd & _). intros Hin. apply (Hd _ Hin). by left. }
    rewrite <- Hsame in Hc. destruct err as [e|].
    + destruct Hnext as (text & now & _ & Hreg & ->). exists [], (rr :: rrs), text. split; [done|]. split; [|split].
      * rewrite conditions_set. unfold stopped. simpl. rewrite app_nil_r. by apply setCondition_report.
      * by eapply Q_kept.
      * exists o, g. split; [constructor|]. by exists o1, g1, e.
    + destruct Hnext as (g2 & o2 & Hset & Hrun). pose proof Hset as [Hreg [now ->]]%setStatusCondition_run.
      apply (IH (passed ++ [rh_typ rr])) in Hrun as (ran & failed & text & -> & Hrep & HPQ & o3 & g3 & Hran & Hend).
      * exists (rr :: ran), failed, text. split; [done|]. split; [rewrite Hrep; by rewrite <- app_assoc|]. split; [done|].
        exists o3, g3. split; [by econstructor|done].
      * by eapply P_kept.
      * rewrite conditions_set, map_app. by apply setCondition_report.
      * by rewrite <- app_assoc.
Qed.
End Shape.

(** ** Deletion *)
Lemma setCondition_true_ready now typ message conds :
  existsb deleteNotReady conds = false -> existsb deleteNotReady (setCondition now typ true message conds) = false.
Proof.
  intros Hc. unfold setCondition.
  assert (deleteNotReady (mkCondition typ ConditionTrue typ message now) = false) as Hnew
    by (unfold deleteNotReady; simpl; by rewrite andb_false_r).
  destruct (list_find _ conds) as [[i old]|] eqn:E; [|by rewrite existsb_app, Hc; simpl; rewrite Hnew].
  destruct (_ && _); [done|]. apply list_find_Some in E as (Hi & _ & _).
  clear -Hc Hnew. revert i. induction conds as [|c conds IH]; intros [|i]; simpl in *; [done..| |];
    apply orb_false_iff in Hc as [Hc1 Hc2]; apply orb_false_iff; auto.
Qed.

Section Deletion.
Context {K R X O : Type} `{ReconciledLaws O} `{KubeResource K O} `{KubeEnv K}.
Abbreviation S := (Gateway K R X).

(** [set_run]: the clock is all that a new condition asks. *)
Lemma setStatusCondition_total typ ready message (o : O) (g : S) :
  setStatusCondition typ ready message o g
  = Ret (mkGateway (fst (kube_Now (gw_kube g))) (gw_routes g) (gw_clusters g),
         ro_SetConditions (setCondition (snd (kube_Now (gw_kube g))) typ ready message (ro_Conditions o)) o).
Proof. unfold setStatusCondition. run_ctl. by destruct (kube_Now (gw_kube g)). Qed.

(** A successful handler of the loop. *)
Lemma reconcileLoop_ok rr rrs (o o1 : O) (g g1 : S) :
  rh_reconciler rr o g = Ret (g1, (o1, None)) ->
  reconcileLoop (rr :: rrs) o g
  = reconcileLoop rrs
      (ro_SetConditions (setCondition (snd (kube_Now (gw_kube g1))) (rh_typ rr) true "" (ro_Conditions o1)) o1)
      (mkGateway (fst (kube_Now (gw_kube g1))) (gw_routes g1) (gw_clusters g1)).
Proof.
  intros Hr. cbn [reconcileLoop]. unfold mbind at 1, Ctl_bind at 1. rewrite Hr.
  unfold mbind, Ctl_bind. by rewrite setStatusCondition_total.
Qed.

(** The last handler: whatever the update answers, only the clock is asked
    afterwards. *)
Lemma finalDelete_last (P : K -> Prop) typ (o : O) (g : S) :
  existsb deleteNotReady (ro_Conditions o) = false ->
  P (fst (kube_Update (ro_SetMeta (setFinalizers [] (ro_Meta o)) o) (gw_kube g))) ->
  (forall k, P k -> P (fst (kube_Now k))) ->
  exists g' o', reconcileLoop [mkHandler typ reconcileFinalDelete] o g = Ret (g', o') /\
    same_registers g' g /\ P (gw_kube g').
Proof.
  intros Hready HP Hnow. cbn [reconcileLoop]. cbn [rh_reconciler rh_typ]. unfold reconcileFinalDelete. rewrite Hready. cbn [negb].
  run_ctl. destruct (kube_Update _ _) as [k [o1 [e|]]]; simpl in HP |- *.
  - assert (forall (o2 : O) (h : S), P (gw_kube h) -> same_registers h g ->
              exists g' o', setStatusCondition typ false (ke_Text e) o2 h = Ret (g', o') /\
                same_registers g' g /\ P (gw_kube g')) as Hset.
    { intros o2 h Hh Hreg. rewrite setStatusCondition_total. eexists _, _. split; [done|]. split; [done|]. by apply Hnow. }
    unfold isDeleted, shouldForceDelete. destruct (om_DeletionTimestamp (ro_Meta o1)) as [t|] eqn:Et; simpl.
    + run_ctl. pose proof (Hnow _ HP) as Hk1. destruct (kube_Now k) as [k1 now]. simpl in Hk1.
      destruct (t + graceDeletePeriod <? now); [by eexists _, _|]. by apply Hset.
    + by apply Hset.
  - rewrite setStatusCondition_total. eexists _, _. split; [done|]. split; [done|]. by apply Hnow.
Qed.
End Deletion.

(** ** A small API server, for the examples *)
Record ex_api : Type := mkApi {
  api_routes : list ModelRoute;
  api_llms : list LLMBackend;
  api_images : list ImageGenerationBackend;
  api_now : Z }.

Definition named {O} `{Reconciled O} (n : NamespacedName) (o : O) : bool :=
  String.eqb (om_Namespace (ro_Meta o)) (nn_Namespace n) && String.eqb (om_Name (ro_Meta o)) (nn_Name n).

Definition ex_get {O} `{Reconciled O} (l : list O) (n : NamespacedName) : O + KubeError :=
  match List.find (named n) l with Some o => inl o | None => inr (mkKubeError true "not found") end.

Definition ex_put {O} `{Reconciled O} (o : O) (l : list O) : list O :=
  map (fun o' => if named (mkNamespacedName (om_Namespace (ro_Meta o)) (om_Name (ro_Meta o))) o' then o else o') l.

#[local] Instance ex_ModelRoutes : KubeResource ex_api ModelRoute := {|
  kube_Get n k := (k, ex_get (api_routes k) n);
  kube_List k := (k, inl (api_routes k));
  kube_Update o k := (mkApi (ex_put o (api_routes k)) (api_llms k) (api_images k) (api_now k), (o, None));
  kube_StatusUpdate o k := (mkApi (ex_put o (api_routes k)) (api_llms k) (api_images k) (api_now k), None) |}.

#[local] Instance ex_LLMBackends : KubeResource ex_api LLMBackend := {|
  kube_Get n k := (k, ex_get (api_llms k) n);
  kube_List k := (k, inl (api_llms k));
  kube_Update o k := (mkApi (api_routes k) (ex_put o (api_llms k)) (api_images k) (api_now k), (o, None));
  kube_StatusUpdate o k := (mkApi (api_routes k) (ex_put o (api_llms k)) (api_images k) (api_now k), None) |}.

#[local] Instance ex_ImageBackends : KubeResource ex_api ImageGenerationBackend := {|
  kube_Get n k := (k, ex_get (api_images k) n);
  kube_List k := (k, inl (api_images k));
  kube_Update o k := (mkApi (api_routes k) (api_llms k) (ex_put o (api_images k)) (api_now k), (o, None));
  kube_StatusUpdate o k := (mkApi (api_routes k) (api_llms k) (ex_put o (api_images k)) (api_now k), None) |}.

#[local] Instance ex_env : KubeEnv ex_api := {|
  kube_Now k := (mkApi (api_routes k) (api_llms k) (api_images k) (api_now k + 1), api_now k);
  kube_RangeOrder keys k := (k, keys);
  kube_GetSecret _ k := (k, inl ∅);
  kube_GetConfigMap _ k := (k, inr (mkKubeError true "not found")) |}.

#[local] Instance ex_laws : KubeLaws ex_api.
Proof. split. by intros keys k k' order [= _ <-]. Qed.

Definition ex_meta (name : string) : ObjectMeta := mkObjectMeta name "default" [] 0 None.
Definition ex_llm : LLMBackend :=
  mkLLMBackend (ex_meta "llama") (Some "llama-3") "vLLM"
    (mkBackendUpstream "http://llama/v1" [] [] None None [] 0) (mkBackendStatus Healthy [] []).
