(* ===== verification/ModelRouteController.v ===== *)
(** * internal/controller/modelroute_controller.go: model routes

    The translation of a ModelRoute into the configuration of a route, its
    validation, and the handlers of its [Reconcile]. *)
From S2P Require Import Prelude Strconv Utils GoFloat Json Api LoadBalance Errors Request Response Effects Stream Filters.
From S2P Require Import Auth Usage RateLimit ClusterFilters Cluster Route RouteManager Kube Controller.

(** ** Translation *)

(** A number of [time.Second]s in nanoseconds, which [durationpb.New] and
    [AsDuration] carry unchanged. *)
Definition seconds (n : Z) : Z := int64 (n * nanosPerSecond).

Definition targetNamespace (meta : ObjectMeta) (namespace : string) : string :=
  if String.eqb namespace "" then om_Namespace meta else namespace.

Definition setWeight (w : option Z) (d : RouteDestination) : RouteDestination :=
  mkRouteDestination (dst_namespace d) (dst_backend d) w (dst_cluster d).

(** The targets, by their destinations, which are not nil. *)
Definition getModelRouteTargets (modelRoute : ModelRoute) : list RouteDestination :=
  match mrs_Route (mr_Spec modelRoute) with
  | Some route =>
      let specTargets := mrr_Targets route in
      let areAllWeightsUnset := forallb (fun t => negb (bool_decide (is_Some (td_Weight (mt_Destination t))))) specTargets in
      let targets := map (fun t =>
        let d := mt_Destination t in
        mkRouteDestination (targetNamespace (mr_Meta modelRoute) (td_Namespace d)) (td_Backend d)
          (int32 <$> td_Weight d) "") specTargets in
      if areAllWeightsUnset then map (setWeight (Some 1)) targets else targets
  | None => []
  end.

Definition destinationName (d : RouteDestination) : NamespacedName :=
  mkNamespacedName (dst_namespace d) (dst_backend d).

(** [mBackends[nsName]]: [None] when absent or nil. *)
Definition backendOf (mBackends : gmap string (option Backend)) (d : RouteDestination) : option Backend :=
  mjoin (mBackends !! NamespacedName_String (destinationName d)).

Definition mapModelRouteTargetsToBackends (targets : list RouteDestination)
    (mBackends : gmap string (option Backend)) : list RouteTarget :=
  omap (fun d =>
    match backendOf mBackends d with
    | None => None
    | Some backend =>
        Some (mkRouteTarget (Some
          (mkRouteDestination (dst_namespace d) (dst_backend d) (dst_weight d) (GetModelName backend))))
    end) targets.

Definition ruleMatch (m : option CRDStringMatch) : option StringMatch :=
  match m with
  | None => None
  | Some m =>
      if negb (String.eqb (sm_Exact m) "") then Some (StringMatch_Exact (sm_Exact m))
      else if negb (String.eqb (sm_Prefix m) "") then Some (StringMatch_Prefix (sm_Exact m))
      else None
  end.

Fixpoint buildRateLimitPolicies (rateLimits : list (option RateLimitRule)) : outcome (list RateLimitPolicy) :=
  match rateLimits with
  | [] => Ret []
  | None :: _ => Panic nil_deref
  | Some rateLimit :: rateLimits =>
      policies ← buildRateLimitPolicies rateLimits;
      Ret (mkRateLimitPolicy (ruleMatch (rule_Match rateLimit)) (int32 (rule_Limit rateLimit))
             (MapCRDRateLimitBaseOnConfigRateLimitBaseOn (rule_BasedOn rateLimit)) (seconds (rule_Duration rateLimit))
           :: policies)
  end.

Definition FilterTypeRateLimit : string := "RateLimit".

Fixpoint buildFilters (filters : list ModelRouteFilter) : outcome (list RouteFilter + gerror) :=
  match filters with
  | [] => Ret (inl [])
  | f :: filters =>
      if String.eqb (mf_Type f) FilterTypeRateLimit then
        match mf_RateLimit f with
        | None => Ret (inr (EPlain "rate limit filter cannot be nil"))
        | Some rules =>
            policies ← buildRateLimitPolicies rules;
            let name := if String.eqb (mf_Name f) "" then "route-rate-limits" else mf_Name f in
            rest ← buildFilters filters;
            Ret (match rest with
                 | inr e => inr e
                 | inl fs =>
                     inl (mkRouteFilter name (RateLimitCfg (mkRateLimitConfig policies RATE_LIMIT_MODEL_UNSPECIFIED "")) :: fs)
                 end)
        end
      else Ret (inr (EPlain ("unknown filter type: " +:+ mf_Type f)))
  end.

Definition buildFallback (f : ModelRouteFallback) : RouteFallback :=
  mkRouteFallback (seconds <$> mrf_PreDelay f) (seconds <$> mrf_PostDelay f) (mrf_MaxRetires f).

Definition toRegisterRouteConfig (modelRoute : ModelRoute) (mBackends : gmap string (option Backend))
    : outcome (Api.Route + gerror) :=
  let spec := mr_Spec modelRoute in
  let modelName := mrs_ModelName spec in
  let loadBalancePolicy :=
    match mrs_Route spec with
    | Some r => MapCRDLoadBalancePolicyModelConfigLoadBalancePolicy (mrr_LoadBalancePolicy r)
    | None => LB_UNSPECIFIED
    end in
  filters ← buildFilters (mrs_Filters spec);
  Ret (match filters with
       | inr e => inr e
       | inl filters =>
           inl (mkRoute modelName [mkMatch (Some (StringMatch_Exact modelName)) None] filters loadBalancePolicy
                  (mapModelRouteTargetsToBackends (getModelRouteTargets modelRoute) mBackends)
                  (buildFallback <$> mrs_Fallback spec))
       end).

(** ** The handlers *)
Definition setTargets (ts : list ModelRouteStatusTarget) (r : ModelRoute) : ModelRoute :=
  mkModelRoute (mr_Meta r) (mr_Spec r) (mkModelRouteStatus (mst_Status (mr_Status r)) (mst_Conditions (mr_Status r)) ts).

Definition weightUnset (t : ModelRouteRouteTarget) : bool := negb (bool_decide (is_Some (td_Weight (mt_Destination t)))).
Definition weightSet (t : ModelRouteRouteTarget) : bool :=
  match td_Weight (mt_Destination t) with Some w => 0 <=? w | None => false end.

(** The loop over the targets with its index. *)
Fixpoint checkTargets (index : Z) (targets : list ModelRouteRouteTarget) : option gerror :=
  match targets with
  | [] => None
  | target :: targets =>
      let d := mt_Destination target in
      if String.eqb (td_Backend d) "" then
        Some (EPlain ("spec.route.targets[" +:+ Itoa index +:+ "].destination.backend cannot be empty"))
      else if match td_Weight d with Some w => w <? 0 | None => false end then
        Some (EPlain ("spec.route.targets[" +:+ Itoa index +:+ "].destination.weight cannot be less than 0"))
      else checkTargets (index + 1) targets
  end.

Definition checkRoute (route : ModelRouteRoute) : option gerror :=
  match checkTargets 0 (mrr_Targets route) with
  | Some e => Some e
  | None =>
      if negb (forallb weightUnset (mrr_Targets route) || forallb weightSet (mrr_Targets route))
      then Some (EPlain "spec.route.targets.[].destination.weight must be either all set or all unset")
      else None
  end.

Definition checkFallback (f : ModelRouteFallback) : option gerror :=
  if match mrf_PostDelay f with Some d => d <? 0 | None => false end
  then Some (EPlain "spec.fallback.postDelay must be greater than or equal to 0")
  else if match mrf_PreDelay f with Some d => d <? 0 | None => false end
  then Some (EPlain "spec.fallback.preDelay must be greater than or equal to 0")
  else if match mrf_MaxRetires f with Some n => n <=? 0 | None => false end
  then Some (EPlain "spec.fallback.maxRetries must be greater than 0")
  else None.

(** The checks of [reconcileValidator] that only read the spec. *)
Definition checkSpec (spec : ModelRouteSpec) : option gerror :=
  if String.eqb (mrs_ModelName spec) "" then Some (EPlain "spec.modelName cannot be empty")
  else match (r ← mrs_Route spec; checkRoute r) with
  | Some e => Some e
  | None => f ← mrs_Fallback spec; checkFallback f
  end.

Section Handlers.
Context {K R X : Type} `{RouteInterface R} `{KubeResource K ModelRoute} `{KubeResource K LLMBackend}.
Context `{KubeResource K ImageGenerationBackend} `{KubeEnv K}.
Abbreviation S := (Gateway K R X).

(** [multierror.Error] on the texts of its errors; [strcase.LowerCamelCase]. *)
Variable multierror_Error : list string -> string.
Variable LowerCamelCase : string -> string.

(** backends.go *)
Definition getBackendFromNamespacedName (name : NamespacedName) : Ctl S (option Backend + KubeError) :=
  r ← kube (kube_Get name);
  match r with
  | inl llmBackend => mret (inl (Some (BackendFromLLMBackend llmBackend)))
  | inr err =>
      if negb (ke_NotFound err) then mret (inr err)
      else
        r ← kube (kube_Get name);
        match r with
        | inl imageGenerationBackend =>
            mret (inl (Some (BackendFromImageGenerationBackend imageGenerationBackend)))
        | inr err => if negb (ke_NotFound err) then mret (inr err) else mret (inl None)
        end
  end.

Fixpoint mapTargets (targets : list RouteDestination) (backends : gmap string (option Backend))
    : Ctl S (gmap string (option Backend) + KubeError) :=
  match targets with
  | [] => mret (inl backends)
  | d :: targets =>
      let nsName := destinationName d in
      r ← getBackendFromNamespacedName nsName;
      match r with
      | inr err => mret (inr err)
      | inl backend => mapTargets targets (<[NamespacedName_String nsName := backend]> backends)
      end
  end.

Definition mapCRDTargetsToBackends (targets : list RouteDestination) := mapTargets targets ∅.

(** [removeBackendFunc] *)
Definition removeMatchRoute (modelName : string) : Ctl S unit :=
  if String.eqb modelName "" then mret tt
  else modifyRoutes (fun s order => (RemoveMatchRoute s order modelName, tt)).

Definition reconcileRegister (modelRoute : ModelRoute) : Ctl S (ModelRoute * option gerror) :=
  let modelName := mrs_ModelName (mr_Spec modelRoute) in
  if isDeleted modelRoute then _ ← removeMatchRoute modelName; mret (modelRoute, None)
  else
    mBackends ← mapCRDTargetsToBackends (getModelRouteTargets modelRoute);
    match mBackends with
    | inr err => mret (modelRoute, Some (kube_error err))
    | inl mBackends =>
        routeConfig ← ctl_lift (toRegisterRouteConfig modelRoute mBackends);
        match routeConfig with
        | inr err => mret (modelRoute, Some err)
        | inl routeConfig =>
            err ← modifyRoutes (fun s order => RegisterMatchRouteWithConfig s order routeConfig);
            match err with
            | None => mret (modelRoute, None)
            | Some err =>
                text ← ctl_lift (ErrorText
                  (EWrap ("failed to upsert ModelRoute " +:+ om_Name (mr_Meta modelRoute) +:+ " route") err));
                _ ← removeMatchRoute modelName;
                mret (modelRoute, Some (EPlain (multierror_Error [text])))
            end
        end
    end.

Definition targetStatus (modelRoute : ModelRoute) (mBackends : gmap string (option Backend)) (d : RouteDestination)
    : ModelRouteStatusTarget :=
  let nsName := mkNamespacedName (targetNamespace (mr_Meta modelRoute) (dst_namespace d)) (dst_backend d) in
  match mjoin (mBackends !! NamespacedName_String nsName) with
  | None => mkStatusTarget (nn_Namespace nsName) (nn_Name nsName) "" Failed
  | Some backend =>
      mkStatusTarget (nn_Namespace nsName) (nn_Name nsName) (GetModelName backend) (GetBackendStatus backend)
  end.

Definition reconcileDestinationHealthy (modelRoute : ModelRoute) : Ctl S (ModelRoute * option gerror) :=
  let crdTargets := getModelRouteTargets modelRoute in
  mBackends ← mapCRDTargetsToBackends crdTargets;
  match mBackends with
  | inr err => mret (modelRoute, Some (kube_error err))
  | inl mBackends => mret (setTargets (map (targetStatus modelRoute mBackends) crdTargets) modelRoute, None)
  end.

Definition sameModelName (modelRoute existing : ModelRoute) : bool :=
  String.eqb (mrs_ModelName (mr_Spec existing)) (mrs_ModelName (mr_Spec modelRoute))
  && negb (String.eqb (om_Name (mr_Meta existing)) (om_Name (mr_Meta modelRoute))).

(** From the lookup of the backends on. *)
Definition validateConfig (modelRoute : ModelRoute) : Ctl S (option gerror) :=
  mBackends ← mapCRDTargetsToBackends (getModelRouteTargets modelRoute);
  match mBackends with
  | inr err => mret (Some (kube_error err))
  | inl mBackends =>
      routeConfig ← ctl_lift (toRegisterRouteConfig modelRoute mBackends);
      match routeConfig with
      | inr err => mret (Some err)
      | inl routeConfig =>
          match route_New routeConfig with
          | inr err => mret (Some (EWrap "invalid route configuration" err))
          | inl _ => mret None
          end
      end
  end.

Definition reconcileValidator (modelRoute : ModelRoute) : Ctl S (ModelRoute * option gerror) :=
  match checkSpec (mr_Spec modelRoute) with
  | Some err => mret (modelRoute, Some err)
  | None =>
      r ← kube kube_List;
      match r with
      | inr err => mret (modelRoute, Some (EWrap "failed to list ModelRoute resources" (kube_error err)))
      | inl items =>
          if existsb (sameModelName modelRoute) items then
            mret (modelRoute, Some (EPlain ("ModelRoute modelName and name '" +:+ mrs_ModelName (mr_Spec modelRoute)
                                            +:+ "' must be unique globally")))
          else err ← validateConfig modelRoute; mret (modelRoute, err)
      end
  end.

(** The two handlers that all controllers have. *)
Definition ModelRoute_reconcileConfig : ModelRoute -> Ctl S (ModelRoute * option gerror) := reconcileConfig.
Definition ModelRoute_reconcileFinalDelete : ModelRoute -> Ctl S (ModelRoute * option gerror) := reconcileFinalDelete.

Definition getReconciles : list (reconcileHandler K R X ModelRoute) :=
  [mkHandler condConfig reconcileConfig; mkHandler condValidator reconcileValidator;
   mkHandler condDestinationHealthy reconcileDestinationHealthy; mkHandler condRegister reconcileRegister].

Definition getDeleteReconciles : list (reconcileHandler K R X ModelRoute) :=
  [mkHandler condConfig reconcileConfig;
   mkHandler (LowerCamelCase (deleteCondPrefix +:+ condRegister)) reconcileRegister;
   mkHandler condFinalDelete reconcileFinalDelete].

Definition withStatusOf (r new : ModelRoute) : ModelRoute := mkModelRoute (mr_Meta new) (mr_Spec new) (mr_Status r).

Definition ModelRoute_Reconcile (req : NamespacedName) : Ctl S (Z * option KubeError) :=
  Reconcile getReconciles getDeleteReconciles reconcileModelRoutePhase
    (fun r new => routeStatusEqual (mr_Status r) (mr_Status new)) withStatusOf req.
End Handlers.

(** ** Lemmas *)
Section Facts.
Context {K R X : Type} `{RouteInterface R} `{KubeResource K ModelRoute} `{KubeResource K LLMBackend}.
Context `{KubeResource K ImageGenerationBackend} `{KubeEnv K}.
Abbreviation S := (Gateway K R X).

Lemma reads_getBackend name : reads (getBackendFromNamespacedName (R := R) (X := X) name).
Proof. unfold getBackendFromNamespacedName. reads. Qed.
#[local] Hint Resolve reads_getBackend : knoway.

Lemma reads_mapTargets targets backends : reads (mapTargets (R := R) (X := X) targets backends).
Proof. revert backends. induction targets as [|d targets IH]; intros backends; simpl; reads. Qed.
#[local] Hint Resolve reads_mapTargets : knoway.

Lemma reads_mapCRDTargetsToBackends targets : reads (mapCRDTargetsToBackends (R := R) (X := X) targets).
Proof. apply reads_mapTargets. Qed.
#[local] Hint Resolve reads_mapCRDTargetsToBackends : knoway.

(** What the API server answers about the backends of some targets, one after
    the other: an LLM backend of the name, else an image backend, else none. *)
Definition askBackend (name : NamespacedName) (k : K) : K * (option Backend + KubeError) :=
  match kube_Get name k with
  | (k, inl b) => (k, inl (Some (BackendFromLLMBackend b)))
  | (k, inr err) =>
      if ke_NotFound err then
        match kube_Get name k with
        | (k, inl b) => (k, inl (Some (BackendFromImageGenerationBackend b)))
        | (k, inr err) => (k, if ke_NotFound err then inl None else inr err)
        end
      else (k, inr err)
  end.

Fixpoint askBackends (targets : list RouteDestination) (k : K) : K * (list (option Backend) + KubeError) :=
  match targets with
  | [] => (k, inl [])
  | d :: targets =>
      match askBackend (destinationName d) k with
      | (k, inr err) => (k, inr err)
      | (k, inl b) => let '(k, r) := askBackends targets k in (k, match r with inl bs => inl (b :: bs) | inr err => inr err end)
      end
  end.

(** The answers by the names of the targets; the last one counts. *)
Fixpoint answered (targets : list RouteDestination) (answers : list (option Backend)) (m : gmap string (option Backend))
    : gmap string (option Backend) :=
  match targets, answers with
  | d :: targets, b :: answers => answered targets answers (<[NamespacedName_String (destinationName d) := b]> m)
  | _, _ => m
  end.

Lemma getBackend_asked name (g : S) :
  getBackendFromNamespacedName name g
  = Ret (mkGateway (fst (askBackend name (gw_kube g))) (gw_routes g) (gw_clusters g), snd (askBackend name (gw_kube g))).
Proof.
  unfold getBackendFromNamespacedName, askBackend. run_ctl. destruct (kube_Get name (gw_kube g)) as [k [b|e]]; [done|].
  destruct (ke_NotFound e); [|done]. cbn [negb gw_kube gw_routes gw_clusters]. destruct (kube_Get name k) as [k1 [b|e1]]; [done|].
  by destruct (ke_NotFound e1).
Qed.

Lemma mapTargets_asked targets : forall m (g : S),
  exists g1, mapTargets targets m g
    = Ret (g1, match snd (askBackends targets (gw_kube g)) with inl bs => inl (answered targets bs m) | inr e => inr e end).
Proof.
  induction targets as [|d targets IH]; intros m g; cbn [mapTargets askBackends]; [by eexists|].
  unfold mbind, Ctl_bind. rewrite getBackend_asked.
  destruct (askBackend _ (gw_kube g)) as [k [b|e]]; cbn [fst snd]; [|by eexists].
  destruct (IH (<[NamespacedName_String (destinationName d) := b]> m) (mkGateway k (gw_routes g) (gw_clusters g))) as (g1 & ->).
  exists g1. cbn [gw_kube]. by destruct (askBackends targets k) as [k1 [bs|e]].
Qed.

Lemma reads_reconcileValidator r : reads (reconcileValidator (R := R) (X := X) r).
Proof. unfold reconcileValidator, validateConfig. reads. Qed.

Lemma reads_reconcileDestinationHealthy r : reads (reconcileDestinationHealthy (R := R) (X := X) r).
Proof. unfold reconcileDestinationHealthy. reads. Qed.

Lemma getModelRouteTargets_ext r r' :
  mr_Spec r' = mr_Spec r -> om_Namespace (mr_Meta r') = om_Namespace (mr_Meta r) ->
  getModelRouteTargets r' = getModelRouteTargets r.
Proof. intros Hs Hn. unfold getModelRouteTargets, targetNamespace. by rewrite Hs, Hn. Qed.

Lemma toRegisterRouteConfig_ext r r' mBackends :
  mr_Spec r' = mr_Spec r -> om_Namespace (mr_Meta r') = om_Namespace (mr_Meta r) ->
  toRegisterRouteConfig r' mBackends = toRegisterRouteConfig r mBackends.
Proof.
  intros Hs Hn. unfold toRegisterRouteConfig. by rewrite (getModelRouteTargets_ext r r'), Hs.
Qed.

Lemma toRegisterRouteConfig_name r mBackends cfg :
  toRegisterRouteConfig r mBackends = Ret (inl cfg) -> route_name cfg = mrs_ModelName (mr_Spec r).
Proof.
  unfold toRegisterRouteConfig. destruct (buildFilters _) as [[fs|e]|]; [|done..]. simpl. by intros [= <-].
Qed.

Lemma reconcileValidator_run r r' (g g' : S) err :
  reconcileValidator r g = Ret (g', (r', err)) ->
  r' = r /\ (err = None -> checkSpec (mr_Spec r) = None /\ exists fs, buildFilters (mrs_Filters (mr_Spec r)) = Ret (inl fs)).
Proof.
  unfold reconcileValidator. destruct (checkSpec (mr_Spec r)) as [e|]; [by intros [= _ <- <-]|].
  run_ctl. destruct (kube_List (gw_kube g)) as [k [items|e]]; [|by intros [= _ <- <-]].
  destruct (existsb _ items); [by intros [= _ <- <-]|].
  destruct (validateConfig r _) as [[g1 e]|] eqn:E; [|done]. intros [= _ <- <-]. split; [done|]. intros ->. split; [done|].
  revert E. unfold validateConfig, mbind, Ctl_bind. destruct (mapCRDTargetsToBackends _ _) as [[g2 [mB|e]]|]; [|done..].
  unfold toRegisterRouteConfig. destruct (buildFilters _) as [[fs|e]|]; [by exists fs|done..].
Qed.

Lemma reconcileDestinationHealthy_run r r' (g g' : S) err :
  reconcileDestinationHealthy r g = Ret (g', (r', err)) -> r' = setTargets (mst_Targets (mr_Status r')) r.
Proof.
  unfold reconcileDestinationHealthy, mbind, Ctl_bind.
  destruct (mapCRDTargetsToBackends _ g) as [[g1 [mB|e]]|]; [| |done]; intros [= _ <- _]; [done|].
  by destruct r as [? ? []].
Qed.

Lemma removeMatchRoute_run name (g g' : S) a `{!KubeLaws K} :
  name <> "" -> removeMatchRoute name g = Ret (g', a) ->
  rm_step (gw_routes g) (OpRemoveMatch name) (gw_routes g') /\ gw_clusters g' = gw_clusters g.
Proof.
  intros Hname. unfold removeMatchRoute. rewrite (proj2 (String.eqb_neq _ _) Hname). intros Hrun.
  by apply (modifyRoutes_step (OpRemoveMatch name)) in Hrun as (? & ? & _).
Qed.

(** The registration of the route that [o]'s spec asks for, of the backends
    that the API server answers there: ready when the manager has registered
    it.  When the server does not answer, nothing changes; when the route cannot
    be built, the route of that name is taken out. *)
Definition registration (o : ModelRoute) (k : K) (ready : bool) (s s' : RouteManager R) : Prop :=
  match snd (askBackends (getModelRouteTargets o) k) with
  | inr _ => ready = false /\ s' = s
  | inl answers =>
      exists cfg, toRegisterRouteConfig o (answered (getModelRouteTargets o) answers ∅) = Ret (inl cfg) /\
        match route_New cfg with
        | inl _ => ready = true /\ rm_step s (OpRegisterMatch cfg) s'
        | inr _ => ready = false /\ rm_step s (OpRemoveMatch (mrs_ModelName (mr_Spec o))) s'
        end
  end.

Lemma reconcileRegister_run multierror r r' (g g' : S) err fs `{!KubeLaws K} :
  isDeleted r = false -> mrs_ModelName (mr_Spec r) <> "" -> buildFilters (mrs_Filters (mr_Spec r)) = Ret (inl fs) ->
  reconcileRegister multierror r g = Ret (g', (r', err)) ->
  r' = r /\ gw_clusters g' = gw_clusters g /\
  registration r (gw_kube g) (bool_decide (err = None)) (gw_routes g) (gw_routes g').
Proof.
  intros Hlive Hname Hfs. unfold reconcileRegister, registration. rewrite Hlive. unfold mbind, Ctl_bind.
  destruct (mapTargets_asked (getModelRouteTargets r) ∅ g) as (g1 & E). unfold mapCRDTargetsToBackends. rewrite E.
  apply reads_mapTargets in E as [Er1 Ec1].
  destruct (snd (askBackends _ (gw_kube g))) as [bs|e]; [|by intros [= <- <- <-]].
  assert (exists cfg, toRegisterRouteConfig r (answered (getModelRouteTargets r) bs ∅) = Ret (inl cfg)) as [cfg Ec].
  { unfold toRegisterRouteConfig. rewrite Hfs. by eexists. }
  rewrite Ec. cbn [ctl_lift]. destruct (modifyRoutes _ g1) as [[g2 a]|] eqn:Em; [|done].
  apply (modifyRoutes_step (OpRegisterMatch cfg)) in Em as (Hstep & Ec2 & order & ->); [|done].
  rewrite Er1 in Hstep. unfold RegisterMatchRouteWithConfig at 1.
  destruct (route_New cfg) as [route|e] eqn:En; simpl.
  - intros [= <- <- <-]. split; [done|]. split; [congruence|]. exists cfg. by rewrite En.
  - destruct (ctl_lift _ g2) as [[g3 text]|] eqn:Et; [|done]. apply reads_lift in Et as [Er3 Ec3].
    destruct (removeMatchRoute _ g3) as [[g4 u]|] eqn:Er; [|done]. intros [= <- <- <-].
    apply removeMatchRoute_run in Er as [Hrem ->]; [|apply _ || done..]. split; [done|]. split; [congruence|].
    exists cfg. rewrite En. split; [done|]. split; [done|].
    assert (gw_routes g3 = gw_routes g) as <-; [|done]. rewrite Er3. inversion Hstep as [s0 op0 order0 Ho Es0 Eop Es2].
    unfold rm_exec, RegisterMatchRouteWithConfig. by rewrite En.
Qed.

(** What the handlers leave of an object. *)
Definition kept (o o' : ModelRoute) : Prop :=
  mr_Spec o' = mr_Spec o /\ om_Namespace (mr_Meta o') = om_Namespace (mr_Meta o) /\
  om_DeletionTimestamp (mr_Meta o') = om_DeletionTimestamp (mr_Meta o).

Lemma isDeleted_kept o o' : kept o o' -> isDeleted o' = isDeleted o.
Proof. intros (_ & _ & Hd). unfold isDeleted. simpl. by rewrite Hd. Qed.

Lemma registration_kept o o' k ready s s' : kept o o' -> registration o' k ready s s' -> registration o k ready s s'.
Proof.
  intros (Hs & Hn & _). unfold registration. rewrite (getModelRouteTargets_ext o o' Hs Hn), Hs.
  destruct (snd _); [|done]. intros (cfg & Hcfg & Hr). exists cfg. split; [|done]. by rewrite <- (toRegisterRouteConfig_ext o o').
Qed.

Variable multierror : list string -> string.
Variables (o0 : ModelRoute) (g0 : S).
Hypothesis Hlive : isDeleted o0 = false.

(** The validator has been passed. *)
Definition validated : Prop :=
  checkSpec (mr_Spec o0) = None /\ exists fs, buildFilters (mrs_Filters (mr_Spec o0)) = Ret (inl fs).

(** Up to the registration the registers are as they were. *)
Definition before (l : list (reconcileHandler K R X ModelRoute)) (o : ModelRoute) (g : S) : Prop :=
  kept o0 o /\ gw_clusters g = gw_clusters g0 /\ (exists done, getReconciles multierror = done ++ l) /\
  (match l with [] | [_] | [_; _] => validated | _ => True end) /\
  match l with [] => True | _ => gw_routes g = gw_routes g0 end.

Definition stuck (l : list (reconcileHandler K R X ModelRoute)) (o : ModelRoute) (g : S) : Prop :=
  kept o0 o /\ gw_clusters g = gw_clusters g0 /\ (map rh_typ l = [condRegister] \/ gw_routes g = gw_routes g0).

Lemma before_kept l o cs (g g' : S) : before l o g -> same_registers g' g -> before l (ro_SetConditions cs o) g'.
Proof.
  intros (Hk & Hc & Hd & Hs & Hr) [Hreg1 Hreg2]. unfold before. rewrite Hreg1, Hreg2. split; [|done].
  destruct o as [? ? []]. exact Hk.
Qed.

Lemma stuck_kept l o cs (g g' : S) : stuck l o g -> same_registers g' g -> stuck l (ro_SetConditions cs o) g'.
Proof.
  intros (Hk & Hr) [Hreg1 Hreg2]. unfold stuck. rewrite Hreg1, Hreg2. split; [|done].
  destruct o as [? ? []]. exact Hk.
Qed.

Lemma kept_finalizers fs o : kept o (ro_SetMeta (setFinalizers fs (ro_Meta o)) o).
Proof. done. Qed.

Lemma kept_trans o1 o2 o3 : kept o1 o2 -> kept o2 o3 -> kept o1 o3.
Proof. unfold kept. intros (? & ? & ?) (? & ? & ?). split_and!; congruence. Qed.

(** A handler that leaves the registers alone and keeps the object. *)
Lemma before_read rr l o o1 (g g1 : S) (err : option gerror) :
  before (rr :: l) o g -> same_registers g1 g -> kept o o1 -> ro_Conditions o1 = ro_Conditions o -> l <> [] ->
  (length l = 2%nat -> err = None -> validated) ->
  isDeleted o1 = false /\ ro_Conditions o1 = ro_Conditions o /\
  match err with None => before l o1 g1 | Some _ => stuck (rr :: l) o1 g1 end.
Proof.
  intros (Hk & Hc & [ran Hd] & Hs & Hr) [Hreg1 Hreg2] Hk1 Hc1 Hl Hcheck.
  pose proof (kept_trans _ _ _ Hk Hk1) as Hk2.
  split; [by rewrite (isDeleted_kept _ _ Hk2)|]. split; [done|].
  destruct err as [e|].
  - split; [done|]. split; [congruence|]. right. congruence.
  - split; [done|]. split; [congruence|]. split; [exists (ran ++ [rr]); by rewrite <- app_assoc|].
    destruct l as [|? [|? [|]]]; simpl in *; (split; [by auto | congruence]).
Qed.

Lemma register_run `{!KubeLaws K} rr o (g g1 : S) o1 err :
  before [rr] o g -> reconcileRegister multierror o g = Ret (g1, (o1, err)) ->
  o1 = o /\ gw_clusters g1 = gw_clusters g /\
  registration o0 (gw_kube g) (bool_decide (err = None)) (gw_routes g0) (gw_routes g1).
Proof.
  intros (Hk & _ & _ & [Hs [fs Hfs]] & Hr) Hrun. pose proof (isDeleted_kept _ _ Hk) as Hdel. rewrite Hlive in Hdel.
  pose proof Hk as (Hspec & _ & _).
  assert (mrs_ModelName (mr_Spec o) <> "") as Hname.
  { rewrite Hspec. revert Hs. unfold checkSpec. by destruct (String.eqb_spec (mrs_ModelName (mr_Spec o0)) ""). }
  rewrite <- Hspec in Hfs. apply (reconcileRegister_run _ _ _ _ _ _ fs) in Hrun as (-> & Hc & Hreg); [|done..].
  split; [done|]. split; [done|]. rewrite <- Hr. by apply (registration_kept o0 o).
Qed.

Lemma before_step `{!KubeLaws K} rr l o (g : S) o1 g1 err :
  before (rr :: l) o g -> rh_reconciler rr o g = Ret (g1, (o1, err)) ->
  isDeleted o1 = false /\ ro_Conditions o1 = ro_Conditions o /\
  match err with None => before l o1 g1 | Some _ => stuck (rr :: l) o1 g1 end.
Proof.
  intros Hb Hrun. pose proof Hb as (Hk & Hc & [ran Hd] & Hs & Hr).
  destruct ran as [|? [|? [|? [|? ran]]]]; [injection Hd; intros; subst; clear Hd .. | by destruct ran]; simpl in Hrun.
  - pose proof (reads_reconcileConfig _ _ _ _ Hrun) as Hreg. apply reconcileConfig_run in Hrun.
    eapply before_read; [done..| | | |done]; destruct Hrun as [-> | ->]; done.
  - pose proof (reads_reconcileValidator _ _ _ _ Hrun) as Hreg. apply reconcileValidator_run in Hrun as [-> Herr].
    eapply before_read; [done..|]. intros _ Hn. unfold validated. destruct Hk as [<- _]. by apply Herr.
  - pose proof (reads_reconcileDestinationHealthy _ _ _ _ Hrun) as Hreg.
    apply reconcileDestinationHealthy_run in Hrun. eapply before_read; [done..| | | |done]; solve [rewrite Hrun; done | done].
  - apply (register_run _ _ _ _ _ _ Hb) in Hrun as (-> & Hc1 & _). split; [by rewrite (isDeleted_kept _ _ Hk)|]. split; [done|].
    destruct err as [e|]; (split; [done|]); (split; [congruence|]); [by left|].
    split; [exists (getReconciles multierror); by rewrite app_nil_r|done].
Qed.
End Facts.

(** ** The route of a valid spec *)
Lemma checkTargets_None i targets :
  checkTargets i targets = None ->
  Forall (fun t => match td_Weight (mt_Destination t) with Some w => 0 <= w | None => True end) targets.
Proof.
  revert i. induction targets as [|t targets IH]; intros i Hc; [constructor|]. simpl in Hc.
  destruct (String.eqb _ _); [done|]. constructor.
  - destruct (td_Weight (mt_Destination t)) as [w|]; [|done]. destruct (Z.ltb_spec w 0); [done|lia].
  - apply (IH (i + 1)). by destruct (td_Weight (mt_Destination t)) as [w|]; [destruct (w <? 0)|].
Qed.

Lemma checkSpec_weights spec route :
  checkSpec spec = None -> mrs_Route spec = Some route ->
  Forall (fun t => match td_Weight (mt_Destination t) with Some w => 0 <= w | None => True end) (mrr_Targets route).
Proof.
  unfold checkSpec. destruct (String.eqb _ _); [done|]. intros Hc Hr. rewrite Hr in Hc. simpl in Hc. unfold checkRoute in Hc.
  destruct (checkTargets 0 (mrr_Targets route)) eqn:E; [done|]. by eapply checkTargets_None.
Qed.

(** The weights of the targets: 1 when none is set. *)
Lemma getModelRouteTargets_weights o :
  checkSpec (mr_Spec o) = None ->
  (forall route t w, mrs_Route (mr_Spec o) = Some route -> t ∈ mrr_Targets route ->
     td_Weight (mt_Destination t) = Some w -> w < 2 ^ 31) ->
  Forall (fun d => 0 <= GetWeight (Some d) < 2 ^ 31) (getModelRouteTargets o).
Proof.
  intros Hv Hb. unfold getModelRouteTargets. destruct (mrs_Route (mr_Spec o)) as [route|] eqn:Er; [|constructor].
  pose proof (checkSpec_weights _ _ Hv Er) as Hw. rewrite Forall_forall in Hw. cbv zeta.
  destruct (forallb _ _); apply Forall_forall; intros d Hd.
  - apply list_elem_of_fmap in Hd as (? & -> & _). done.
  - apply list_elem_of_fmap in Hd as (t & -> & Ht). specialize (Hw t Ht). unfold GetWeight, dst_weight.
    destruct (td_Weight (mt_Destination t)) as [w|] eqn:Ew; simpl; [|lia].
    rewrite int32_id by (specialize (Hb route t w eq_refl Ht Ew); lia). split; [done|]. by eapply Hb.
Qed.

Lemma getModelRouteTargets_unset o route :
  mrs_Route (mr_Spec o) = Some route -> forallb weightUnset (mrr_Targets route) = true ->
  Forall (fun d => GetWeight (Some d) = 1) (getModelRouteTargets o).
Proof.
  intros Hr Hu. unfold getModelRouteTargets. rewrite Hr. unfold weightUnset in Hu. rewrite Hu.
  apply Forall_forall. intros d Hd. by apply list_elem_of_fmap in Hd as (? & -> & _).
Qed.

(** The targets that are found, with the cluster they go to. *)
Definition resolve (mBackends : gmap string (option Backend)) (d : RouteDestination) : option RouteDestination :=
  b ← backendOf mBackends d; Some (mkRouteDestination (dst_namespace d) (dst_backend d) (dst_weight d) (GetModelName b)).

Lemma mapTargets_resolve targets mBackends :
  map rt_destination (mapModelRouteTargetsToBackends targets mBackends) = map Some (omap (resolve mBackends) targets).
Proof.
  unfold mapModelRouteTargetsToBackends, resolve. induction targets as [|d targets IH]; [done|]. simpl.
  destruct (backendOf mBackends d); simpl; [by f_equal | done].
Qed.

Lemma resolve_elem mBackends (targets : list RouteDestination) d' :
  d' ∈ omap (resolve mBackends) targets ->
  exists d b, d ∈ targets /\ backendOf mBackends d = Some b /\ dst_cluster d' = GetModelName b /\
    GetWeight (Some d') = GetWeight (Some d).
Proof.
  intros (d & Hd & Hr)%list_elem_of_omap. unfold resolve in Hr.
  destruct (backendOf mBackends d) as [b|] eqn:Eb; [|done]. injection Hr as <-. by exists d, b.
Qed.

Lemma resolved_unset o route mBackends d' :
  mrs_Route (mr_Spec o) = Some route -> forallb weightUnset (mrr_Targets route) = true ->
  d' ∈ omap (resolve mBackends) (getModelRouteTargets o) -> GetWeight (Some d') = 1.
Proof.
  intros Hr Hu (d & b & Hd & _ & _ & ->)%resolve_elem.
  pose proof (getModelRouteTargets_unset o route Hr Hu) as Hone. rewrite Forall_forall in Hone. by apply Hone.
Qed.

Lemma toRegisterRouteConfig_fields o mBackends cfg :
  toRegisterRouteConfig o mBackends = Ret (inl cfg) ->
  route_matches cfg = [mkMatch (Some (StringMatch_Exact (mrs_ModelName (mr_Spec o)))) None] /\
  route_targets cfg = mapModelRouteTargetsToBackends (getModelRouteTargets o) mBackends /\
  route_lb_policy cfg = match mrs_Route (mr_Spec o) with
                        | Some r => MapCRDLoadBalancePolicyModelConfigLoadBalancePolicy (mrr_LoadBalancePolicy r)
                        | None => LB_UNSPECIFIED
                        end /\
  route_fallback cfg = buildFallback <$> mrs_Fallback (mr_Spec o).
Proof.
  unfold toRegisterRouteConfig. destruct (buildFilters _) as [[fs|e]|]; [|done..]. simpl. by intros [= <-].
Qed.

Lemma newServers_resolved o mBackends cfg :
  toRegisterRouteConfig o mBackends = Ret (inl cfg) ->
  newServers (map rt_destination (route_targets cfg))
  = map (fun d => mkServer (dst_cluster d) (GetWeight (Some d)) 0) (omap (resolve mBackends) (getModelRouteTargets o)).
Proof.
  intros (_ & Ht & _)%toRegisterRouteConfig_fields. unfold newServers. rewrite Ht, mapTargets_resolve, map_map. done.
Qed.

Lemma resolve_count mBackends (l : list RouteDestination) :
  length (omap (resolve mBackends) l) = length (omap (backendOf mBackends) l).
Proof.
  induction l as [|d l IH]; [done|]. simpl. unfold resolve at 1. destruct (backendOf mBackends d); [|exact IH].
  exact (f_equal Datatypes.S IH).
Qed.

Lemma length_omap_le {A B} (f : A -> option B) l : (length (omap f l) <= length l)%nat.
Proof. induction l as [|a l IH]; [done|]. simpl. destruct (f a); [exact (le_n_S _ _ IH) | exact (le_S _ _ IH)]. Qed.

Lemma zsum_const {A} (f : A -> Z) l : Forall (fun a => f a = 1) l -> zsum (map f l) = len l.
Proof. unfold len. induction 1 as [|a l Ha _ IH]; simpl; [done|]. rewrite Ha, IH. lia. Qed.

Section Properties.
Context {K R X : Type} `{RouteInterface R} `{KubeResource K ModelRoute} `{KubeResource K LLMBackend}.
Context `{KubeResource K ImageGenerationBackend} `{KubeLaws K}.
Abbreviation S := (Gateway K R X).

(** C38: the status of a model route tells the truth.  A reconciliation runs the
    handlers in order up to the first that fails, and its conditions say so;
    unless the first three have succeeded the routes are as they were.  When
    they have, the spec is valid, and the registration asks the API server once
    more for the backends of the targets: if they are answered and the route
    can be built, the fourth condition is true and the route manager has taken
    the step of registering the route of the spec over exactly the backends
    answered; if the route cannot be built it is false and the manager has
    taken the step of taking the route of that name out; if the server does not
    answer it is false and the routes are as they were, so that an earlier
    version of the route goes on.  The clusters are never touched. *)
Theorem modelroute_status_truthful (multierror : list string -> string) (o o' : ModelRoute) (g g' : S)
    (Hlive : isDeleted o = false)
    (Hrun : reconcileLoop (getReconciles multierror) (ro_SetConditions [] o) g = Ret (g', o')) :
  mr_Spec o' = mr_Spec o /\ gw_clusters g' = gw_clusters g /\
  exists ran failed text, [condConfig; condValidator; condDestinationHealthy; condRegister] = ran ++ failed /\
    map reported (mst_Conditions (mr_Status o')) = stopped ran failed text /\
    match failed with
    | [] | [_] =>
        checkSpec (mr_Spec o) = None /\
        exists o1 g1, succeeded (take 3 (getReconciles multierror)) (ro_SetConditions [] o) g o1 g1 /\ same_registers g1 g /\
          registration o (gw_kube g1) (bool_decide (failed = [])) (gw_routes g) (gw_routes g')
    | _ => gw_routes g' = gw_routes g
    end.
Proof.
  assert (before multierror o g (getReconciles multierror) (ro_SetConditions [] o) g) as Hb.
  { split; [by destruct o as [? ? []]|]. split; [done|]. split; [by exists []|done]. }
  apply (reconcileLoop_shape (before multierror o g) (stuck o g) (before_kept multierror o g) (stuck_kept o g)
           (before_step multierror o g Hlive) _ [])
    in Hrun as (ran & failed & text & Hsplit & Hrep & HPQ & o1 & g1 & Hran & Hend);
    [|exact Hb|done|by apply (bool_decide_eq_true_1 (NoDup [condConfig; condValidator; condDestinationHealthy; condRegister]))].
  assert (mr_Spec o' = mr_Spec o /\ gw_clusters g' = gw_clusters g) as [Hs Hc].
  { destruct failed; destruct HPQ as ((Hs & _) & Hc & _); done. }
  split; [done|]. split; [done|]. exists (map rh_typ ran), (map rh_typ failed), text.
  split; [by rewrite <- map_app, <- Hsplit|]. split; [done|].
  pose proof (fun l k => succeeded_P (before multierror o g) (stuck o g) (before_kept multierror o g) (before_step multierror o g Hlive) l k) as HP.
  destruct failed as [|rr failed].
  - rewrite app_nil_r in Hsplit. subst ran. destruct Hend as [-> ->].
    apply (succeeded_app (take 3 (getReconciles multierror))) in Hran as (o2 & g2 & Hran & Hlast).
    pose proof (HP (take 3 (getReconciles multierror)) _ _ _ _ _ Hb Hran) as Hb2.
    inversion Hlast as [|? ? ? ? oa ga ob gb ? ? Ea Es Hnil]; subst. inversion Hnil; subst.
    pose proof (register_run _ _ _ Hlive _ _ _ _ _ _ Hb2 Ea) as (_ & _ & Hreg).
    apply setStatusCondition_run in Es as [[Er _] _]. rewrite Er.
    destruct Hb2 as (_ & Hc2 & _ & [Hv _] & Hr2). split; [done|]. by exists o2, g2.
  - destruct Hend as (o2 & g2 & e & Ea & Er & _). destruct failed as [|rr2 failed]; cbn [map].
    + assert (ran = take 3 (getReconciles multierror) /\ rh_reconciler rr = reconcileRegister multierror) as [-> Hrr].
      { destruct ran as [|? [|? [|? [|? ran]]]]; [injection Hsplit; intros; subst; clear Hsplit; done .. | by destruct ran]. }
      rewrite Hrr in Ea. pose proof (HP _ _ _ _ _ _ ltac:(by rewrite <- Hsplit) Hran) as Hb2.
      pose proof (register_run _ _ _ Hlive _ _ _ _ _ _ Hb2 Ea) as (_ & _ & Hreg). rewrite Er.
      destruct Hb2 as (_ & Hc2 & _ & [Hv _] & Hr2). split; [done|]. by exists o1, g1.
    + by destruct HPQ as (_ & _ & [[=]|Hsame]).
Qed.

(** Deleting a model route always ends: whatever the API server answers,
    the reconciliation of a route that is being deleted takes its name out of
    the match routes, touches nothing else in the gateway, and sends the
    server the object without finalizers. *)
Theorem modelroute_deletion (multierror : list string -> string) (LowerCamelCase : string -> string) (o : ModelRoute)
    (g : S) (P : K -> Prop) (Hdel : isDeleted o = true) (Hfin : om_Finalizers (mr_Meta o) <> [])
    (Hname : mrs_ModelName (mr_Spec o) <> "")
    (Hsent : forall (o1 : ModelRoute) k, mr_Meta o1 = setFinalizers [] (mr_Meta o) -> mr_Spec o1 = mr_Spec o ->
       P (fst (kube_Update o1 k)))
    (Hclock : forall k, P k -> P (fst (kube_Now k))) :
  exists g' o', reconcileLoop (getDeleteReconciles multierror LowerCamelCase) (ro_SetConditions [] o) g = Ret (g', o') /\
    matchRouteRegistry (gw_routes g') = delete (mrs_ModelName (mr_Spec o)) (matchRouteRegistry (gw_routes g)) /\
    routeRegistry (gw_routes g') = routeRegistry (gw_routes g) /\ gw_clusters g' = gw_clusters g /\ P (gw_kube g').
Proof.
  unfold getDeleteReconciles. erewrite reconcileLoop_ok.
  2:{ cbn [rh_reconciler]. unfold reconcileConfig. rewrite meta_set_conditions.
      rewrite (proj2 (Z.eqb_neq _ _)); [done|].
      change (ro_Meta o) with (mr_Meta o). revert Hfin. unfold len. by destruct (om_Finalizers (mr_Meta o)). }
  cbv zeta. rewrite conditions_set. set (cs := setCondition _ _ true "" []).
  set (g1 := mkGateway _ _ _). set (o1 := ro_SetConditions cs _).
  assert (exists g2, removeMatchRoute (mrs_ModelName (mr_Spec o)) g1 = Ret (g2, tt)) as [g2 Hrem].
  { unfold removeMatchRoute. rewrite (proj2 (String.eqb_neq _ _) Hname).
    destruct (modifyRoutes_total (fun s order => (RemoveMatchRoute s order (mrs_ModelName (mr_Spec o)), tt)) g1)
      as (g2 & [] & E). by exists g2. }
  rewrite (reconcileLoop_ok _ _ o1 o1 g1 g2).
  2:{ cbn [rh_reconciler]. unfold reconcileRegister. replace (isDeleted o1) with (isDeleted o) by done.
      rewrite Hdel. unfold mbind, Ctl_bind. change (mr_Spec o1) with (mr_Spec o). by rewrite Hrem. }
  pose proof Hrem as [Hstep Hcl]%removeMatchRoute_run; [|apply _ || done..]. apply rm_step_registries in Hstep. injection Hstep as Hm Hb.
  set (o2 := ro_SetConditions _ o1). set (g3 := mkGateway _ _ _).
  destruct (finalDelete_last P condFinalDelete o2 g3) as (g' & o' & Hlast & [Hrr Hcc] & HP); [| |exact Hclock|].
  - unfold o2, o1. rewrite !conditions_set. do 2 apply setCondition_true_ready. done.
  - by apply Hsent.
  - exists g', o'. rewrite Hrr, Hcc. by split_and!.
Qed.
End Properties.

(** What a status says, its times aside. *)
Definition reportedStatus (s : ModelRouteStatus) :=
  (mst_Status s, map reported (mst_Conditions s), mst_Targets s).

#[export] Instance ModelRouteStatusTarget_eq : EqDecision ModelRouteStatusTarget.
Proof. solve_decision. Defined.

Lemma routeStatusEqual_spec s1 s2 : routeStatusEqual s1 s2 = bool_decide (reportedStatus s1 = reportedStatus s2).
Proof.
  apply eq_bool_prop_intro. rewrite bool_decide_spec, Is_true_true.
  assert (forall t u : ModelRouteStatusTarget, sameTarget t u = true <-> id t = id u) as Ht by exact sameTarget_spec.
  pose proof (sameSlices_spec id sameTarget (mst_Targets s1) (mst_Targets s2) Ht) as Hts. rewrite !map_id in Hts.
  unfold routeStatusEqual, reportedStatus. rewrite !pair_eq.
  pose proof (statusEqual_spec (mst_Conditions s1) (mst_Conditions s2) (mst_Status s1) (mst_Status s2)) as Hst.
  destruct (statusEqual _ _ _ _), (len (mst_Targets s1) =? len (mst_Targets s2)); simpl in *; intuition congruence.
Qed.

Lemma reconcileModelRoutePhase_Failed o :
  mst_Status (mr_Status (reconcileModelRoutePhase o)) = Failed <->
  isDeleted o = false /\
  (Exists (fun c => cond_Status c = ConditionFalse) (mst_Conditions (mr_Status o)) \/
   Exists (fun t => st_Status t = Failed) (mst_Targets (mr_Status o))).
Proof.
  unfold reconcileModelRoutePhase, someConditionFalse.
  change (isDeleted (ro_SetStatus Healthy o)) with (isDeleted o).
  change (ro_Conditions (ro_SetStatus Healthy o)) with (mst_Conditions (mr_Status o)).
  change (mst_Targets (mr_Status (ro_SetStatus Healthy o))) with (mst_Targets (mr_Status o)).
  assert (forall A (f : A -> string) v l, existsb (fun a => String.eqb (f a) v) l = true <-> Exists (fun a => f a = v) l) as Hex.
  { intros A f v l. rewrite List.existsb_exists, List.Exists_exists. by setoid_rewrite String.eqb_eq. }
  destruct (isDeleted o); [by split; [|intros [? _]]|].
  destruct (existsb _ (mst_Conditions _)) eqn:Ec; [apply Hex in Ec; by split; auto|].
  apply not_true_iff_false in Ec. rewrite Hex in Ec.
  destruct (existsb _ (mst_Targets _)) eqn:Et; [apply Hex in Et; by split; auto|].
  apply not_true_iff_false in Et. rewrite Hex in Et. split; [done | naive_solver].
Qed.

Section Status.
Context {K R X : Type} `{RouteInterface R} `{KubeResource K ModelRoute} `{KubeResource K LLMBackend}.
Context `{KubeResource K ImageGenerationBackend} `{KubeEnv K}.
Abbreviation S := (Gateway K R X).

(** A reconciliation writes the status when, and only when, it says
    something other than what the server has, transition times aside, and the
    object written is the server's with the new status; the status is [Failed]
    exactly when, on a route that is not being deleted, a condition is false
    or a target has failed, and the route is looked at again after 30 seconds
    exactly then. *)
Theorem modelroute_status_written (multierror : list string -> string) (LowerCamelCase : string -> string)
    (req : NamespacedName) (o o1 new : ModelRoute) (g g1 : S) (k k2 : K)
    (Hget : kube_Get req (gw_kube g) = (k, inl o))
    (Hloop : reconcileLoop (if isDeleted o then getDeleteReconciles multierror LowerCamelCase else getReconciles multierror)
               (ro_SetConditions [] o) (mkGateway k (gw_routes g) (gw_clusters g)) = Ret (g1, o1))
    (Hagain : kube_Get req (gw_kube g1) = (k2, inl new)) :
  let current := reconcileModelRoutePhase o1 in
  let failed := bool_decide (mst_Status (mr_Status current) = Failed) in
  let after := if failed then 30 * nanosPerSecond else 0 in
  (failed = true <-> isDeleted o1 = false /\
     (Exists (fun c => cond_Status c = ConditionFalse) (mst_Conditions (mr_Status o1)) \/
      Exists (fun t => st_Status t = Failed) (mst_Targets (mr_Status o1)))) /\
  ModelRoute_Reconcile multierror LowerCamelCase req g =
    if bool_decide (reportedStatus (mr_Status current) = reportedStatus (mr_Status new))
    then Ret (mkGateway k2 (gw_routes g1) (gw_clusters g1), (after, None))
    else let '(k3, err) := kube_StatusUpdate (mkModelRoute (mr_Meta new) (mr_Spec new) (mr_Status current)) k2 in
         Ret (mkGateway k3 (gw_routes g1) (gw_clusters g1),
              match err with Some e => (0, IgnoreNotFound e) | None => (after, None) end).
Proof.
  intros current failed after. split.
  - unfold failed. rewrite bool_decide_eq_true. apply reconcileModelRoutePhase_Failed.
  - unfold ModelRoute_Reconcile, Reconcile, mbind, Ctl_bind. unfold kube at 1. rewrite Hget.
    destruct (isDeleted o); rewrite Hloop; unfold kube at 1; rewrite Hagain; fold current; rewrite routeStatusEqual_spec.
    all: replace (String.eqb (ro_Status current) Failed) with failed
      by (unfold failed; apply eq_bool_prop_intro; by rewrite bool_decide_spec, Is_true_true, String.eqb_eq).
    all: destruct (bool_decide (reportedStatus (mr_Status current) = _)); [done|]; unfold kube; cbn [gw_kube gw_routes gw_clusters];
      change (withStatusOf current new) with (mkModelRoute (mr_Meta new) (mr_Spec new) (mr_Status current));
      destruct (kube_StatusUpdate _ k2) as [k3 [e|]]; done.
Qed.
End Status.

(** The scope of a rate limit rule: no match, or an empty one, applies to
    every value; an exact match to its value; but a rule that matches by
    prefix is given the empty prefix, and applies to no value but the empty
    one. *)
Theorem rate_limit_rule_scope (rules : list (option RateLimitRule)) (policies : list RateLimitPolicy) (i : nat)
    (rule : RateLimitRule) (policy : RateLimitPolicy) (value : string)
    (Hb : buildRateLimitPolicies rules = Ret policies) (Hr : rules !! i = Some (Some rule))
    (Hp : policies !! i = Some policy) :
  policyMatches policy value = true <->
  match rule_Match rule with
  | None => True
  | Some m => sm_Exact m = "" /\ sm_Prefix m = "" \/ value = sm_Exact m
  end.
Proof.
  revert policies i Hb Hr Hp. induction rules as [|r rules IH]; intros policies i Hb Hr Hp; [done|].
  destruct r as [r|]; [|done]. simpl in Hb.
  destruct (buildRateLimitPolicies rules) as [ps|]; [|done]. injection Hb as <-.
  destruct i as [|i]; simpl in Hr, Hp; [|by eapply (IH ps)].
  injection Hr as ->. injection Hp as <-. unfold policyMatches, ruleMatch. simpl.
  destruct (rule_Match rule) as [[e p]|]; [|done]. simpl.
  destruct (String.eqb_spec e "") as [->|He]; simpl.
  - destruct (String.eqb_spec p "") as [->|Hne]; simpl.
    + split; [by left | done].
    + destruct value; simpl; split; [by right | done | done | by intros [[_ ?]|]].
  - rewrite orb_false_r, String.eqb_eq. split; [by intros ->; right | by intros [[? _]|]].
Qed.

(** C40: the weighted round robin of a valid model route works, provided that
    its weights are below 2^31, since they are narrowed to 32 bits: the balancer
    of its route is well-formed, and every draw of its random source selects
    the cluster of a backend that was found for one of the targets.  Each found
    target has a server of its own, in their order, which is selected by as many
    of the draws as its weight says; when no target sets a weight that is one
    draw for each of them. *)
Theorem modelroute_balances (o : ModelRoute) (route : ModelRouteRoute) (mBackends : gmap string (option Backend))
    (cfg : Api.Route) (Hvalid : checkSpec (mr_Spec o) = None)
    (Hcfg : toRegisterRouteConfig o mBackends = Ret (inl cfg)) (Hr : mrs_Route (mr_Spec o) = Some route)
    (Hpolicy : mrr_LoadBalancePolicy route = LoadBalancePolicyWeightedRoundRobin)
    (Hfew : len (mrr_Targets route) < 2 ^ 31)
    (Hweights : forall t w, t ∈ mrr_Targets route -> td_Weight (mt_Destination t) = Some w -> w < 2 ^ 31) :
  exists w, New cfg = LB_WRR w /\ wrr_wf w /\
    (forall rnd, 0 <= rnd < totalWeight (wrr_servers w) ->
       exists w' d b, WRR_Next w (Some rnd) = Ret (w', GetModelName b) /\ wrr_wf w' /\
         d ∈ getModelRouteTargets o /\ backendOf mBackends d = Some b /\ 0 < GetWeight (Some d)) /\
    length (wrr_servers w) = length (omap (resolve mBackends) (getModelRouteTargets o)) /\
    (forall j d, omap (resolve mBackends) (getModelRouteTargets o) !! j = Some d ->
       Z.of_nat (length (filter (drawsSelecting w j (dst_cluster d)) (seqZ 0 (totalWeight (wrr_servers w))))) = GetWeight (Some d) /\
       (forallb weightUnset (mrr_Targets route) = true -> GetWeight (Some d) = 1)) /\
    (forallb weightUnset (mrr_Targets route) = true ->
       totalWeight (wrr_servers w) = len (omap (backendOf mBackends) (getModelRouteTargets o))).
Proof.
  pose proof (newServers_resolved _ _ _ Hcfg) as Hsrv.
  pose proof (toRegisterRouteConfig_fields _ _ _ Hcfg) as (_ & _ & Hlb & _).
  rewrite Hr, Hpolicy in Hlb. change (MapCRDLoadBalancePolicyModelConfigLoadBalancePolicy _) with LB_ROUND_ROBIN in Hlb.
  set (w := NewWeightedRoundRobin (map rt_destination (route_targets cfg))). exists w.
  assert (wrr_servers w = map (fun d => mkServer (dst_cluster d) (GetWeight (Some d)) 0)
                            (omap (resolve mBackends) (getModelRouteTargets o))) as Hw by exact Hsrv.
  assert (wrr_wf w) as Hwf.
  { pose proof (getModelRouteTargets_weights o Hvalid) as Hb. rewrite Forall_forall in Hb. split.
    - rewrite Hw. apply Forall_map, Forall_forall. intros d' (d & b & Hd & _ & _ & ->)%resolve_elem. simpl.
      apply Hb; [|done]. intros route' t w' Hr' Ht Hw'. assert (route' = route) as -> by congruence. by eapply Hweights.
    - assert (length (omap (resolve mBackends) (getModelRouteTargets o)) <= length (mrr_Targets route))%nat as Hl.
      { etrans; [apply length_omap_le|]. unfold getModelRouteTargets. rewrite Hr. cbv zeta.
        destruct (forallb _ _); by rewrite ?length_map. }
      rewrite Hw. unfold len in *. rewrite length_map. lia.
    - unfold w, NewWeightedRoundRobin. simpl. lia. }
  split; [by unfold New; rewrite Hlb|]. split; [done|]. split; [|split; [by rewrite Hw, length_map|split]].
  - intros rnd Hrnd. destruct (wrr_servers w) as [|s ss] eqn:Es; [unfold totalWeight in Hrnd; simpl in Hrnd; lia|].
    rewrite <- Es in *. destruct (WRR_Next_serves w rnd) as (w' & sv & HN & Hin & Hpos & _ & Hwf'); [done|congruence|done|].
    rewrite Hw in Hin. apply list_elem_of_fmap in Hin as (d' & -> & Hd').
    apply resolve_elem in Hd' as (d & b & Hd & Hb & Hc & Hwt). cbn [srv_name srv_weight] in HN, Hpos. rewrite Hc in HN. rewrite Hwt in Hpos.
    by exists w', d, b.
  - intros j d' Hd'. split; [|intros Hu; apply (resolved_unset o route mBackends d' Hr Hu); by eapply list_elem_of_lookup_2].
    apply (draws_count_any w j (mkServer (dst_cluster d') (GetWeight (Some d')) 0)); [done|]. by rewrite Hw, list_lookup_fmap, Hd'.
  - intros Hu. unfold totalWeight. rewrite Hw, map_map. simpl.
    rewrite (zsum_const (fun d => GetWeight (Some d))); [unfold len; by rewrite resolve_count|].
    apply Forall_forall. intros d' Hd'. by apply (resolved_unset o route mBackends).
Qed.

(** ** Examples *)
#[local] Existing Instances ex_ModelRoutes ex_LLMBackends ex_ImageBackends ex_env ex_laws ex_interface.

Definition ex_target (backend : string) (w : option Z) : ModelRouteRouteTarget :=
  mkModelRouteRouteTarget (mkTargetDestination "" backend w).
Definition ex_route (deleted : option Z) : ModelRoute :=
  mkModelRoute (mkObjectMeta "chat" "default" [KnowayFinalzer] 0 deleted)
    (mkModelRouteSpec "chat-model" []
       (Some (mkModelRouteRoute LoadBalancePolicyWeightedRoundRobin [ex_target "llama" None; ex_target "gone" None])) None)
    (mkModelRouteStatus Unknown [] []).
Definition ex_gateway : Gateway ex_api Api.Route unit :=
  mkGateway (mkApi [ex_route None] [ex_llm] [] 1000) emptyManager NewClusterRegister.
Definition ex_join (l : list string) : string := concat_strings l.

Definition ex_result : outcome (Gateway ex_api Api.Route unit * ModelRoute) :=
  reconcileLoop (getReconciles ex_join) (ro_SetConditions [] (ex_route None)) ex_gateway.

Definition ex_get_result {A} (r : outcome A) (d : A) : A := match r with Ret a => a | Panic _ => d end.
Definition ex_after : Gateway ex_api Api.Route unit * ModelRoute := ex_get_result ex_result (ex_gateway, ex_route None).

(** The backend that does not exist makes its target fail, not the route. *)
Example ex_reconciled :
  map reported (mst_Conditions (mr_Status (snd ex_after)))
    = stopped [condConfig; condValidator; condDestinationHealthy; condRegister] [] "" /\
  map st_Status (mst_Targets (mr_Status (snd ex_after))) = [Healthy; Failed] /\
  map GetCluster (map rt_destination (concat (map route_targets (routes (gw_routes (fst ex_after)))))) = ["llama-3"].
Proof. by vm_compute. Qed.

Lemma modelroute_status_truthful_witness :
  mr_Spec (snd ex_after) = mr_Spec (ex_route None) /\ gw_clusters (fst ex_after) = gw_clusters ex_gateway /\
  exists ran failed text, [condConfig; condValidator; condDestinationHealthy; condRegister] = ran ++ failed /\
    map reported (mst_Conditions (mr_Status (snd ex_after))) = stopped ran failed text /\
    match failed with
    | [] | [_] =>
        checkSpec (mr_Spec (ex_route None)) = None /\
        exists o1 g1, succeeded (take 3 (getReconciles ex_join)) (ro_SetConditions [] (ex_route None)) ex_gateway o1 g1 /\
          same_registers g1 ex_gateway /\
          registration (ex_route None) (gw_kube g1) (bool_decide (failed = [])) (gw_routes ex_gateway) (gw_routes (fst ex_after))
    | _ => gw_routes (fst ex_after) = gw_routes ex_gateway
    end.
Proof. apply (modelroute_status_truthful ex_join); [done | by vm_compute]. Defined.

(** The stored route has lost its finalizers. *)
Definition ex_released (k : ex_api) : Prop :=
  Forall (fun r => named (mkNamespacedName "default" "chat") r = true -> om_Finalizers (mr_Meta r) = []) (api_routes k).

Lemma ex_put_released (o1 : ModelRoute) l :
  mr_Meta o1 = setFinalizers [] (mr_Meta (ex_route (Some 5))) ->
  Forall (fun r => named (mkNamespacedName "default" "chat") r = true -> om_Finalizers (mr_Meta r) = []) (ex_put o1 l).
Proof.
  intros Hm. apply Forall_forall. intros r (r' & -> & _)%list_elem_of_fmap. change (ro_Meta o1) with (mr_Meta o1).
  rewrite Hm. simpl. destruct (named _ r') eqn:E; [by rewrite Hm | by rewrite E].
Qed.

Lemma modelroute_deletion_witness :
  exists g' o', reconcileLoop (getDeleteReconciles ex_join (fun _ => "deleteRegister"))
                  (ro_SetConditions [] (ex_route (Some 5))) (fst ex_after) = Ret (g', o') /\
    matchRouteRegistry (gw_routes g') = delete "chat-model" (matchRouteRegistry (gw_routes (fst ex_after))) /\
    routeRegistry (gw_routes g') = routeRegistry (gw_routes (fst ex_after)) /\
    gw_clusters g' = gw_clusters (fst ex_after) /\ ex_released (gw_kube g').
Proof.
  apply (modelroute_deletion ex_join (fun _ => "deleteRegister") (ex_route (Some 5)) (fst ex_after) ex_released); try done.
  intros o1 k Hm _. by apply ex_put_released.
Defined.

Definition ex_mBackends : gmap string (option Backend) :=
  {[ "default/llama" := Some (BackendFromLLMBackend ex_llm); "default/gone" := None ]}.
Definition ex_cfg : Api.Route :=
  match toRegisterRouteConfig (ex_route None) ex_mBackends with Ret (inl cfg) => cfg | _ => InitDirectModelRoute "" end.

Lemma modelroute_balances_witness :
  exists w, New ex_cfg = LB_WRR w /\ wrr_wf w /\
    (forall rnd, 0 <= rnd < totalWeight (wrr_servers w) ->
       exists w' d b, WRR_Next w (Some rnd) = Ret (w', GetModelName b) /\ wrr_wf w' /\
         d ∈ getModelRouteTargets (ex_route None) /\ backendOf ex_mBackends d = Some b /\ 0 < GetWeight (Some d)) /\
    length (wrr_servers w) = length (omap (resolve ex_mBackends) (getModelRouteTargets (ex_route None))) /\
    (forall j d, omap (resolve ex_mBackends) (getModelRouteTargets (ex_route None)) !! j = Some d ->
       Z.of_nat (length (filter (drawsSelecting w j (dst_cluster d)) (seqZ 0 (totalWeight (wrr_servers w))))) = GetWeight (Some d) /\
       (forallb weightUnset [ex_target "llama" None; ex_target "gone" None] = true -> GetWeight (Some d) = 1)) /\
    (forallb weightUnset [ex_target "llama" None; ex_target "gone" None] = true ->
       totalWeight (wrr_servers w) = len (omap (backendOf ex_mBackends) (getModelRouteTargets (ex_route None)))).
Proof.
  apply (modelroute_balances (ex_route None)
           (mkModelRouteRoute LoadBalancePolicyWeightedRoundRobin [ex_target "llama" None; ex_target "gone" None])).
  - done.
  - by vm_compute.
  - done.
  - done.
  - done.
  - intros t w Ht Hw. exfalso. simpl in Ht. apply elem_of_cons in Ht as [->|Ht]; [done|].
    by apply list_elem_of_singleton in Ht as ->.
Defined.

Lemma rate_limit_rule_scope_witness :
  policyMatches (mkRateLimitPolicy (Some (StringMatch_Prefix "")) 5 API_KEY 0) "sk-team" = true <->
  ("" = "" /\ "sk-" = "" \/ "sk-team" = "").
Proof.
  apply (rate_limit_rule_scope [Some (mkRateLimitRule (Some (mkCRDStringMatch "" "sk-")) 5 "APIKey" 0)]
           [mkRateLimitPolicy (Some (StringMatch_Prefix "")) 5 API_KEY 0] 0
           (mkRateLimitRule (Some (mkCRDStringMatch "" "sk-")) 5 "APIKey" 0)); done.
Defined.

Lemma modelroute_status_written_witness :
  let current := reconcileModelRoutePhase (snd ex_after) in
  mst_Status (mr_Status current) = Failed /\
  ModelRoute_Reconcile ex_join (fun _ => "deleteRegister") (mkNamespacedName "default" "chat") ex_gateway =
    if bool_decide (reportedStatus (mr_Status current) = reportedStatus (mr_Status (ex_route None)))
    then Ret (fst ex_after, (30 * nanosPerSecond, None))
    else let '(k3, err) := kube_StatusUpdate (mkModelRoute (mr_Meta (ex_route None)) (mr_Spec (ex_route None)) (mr_Status current))
                             (gw_kube (fst ex_after)) in
         Ret (mkGateway k3 (gw_routes (fst ex_after)) (gw_clusters (fst ex_after)),
              match err with Some e => (0, IgnoreNotFound e) | None => (30 * nanosPerSecond, None) end).
Proof.
  split; [by vm_compute|].
  refine (proj2 (modelroute_status_written ex_join (fun _ => "deleteRegister") (mkNamespacedName "default" "chat")
    (ex_route None) (snd ex_after) (ex_route None) ex_gateway (fst ex_after) (gw_kube ex_gateway) (gw_kube (fst ex_after)) _ _ _)).
  - by vm_compute.
  - by vm_compute.
  - by vm_compute.
Defined.
