(* ===== verification/BackendController.v ===== *)
(** * internal/controller: the backends

    llmbackend_controller.go and imagegenerationbackend_controller.go, which
    differ in the parameters and the metering of their backends, and the
    translation of parameters and headers of common.go. *)
From S2P Require Import Prelude Strconv Utils GoFloat Json Api LoadBalance Errors Request Response Effects Stream Filters.
From S2P Require Import Auth Usage RateLimit ClusterFilters Cluster Route RouteManager Kube Controller.

(** ** Parameters

    A Go struct as [reflect] shows it: its fields in order, with their tags; a
    nil pointer has no value, any other pointer the value behind it. *)
Inductive gvalue : Type :=
| VString (s : string)
| VNamedString (s : string)       (* a type whose kind is string *)
| VInt (z : Z)
| VFloat (f : f64)
| VBool (b : bool)
| VStruct (fields : list gfield)
with gfield : Type :=
| GField (anonymous : bool) (tag : string) (floatString : bool) (value : option gvalue).

(** [structpb.NewValue], with its error's text, beside [strconv.ParseFloat]. *)
Class StructPB : Type := {
  structpb_float :: FloatText;
  NewValue : gvalue -> json + string }.

(** The documented conversions of [NewValue], for strings that are not of a
    named type. *)
Class StructPBLaws `{StructPB} : Prop := {
  NewValue_string s : NewValue (VString s) = inl (JStr s);
  NewValue_int z : NewValue (VInt z) = inl (JNum (f64_of_int z));
  NewValue_float f : NewValue (VFloat f) = inl (JNum f);
  NewValue_bool b : NewValue (VBool b) = inl (JBool b) }.

Section Params.
Context `{StructPB}.

(** The value of a field that is not a struct; [inr] is the error. *)
Definition fieldValue (jsonKey : string) (floatString : bool) (v : gvalue) : gvalue + gerror :=
  match floatString, v with
  | true, VString strVal =>
      match ParseFloat strVal with
      | inl floatVal => inl (VFloat floatVal)
      | inr e => inr (EWrap ("failed to convert string to float for field " +:+ jsonKey) (EPlain e))
      end
  | _, _ => inl v
  end.

(** One field of [processStruct], and the loop over the fields of a struct. *)
Fixpoint processField (f : gfield) (params : gmap string json) {struct f} : gmap string json + gerror :=
  let processStruct := fix loop (fields : list gfield) (params : gmap string json) : gmap string json + gerror :=
    match fields with
    | [] => inl params
    | f :: fields => match processField f params with inl params => loop fields params | inr e => inr e end
    end in
  match f with
  | GField true _ _ (Some (VStruct fields)) => processStruct fields params
  | GField true _ _ _ => inr (EPlain "expected a pointer to struct, got ptr")
  | GField false tag floatString value =>
      if String.eqb tag "-" then inl params
      else
        let jsonKey := hd "" (Split "," tag) in
        match value with
        | None => inl params
        | Some (VStruct fields) =>
            match processStruct fields ∅ with
            | inr e => inr e
            | inl nestedParams => inl (<[jsonKey := JObj nestedParams]> params)
            end
        | Some v =>
            match fieldValue jsonKey floatString v with
            | inr e => inr e
            | inl v =>
                match NewValue v with
                | inr e => inr (EWrap ("failed to convert field " +:+ jsonKey +:+ " to *structpb.Value") (EPlain e))
                | inl value => inl (<[jsonKey := value]> params)
                end
            end
        end
  end.

Fixpoint processStruct (fields : list gfield) (params : gmap string json) : gmap string json + gerror :=
  match fields with
  | [] => inl params
  | f :: fields => match processField f params with inl params => processStruct fields params | inr e => inr e end
  end.

(** The fields of the parameter types, as declared. *)
Definition CommonParams_fields (p : CommonParams) : list gfield :=
  [GField false "model,omitempty" false (Some (VString (cp_Model p)));
   GField false "temperature,omitempty" true (VString <$> cp_Temperature p)].

Definition StreamOptions_fields (p : StreamOptions) : list gfield :=
  [GField false "include_usage,omitempty" false (VBool <$> so_IncludeUsage p)].

Definition OpenAIParam_fields (p : OpenAIParam) : list gfield :=
  [GField true ",inline" false (Some (VStruct (CommonParams_fields (op_CommonParams p))));
   GField false "max_tokens,omitempty" false (VInt <$> op_MaxTokens p);
   GField false "max_completion_tokens,omitempty" false (VInt <$> op_MaxCompletionTokens p);
   GField false "top_p,omitempty" true (VString <$> op_TopP p);
   GField false "stream,omitempty" false (VBool <$> op_Stream p);
   GField false "stream_options,omitempty" false ((fun o => VStruct (StreamOptions_fields o)) <$> op_StreamOptions p)].

Definition ImageGenerationCommonParams_fields (p : ImageGenerationCommonParams) : list gfield :=
  [GField false "model,omitempty" false (Some (VString (icp_Model p)));
   GField false "prompt,omitempty" false (VString <$> icp_Prompt p)].

Definition OpenAIImageGenerationParam_fields (p : OpenAIImageGenerationParam) : list gfield :=
  [GField true ",inline" false (Some (VStruct (ImageGenerationCommonParams_fields (ip_CommonParams p))));
   GField false "n,omitempty" false (VString <$> ip_N p);
   GField false "quality,omitempty" false (VString <$> ip_Quality p);
   GField false "response_format,omitempty" false (VNamedString <$> ip_ResponseFormat p);
   GField false "size,omitempty" false (VString <$> ip_Size p);
   GField false "style,omitempty" false (VNamedString <$> ip_Style p);
   GField false "user,omitempty" false (VString <$> ip_User p);
   GField false "negative_prompt,omitempty" false (VString <$> ip_NegativePrompt p);
   GField false "guidance_scale,omitempty" false (VString <$> ip_GuidanceScale p)].

(** [parseModelParams] and [parseImageGenerationBackendModelParams], on the
    fields of their only type of model. *)
Definition parseModelParams (openAI : option (list gfield)) : gmap string json + gerror :=
  match openAI with
  | None => inl ∅
  | Some fields =>
      match processStruct fields ∅ with
      | inl params => inl params
      | inr e => inr (EWrap "error processing OpenAI params" e)
      end
  end.

Definition toBackendParams (defaults overrides : option (list gfield))
    : gmap string json * gmap string json + gerror :=
  match parseModelParams defaults with
  | inr e => inr (EWrap "error processing DefaultParams" e)
  | inl defaultParams =>
      match parseModelParams overrides with
      | inr e => inr (EWrap "error processing OverrideParams" e)
      | inl overrideParams => inl (defaultParams, overrideParams)
      end
  end.

Definition toLLMBackendParams (b : LLMBackend) : gmap string json * gmap string json + gerror :=
  let fields p := OpenAIParam_fields <$> (p ≫= mp_OpenAI) in
  toBackendParams (fields (bu_DefaultParams (lb_Upstream b))) (fields (bu_OverrideParams (lb_Upstream b))).

Definition toImageGenerationBackendParams (b : ImageGenerationBackend) : gmap string json * gmap string json + gerror :=
  let fields p := OpenAIImageGenerationParam_fields <$> (p ≫= imp_OpenAI) in
  toBackendParams (fields (bu_DefaultParams (ib_Upstream b))) (fields (bu_OverrideParams (ib_Upstream b))).
End Params.

(** ** Headers *)
Section Headers.
Context {K R X : Type} `{KubeEnv K}.
Abbreviation S := (Gateway K R X).

Definition RefTypeSecret : string := "Secret".
Definition RefTypeConfigMap : string := "ConfigMap".

Definition resolveHeaderFrom (namespace : string) (fromSource : HeaderFromSource)
    : Ctl S (gmap string string + gerror) :=
  let name := mkNamespacedName namespace (hf_RefName fromSource) in
  let fetch (get : NamespacedName -> K -> K * (gmap string string + KubeError)) (kind : string)
      : Ctl S (gmap string string + gerror) :=
    r ← kube (get name);
    match r with
    | inl data => mret (inl data)
    | inr e => mret (inr (EWrap ("failed to get " +:+ kind +:+ " " +:+ hf_RefName fromSource) (kube_error e)))
    end in
  if String.eqb (hf_RefType fromSource) RefTypeSecret then fetch kube_GetSecret RefTypeSecret
  else if String.eqb (hf_RefType fromSource) RefTypeConfigMap then fetch kube_GetConfigMap RefTypeConfigMap
  else mret (inl ∅).

(** The entries of a map in the order of a [range] over it. *)
Definition rangeMap {A} (m : gmap string A) : Ctl S (list (string * A)) :=
  order ← kube (kube_RangeOrder (map_to_list m).*1);
  mret (omap (fun k => v ← m !! k; Some (k, v)) order).

Fixpoint headersOf (namespace : string) (headersFrom : list HeaderFromSource) (hs : list (string * string))
    : Ctl S (list (string * string) + gerror) :=
  match headersFrom with
  | [] => mret (inl hs)
  | valueFrom :: headersFrom =>
      r ← resolveHeaderFrom namespace valueFrom;
      match r with
      | inr e => mret (inr e)
      | inl data =>
          kvs ← rangeMap data;
          headersOf namespace headersFrom (hs ++ map (fun kv => (hf_Prefix valueFrom +:+ fst kv, snd kv)) kvs)
      end
  end.

Definition headerFromSpec (namespace : string) (headers : list CRDHeader) (headersFrom : list HeaderFromSource)
    : Ctl S (list (string * string) + gerror) :=
  let hs := omap (fun h => if String.eqb (h_Key h) "" || String.eqb (h_Value h) "" then None
                           else Some (h_Key h, h_Value h)) headers in
  headersOf namespace headersFrom hs.
End Headers.

(** ** The two kinds of backends

    What their controllers do differently; [br_Parameters] are the two
    parameter maps of [toLLMBackendParams] or [toImageGenerationBackendParams]. *)
Class BackendResource (B : Type) : Type := {
  br_SpecModelName : B -> option string;
  br_BaseURL : B -> string;
  br_Headers : B -> list CRDHeader;
  br_HeadersFrom : B -> list HeaderFromSource;
  br_Parameters : B -> gmap string json * gmap string json + gerror;
  br_RemoveParamKeys : B -> list string;
  br_Timeout : B -> Z;
  br_Provider : B -> string;
  br_Type : ClusterType;
  br_Metering : B -> option ClusterMeteringPolicy;
  br_WithStatusOf : B -> B -> B }.   (* new.Status = b.Status *)

#[export] Instance LLMBackend_Resource `{StructPB} : BackendResource LLMBackend := {|
  br_SpecModelName := lb_ModelName;
  br_BaseURL b := bu_BaseURL (lb_Upstream b);
  br_Headers b := bu_Headers (lb_Upstream b);
  br_HeadersFrom b := bu_HeadersFrom (lb_Upstream b);
  br_Parameters := toLLMBackendParams;
  br_RemoveParamKeys b := bu_RemoveParamKeys (lb_Upstream b);
  br_Timeout b := bu_Timeout (lb_Upstream b);
  br_Provider := lb_Provider;
  br_Type := LLM;
  br_Metering _ := None;
  br_WithStatusOf b new := mkLLMBackend (lb_Meta new) (lb_ModelName new) (lb_Provider new) (lb_Upstream new) (lb_Status b) |}.

#[export] Instance ImageGenerationBackend_Resource `{StructPB} : BackendResource ImageGenerationBackend := {|
  br_SpecModelName := ib_ModelName;
  br_BaseURL b := bu_BaseURL (ib_Upstream b);
  br_Headers b := bu_Headers (ib_Upstream b);
  br_HeadersFrom b := bu_HeadersFrom (ib_Upstream b);
  br_Parameters := toImageGenerationBackendParams;
  br_RemoveParamKeys b := bu_RemoveParamKeys (ib_Upstream b);
  br_Timeout b := bu_Timeout (ib_Upstream b);
  br_Provider := ib_Provider;
  br_Type := IMAGE_GENERATION;
  br_Metering b := Some (mkMeteringPolicy (MapBackendSizeFromClusterSizeFrom (mjoin (ib_MeteringPolicy b))));
  br_WithStatusOf b new :=
    mkImageBackend (ib_Meta new) (ib_ModelName new) (ib_Provider new) (ib_Upstream new) (ib_MeteringPolicy new)
      (ib_Status b) |}.

(** ** The handlers *)
Section Handlers.
Context {K R X B : Type} `{RouteInterface R} `{Reconciled B} `{BackendResource B} `{KubeResource K B} `{KubeEnv K}.
Context `{JSONPatch} `{JSONPath} `{JSONText}.
Abbreviation S := (Gateway K R X).

(** As in [Cluster]. *)
Variable url_Parse : string -> string + string.
Variable BuildSpeechRequest : ClusterProvider -> string -> string -> LLMRequest -> Header -> option Header ->
                              outcome (HTTPRequest + gerror).
Variable decodeBase64 fetchURL : string -> (Z * Z * string) + gerror.
Variable multierror_Error : list string -> string.
Variable LowerCamelCase : string -> string.

Definition backendModelName (b : B) : string := modelNameOrNamespacedName (br_SpecModelName b) (ro_Meta b).

(** The parameter maps are listed in an order drawn here. *)
Definition toRegisterClusterConfig (b : B) : Ctl S (Cluster + gerror) :=
  hs ← headerFromSpec (om_Namespace (ro_Meta b)) (br_Headers b) (br_HeadersFrom b);
  match hs with
  | inr e => mret (inr e)
  | inl hs =>
      match br_Parameters b with
      | inr e => mret (inr e)
      | inl (defaultParams, overrideParams) =>
          defaultParams ← rangeMap defaultParams;
          overrideParams ← rangeMap overrideParams;
          mret (inl (mkCluster (backendModelName b) CLB_ROUND_ROBIN
                       (Some (mkUpstream (br_BaseURL b) hs (br_Timeout b) defaultParams overrideParams
                                (br_RemoveParamKeys b)))
                       [] (MapBackendProviderToClusterProvider (br_Provider b))
                       (om_CreationTimestamp (ro_Meta b)) br_Type (br_Metering b)))
      end
  end.

Definition removeBackend (modelName : string) : Ctl S unit :=
  if String.eqb modelName "" then mret tt
  else
    _ ← modifyClusters (fun cr => (DeleteCluster cr modelName, tt));
    modifyRoutes (fun s order => (RemoveBaseRoute s order modelName, tt)).

(** The texts of the errors in [mulErrs]. *)
Definition upsertError (b : B) (what : string) (err : option gerror) : outcome (list string) :=
  match err with
  | None => Ret []
  | Some e => t ← ErrorText (EWrap ("failed to upsert " +:+ ro_Kind (O := B) +:+ " " +:+ om_Name (ro_Meta b) +:+ what) e); Ret [t]
  end.

Definition reconcileRegister (b : B) : Ctl S (B * option gerror) :=
  let modelName := backendModelName b in
  if isDeleted b then _ ← removeBackend modelName; mret (b, None)
  else
    clusterCfg ← toRegisterClusterConfig b;
    match clusterCfg with
    | inr e => mret (b, Some (EWrap "invalid config" e))
    | inl clusterCfg =>
        let routeCfg := InitDirectModelRoute modelName in
        err ← modifyClusters (fun cr =>
          UpsertAndRegisterCluster url_Parse BuildSpeechRequest decodeBase64 fetchURL cr clusterCfg);
        errs1 ← ctl_lift (upsertError b "" err);
        err ← modifyRoutes (fun s order => RegisterBaseRouteWithConfig s order routeCfg);
        errs2 ← ctl_lift (upsertError b " route" err);
        match errs1 ++ errs2 with
        | [] => mret (b, None)
        | mulErrs => _ ← removeBackend modelName; mret (b, Some (EPlain (multierror_Error mulErrs)))
        end
    end.

Definition sameBackendName (b existing : B) : bool :=
  String.eqb (backendModelName existing) (backendModelName b)
  && negb (String.eqb (om_Name (ro_Meta existing)) (om_Name (ro_Meta b))).

Definition validateCluster (b : B) : Ctl S (option gerror) :=
  clusterCfg ← toRegisterClusterConfig b;
  match clusterCfg with
  | inr e => mret (Some (EWrap ("failed to convert " +:+ ro_Kind (O := B) +:+ " to cluster config") e))
  | inl clusterCfg =>
      match Cluster_NewWithConfigs (X := X) url_Parse BuildSpeechRequest decodeBase64 fetchURL clusterCfg with
      | inr e => mret (Some (EWrap "invalid cluster configuration" e))
      | inl _ => mret None
      end
  end.

Definition reconcileValidator (b : B) : Ctl S (B * option gerror) :=
  if match br_SpecModelName b with Some n => String.eqb n "" | None => false end
  then mret (b, Some (EPlain "spec.modelName cannot be empty"))
  else if String.eqb (br_BaseURL b) "" then mret (b, Some (EPlain "upstream.baseUrl cannot be empty"))
  else match url_Parse (br_BaseURL b) with
  | inr e => mret (b, Some (EWrap "upstream.baseUrl parse error" (EPlain e)))
  | inl _ =>
      r ← kube kube_List;
      match r with
      | inr e => mret (b, Some (EWrap ("failed to list " +:+ ro_Kind (O := B) +:+ " resources") (kube_error e)))
      | inl items =>
          if existsb (sameBackendName b) items then
            mret (b, Some (EPlain (ro_Kind (O := B) +:+ " name '" +:+ backendModelName b +:+ "' must be unique globally")))
          else err ← validateCluster b; mret (b, err)
      end
  end.

Definition reconcileUpstreamHealthy (b : B) : Ctl S (B * option gerror) := mret (b, None).

Definition getReconciles : list (reconcileHandler K R X B) :=
  [mkHandler condConfig reconcileConfig; mkHandler condValidator reconcileValidator;
   mkHandler condUpstreamHealthy reconcileUpstreamHealthy; mkHandler condRegister reconcileRegister].

Definition getDeleteReconciles : list (reconcileHandler K R X B) :=
  [mkHandler condConfig reconcileConfig;
   mkHandler (LowerCamelCase (deleteCondPrefix +:+ condRegister)) reconcileRegister;
   mkHandler condFinalDelete reconcileFinalDelete].

Definition Backend_Reconcile (req : NamespacedName) : Ctl S (Z * option KubeError) :=
  Reconcile getReconciles getDeleteReconciles reconcileBackendPhase
    (fun b new => statusEqual (ro_Conditions b) (ro_Conditions new) (ro_Status b) (ro_Status new)) br_WithStatusOf req.
End Handlers.

(** ** The image controller, under the names of its file

    Its handlers are those of the chat backends at another type. *)
Section ImageController.
Context {K R X : Type} `{RouteInterface R} `{StructPB} `{KubeResource K ImageGenerationBackend} `{KubeEnv K}.
Context `{JSONPatch} `{JSONPath} `{JSONText}.
Abbreviation S := (Gateway K R X).
Variable url_Parse : string -> string + string.
Variable BuildSpeechRequest : ClusterProvider -> string -> string -> LLMRequest -> Header -> option Header ->
                              outcome (HTTPRequest + gerror).
Variable decodeBase64 fetchURL : string -> (Z * Z * string) + gerror.
Variable multierror_Error : list string -> string.
Variable LowerCamelCase : string -> string.

Definition ImageGenerationBackend_toRegisterClusterConfig : ImageGenerationBackend -> Ctl S (Cluster + gerror) :=
  toRegisterClusterConfig.
Definition ImageGenerationBackend_reconcileRegister
    : ImageGenerationBackend -> Ctl S (ImageGenerationBackend * option gerror) :=
  reconcileRegister url_Parse BuildSpeechRequest decodeBase64 fetchURL multierror_Error.
Definition ImageGenerationBackend_reconcileValidator
    : ImageGenerationBackend -> Ctl S (ImageGenerationBackend * option gerror) :=
  reconcileValidator url_Parse BuildSpeechRequest decodeBase64 fetchURL.
Definition ImageGenerationBackend_reconcileConfig
    : ImageGenerationBackend -> Ctl S (ImageGenerationBackend * option gerror) := reconcileConfig.
Definition ImageGenerationBackend_reconcileFinalDelete
    : ImageGenerationBackend -> Ctl S (ImageGenerationBackend * option gerror) := reconcileFinalDelete.
Definition ImageGenerationBackend_getReconciles : list (reconcileHandler K R X ImageGenerationBackend) :=
  [mkHandler condConfig ImageGenerationBackend_reconcileConfig;
   mkHandler condValidator ImageGenerationBackend_reconcileValidator;
   mkHandler condUpstreamHealthy reconcileUpstreamHealthy;
   mkHandler condRegister ImageGenerationBackend_reconcileRegister].
Definition ImageGenerationBackend_getDeleteReconciles : list (reconcileHandler K R X ImageGenerationBackend) :=
  [mkHandler condConfig ImageGenerationBackend_reconcileConfig;
   mkHandler (LowerCamelCase (deleteCondPrefix +:+ condRegister)) ImageGenerationBackend_reconcileRegister;
   mkHandler condFinalDelete ImageGenerationBackend_reconcileFinalDelete].
Definition ImageGenerationBackend_Reconcile (req : NamespacedName) : Ctl S (Z * option KubeError) :=
  Reconcile ImageGenerationBackend_getReconciles ImageGenerationBackend_getDeleteReconciles reconcileBackendPhase
    (fun b new => statusEqual (ro_Conditions b) (ro_Conditions new) (ro_Status b) (ro_Status new)) br_WithStatusOf req.

Lemma ImageGenerationBackend_Reconcile_is :
  ImageGenerationBackend_Reconcile
  = Backend_Reconcile url_Parse BuildSpeechRequest decodeBase64 fetchURL multierror_Error LowerCamelCase.
Proof. reflexivity. Qed.
End ImageController.

(** ** Lemmas: parameters *)
Section ParamFacts.
Context `{StructPBLaws}.

Lemma processField_plain tag fs v params params' :
  String.eqb tag "-" = false ->
  processField (GField false tag fs v) params = inl params' ->
  params' = params \/ exists j, params' = <[hd "" (Split "," tag) := j]> params.
Proof.
  intros Ht. cbn [processField]. rewrite Ht. destruct v as [v|]; [|intros [= <-]; by left].
  intros Hp. right. destruct v as [s|s|z|f|b|fields].
  6: { match type of Hp with match ?x with _ => _ end = _ => destruct x as [np|e] end; [|done].
       injection Hp as <-. eauto. }
  all: destruct (fieldValue _ _ _) as [v'|e]; [|done]; destruct (NewValue v') as [j|e]; [|done]; injection Hp as <-; eauto.
Qed.

Lemma processStruct_cons f rest params :
  processStruct (f :: rest) params
  = match processField f params with inl params => processStruct rest params | inr e => inr e end.
Proof. done. Qed.

Lemma processStruct_embedded fields rest params :
  processStruct (GField true ",inline" false (Some (VStruct fields)) :: rest) params
  = match processStruct fields params with inl params => processStruct rest params | inr e => inr e end.
Proof. done. Qed.

(** After the field [model], the parameters of a chat model keep it, and have
    only keys of the type. *)
Definition chatParamKeys : list string :=
  ["model"; "temperature"; "max_tokens"; "max_completion_tokens"; "top_p"; "stream"; "stream_options"].

Definition chat_params (model : string) (params : gmap string json) : Prop :=
  params !! "model" = Some (JStr model) /\ forall k, is_Some (params !! k) -> k ∈ chatParamKeys.

Lemma chat_params_field model tag fs v params params' :
  String.eqb tag "-" = false -> hd "" (Split "," tag) <> "model" -> hd "" (Split "," tag) ∈ chatParamKeys ->
  chat_params model params -> processField (GField false tag fs v) params = inl params' -> chat_params model params'.
Proof.
  intros Ht Hne Hin [Hm Hk] [->|[j ->]]%processField_plain; [done| |done].
  split; [by rewrite lookup_insert_ne|]. intros k. destruct (decide (hd "" (Split "," tag) = k)) as [<-|Hd]; [done|].
  rewrite lookup_insert_ne by done. apply Hk.
Qed.

Lemma chat_params_fields model fields : forall params params',
  Forall (fun f => match f with
    | GField a tag _ _ => a = false /\ String.eqb tag "-" = false /\ hd "" (Split "," tag) <> "model" /\
                          hd "" (Split "," tag) ∈ chatParamKeys end) fields ->
  chat_params model params -> processStruct fields params = inl params' -> chat_params model params'.
Proof.
  induction fields as [|[a tag fs v] fields IH]; intros params params' Hf Hp Hrun; [by injection Hrun as <-|].
  apply Forall_cons in Hf as [(-> & Ht & Hne & Hin) Hf]. cbn [processStruct] in Hrun.
  destruct (processField _ params) as [p1|e] eqn:E; [|done]. apply (IH p1 params' Hf); [|done].
  by eapply chat_params_field.
Qed.

Lemma processField_string tag s params :
  String.eqb tag "-" = false ->
  processField (GField false tag false (Some (VString s))) params = inl (<[hd "" (Split "," tag) := JStr s]> params).
Proof. intros Ht. cbn [processField]. rewrite Ht. cbn [fieldValue]. by rewrite NewValue_string. Qed.

Ltac chat_fields :=
  repeat (apply List.Forall_cons || apply List.Forall_nil);
  (split_and!; [done|done|done|vm_compute; repeat (apply list_elem_of_here || apply list_elem_of_further)]).

Lemma processStruct_OpenAI p params :
  processStruct (OpenAIParam_fields p) ∅ = inl params -> chat_params (cp_Model (op_CommonParams p)) params.
Proof.
  unfold OpenAIParam_fields. rewrite processStruct_embedded. unfold CommonParams_fields.
  rewrite (processStruct_cons (GField false "model,omitempty" _ _)), processField_string by done.
  destruct (processStruct _ (<[_ := _]> ∅)) as [p1|e] eqn:E; [|done]. intros Hrun.
  eapply chat_params_fields; [| |exact Hrun]; [chat_fields|].
  eapply chat_params_fields; [| |exact E]; [chat_fields|].
  split; [by rewrite lookup_insert_eq|]. intros k. change (hd "" _) with "model".
  destruct (decide (k = "model")) as [->|Hd]; [intros _; left|].
  rewrite lookup_insert_ne by done. by intros [? ?].
Qed.
End ParamFacts.

(** One field that cannot be converted is enough. *)
Lemma processStruct_fails `{StructPB} f fields : forall params,
  f ∈ fields -> (forall params, exists e, processField f params = inr e) -> exists e, processStruct fields params = inr e.
Proof.
  induction fields as [|f' fields IH]; intros params Hin Hf; [by apply not_elem_of_nil in Hin|].
  rewrite processStruct_cons. destruct (processField f' params) as [p|e] eqn:E; [|by exists e].
  apply elem_of_cons in Hin as [<-|Hin]; [|by apply IH]. destruct (Hf params) as [e He]. congruence.
Qed.

Lemma parseModelParams_fails `{StructPB} f fields :
  f ∈ fields -> (forall params, exists e, processField f params = inr e) -> exists e, parseModelParams (Some fields) = inr e.
Proof.
  intros Hin Hf. destruct (processStruct_fails f fields ∅ Hin Hf) as [e He].
  unfold parseModelParams. rewrite He. by eexists.
Qed.

(** ** Lemmas: configuration *)
Section ConfigFacts.
Context {K R X : Type} `{KubeLaws K}.
Abbreviation S := (Gateway K R X).

Lemma reads_rangeMap {A} (m : gmap string A) : reads (rangeMap (R := R) (X := X) m).
Proof. unfold rangeMap. reads. Qed.
#[local] Hint Resolve reads_rangeMap : knoway.

Lemma reads_resolveHeaderFrom namespace src : reads (resolveHeaderFrom (R := R) (X := X) namespace src).
Proof. unfold resolveHeaderFrom. reads. Qed.
#[local] Hint Resolve reads_resolveHeaderFrom : knoway.

Lemma reads_headersOf namespace srcs hs : reads (headersOf (R := R) (X := X) namespace srcs hs).
Proof. revert hs. induction srcs as [|src srcs IH]; intros hs; simpl; reads. Qed.
#[local] Hint Resolve reads_headersOf : knoway.

Lemma reads_toRegisterClusterConfig {B} `{Reconciled B} `{BackendResource B} (b : B) :
  reads (toRegisterClusterConfig (R := R) (X := X) b).
Proof. unfold toRegisterClusterConfig, headerFromSpec. reads. Qed.

(** The entries of a map, whatever their order, are the map. *)
Lemma rangeMap_run {A} (m : gmap string A) (g g' : S) l :
  rangeMap m g = Ret (g', l) -> list_to_map l = m /\ NoDup l.*1 /\ (forall kv, kv ∈ l -> m !! fst kv = Some (snd kv)).
Proof.
  unfold rangeMap. run_ctl. destruct (kube_RangeOrder _ (gw_kube g)) as [k order] eqn:E. apply range_order in E.
  intros [= _ <-]. match goal with |- context [omap ?h order] => set (f := h) end.
  assert (omap f order ≡ₚ map_to_list m) as Hp.
  { rewrite E. clear. pose proof (elem_of_map_to_list m) as Hin.
    assert (forall kv, kv ∈ map_to_list m -> m !! fst kv = Some (snd kv)) as Hkv by (intros [k v] ?; by apply Hin).
    clear Hin. revert Hkv. generalize (map_to_list m) as l. intros l Hkv. cut (omap f l.*1 = l); [by intros ->|].
    induction l as [|[k v] l IH]; [done|]. simpl. unfold f at 1. assert (m !! k = Some v) as -> by (apply (Hkv (k, v)); by left). simpl. f_equal.
    apply IH. intros kv Hin. apply Hkv. by right. }
  split; [|split].
  - transitivity (list_to_map (map_to_list m) : gmap string A); [|apply list_to_map_to_list].
    apply list_to_map_proper; [rewrite Hp; apply NoDup_fst_map_to_list | done].
  - rewrite Hp. apply NoDup_fst_map_to_list.
  - intros [k1 v] Hin. rewrite Hp in Hin. by apply elem_of_map_to_list in Hin.
Qed.

(** What a configuration is made of. *)
Lemma toRegisterClusterConfig_run {B} `{Reconciled B} `{BackendResource B} (b : B) (g g' : S) cfg :
  toRegisterClusterConfig b g = Ret (g', inl cfg) ->
  cl_name cfg = backendModelName b /\ cl_filters cfg = [] /\ cl_lb_policy cfg = CLB_ROUND_ROBIN /\
  exists up defaults overrides, cl_upstream cfg = Some up /\ br_Parameters b = inl (defaults, overrides) /\
    list_to_map (up_defaultParams up) = defaults /\ NoDup (up_defaultParams up).*1 /\
    (forall kv, kv ∈ up_defaultParams up -> defaults !! fst kv = Some (snd kv)) /\
    list_to_map (up_overrideParams up) = overrides /\ NoDup (up_overrideParams up).*1 /\
    (forall kv, kv ∈ up_overrideParams up -> overrides !! fst kv = Some (snd kv)) /\
    up_removeParamKeys up = br_RemoveParamKeys b.
Proof.
  unfold toRegisterClusterConfig, mbind, Ctl_bind.
  destruct (headerFromSpec _ _ _ g) as [[g1 [hs|e]]|]; [| |done]; [|by intros [= _ ?]].
  destruct (br_Parameters b) as [[defaults overrides]|e]; [|by intros [= _ ?]].
  destruct (rangeMap defaults g1) as [[g2 d]|] eqn:Ed; [|done].
  destruct (rangeMap overrides g2) as [[g3 o]|] eqn:Eo; [|done]. intros [= _ <-].
  apply rangeMap_run in Ed as (? & ? & ?). apply rangeMap_run in Eo as (? & ? & ?).
  split; [done|]. split; [done|]. split; [done|]. by eexists _, defaults, overrides.
Qed.
End ConfigFacts.

(** ** What a chat backend sends *)
Section ChatBackend.
Context {K R X : Type} `{KubeLaws K} `{StructPBLaws} `{JSONPatchLaws}.
Abbreviation S := (Gateway K R X).

Lemma parseModelParams_OpenAI o params :
  parseModelParams (OpenAIParam_fields <$> o) = inl params ->
  (forall k, is_Some (params !! k) -> k ∈ chatParamKeys) /\
  params !! "model" = match o with Some p => Some (JStr (cp_Model (op_CommonParams p))) | None => None end.
Proof.
  destruct o as [p|]; cbn [fmap option_fmap option_map parseModelParams].
  - destruct (processStruct _ ∅) as [ps|e] eqn:E; [|done]. intros [= <-].
    by apply processStruct_OpenAI in E as [? ?].
  - intros [= <-]. by split; [intros k [? ?]|].
Qed.

Lemma chat_keys_ok r (params : list (string * json)) (m : gmap string json) :
  (forall kv, kv ∈ params -> m !! fst kv = Some (snd kv)) ->
  (forall k, is_Some (m !! k) -> k ∈ chatParamKeys) ->
  Forall (fun kv => plain_key (fst kv) = true) params /\ sizes_ok r params.
Proof.
  intros Hp Hk. split.
  - apply Forall_forall. intros kv Hin. assert (fst kv ∈ chatParamKeys) as Hc by (apply Hk; rewrite (Hp kv Hin); eauto).
    revert Hc. generalize (fst kv). apply Forall_forall. by repeat constructor.
  - intros _ v Hin. destruct (bool_decide_eq_false_1 ("size" ∈ chatParamKeys) ltac:(by vm_compute)).
    apply Hk. exists v. exact (Hp _ Hin).
Qed.

(** The model that a chat backend's upstream is asked for: the override's
    when the backend has overrides, even when they name no model, in which case
    it is the empty one, and the backend's name otherwise; the parameters of a
    backend are always such that its requests can be rewritten. *)
Theorem llm_model_sent (b : LLMBackend) (g g' : S) (cfg : Cluster) (w : World X) (m : gmap string json)
    (Hcfg : toRegisterClusterConfig b g = Ret (g', inl cfg))
    (Hbody : synced (w_req w) m) (Hmodel : is_Some (m !! "model"))
    (Hremoved : Forall (fun k => plain_key k = true) (bu_RemoveParamKeys (lb_Upstream b))) :
  exists req m', requestHandler_RequestModifier cfg w = Ret (mkWorld (w_meta w) req (w_ext w), None) /\
    synced req m' /\
    GetModel req = match bu_OverrideParams (lb_Upstream b) ≫= mp_OpenAI with
                   | Some p => cp_Model (op_CommonParams p)
                   | None => LLMBackend_GetModelName b
                   end /\
    m' !! "model" = if decide ("model" ∈ bu_RemoveParamKeys (lb_Upstream b)) then None else Some (JStr (GetModel req)).
Proof.
  apply toRegisterClusterConfig_run in Hcfg
    as (Hname & _ & _ & up & defaults & overrides & Hup & Hpar & Hd & Hdn & Hdk & Ho & Hon & Hok & Hrem).
  cbn [br_Parameters LLMBackend_Resource] in Hpar. unfold toLLMBackendParams, toBackendParams in Hpar.
  destruct (parseModelParams _) as [ds|e] eqn:Ed in Hpar; [|done].
  destruct (parseModelParams _) as [os|e] eqn:Eo in Hpar; [|done]. injection Hpar as -> ->.
  apply parseModelParams_OpenAI in Ed as [Hdkeys _]. apply parseModelParams_OpenAI in Eo as [Hokeys Homodel].
  destruct (chat_keys_ok (w_req w) _ _ Hdk Hdkeys) as [Hdp Hds]. destruct (chat_keys_ok (w_req w) _ _ Hok Hokeys) as [Hop Hos].
  assert (GetUpstream cfg = up) as Hget by (unfold GetUpstream; by rewrite Hup).
  destruct (request_rewritten_world cfg w m Hbody Hmodel) as (req & m' & Hrun & Hsync & Hf & _ & Hreq).
  { split; rewrite Hget; try done. by rewrite Hrem. }
  exists req, m'. split; [done|]. split; [done|]. specialize (Hf "model"). unfold upstream_field in Hf.
  unfold upstream_model in Hreq. rewrite Hget, Ho, Homodel in Hf, Hreq. rewrite Hrem in Hf.
  cbn [br_RemoveParamKeys LLMBackend_Resource] in Hf. rewrite Hname in Hf, Hreq.
  destruct (bu_OverrideParams (lb_Upstream b) ≫= mp_OpenAI) as [p|]; split; [done| |done|]; by rewrite Hf, Hreq.
Qed.
End ChatBackend.

(** What [structpb.NewValue] says to a value of a named string type. *)
Definition named_strings_refused `{StructPB} : Prop := forall s, exists e, NewValue (VNamedString s) = inr e.

(** An image backend cannot set the style or the response format of its
    upstream: these are named string types, which [structpb.NewValue] refuses,
    so that no cluster is ever made from such a backend, whatever else it
    says. *)
Theorem image_named_params_refused {K R X} `{KubeLaws K} `{StructPB} (Hnamed : named_strings_refused)
    (b : ImageGenerationBackend) (p : OpenAIImageGenerationParam) (g g' : Gateway K R X) (r : Cluster + gerror)
    (Hset : is_Some (ip_Style p) \/ is_Some (ip_ResponseFormat p))
    (Hparam : bu_DefaultParams (ib_Upstream b) ≫= imp_OpenAI = Some p \/
              bu_OverrideParams (ib_Upstream b) ≫= imp_OpenAI = Some p)
    (Hrun : toRegisterClusterConfig b g = Ret (g', r)) :
  exists e, r = inr e.
Proof.
  assert (exists e, parseModelParams (Some (OpenAIImageGenerationParam_fields p)) = inr e) as [e He].
  { destruct Hset as [[s Hs]|[s Hs]]; destruct (Hnamed s) as [e He].
    - eapply (parseModelParams_fails (GField false "style,omitempty" false (VNamedString <$> ip_Style p)));
        [unfold OpenAIImageGenerationParam_fields; set_solver | intros params; rewrite Hs; simpl; rewrite He; by eexists].
    - eapply (parseModelParams_fails (GField false "response_format,omitempty" false (VNamedString <$> ip_ResponseFormat p)));
        [unfold OpenAIImageGenerationParam_fields; set_solver | intros params; rewrite Hs; simpl; rewrite He; by eexists]. }
  revert Hrun. unfold toRegisterClusterConfig, mbind, Ctl_bind.
  destruct (headerFromSpec _ _ _ g) as [[g1 [hs|e1]]|]; [|intros [= _ <-]; by eexists|done].
  cbn [br_Parameters ImageGenerationBackend_Resource]. unfold toImageGenerationBackendParams, toBackendParams.
  destruct Hparam as [-> | ->]; cbn [fmap option_fmap option_map]; rewrite He.
  - intros [= _ <-]. by eexists.
  - destruct (parseModelParams (_ <$> bu_DefaultParams (ib_Upstream b) ≫= imp_OpenAI)); intros [= _ <-]; by eexists.
Qed.

(** What the controllers read of a backend's spec; the setters keep it. *)
Definition br_spec {B} `{BackendResource B} (b : B) :=
  (br_SpecModelName b, br_BaseURL b, br_Headers b, br_HeadersFrom b, br_Parameters b, br_RemoveParamKeys b,
   br_Timeout b, br_Provider b, br_Metering b).

Class BackendLaws (B : Type) `{Reconciled B} `{BackendResource B} : Prop := {
  spec_set_conditions cs (b : B) : br_spec (ro_SetConditions cs b) = br_spec b;
  spec_set_meta m (b : B) : br_spec (ro_SetMeta m b) = br_spec b }.

#[export] Instance LLMBackend_BackendLaws `{StructPB} : BackendLaws LLMBackend.
Proof. split; done. Qed.
#[export] Instance ImageGenerationBackend_BackendLaws `{StructPB} : BackendLaws ImageGenerationBackend.
Proof. split; done. Qed.

(** ** The reconciliation of a backend *)
Section BackendFacts.
Context {K R X B : Type} `{RouteInterface R} `{ReconciledLaws B} `{BackendResource B} `{!BackendLaws B}.
Context `{KubeResource K B} `{KubeLaws K} `{JSONPatch} `{JSONPath} `{JSONText}.
Abbreviation S := (Gateway K R X).
Variable url_Parse : string -> string + string.
Variable BuildSpeechRequest : ClusterProvider -> string -> string -> LLMRequest -> Header -> option Header ->
                              outcome (HTTPRequest + gerror).
Variable decodeBase64 fetchURL : string -> (Z * Z * string) + gerror.
Variable multierror : list string -> string.

Abbreviation register := (reconcileRegister (K := K) (R := R) (X := X) (B := B) url_Parse BuildSpeechRequest
                            decodeBase64 fetchURL multierror).
Abbreviation validator := (reconcileValidator (K := K) (R := R) (X := X) (B := B) url_Parse BuildSpeechRequest
                             decodeBase64 fetchURL).
Abbreviation upsert := (UpsertAndRegisterCluster (X := X) url_Parse BuildSpeechRequest decodeBase64 fetchURL).

(** A configuration made from a backend is never refused. *)
Lemma config_accepted (b : B) (g g' : S) cfg cr :
  toRegisterClusterConfig b g = Ret (g', inl cfg) ->
  exists m, upsert cr cfg = (mkRegister (<[cl_name cfg := m]> (reg_clusters cr))
                                        (<[cl_name cfg := cfg]> (reg_clustersDetails cr)), None) /\
    cd_cluster m = cfg.
Proof.
  intros (_ & Hf & Hlb & _)%toRegisterClusterConfig_run. unfold UpsertAndRegisterCluster, Cluster_NewWithConfigs.
  rewrite Hf, Hlb. simpl. eexists. by split.
Qed.

Lemma removeBackend_run name (g g' : S) a :
  name <> "" -> removeBackend name g = Ret (g', a) ->
  gw_clusters g' = DeleteCluster (gw_clusters g) name /\ rm_step (gw_routes g) (OpRemoveBase name) (gw_routes g').
Proof.
  intros Hname. unfold removeBackend. rewrite (proj2 (String.eqb_neq _ _) Hname). unfold mbind, Ctl_bind, modifyClusters.
  intros (Hstep & Hc & _)%(modifyRoutes_step (OpRemoveBase name)); [|done]. rewrite Hc. by cbn [gw_clusters gw_routes] in *.
Qed.

(** What a backend that is registered has in the gateway: the cluster its spec
    makes at [h], and its direct route. *)
Definition served_from (b : B) (h g g' : S) : Prop :=
  exists (h' : S) cfg m, toRegisterClusterConfig b h = Ret (h', inl cfg) /\
    gw_clusters g' = mkRegister (<[backendModelName b := m]> (reg_clusters (gw_clusters g)))
                                (<[backendModelName b := cfg]> (reg_clustersDetails (gw_clusters g))) /\
    cd_cluster m = cfg /\
    (exists r, route_New (InitDirectModelRoute (backendModelName b)) = inl r) /\
    rm_step (gw_routes g) (OpRegisterBase (InitDirectModelRoute (backendModelName b))) (gw_routes g').
Definition served (b : B) (g g' : S) : Prop := exists h, served_from b h g g'.

(** Its cluster and its direct route are taken out, and nothing else. *)
Definition removed (b : B) (g g' : S) : Prop :=
  gw_clusters g' = DeleteCluster (gw_clusters g) (backendModelName b) /\
  rm_step (gw_routes g) (OpRemoveBase (backendModelName b)) (gw_routes g').

(** The registration of [b] at [h]: when its configuration cannot be made,
    nothing changes; when its route cannot be built, it is taken out. *)
Definition registration (b : B) (h : S) (ready : bool) (g g' : S) : Prop :=
  match toRegisterClusterConfig b h with
  | Ret (_, inr _) => ready = false /\ same_registers g' g
  | Ret (_, inl _) =>
      match route_New (InitDirectModelRoute (backendModelName b)) with
      | inl _ => ready = true /\ served_from b h g g'
      | inr _ => ready = false /\ removed b g g'
      end
  | Panic _ => False
  end.

Lemma DeleteCluster_upserted (cr : Register X) name m cfg :
  DeleteCluster (mkRegister (<[name := m]> (reg_clusters cr)) (<[name := cfg]> (reg_clustersDetails cr))) name
  = DeleteCluster cr name.
Proof. unfold DeleteCluster. cbn [reg_clusters reg_clustersDetails]. by rewrite !delete_insert_eq. Qed.

Lemma reconcileRegister_backend (b b' : B) (g g' : S) err :
  isDeleted b = false -> backendModelName b <> "" -> register b g = Ret (g', (b', err)) ->
  b' = b /\ registration b g (bool_decide (err = None)) g g'.
Proof.
  intros Hlive Hname. unfold reconcileRegister, registration. rewrite Hlive. unfold mbind, Ctl_bind.
  destruct (toRegisterClusterConfig b g) as [[g1 c]|] eqn:E; [|done].
  pose proof (reads_toRegisterClusterConfig _ _ _ _ E) as [Hr1 Hc1].
  destruct c as [cfg|e]; [|by intros [= <- <- <-]].
  destruct (config_accepted b g g1 cfg (gw_clusters g1) E) as (m & Hup & Hm).
  pose proof (toRegisterClusterConfig_run b g g1 cfg E) as (Hn & _).
  unfold modifyClusters. rewrite Hup. cbn [upsertError ctl_lift]. simpl app.
  destruct (modifyRoutes _ _) as [[g3 a]|] eqn:Em; [|done].
  apply (modifyRoutes_step (OpRegisterBase (InitDirectModelRoute (backendModelName b)))) in Em
    as (Hstep & Hc3 & order & ->); [|done].
  cbn [gw_routes gw_clusters] in Hstep, Hc3. unfold RegisterBaseRouteWithConfig.
  destruct (route_New _) as [r|e] eqn:En; simpl.
  - destruct (matchRouteRegistry _ !! _); simpl; intros [= <- <- <-]; (split; [done|]); (split; [done|]);
      exists g1, cfg, m; rewrite Hc3, <- Hc1, <- Hn, <- Hr1 in *; by eauto 10.
  - destruct (ctl_lift _ g3) as [[g4 texts]|] eqn:Et; [|done]. pose proof (reads_lift _ _ _ _ Et) as [Er4 Ec4].
    assert (texts <> []) as Ht.
    { revert Et. unfold ctl_lift. simpl. destruct (ErrorText e); [|done]. by intros [= _ <-]. }
    destruct texts as [|t ts]; [done|]. destruct (removeBackend _ g4) as [[g5 u]|] eqn:Er; [|done].
    intros [= <- <- <-]. split; [done|]. split; [done|]. apply removeBackend_run in Er as [Hc5 Hs5]; [|done]. split.
    + rewrite Hc5, Ec4, Hc3, Hn, Hc1. apply DeleteCluster_upserted.
    + assert (gw_routes g4 = gw_routes g) as <-; [|done]. rewrite Er4, <- Hr1. inversion Hstep as [s0 op0 order0 Ho Es0 Eop Es2].
      unfold rm_exec, RegisterBaseRouteWithConfig. by rewrite En.
Qed.

(** The checks of the validator that only read the spec. *)
Definition acceptable (b : B) : Prop :=
  br_SpecModelName b <> Some "" /\ br_BaseURL b <> "" /\ exists u, url_Parse (br_BaseURL b) = inl u.

Lemma acceptable_name b : acceptable b -> backendModelName b <> "".
Proof.
  intros (Hn & _). unfold backendModelName, modelNameOrNamespacedName. destruct (br_SpecModelName b) as [n|]; [congruence|].
  by destruct (om_Namespace (ro_Meta b)).
Qed.

Lemma reads_validator b : reads (validator b).
Proof.
  unfold reconcileValidator, validateCluster.
  pose proof (reads_toRegisterClusterConfig (R := R) (X := X) b). reads.
Qed.

Lemma reconcileValidator_backend (b b' : B) (g g' : S) err :
  validator b g = Ret (g', (b', err)) -> b' = b /\ (err = None -> acceptable b).
Proof.
  unfold reconcileValidator, acceptable. destruct (br_SpecModelName b) as [n|].
  1: destruct (String.eqb_spec n "") as [->|Hn]; [by intros [= _ <- <-]|].
  all: destruct (String.eqb_spec (br_BaseURL b) "") as [->|Hu]; [by intros [= _ <- <-]|].
  all: destruct (url_Parse (br_BaseURL b)) as [u|e]; [|by intros [= _ <- <-]].
  all: run_ctl; destruct (kube_List (gw_kube g)) as [k [items|e]]; [|by intros [= _ <- <-]].
  all: destruct (existsb _ items); [by intros [= _ <- <-]|].
  all: destruct (validateCluster _ _ _ _ b _) as [[g1 e]|]; [|done]; intros [= _ <- _].
  all: split; [done|]; intros _; split; [congruence|]; split; [done|]; by exists u.
Qed.

Definition bkept (b b' : B) : Prop :=
  br_spec b' = br_spec b /\ exists fs, ro_Meta b' = setFinalizers fs (ro_Meta b).

Lemma bkept_refl b : bkept b b.
Proof. split; [done|]. exists (om_Finalizers (ro_Meta b)). by destruct (ro_Meta b). Qed.

Lemma bkept_trans b1 b2 b3 : bkept b1 b2 -> bkept b2 b3 -> bkept b1 b3.
Proof. intros [Hs1 [fs1 Hm1]] [Hs2 [fs2 Hm2]]. split; [congruence|]. exists fs2. by rewrite Hm2, Hm1. Qed.

Lemma bkept_conditions cs b : bkept b (ro_SetConditions cs b).
Proof.
  split; [apply spec_set_conditions|]. rewrite meta_set_conditions. exists (om_Finalizers (ro_Meta b)).
  by destruct (ro_Meta b).
Qed.

Lemma bkept_finalizers fs b : bkept b (ro_SetMeta (setFinalizers fs (ro_Meta b)) b).
Proof. split; [apply spec_set_meta|]. exists fs. apply meta_set. Qed.

Lemma bkept_same b b' : bkept b b' ->
  isDeleted b' = isDeleted b /\ backendModelName b' = backendModelName b /\ (acceptable b' <-> acceptable b) /\
  toRegisterClusterConfig (K := K) (R := R) (X := X) b' = toRegisterClusterConfig b.
Proof.
  intros [Hs [fs Hm]]. unfold br_spec in Hs. injection Hs as Hn Hu Hh Hf Hp Hk Ht Hv Hme.
  assert (backendModelName b' = backendModelName b) as Hname.
  { unfold backendModelName, modelNameOrNamespacedName. by rewrite Hn, Hm. }
  split; [unfold isDeleted; by rewrite Hm|]. split; [done|].
  split; [unfold acceptable; by rewrite Hn, Hu|].
  unfold toRegisterClusterConfig. rewrite Hname, Hm, Hh, Hf, Hu, Hp, Hk, Ht, Hv, Hme. done.
Qed.

Variables (b0 : B) (g0 : S).
Hypothesis Hlive : isDeleted b0 = false.

Abbreviation reconciles := (getReconciles (K := K) (R := R) (X := X) (B := B) url_Parse BuildSpeechRequest
                              decodeBase64 fetchURL multierror).

Definition bbefore (l : list (reconcileHandler K R X B)) (b : B) (g : S) : Prop :=
  bkept b0 b /\ (exists ran, reconciles = ran ++ l) /\
  (match l with [] | [_] | [_; _] => acceptable b0 | _ => True end) /\
  match l with [] => True | _ => same_registers g g0 end.

Definition bstuck (l : list (reconcileHandler K R X B)) (b : B) (g : S) : Prop :=
  map rh_typ l = [condRegister] \/ same_registers g g0.

Lemma same_registers_trans (g1 g2 g3 : S) : same_registers g1 g2 -> same_registers g2 g3 -> same_registers g1 g3.
Proof. intros [] []. split; congruence. Qed.

Lemma backend_registration_kept b h ready (g g1 g2 g' : S) :
  bkept b0 b -> same_registers g1 g -> same_registers g' g2 -> registration b h ready g1 g2 -> registration b0 h ready g g'.
Proof.
  intros (_ & Hname & _ & Hcfg)%bkept_same [Hr Hc] [Hr2 Hc2]. unfold registration, served_from, removed, same_registers.
  by rewrite Hcfg, Hname, Hr, Hc, Hr2, Hc2.
Qed.

Lemma bbefore_kept l b cs (g g' : S) : bbefore l b g -> same_registers g' g -> bbefore l (ro_SetConditions cs b) g'.
Proof.
  intros (Hk & Hran & Ha & Hr) Hreg. split; [by eapply bkept_trans, bkept_conditions|]. split; [done|]. split; [done|].
  destruct l; [done | by eapply same_registers_trans].
Qed.

Lemma bstuck_kept l b cs (g g' : S) : bstuck l b g -> same_registers g' g -> bstuck l (ro_SetConditions cs b) g'.
Proof.
  intros [Hl|Hr] Hreg; [by left|right]. by eapply same_registers_trans.
Qed.

Lemma bbefore_read rr l b b1 (g g1 : S) (err : option gerror) :
  bbefore (rr :: l) b g -> same_registers g1 g -> bkept b b1 -> ro_Conditions b1 = ro_Conditions b -> l <> [] ->
  (length l = 2%nat -> err = None -> acceptable b) ->
  isDeleted b1 = false /\ ro_Conditions b1 = ro_Conditions b /\
  match err with None => bbefore l b1 g1 | Some _ => bstuck (rr :: l) b1 g1 end.
Proof.
  intros (Hk & [ran Hran] & Ha & Hr) Hreg Hk1 Hc1 Hl Hcheck.
  pose proof (bkept_trans _ _ _ Hk Hk1) as Hk2. pose proof (same_registers_trans _ _ _ Hreg Hr) as Hreg0.
  split; [by rewrite (proj1 (bkept_same _ _ Hk2))|]. split; [done|]. destruct err as [e|]; [by right|].
  split; [done|]. split; [exists (ran ++ [rr]); by rewrite <- app_assoc|].
  apply bkept_same in Hk as (_ & _ & Hacc & _). rewrite Hacc in Hcheck.
  destruct l as [|? [|? [|]]]; simpl in *; (split; [by auto | done]).
Qed.

Lemma bregister_run rr b (g g1 : S) b1 err :
  bbefore [rr] b g -> register b g = Ret (g1, (b1, err)) -> b1 = b /\ registration b0 g (bool_decide (err = None)) g0 g1.
Proof.
  intros (Hk & _ & Ha & Hr) Hrun. pose proof (bkept_same _ _ Hk) as (Hdel & Hname & _). rewrite Hlive in Hdel.
  apply reconcileRegister_backend in Hrun as [-> Hreg]; [|done|rewrite Hname; by apply acceptable_name].
  split; [done|]. destruct Hr as [Hr Hc]. eapply backend_registration_kept; [exact Hk| | |exact Hreg]; by split.
Qed.

Lemma bbefore_step rr l b (g : S) b1 g1 err :
  bbefore (rr :: l) b g -> rh_reconciler rr b g = Ret (g1, (b1, err)) ->
  isDeleted b1 = false /\ ro_Conditions b1 = ro_Conditions b /\
  match err with None => bbefore l b1 g1 | Some _ => bstuck (rr :: l) b1 g1 end.
Proof.
  intros Hb Hrun. pose proof Hb as (Hk & [ran Hran] & Ha & Hr).
  destruct ran as [|? [|? [|? [|? ran]]]]; [injection Hran; intros; subst; clear Hran .. | by destruct ran]; simpl in Hrun.
  - pose proof (reads_reconcileConfig _ _ _ _ Hrun) as Hreg. apply reconcileConfig_run in Hrun.
    eapply bbefore_read; [done|done| | | |done]; [|by destruct Hrun as [-> | ->]; rewrite ?conditions_set_meta|done].
    destruct Hrun as [-> | ->]; [apply bkept_refl | apply bkept_finalizers].
  - pose proof (reads_validator _ _ _ _ Hrun) as Hreg. apply reconcileValidator_backend in Hrun as [-> Herr].
    eapply bbefore_read; [done|done|apply bkept_refl|done|done|by intros _ Hn; apply Herr].
  - injection Hrun as <- <- <-.
    eapply (bbefore_read _ _ b b g g None); [exact Hb|done|apply bkept_refl|done|done|done].
  - apply (bregister_run _ _ _ _ _ _ Hb) in Hrun as [-> _]. split; [by rewrite (proj1 (bkept_same _ _ Hk))|]. split; [done|].
    destruct err as [e|]; [by left|]. split; [done|]. split; [exists reconciles; by rewrite app_nil_r|done].
Qed.
End BackendFacts.

Section Properties.
Context {K R X B : Type} `{RouteInterface R} `{ReconciledLaws B} `{BackendResource B} `{!BackendLaws B}.
Context `{KubeResource K B} `{KubeLaws K} `{JSONPatch} `{JSONPath} `{JSONText}.
Abbreviation S := (Gateway K R X).
Variable url_Parse : string -> string + string.
Variable BuildSpeechRequest : ClusterProvider -> string -> string -> LLMRequest -> Header -> option Header ->
                              outcome (HTTPRequest + gerror).
Variable decodeBase64 fetchURL : string -> (Z * Z * string) + gerror.
Variable multierror : list string -> string.
Abbreviation reconciles := (getReconciles (K := K) (R := R) (X := X) (B := B) url_Parse BuildSpeechRequest
                              decodeBase64 fetchURL multierror).
Abbreviation inv := (bbefore (K := K) (R := R) (X := X) url_Parse BuildSpeechRequest decodeBase64 fetchURL multierror).

(** What a reconciliation of a backend that is not being deleted amounts to. *)
Lemma reconcileLoop_backend (b b' : B) (g g' : S) :
  isDeleted b = false -> reconcileLoop reconciles (ro_SetConditions [] b) g = Ret (g', b') ->
  exists ran failed text, [condConfig; condValidator; condUpstreamHealthy; condRegister] = ran ++ failed /\
    map reported (ro_Conditions b') = stopped ran failed text /\
    match failed with
    | [] | [_] =>
        acceptable url_Parse b /\
        exists b1 g1, succeeded (take 3 reconciles) (ro_SetConditions [] b) g b1 g1 /\ same_registers g1 g /\
          registration b g1 (bool_decide (failed = [])) g g'
    | _ => same_registers g' g
    end.
Proof.
  intros Hlive Hrun.
  pose proof (bbefore_kept url_Parse BuildSpeechRequest decodeBase64 fetchURL multierror b g) as HPk.
  pose proof (bbefore_step url_Parse BuildSpeechRequest decodeBase64 fetchURL multierror b g Hlive) as HPs.
  assert (inv b g reconciles (ro_SetConditions [] b) g) as Hb.
  { split; [apply bkept_conditions|]. split; [by exists []|done]. }
  apply (reconcileLoop_shape (inv b g) (bstuck g) HPk (bstuck_kept g) HPs _ [])
    in Hrun as (ran & failed & text & Hsplit & Hrep & HPQ & b1 & g1 & Hran & Hend);
    [|exact Hb|by rewrite conditions_set
     |by apply (bool_decide_eq_true_1 (NoDup [condConfig; condValidator; condUpstreamHealthy; condRegister]))].
  exists (map rh_typ ran), (map rh_typ failed), text. split; [by rewrite <- map_app, <- Hsplit|]. split; [done|].
  pose proof (fun l k => succeeded_P (inv b g) (bstuck g) HPk HPs l k) as HP.
  pose proof (bregister_run url_Parse BuildSpeechRequest decodeBase64 fetchURL multierror b g Hlive) as Hregister.
  destruct failed as [|rr failed].
  - rewrite app_nil_r in Hsplit. subst ran. destruct Hend as [-> ->].
    apply (succeeded_app (take 3 reconciles)) in Hran as (b2 & g2 & Hran & Hlast).
    pose proof (HP (take 3 reconciles) _ _ _ _ _ Hb Hran) as Hb2.
    inversion Hlast as [|? ? ? ? oa ga ob gb ? ? Ea Es Hnil]; subst. inversion Hnil; subst.
    destruct (Hregister _ _ _ _ _ _ Hb2 Ea) as [_ Hreg]. apply setStatusCondition_run in Es as [Es _].
    pose proof Hb2 as (_ & _ & Ha & Hs). split; [done|]. exists b2, g2. split; [done|]. split; [done|].
    by eapply (backend_registration_kept url_Parse); [apply bkept_refl| |exact Es|exact Hreg].
  - destruct Hend as (o2 & g2 & e & Ea & Es). destruct failed as [|rr2 failed]; cbn [map]; [|by destruct HPQ].
    assert (ran = take 3 reconciles /\ rh_reconciler rr =
      reconcileRegister url_Parse BuildSpeechRequest decodeBase64 fetchURL multierror) as [-> Hrr].
    { destruct ran as [|? [|? [|? [|? ran]]]]; [injection Hsplit; intros; subst; clear Hsplit; done .. | by destruct ran]. }
    rewrite Hrr in Ea. pose proof (HP _ _ _ _ _ _ ltac:(by rewrite <- Hsplit) Hran) as Hb2.
    destruct (Hregister _ _ _ _ _ _ Hb2 Ea) as [_ Hreg].
    pose proof Hb2 as (_ & _ & Ha & Hs). split; [done|]. exists b1, g1. split; [done|]. split; [done|].
    by eapply (backend_registration_kept url_Parse); [apply bkept_refl| |exact Es|exact Hreg].
Qed.

(** C39: the status of a backend tells the truth.  Its conditions are those of
    the handlers up to the first that failed; unless the first three have
    succeeded, the gateway's registers are as they were.  When they have, the
    spec is acceptable, and the registration makes the backend's configuration
    at the gateway they left: if it can be made and its direct route built,
    the fourth condition is true, the cluster register has the cluster of that
    configuration under the backend's model name, and the route manager has
    taken the step of registering the direct route; if the route cannot be
    built, the condition is false and the cluster and the direct route of that
    name, and nothing else, are taken out; but if the configuration cannot be
    made, as when a secret that its headers come from is not answered any
    more, the condition is false and the registers are as they were, so that
    a backend that was registered before goes on being served. *)
Theorem backend_status_truthful (b b' : B) (g g' : S) (Hlive : isDeleted b = false)
    (Hrun : reconcileLoop reconciles (ro_SetConditions [] b) g = Ret (g', b')) :
  exists ran failed text, [condConfig; condValidator; condUpstreamHealthy; condRegister] = ran ++ failed /\
    map reported (ro_Conditions b') = stopped ran failed text /\
    match failed with
    | [] | [_] =>
        acceptable url_Parse b /\
        exists b1 g1, succeeded (take 3 reconciles) (ro_SetConditions [] b) g b1 g1 /\ same_registers g1 g /\
          registration b g1 (bool_decide (failed = [])) g g'
    | _ => same_registers g' g
    end.
Proof. by apply reconcileLoop_backend. Qed.

(** A backend whose registration is reported has been registered. *)
Lemma registered_ready (b b' : B) (g g' : S) :
  isDeleted b = false -> reconcileLoop reconciles (ro_SetConditions [] b) g = Ret (g', b') ->
  report condRegister true "" ∈ map reported (ro_Conditions b') -> acceptable url_Parse b /\ served b g g'.
Proof.
  intros Hlive Hrun Hready. apply reconcileLoop_backend in Hrun as (ran & failed & text & Hsplit & Hrep & Hres); [|done].
  destruct failed as [|t failed].
  { destruct Hres as (Ha & b1 & g1 & _ & _ & Hreg). split; [done|]. exists g1. unfold registration in Hreg.
    destruct (toRegisterClusterConfig b g1) as [[h' [cfg|e]]|]; [|by destruct Hreg|done]. by destruct (route_New _), Hreg. }
  exfalso. rewrite Hrep in Hready. unfold stopped in Hready.
  apply elem_of_app in Hready as [(t' & Ht & Hin)%list_elem_of_fmap | Ht%list_elem_of_singleton]; [|done].
  injection Ht as <- _. clear -Hsplit Hin.
  destruct ran as [|? [|? [|? [|? [|]]]]]; simplify_eq/=; revert Hin; rewrite ?elem_of_cons, ?elem_of_nil; naive_solver.
Qed.
End Properties.

(** ** Examples *)
#[local] Existing Instances rfc6902 rfc6902_laws dotted_paths ex_Unmarshal.
#[local] Existing Instances ex_ModelRoutes ex_LLMBackends ex_ImageBackends ex_env ex_laws ex_interface ex_interface_laws.

(** Integral numbers are enough here. *)
#[local] Instance ex_structpb : StructPB := {|
  structpb_float s := match ParseInt s 64 with inl z => inl (f64_of_int z) | inr _ => inr "invalid syntax" end;
  NewValue v := match v with
                | VString s => inl (JStr s)
                | VInt z => inl (JNum (f64_of_int z))
                | VFloat f => inl (JNum f)
                | VBool b => inl (JBool b)
                | VNamedString _ | VStruct _ => inr "invalid type"
                end |}.

#[local] Instance ex_structpb_laws : StructPBLaws.
Proof. by split. Qed.

(** The repository's own test (common_test.go). *)
Example ex_params :
  processStruct (OpenAIParam_fields
    (mkOpenAIParam (mkCommonParams "gpt-3.5-turbo" (Some "1")) (Some 100) (Some 200) (Some "0") (Some true)
       (Some (mkStreamOptions (Some true))))) ∅
  = inl (list_to_map [("model", JStr "gpt-3.5-turbo"); ("temperature", JNum (f64_of_int 1));
                      ("max_tokens", JNum (f64_of_int 100)); ("max_completion_tokens", JNum (f64_of_int 200));
                      ("top_p", JNum (f64_of_int 0)); ("stream", JBool true);
                      ("stream_options", JObj {[ "include_usage" := JBool true ]})]).
Proof. vm_compute. reflexivity. Qed.

(** Overrides that only cap the answer. *)
Definition ex_capped : LLMBackend :=
  mkLLMBackend (ex_meta "llama") (Some "llama-3") "vLLM"
    (mkBackendUpstream "http://llama/v1" [mkCRDHeader "x-team" "a"] [mkHeaderFromSource "x-" "Secret" "keys"] None
       (Some (mkModelParams (Some (mkOpenAIParam (mkCommonParams "" None) (Some 100) None None None None)))) [] 0)
    (mkBackendStatus Healthy [] []).
Definition ex_backends : Gateway ex_api Api.Route unit :=
  mkGateway (mkApi [] [ex_capped] [] 1000) emptyManager NewClusterRegister.
Definition ex_config : Cluster :=
  match toRegisterClusterConfig ex_capped ex_backends with Ret (_, inl cfg) => cfg | _ => ex_cluster end.

Lemma llm_model_sent_witness :
  exists req m', requestHandler_RequestModifier ex_config ex_call_world = Ret (mkWorld InitMetadata req tt, None) /\
    synced req m' /\ GetModel req = "" /\ m' !! "model" = Some (JStr (GetModel req)).
Proof.
  apply (llm_model_sent ex_capped ex_backends ex_backends ex_config ex_call_world ex_fields).
  - by vm_compute.
  - done.
  - by eexists.
  - constructor.
Defined.

Definition ex_fixed_errors (l : list string) : string := "errors".
Definition ex_backend_loop : outcome (Gateway ex_api Api.Route unit * LLMBackend) :=
  reconcileLoop (getReconciles ex_parse ex_speech ex_picture ex_picture ex_fixed_errors)
    (ro_SetConditions [] ex_capped) ex_backends.
Definition ex_registered : Gateway ex_api Api.Route unit * LLMBackend :=
  match ex_backend_loop with Ret r => r | Panic _ => (ex_backends, ex_capped) end.

Lemma ret_of {A} (r : outcome A) d :
  match r with Ret _ => true | Panic _ => false end = true -> r = Ret (match r with Ret a => a | Panic _ => d end).
Proof. by destruct r. Qed.

Lemma ex_backend_loop_ret :
  reconcileLoop (getReconciles ex_parse ex_speech ex_picture ex_picture ex_fixed_errors)
    (ro_SetConditions [] ex_capped) ex_backends = Ret (fst ex_registered, snd ex_registered).
Proof.
  rewrite <- surjective_pairing. unfold ex_registered, ex_backend_loop.
  match goal with |- ?r = _ => assert (match r with Ret _ => true | Panic _ => false end = true) as Hr by (vm_compute; reflexivity);
    exact (ret_of r (ex_backends, ex_capped) Hr) end.
Qed.

Lemma backend_status_truthful_witness :
  exists ran failed text, [condConfig; condValidator; condUpstreamHealthy; condRegister] = ran ++ failed /\
    map reported (ro_Conditions (snd ex_registered)) = stopped ran failed text /\
    match failed with
    | [] | [_] =>
        acceptable ex_parse ex_capped /\
        exists b1 g1, succeeded (take 3 (getReconciles ex_parse ex_speech ex_picture ex_picture ex_fixed_errors))
                        (ro_SetConditions [] ex_capped) ex_backends b1 g1 /\ same_registers g1 ex_backends /\
          registration ex_capped g1 (bool_decide (failed = [])) ex_backends (fst ex_registered)
    | _ => same_registers (fst ex_registered) ex_backends
    end.
Proof.
  exact (backend_status_truthful ex_parse ex_speech ex_picture ex_picture ex_fixed_errors ex_capped
           (snd ex_registered) ex_backends (fst ex_registered) eq_refl ex_backend_loop_ret).
Defined.

Definition ex_ask_llama : LLMRequest := mkLLMRequest RequestTypeChatCompletions "llama-3" false None None None None None None.

Lemma ex_registered_ready : report condRegister true "" ∈ map reported (ro_Conditions (snd ex_registered)).
Proof. vm_compute. right. right. right. left. Qed.

Definition ex_vivid : OpenAIImageGenerationParam :=
  mkImageParam (mkImageCommonParams "sd-3" None) None None None None (Some "vivid") None None None.
Definition ex_painter : ImageGenerationBackend :=
  mkImageBackend (ex_meta "painter") None "OpenAI"
    (mkBackendUpstream "http://sd/v1" [] [] None (Some (mkImageModelParams (Some ex_vivid))) [] 0) None
    (mkBackendStatus Healthy [] []).

Lemma ex_named : named_strings_refused.
Proof. intros s. by exists "invalid type". Qed.

Lemma image_named_params_refused_witness :
  exists e, (inr (EWrap "error processing OverrideParams" (EWrap "error processing OpenAI params"
              (EWrap "failed to convert field style to *structpb.Value" (EPlain "invalid type")))) : Cluster + gerror) = inr e.
Proof.
  apply (image_named_params_refused (R := Api.Route) (X := unit) ex_named ex_painter ex_vivid
           ex_backends ex_backends).
  - left. by eexists.
  - by right.
  - vm_compute. reflexivity.
Defined.
