(* ===== verification/System.v ===== *)
(** * The gateway under its controllers

    What holds of the two registers of the gateway whatever the controllers
    do, in whatever order, and whatever the API server answers them; and what
    that makes of a request: the routes are a map from model names, and a
    backend that reports its registration is served. *)
From S2P Require Import Prelude Strconv Utils GoFloat Json Api LoadBalance Errors Request Response Effects Stream Filters.
From S2P Require Import Auth Usage RateLimit ClusterFilters Cluster Speech Route RouteManager Listener Serve.
From S2P Require Import Kube Controller ModelRouteController BackendController.

(** ** The invariant of the registers *)
Section Registers.
Context {R X : Type} `{RouteInterface R} `{!RouteLaws R} `{JSONPatch} `{JSONPath} `{JSONText}.
Variable url_Parse : string -> string + string.
Variable BuildSpeechRequest : ClusterProvider -> string -> string -> LLMRequest -> Header -> option Header ->
                              outcome (HTTPRequest + gerror).
Variable decodeBase64 fetchURL : string -> (Z * Z * string) + gerror.
Abbreviation new := (Cluster_NewWithConfigs (X := X) url_Parse BuildSpeechRequest decodeBase64 fetchURL).
Abbreviation upsert := (UpsertAndRegisterCluster (X := X) url_Parse BuildSpeechRequest decodeBase64 fetchURL).

(** A route that takes the requests for one model only. *)
Definition takes_only (name : string) (r : R) : Prop := forall req, route_Match r req = true -> GetModel req = name.
Definition own_cfg (cfg : Api.Route) : Prop := forall req, Route_Match cfg req = true -> GetModel req = route_name cfg.

Record routes_ok (s : RouteManager R) : Prop := {
  ro_list : rm_ok s (matchRouteRegistry s, routeRegistry s);
  ro_matches : map_Forall takes_only (matchRouteRegistry s);
  ro_bases : map_Forall takes_only (routeRegistry s) }.

(** Every cluster is what its configuration makes, under its name. *)
Record clusters_ok (cr : Register X) : Prop := {
  co_names : map_Forall (fun name m => cl_name (cd_cluster m) = name /\ new (cd_cluster m) = inl m) (reg_clusters cr);
  co_details : reg_clustersDetails cr = cd_cluster <$> reg_clusters cr }.

Definition own_op (op : rm_op) : Prop :=
  match op with OpRegisterMatch cfg | OpRegisterBase cfg => own_cfg cfg | OpRemoveMatch _ | OpRemoveBase _ => True end.

Lemma own_New cfg r : own_cfg cfg -> route_New cfg = inl r -> takes_only (route_name cfg) r.
Proof. intros Ho Hn req. rewrite (route_match_config cfg r req Hn). apply Ho. Qed.

Lemma routes_ok_step s op s' : routes_ok s -> own_op op -> rm_step s op s' -> routes_ok s'.
Proof.
  intros [Hl Hm Hb] Ho Hstep. pose proof (rm_step_registries _ _ _ Hstep) as Hregs.
  apply (rm_step_ok _ _ _ _ Hstep) in Hl. rewrite <- Hregs in Hl.
  destruct op as [cfg|n|cfg|n]; cbn [spec_registries own_op] in *.
  - destruct (route_New cfg) as [r|e] eqn:En; injection Hregs as Em Eb; split; rewrite ?Em, ?Eb in *; try done.
    apply map_Forall_insert_2; [by apply own_New|done].
  - injection Hregs as Em Eb. split; rewrite ?Em, ?Eb in *; try done. by apply map_Forall_delete.
  - destruct (route_New cfg) as [r|e] eqn:En; injection Hregs as Em Eb; split; rewrite ?Em, ?Eb in *; try done.
    apply map_Forall_insert_2; [by apply own_New|done].
  - injection Hregs as Em Eb. split; rewrite ?Em, ?Eb in *; try done. by apply map_Forall_delete.
Qed.

Lemma routes_ok_init : routes_ok emptyManager.
Proof. split; [|by apply map_Forall_empty..]. split; [done..|]. cbn. by rewrite map_empty_union, map_to_list_empty. Qed.

Lemma new_cluster c m : new c = inl m -> cd_cluster m = c.
Proof.
  intros E. pose proof (new_spec (X := X) url_Parse BuildSpeechRequest decodeBase64 fetchURL c) as Hn. rewrite E in Hn.
  by destruct Hn as (_ & Hc & _).
Qed.

Lemma clusters_ok_upsert cr c : clusters_ok cr -> clusters_ok (fst (upsert cr c)).
Proof.
  intros [Hn Hd]. unfold UpsertAndRegisterCluster. destruct (new c) as [m|e] eqn:E; [|done].
  pose proof (new_cluster _ _ E) as Hc. split; cbn [fst reg_clusters reg_clustersDetails].
  - apply map_Forall_insert_2; [|done]. by rewrite Hc.
  - by rewrite fmap_insert, Hc, Hd.
Qed.

Lemma clusters_ok_delete cr name : clusters_ok cr -> clusters_ok (DeleteCluster cr name).
Proof.
  intros [Hn Hd]. split; cbn [DeleteCluster reg_clusters reg_clustersDetails].
  - by apply map_Forall_delete.
  - by rewrite fmap_delete, Hd.
Qed.

Lemma clusters_ok_init : clusters_ok NewClusterRegister.
Proof. split; [by apply map_Forall_empty|]. cbn. by rewrite fmap_empty. Qed.

(** The routes are a map from model names: the list is searched for what the
    registries hold under the name, a match route before a base route. *)
Definition lookup_route (s : RouteManager R) (req : LLMRequest) : option R :=
  r ← (matchRouteRegistry s ∪ routeRegistry s) !! GetModel req;
  if route_Match r req then Some r else None.

Lemma routes_are_a_map s req : routes_ok s -> MatchRoute s req = lookup_route s req.
Proof.
  intros [[_ _ Hl] Hm Hb]. cbn [fst snd] in Hl. unfold MatchRoute, lookup_route.
  set (all := matchRouteRegistry s ∪ routeRegistry s) in *.
  assert (forall name r, all !! name = Some r -> takes_only name r) as Hown.
  { intros name r [Hn|[_ Hn]]%lookup_union_Some_raw; [by apply Hm|by apply Hb]. }
  assert (forall r, r ∈ routes s <-> exists name, all !! name = Some r) as Hin.
  { intros r. rewrite Hl, list_elem_of_fmap. split.
    - intros ([name r'] & -> & Hn). exists name. by apply elem_of_map_to_list.
    - intros (name & Hn). exists (name, r). split; [done|]. by apply elem_of_map_to_list. }
  destruct (List.find _ (routes s)) as [r|] eqn:E.
  - apply find_some in E as [Hi%list_elem_of_In Hr]. apply Hin in Hi as (name & Hn).
    rewrite (Hown name r Hn req Hr), Hn. cbn. by rewrite Hr.
  - destruct (all !! GetModel req) as [r|] eqn:En; [|done]. cbn.
    assert (r ∈ routes s) as Hi%list_elem_of_In by (apply Hin; by eexists).
    by rewrite (find_none _ _ E r Hi).
Qed.
End Registers.

(** ** Computations that keep the invariant *)
Section Keeping.
Context {K R X : Type} `{RouteInterface R} `{!RouteLaws R} `{KubeLaws K} `{JSONPatch} `{JSONPath} `{JSONText}.
Abbreviation S := (Gateway K R X).
Variable url_Parse : string -> string + string.
Variable BuildSpeechRequest : ClusterProvider -> string -> string -> LLMRequest -> Header -> option Header ->
                              outcome (HTTPRequest + gerror).
Variable decodeBase64 fetchURL : string -> (Z * Z * string) + gerror.
Variable multierror : list string -> string.
Variable LowerCamelCase : string -> string.

Definition gateway_ok (g : S) : Prop :=
  routes_ok (gw_routes g) /\ clusters_ok url_Parse BuildSpeechRequest decodeBase64 fetchURL (gw_clusters g).

Definition keeps {A} (m : Ctl S A) : Prop := forall g g' a, gateway_ok g -> m g = Ret (g', a) -> gateway_ok g'.

Lemma keeps_reads {A} (m : Ctl S A) : reads m -> keeps m.
Proof. intros Hm g g' a Hg E. destruct (Hm g g' a E) as [Hr Hc]. unfold gateway_ok. by rewrite Hr, Hc. Qed.

Lemma keeps_bind {A B} (m : Ctl S A) (f : A -> Ctl S B) : keeps m -> (forall a, keeps (f a)) -> keeps (m ≫= f).
Proof.
  intros Hm Hf g g' b Hg. unfold mbind, Ctl_bind. destruct (m g) as [[h a]|] eqn:E; [|done].
  intros E'. eapply Hf; [|exact E']. by eapply Hm.
Qed.

(** What a pure step returns may be used by the next. *)
Lemma keeps_bind_lift {A B} (m : outcome A) (f : A -> Ctl S B) : (forall a, m = Ret a -> keeps (f a)) -> keeps (ctl_lift m ≫= f).
Proof.
  intros Hf g g' b Hg. unfold mbind, Ctl_bind, ctl_lift. destruct m as [a|]; [|done]. by apply (Hf a eq_refl).
Qed.

Lemma keeps_modifyRoutes {A} (op : rm_op) (f : RouteManager R -> list string -> RouteManager R * A) :
  own_op op -> (forall s order, fst (f s order) = rm_exec s order op) -> keeps (modifyRoutes f).
Proof.
  intros Ho Hf g g' a [Hr Hc] E. destruct (modifyRoutes_step op f g g' a Hf E) as (Hstep & Hcl & _).
  split; [by eapply routes_ok_step|by rewrite Hcl].
Qed.

Lemma keeps_modifyClusters {A} (f : Register X -> Register X * A) :
  (forall cr, clusters_ok url_Parse BuildSpeechRequest decodeBase64 fetchURL cr ->
     clusters_ok url_Parse BuildSpeechRequest decodeBase64 fetchURL (fst (f cr))) -> keeps (modifyClusters f).
Proof.
  intros Hf g g' a [Hr Hc]. unfold modifyClusters. destruct (f (gw_clusters g)) as [cr b] eqn:E. intros [= <- <-].
  split; [done|]. specialize (Hf _ Hc). by rewrite E in Hf.
Qed.

Lemma own_direct name : own_cfg (InitDirectModelRoute name).
Proof. intros req Hm. by apply direct_route_matches in Hm as [? _]. Qed.

Lemma own_modelroute r mBackends cfg : toRegisterRouteConfig r mBackends = Ret (inl cfg) -> own_cfg cfg.
Proof.
  intros Hc req Hm. rewrite (toRegisterRouteConfig_name _ _ _ Hc). apply toRegisterRouteConfig_fields in Hc as (Hmatch & _).
  apply Route_Match_true in Hm as (_ & m & Hin & _ & Em). rewrite Hmatch in Hin. apply list_elem_of_singleton in Hin as ->.
  cbn in Em. by injection Em as <-.
Qed.
End Keeping.

#[export] Hint Resolve keeps_reads reads_mapCRDTargetsToBackends reads_toRegisterClusterConfig own_direct own_modelroute : knoway.

(** [keeps]: by the structure of the computation. *)
Ltac keeps :=
  repeat first
    [ progress intros | solve [auto with knoway] | apply keeps_bind_lift | apply keeps_bind
    | match goal with |- keeps _ _ _ _ (match ?x with _ => _ end) => destruct x end
    | match goal with |- keeps _ _ _ _ (let '(_, _) := ?x in _) => destruct x end ].

Section Controllers.
Context {K R X : Type} `{RouteInterface R} `{!RouteLaws R} `{KubeLaws K} `{JSONPatch} `{JSONPath} `{JSONText}.
Abbreviation S := (Gateway K R X).
Variable url_Parse : string -> string + string.
Variable BuildSpeechRequest : ClusterProvider -> string -> string -> LLMRequest -> Header -> option Header ->
                              outcome (HTTPRequest + gerror).
Variable decodeBase64 fetchURL : string -> (Z * Z * string) + gerror.
Variable multierror : list string -> string.
Variable LowerCamelCase : string -> string.
Abbreviation keeps := (keeps (K := K) (R := R) (X := X) url_Parse BuildSpeechRequest decodeBase64 fetchURL).

Section Loop.
Context {O : Type} `{ReconciledLaws O} `{KubeResource K O}.

Lemma keeps_setStatusCondition typ ready message (o : O) : keeps (setStatusCondition typ ready message o).
Proof. apply keeps_reads. unfold setStatusCondition. reads. Qed.

Lemma keeps_reconcileLoop rrs : Forall (fun rr => forall o : O, keeps (rh_reconciler rr o)) rrs ->
  forall o, keeps (reconcileLoop rrs o).
Proof.
  induction 1 as [|rr rrs Hrr _ IH]; intros o; cbn [reconcileLoop]; [apply keeps_reads, reads_ret|].
  apply keeps_bind; [by apply Hrr|]. intros [o' [e|]].
  - apply keeps_bind; [apply keeps_reads; destruct (isDeleted o'); reads|]. intros []; [apply IH|].
    apply keeps_bind_lift. intros text _. apply keeps_setStatusCondition.
  - apply keeps_bind; [apply keeps_setStatusCondition|]. intros o1. apply IH.
Qed.

Lemma keeps_Reconcile rrs drrs phase same withStatus req :
  Forall (fun rr => forall o : O, keeps (rh_reconciler rr o)) rrs -> Forall (fun rr => forall o : O, keeps (rh_reconciler rr o)) drrs ->
  keeps (Reconcile rrs drrs phase same withStatus req).
Proof.
  intros Hl Hd. unfold Reconcile. apply keeps_bind; [apply keeps_reads, reads_kube|]. intros [o|e]; [|apply keeps_reads, reads_ret].
  apply keeps_bind; [apply keeps_reconcileLoop; by destruct (isDeleted o)|]. intros o1.
  apply keeps_reads. reads.
Qed.

Lemma keeps_final (o : O) : keeps (reconcileFinalDelete o).
Proof. apply keeps_reads. unfold reconcileFinalDelete. reads. Qed.
Lemma keeps_config (o : O) : keeps (reconcileConfig o).
Proof. apply keeps_reads, reads_reconcileConfig. Qed.
End Loop.

(** *** The three controllers *)
Section Routes.
Context `{KubeResource K ModelRoute} `{KubeResource K LLMBackend} `{KubeResource K ImageGenerationBackend}.

Lemma keeps_removeMatchRoute name : keeps (removeMatchRoute name).
Proof.
  unfold removeMatchRoute. destruct (String.eqb name ""); [apply keeps_reads, reads_ret|].
  by apply (keeps_modifyRoutes _ _ _ _ (OpRemoveMatch name)).
Qed.

Lemma keeps_register_route r : keeps (ModelRouteController.reconcileRegister multierror r).
Proof.
  unfold ModelRouteController.reconcileRegister. pose proof (keeps_removeMatchRoute (mrs_ModelName (mr_Spec r))) as Hrem.
  destruct (isDeleted r); [keeps; apply keeps_reads, reads_ret|].
  apply keeps_bind; [apply keeps_reads, reads_mapCRDTargetsToBackends|]. intros [mB|e]; [|apply keeps_reads, reads_ret].
  apply keeps_bind_lift. intros [cfg|e] Hcfg; [|apply keeps_reads, reads_ret].
  apply keeps_bind; [|keeps; apply keeps_reads, reads_ret].
  apply (keeps_modifyRoutes _ _ _ _ (OpRegisterMatch cfg)); [by eapply own_modelroute|done].
Qed.

Lemma keeps_ModelRoute req : keeps (ModelRoute_Reconcile multierror LowerCamelCase req).
Proof.
  apply keeps_Reconcile; repeat apply Forall_cons_2; try apply Forall_nil_2; cbn [rh_reconciler]; intros o.
  all: first [apply keeps_config|apply keeps_final|apply keeps_register_route|apply keeps_reads, reads_reconcileValidator
             |apply keeps_reads, reads_reconcileDestinationHealthy].
Qed.
End Routes.

Section Backends.
Context {B : Type} `{ReconciledLaws B} `{BackendResource B} `{KubeResource K B}.

Lemma keeps_removeBackend name : keeps (removeBackend name).
Proof.
  unfold removeBackend. destruct (String.eqb name ""); [apply keeps_reads, reads_ret|]. apply keeps_bind.
  - apply keeps_modifyClusters. intros cr. apply clusters_ok_delete.
  - intros []. by apply (keeps_modifyRoutes _ _ _ _ (OpRemoveBase name)).
Qed.

Lemma keeps_register_backend (b : B) :
  keeps (reconcileRegister url_Parse BuildSpeechRequest decodeBase64 fetchURL multierror b).
Proof.
  unfold reconcileRegister. pose proof (keeps_removeBackend (backendModelName b)) as Hrem.
  destruct (isDeleted b); [keeps; apply keeps_reads, reads_ret|].
  apply keeps_bind; [apply keeps_reads, reads_toRegisterClusterConfig|]. intros [cfg|e]; [|apply keeps_reads, reads_ret].
  apply keeps_bind; [apply keeps_modifyClusters; intros cr; apply clusters_ok_upsert|]. intros err. apply keeps_bind_lift. intros errs1 _.
  apply keeps_bind; [apply (keeps_modifyRoutes _ _ _ _ (OpRegisterBase (InitDirectModelRoute (backendModelName b)))); [apply own_direct|done]|].
  intros err2. apply keeps_bind_lift. intros errs2 _. destruct (errs1 ++ errs2); keeps; apply keeps_reads, reads_ret.
Qed.

Lemma keeps_handlers (b : B) rr :
  rr ∈ getReconciles (R := R) (X := X) url_Parse BuildSpeechRequest decodeBase64 fetchURL multierror \/
  rr ∈ getDeleteReconciles (R := R) (X := X) url_Parse BuildSpeechRequest decodeBase64 fetchURL multierror LowerCamelCase ->
  keeps (rh_reconciler rr b).
Proof.
  unfold getReconciles, getDeleteReconciles. rewrite !elem_of_cons, !elem_of_nil.
  intros [[->|[->|[->|[->|[]]]]]|[->|[->|[->|[]]]]]; cbn [rh_reconciler].
  all: first [apply keeps_config|apply keeps_final|apply keeps_register_backend|apply keeps_reads, reads_validator|apply keeps_reads, reads_ret].
Qed.

Lemma keeps_Backend req :
  keeps (Backend_Reconcile (B := B) url_Parse BuildSpeechRequest decodeBase64 fetchURL multierror LowerCamelCase req).
Proof. apply keeps_Reconcile; apply Forall_forall; intros rr Hin o; apply keeps_handlers; auto. Qed.
End Backends.
End Controllers.

(** ** The running gateway *)
Section System.
Context {K X : Type} `{KubeLaws K} `{JSONPatchLaws} `{JSONPathLaws} `{JSONText} `{StructPB}.
Context `{KubeResource K ModelRoute} `{KubeResource K LLMBackend} `{KubeResource K ImageGenerationBackend}.
Variable url_Parse : string -> string + string.
Variable BuildSpeechRequest : ClusterProvider -> string -> string -> LLMRequest -> Header -> option Header ->
                              outcome (HTTPRequest + gerror).
Variable decodeBase64 fetchURL : string -> (Z * Z * string) + gerror.
Variable multierror : list string -> string.
Variable LowerCamelCase : string -> string.
Variable Match : string -> string -> option bool.
Variable APIKeyAuth : string -> Z -> string -> Eff X (APIKeyAuthResponse + (gerror * option Auth.grpcCode)).
Variable UsageReport : string -> Z -> Usage.UsageReportRequest -> Eff X (option gerror).
Variable newRedisClient : RateLimitConfig -> option gerror.
Variable invalid : Z.
Variable limiters : nat -> RateLimit.Surroundings X.
Variable keys : gmap string (routeDefault X) -> list string.
Hypothesis keys_order : forall m, key_order (keys m) m.

#[local] Instance gateway_routes : RouteInterface (routeDefault X) :=
  default_route Match APIKeyAuth UsageReport newRedisClient invalid limiters.
#[local] Instance gateway_routes_laws : RouteLaws (routeDefault X) :=
  default_route_laws Match APIKeyAuth UsageReport newRedisClient invalid limiters.
Abbreviation S := (Gateway K (routeDefault X) X).
Abbreviation static := (StaticRegisterClusters url_Parse BuildSpeechRequest decodeBase64 fetchURL Match APIKeyAuth UsageReport
                          newRedisClient invalid limiters keys).
Abbreviation new := (Cluster_NewWithConfigs (X := X) url_Parse BuildSpeechRequest decodeBase64 fetchURL).
Abbreviation ok := (gateway_ok (K := K) (R := routeDefault X) (X := X) url_Parse BuildSpeechRequest decodeBase64 fetchURL).

(** The gateway starts with its static clusters; then, one at a time and in
    any order, a controller is given a name to reconcile, or what the API
    server holds changes to anything. *)
Inductive sys_reach : S -> Prop :=
| sys_start k clusters cr rm :
    NoDup (map cl_name clusters) -> static clusters NewClusterRegister emptyManager = (cr, rm, None) ->
    sys_reach (mkGateway k rm cr)
| sys_world g k : sys_reach g -> sys_reach (mkGateway k (gw_routes g) (gw_clusters g))
| sys_route g g' req a : sys_reach g -> ModelRoute_Reconcile multierror LowerCamelCase req g = Ret (g', a) -> sys_reach g'
| sys_llm g g' req a : sys_reach g ->
    Backend_Reconcile (B := LLMBackend) url_Parse BuildSpeechRequest decodeBase64 fetchURL multierror LowerCamelCase req g = Ret (g', a) ->
    sys_reach g'
| sys_image g g' req a : sys_reach g ->
    Backend_Reconcile (B := ImageGenerationBackend) url_Parse BuildSpeechRequest decodeBase64 fetchURL multierror LowerCamelCase req g
    = Ret (g', a) -> sys_reach g'.

Lemma static_clusters_ok clusters : forall cr rm cr' rm' err,
  clusters_ok url_Parse BuildSpeechRequest decodeBase64 fetchURL cr -> static clusters cr rm = (cr', rm', err) ->
  clusters_ok url_Parse BuildSpeechRequest decodeBase64 fetchURL cr'.
Proof.
  induction clusters as [|c clusters IH]; intros cr rm cr' rm' err Hok; cbn [StaticRegisterClusters]; [by intros [= <- _ _]|].
  pose proof (clusters_ok_upsert url_Parse BuildSpeechRequest decodeBase64 fetchURL cr c Hok) as Hup.
  destruct (UpsertAndRegisterCluster _ _ _ _ cr c) as [cr1 [e|]]; cbn [fst] in Hup; [by intros [= <- _ _]|].
  destruct (registerBase _ _ _ _ _ _ _ rm _) as [rm1 [e|]]; [by intros [= <- _ _]|]. by apply IH.
Qed.

Lemma static_routes_ok clusters cr rm :
  NoDup (map cl_name clusters) -> static clusters NewClusterRegister emptyManager = (cr, rm, None) -> routes_ok rm.
Proof.
  intros Hnd Hrun.
  pose proof (static_run url_Parse BuildSpeechRequest decodeBase64 fetchURL Match APIKeyAuth UsageReport newRedisClient invalid
    limiters keys keys_order clusters NewClusterRegister emptyManager ∅) as Hs. rewrite Hrun in Hs.
  destruct Hs as (_ & _ & bases & [Hl Hd] & _); [|done|].
  { split; [|done]. split; [done|done|]. cbn. by rewrite map_empty_union, map_to_list_empty. }
  pose proof (rm_matches _ _ Hl) as Em. pose proof (rm_bases _ _ Hl) as Eb. cbn in Em, Eb. split; rewrite ?Em, ?Eb; [done|by apply map_Forall_empty|].
  intros n r Hn req Hm. rewrite (Hd n r Hn) in Hm. by apply direct_route_matches in Hm as [? _].
Qed.

Lemma sys_ok g : sys_reach g -> ok g.
Proof.
  induction 1 as [k clusters cr rm Hnd Hrun|g k _ IH|g g' req a _ IH Hrun|g g' req a _ IH Hrun|g g' req a _ IH Hrun].
  - split; [by eapply static_routes_ok|]. eapply static_clusters_ok; [apply clusters_ok_init|exact Hrun].
  - exact IH.
  - exact (keeps_ModelRoute _ _ _ _ _ _ req g g' a IH Hrun).
  - exact (keeps_Backend _ _ _ _ _ _ req g g' a IH Hrun).
  - exact (keeps_Backend _ _ _ _ _ _ req g g' a IH Hrun).
Qed.

(** C8: whatever static clusters the gateway starts with, and whatever the
    three controllers have done since, in any order and with any answers of
    the API server, requests are routed as by a map from model names: the
    route that takes a request is the one registered under its model's name, a
    model route hiding a backend's, if that route matches it, and there is
    none otherwise; and a cluster found under a name has that name and is what
    its configuration makes, the one that the list of models shows. *)
Theorem routing_by_name g (Hreach : sys_reach g) :
  (forall req, MatchRoute (gw_routes g) req = lookup_route (gw_routes g) req) /\
  (forall name m, FindClusterByName (gw_clusters g) name = Some m ->
     cl_name (cd_cluster m) = name /\ new (cd_cluster m) = inl m) /\
  (forall name, reg_clustersDetails (gw_clusters g) !! name = cd_cluster <$> FindClusterByName (gw_clusters g) name).
Proof.
  apply sys_ok in Hreach as [Hr [Hn Hd]]. split_and!.
  - intros req. by apply routes_are_a_map.
  - exact Hn.
  - intros name. by rewrite Hd, lookup_fmap.
Qed.

(** The cluster of a backend. *)
Definition made_from {B} `{Reconciled B} `{BackendResource B} (c : Cluster) (b : B) : Prop :=
  cl_name c = backendModelName b /\ cl_filters c = [] /\ up_url (GetUpstream c) = br_BaseURL b /\
  up_removeParamKeys (GetUpstream c) = br_RemoveParamKeys b /\ cl_provider c = MapBackendProviderToClusterProvider (br_Provider b).

Lemma config_made_from {B} `{Reconciled B} `{BackendResource B} (b : B) (g g' : S) cfg :
  toRegisterClusterConfig b g = Ret (g', inl cfg) -> made_from cfg b.
Proof.
  unfold toRegisterClusterConfig, mbind, Ctl_bind.
  destruct (headerFromSpec _ _ _ g) as [[g1 [hs|e]]|]; [|by intros [= _ ?]|done].
  destruct (br_Parameters b) as [[defaults overrides]|e]; [|by intros [= _ ?]].
  destruct (rangeMap defaults g1) as [[g2 d]|]; [|done]. destruct (rangeMap overrides g2) as [[g3 o]|]; [|done].
  by intros [= _ <-].
Qed.

Lemma backend_served {B} `{ReconciledLaws B} `{BackendResource B} `{!BackendLaws B} `{KubeResource K B} (b b' : B) (g g' : S) :
  ok g -> isDeleted b = false ->
  reconcileLoop (getReconciles url_Parse BuildSpeechRequest decodeBase64 fetchURL multierror) (ro_SetConditions [] b) g = Ret (g', b') ->
  report condRegister true "" ∈ map reported (ro_Conditions b') ->
  matchRouteRegistry (gw_routes g) !! backendModelName b = None ->
  exists c, made_from c b /\ serves url_Parse BuildSpeechRequest decodeBase64 fetchURL (gw_clusters g') (gw_routes g') c.
Proof.
  intros Hok Hlive Hrun Hready Hfree.
  assert (ok g') as [Hr [Hn _]].
  { refine (keeps_reconcileLoop _ _ _ _ _ _ _ g g' b' Hok Hrun). apply Forall_forall. intros rr Hin o.
    apply (keeps_handlers _ _ _ _ multierror LowerCamelCase). by left. }
  destruct (registered_ready _ _ _ _ _ _ _ _ _ Hlive Hrun Hready) as [Hacc (h & h' & c & m & Hcfg & Hcl & Hm & _ & Hstep)].
  pose proof (config_made_from b h h' c Hcfg) as Hfrom. exists c. split; [done|]. destruct Hfrom as (Hname & _).
  pose proof (rm_step_registries _ _ _ Hstep) as Hregs. cbn [spec_registries] in Hregs.
  change (route_New (InitDirectModelRoute (backendModelName b))) with (inl (direct (X := X) (backendModelName b)) : routeDefault X + gerror) in Hregs.
  injection Hregs as Em Eb.
  split.
  - exists m. rewrite Hname. assert (FindClusterByName (gw_clusters g') (backendModelName b) = Some m) as Hf.
    { rewrite Hcl. unfold FindClusterByName. cbn [reg_clusters]. apply lookup_insert_eq. }
    split; [done|]. destruct (Hn _ _ Hf) as [_ Hnew]. by rewrite Hm in Hnew.
  - intros req Hreq. exists (direct (cl_name c)). split; [|done]. rewrite routes_are_a_map by done. unfold lookup_route.
    rewrite Hreq, Hname, Em, Eb.
    rewrite (proj2 (lookup_union_Some_raw _ _ _ (direct (backendModelName b)))); [|right; split; [done|apply lookup_insert_eq]].
    cbn [mbind option_bind]. destruct (route_Match (direct (backendModelName b)) req) eqn:Ematch; [done|].
    exfalso. apply not_true_iff_false in Ematch. apply Ematch, direct_route_matches. rewrite Hreq, Hname. split; [done|]. by eapply acceptable_name.
Qed.

(** *** From the custom resource to the bytes of the answer *)
Section Serving.
Variable doRequest : HTTPRequest -> Eff X (RawResponse + gerror).
Variable renv : RouteEnv X.
Variable Marshal : json -> string.
Variable write_ok : string -> string -> bool.
Context (env : ListenerEnv X) `{!ListenerLaws env}.
Variable at_panic : HTTPRequest -> World X -> World X.
Variable address : HTTPRequest -> Z.

(** C2: a backend that reports its registration serves chats: in a gateway
    in any state it can reach, once the reconciliation of a backend has left
    its [register] condition true, and unless a model route has its name, which
    would hide it, there is a cluster made from the backend such that a request
    for the backend's model is answered with exactly one status line and the
    upstream's completion under the model's name.  The request is a chat
    request for a whole answer, not a stream, with a JSON body, it comes to a
    listener that has not been drained and is let through by the filters, the
    parameters of the backend are such that it can be rewritten, and the
    upstream of the cluster answers the rewritten request with a chat
    completion. *)
Theorem registered_backend_chats {B} `{ReconciledLaws B} `{BackendResource B} `{!BackendLaws B} `{KubeResource K B} (b b' : B) (g g' : S)
    (Hreach : sys_reach g) (Hlive : isDeleted b = false)
    (Hrun : reconcileLoop (getReconciles url_Parse BuildSpeechRequest decodeBase64 fetchURL multierror) (ro_SetConditions [] b) g = Ret (g', b'))
    (Hready : report condRegister true "" ∈ map reported (ro_Conditions b'))
    (Hfree : matchRouteRegistry (gw_routes g) !! backendModelName b = None) :
  exists c, made_from c b /\
  forall fuel filters request w fields x x1 raw r answer,
    hr_Method request <> "OPTIONS" -> getDrained env (w_ext w) = false -> hr_Body request = BodyJSON (JObj fields) ->
    asks false fields (backendModelName b) ->
    let_through filters request (chat_request false (backendModelName b) fields) (entered env address request w) x ->
    params_ok c (chat_request false (backendModelName b) fields) ->
    upstream_answers url_Parse doRequest c fields x x1 raw r answer ->
    exists w', serve_chat doRequest renv Marshal write_ok env at_panic address (1 + fuel) (gw_clusters g') (gw_routes g') filters request w
        = Ret (w', (None, None)) /\
      getOut env (w_ext w')
      = getOut env x1 ++ [OutStatus 200 jsonType; OutJSON (JObj (<["model" := JStr (backendModelName b)]> answer))] /\
      StatusCode (w_meta w') = 200.
Proof.
  apply sys_ok in Hreach. destruct (backend_served b b' g g' Hreach Hlive Hrun Hready Hfree) as (c & Hfrom & Hserves).
  exists c. split; [done|]. destruct Hfrom as (Hname & Hf & _). rewrite <- Hname.
  intros fuel filters request w fields x x1 raw r answer Hm Hd Hb Ha Ht Hp Hu.
  by eapply (chat_served url_Parse BuildSpeechRequest decodeBase64 fetchURL).
Qed.
End Serving.
End System.

(** ** Example: a gateway with the two static clusters, then a backend *)
#[local] Existing Instances rfc6902 rfc6902_laws dotted_paths dotted_paths_laws ex_Unmarshal ex_listener_laws.
#[local] Existing Instances ex_ModelRoutes ex_LLMBackends ex_ImageBackends ex_env ex_laws ex_structpb ex_structpb_laws.

Definition ex_sys : Gateway ex_api (routeDefault ex_state) ex_state :=
  mkGateway (mkApi [] [ex_capped] [] 1000) ex_base ex_clusters.
Abbreviation ex_rt := (gateway_routes ex_glob ex_service ex_report (fun _ => None) 0 (fun _ => ex_limiter)).

Definition ex_sys_loop : outcome (Gateway ex_api (routeDefault ex_state) ex_state * LLMBackend) :=
  reconcileLoop
    (getReconciles (H := ex_rt) ex_parse ex_speech ex_picture ex_picture ex_fixed_errors)
    (ro_SetConditions [] ex_capped) ex_sys.

Definition ex_sys_after : Gateway ex_api (routeDefault ex_state) ex_state * LLMBackend :=
  match ex_sys_loop with Ret r => r | Panic _ => (ex_sys, ex_capped) end.

Lemma ex_sys_reach :
  sys_reach (K := ex_api) ex_parse ex_speech ex_picture ex_picture ex_fixed_errors (fun _ => "deleteRegister") ex_glob ex_service ex_report
    (fun _ => None) 0 (fun _ => ex_limiter) (fun m => (map_to_list m).*1) ex_sys.
Proof.
  apply (sys_start _ _ _ _ _ _ _ _ _ _ _ _ _ _ (map_to_list ex_map).*2); [|exact ex_static_run].
  apply (bool_decide_unpack _). vm_compute. exact I.
Qed.

Lemma ex_sys_loop_ret :
  reconcileLoop (getReconciles (H := ex_rt) ex_parse ex_speech ex_picture ex_picture ex_fixed_errors)
    (ro_SetConditions [] ex_capped) ex_sys = Ret (fst ex_sys_after, snd ex_sys_after).
Proof.
  rewrite <- surjective_pairing. unfold ex_sys_after, ex_sys_loop.
  match goal with |- ?r = _ => assert (match r with Ret _ => true | Panic _ => false end = true) as Hr by (vm_compute; reflexivity);
    exact (ret_of r (ex_sys, ex_capped) Hr) end.
Qed.

Lemma ex_sys_ready : report condRegister true "" ∈ map reported (ro_Conditions (snd ex_sys_after)).
Proof. vm_compute. right. right. right. left. Qed.

Lemma routing_by_name_witness :
  (forall req, MatchRoute (H := ex_rt) (gw_routes ex_sys) req = lookup_route (H := ex_rt) (gw_routes ex_sys) req) /\
  (forall name m, FindClusterByName (gw_clusters ex_sys) name = Some m ->
     cl_name (cd_cluster m) = name /\
     Cluster_NewWithConfigs (X := ex_state) ex_parse ex_speech ex_picture ex_picture (cd_cluster m) = inl m) /\
  (forall name, reg_clustersDetails (gw_clusters ex_sys) !! name = cd_cluster <$> FindClusterByName (gw_clusters ex_sys) name).
Proof.
  refine (routing_by_name ex_parse ex_speech ex_picture ex_picture ex_fixed_errors (fun _ => "deleteRegister") ex_glob ex_service
    ex_report (fun _ => None) 0 (fun _ => ex_limiter) (fun m => (map_to_list m).*1) (fun m => reflexivity _) ex_sys ex_sys_reach).
Defined.

Lemma registered_backend_chats_witness :
  exists c, made_from c ex_capped /\
  forall fuel filters request w fields x x1 raw r answer,
    hr_Method request <> "OPTIONS" -> getDrained ex_listener (w_ext w) = false -> hr_Body request = BodyJSON (JObj fields) ->
    asks false fields (backendModelName ex_capped) ->
    let_through filters request (chat_request false (backendModelName ex_capped) fields) (entered ex_listener ex_address request w) x ->
    params_ok c (chat_request false (backendModelName ex_capped) fields) ->
    upstream_answers ex_parse ex_upstreams c fields x x1 raw r answer ->
    exists w', serve_chat (H4 := ex_rt) ex_upstreams ex_routing ex_Marshal (fun _ _ => true) ex_listener ex_panic ex_address
        (1 + fuel) (gw_clusters (fst ex_sys_after)) (gw_routes (fst ex_sys_after)) filters request w = Ret (w', (None, None)) /\
      getOut ex_listener (w_ext w')
      = getOut ex_listener x1 ++ [OutStatus 200 jsonType; OutJSON (JObj (<["model" := JStr (backendModelName ex_capped)]> answer))] /\
      StatusCode (w_meta w') = 200.
Proof.
  refine (registered_backend_chats ex_parse ex_speech ex_picture ex_picture ex_fixed_errors (fun _ => "deleteRegister") ex_glob ex_service
    ex_report (fun _ => None) 0 (fun _ => ex_limiter) (fun m => (map_to_list m).*1) (fun m => reflexivity _)
    ex_upstreams ex_routing ex_Marshal (fun _ _ => true) ex_listener ex_panic ex_address
    ex_capped (snd ex_sys_after) ex_sys (fst ex_sys_after) ex_sys_reach eq_refl ex_sys_loop_ret ex_sys_ready _).
  vm_compute. reflexivity.
Defined.

(** A chat with the model of the backend, which was not there at the start. *)
Definition ex_llama_chat : HTTPRequest :=
  mkHTTPRequest "POST" "/v1/chat/completions" (Header_Set ∅ "Authorization" "Bearer sk-1")
    (BodyJSON (JObj {[ "model" := JStr "llama-3" ]})).

Example llama_answered :
  match serve_chat (H4 := ex_rt) ex_upstreams ex_routing ex_Marshal (fun _ _ => true) ex_listener ex_panic ex_address 1
          (gw_clusters (fst ex_sys_after)) (gw_routes (fst ex_sys_after)) [] ex_llama_chat (ex_served false) with
  | Ret (w', _) => es_out (w_ext w') = [OutStatus 200 jsonType; OutJSON (JObj (<["model" := JStr "llama-3"]> ex_obj1))]
  | Panic _ => False
  end.
Proof. vm_compute. reflexivity. Qed.

Example llama_unknown_before :
  match serve_chat (H4 := ex_rt) ex_upstreams ex_routing ex_Marshal (fun _ _ => true) ex_listener ex_panic ex_address 1
          (gw_clusters ex_sys) (gw_routes ex_sys) [] ex_llama_chat (ex_served false) with
  | Ret (w', _) => StatusCode (w_meta w') = 404
  | Panic _ => False
  end.
Proof. vm_compute. reflexivity. Qed.
