(* ===== verification/Main.v ===== *)
(** * cmd: the program

    The administration server (cmd/admin/admin.go), the start of the
    controllers (cmd/server/server.go) and [main] (cmd/main.go), which hands
    them and the gateway to the kit; and what holds once the kit serves. *)
From stdpp Require Import relations.
From S2P Require Import Prelude Strconv Utils GoFloat Json Api LoadBalance Errors Request Response Effects Stream Filters.
From S2P Require Import Auth Usage RateLimit ClusterFilters Cluster Speech Route RouteManager Listener Serve Voices Bootkit Gateway.
From S2P Require Import Kube Controller ModelRouteController BackendController System.

(** ** cmd/admin/admin.go

    [A] is anypb.Any: what protobuf makes of a message, unless it cannot be
    marshalled (a text that is not UTF-8). *)
Class AnyPB (M A : Type) : Type := { anypb_New : M -> option A; anypb_UnmarshalTo : A -> option M }.
Class AnyPBLaws (M A : Type) `{AnyPB M A} : Prop := {
  anypb_roundtrip (m : M) (a : A) : anypb_New m = Some a -> anypb_UnmarshalTo a = Some m }.

Fixpoint sliceToAny {M A} `{AnyPB M A} (s : list M) : list A :=
  match s with
  | [] => []
  | v :: s => match anypb_New v with Some a => a :: sliceToAny s | None => sliceToAny s end
  end.

Record ConfigDump (A : Type) : Type := mkConfigDump {
  cd_Clusters : list A;
  cd_Routes : list A;
  cd_Listeners : list A }.
Arguments mkConfigDump {A}.
Arguments cd_Clusters {A}.
Arguments cd_Routes {A}.
Arguments cd_Listeners {A}.

Record debugListener (A : Type) : Type := mkDebugListener { staticListeners : list A }.
Arguments mkDebugListener {A}.
Arguments staticListeners {A}.

Definition NewAdminListener {A} (listeners : list A) : debugListener A + gerror := inl (mkDebugListener listeners).
Definition debug_Drain {A} (d : debugListener A) : option gerror := None.
Definition debug_HasDrained {A} (d : debugListener A) : bool := false.

(** [lo.Values], in the order in which it visits the map. *)
Definition DebugDumpAllClusters {X} (cr : Register X) (order : list string) : list Cluster :=
  omap (fun name => reg_clustersDetails cr !! name) order.

Section Admin.
Context {A X : Type} `{AnyPB Cluster A} `{AnyPB Api.Route A} `{RouteInterface (routeDefault X)}.

Definition dumpConfig (d : debugListener A) (cr : Register X) (rm : RouteManager (routeDefault X)) (order : list string) : ConfigDump A :=
  mkConfigDump (sliceToAny (DebugDumpAllClusters cr order)) (sliceToAny (DebugDumpAllRoutes rm)) (staticListeners d).

(** [protojson.Marshal]; [lo.Must1] panics with its error. *)
Variable protojson_Marshal : ConfigDump A -> string + string.
(** The registers as they are when the handler runs. *)
Variable registers : X -> Register X * RouteManager (routeDefault X).
Variable order : gmap string Cluster -> list string.
Variable env : ListenerEnv X.

Definition configDump (d : debugListener A) : HandlerFunc X := fun _ =>
  x ← getExt;
  let '(cr, rm) := registers x in
  bs ← lift (match protojson_Marshal (dumpConfig d cr rm (order (reg_clustersDetails cr))) with inl bs => Ret bs | inr e => Panic e end);
  _ ← emit env [OutText bs];
  mret (None, None).

Definition debug_RegisterRoutes (d : debugListener A) : list (string * HandlerFunc X) := [("/config_dump", configDump d)].

(** [net.Listen] *)
Variable listen : string -> option gerror.
Context {HF : Type}.
Variable serve shutdown : HF.

Definition NewAdminServer (listeners : list A) (addr : string) (hooks : list (LifeCycleHook HF))
    : (list (string * HandlerFunc X) + list gerror) * list (LifeCycleHook HF) :=
  let m := Mux_Register NewMux (match NewAdminListener listeners with inl d => inl (debug_RegisterRoutes d) | inr e => inr e end) in
  match BuildServer m with
  | inr es => (inr es, hooks)
  | inl server =>
      match listen addr with
      | Some e => (inr [e], hooks)
      | None => (inl server, lifeCycle_Append hooks (mkHook (Some serve) (Some shutdown)))
      end
  end.
End Admin.

(** ** cmd/server/server.go *)
Record ControllerConfig : Type := mkControllerConfig {
  EnableLeaderElection : bool;
  SecureMetrics : bool;
  EnableHTTP2 : bool }.

(** The options of a controller-runtime manager; [mo_NextProtos] is what the
    TLS options leave of the protocols to negotiate. *)
Record ManagerOptions : Type := mkManagerOptions {
  mo_MetricsAddr : string;
  mo_SecureServing : bool;
  mo_NextProtos : list string -> list string;
  mo_ProbeAddr : string;
  mo_LeaderElection : bool;
  mo_LeaderElectionID : string }.

Inductive ReconcilerKind : Type := LLMBackendReconciler | ImageGenerationBackendReconciler | ModelRouteReconciler.

Definition disableHTTP2 (_ : list string) : list string := ["http/1.1"].

Section Controllers.
Context {M HF : Type}.
(** controller-runtime: [ctrl.NewManager] on the configuration that
    [GetConfigOrDie] finds, and what is done with the manager. *)
Variable GetConfig : option string.
Variable NewManager : ManagerOptions -> M + string.
Variable SetupWithManager : ReconcilerKind -> M -> option string.
Variable AddHealthzCheck AddReadyzCheck : string -> M -> option string.
Variable Start cancel : M -> HF.

Fixpoint setupAll (kinds : list ReconcilerKind) (mgr : M) : option string :=
  match kinds with
  | [] => None
  | k :: kinds => match SetupWithManager k mgr with Some e => Some e | None => setupAll kinds mgr end
  end.

Definition managerOptions (metricsAddr probeAddr : string) (cfg : ControllerConfig) : ManagerOptions :=
  mkManagerOptions (orDefault metricsAddr "0") (SecureMetrics cfg) (if EnableHTTP2 cfg then id else disableHTTP2)
    (orDefault probeAddr ":8081") (EnableLeaderElection cfg) "3db676b9.knoway.dev".

(** [None] when the process exits: every failure but the manager's own ends
    it, with the code 1. *)
Definition StartController (metricsAddr probeAddr : string) (cfg : ControllerConfig) (hooks : list (LifeCycleHook HF))
    : option (option gerror * list (LifeCycleHook HF)) :=
  match GetConfig with
  | None => None
  | Some _ =>
      match NewManager (managerOptions metricsAddr probeAddr cfg) with
      | inr _ => None
      | inl mgr =>
          match setupAll [LLMBackendReconciler; ImageGenerationBackendReconciler; ModelRouteReconciler] mgr with
          | Some _ => None
          | None =>
              match AddHealthzCheck "healthz" mgr with
              | Some _ => None
              | None =>
                  match AddReadyzCheck "readyz" mgr with
                  | Some _ => None
                  | None => Some (None, lifeCycle_Append hooks (mkHook (Some (Start mgr)) (Some (cancel mgr))))
                  end
              end
          end
      end
  end.
End Controllers.

(** ** cmd/main.go *)
Record Flags : Type := mkFlags {
  listenerAddr : string;
  adminAddr : string;
  probeAddr : string;
  metricsAddr : string;
  configPath : string;
  staticClusterOnly : bool }.
Definition defaultFlags : Flags := mkFlags ":8080" "127.0.0.1:9080" ":8081" "0" "config/config.yaml" false.

(** config/config.go; [Y] is a map read from YAML. *)
Record Config (Y : Type) : Type := mkConfig {
  cfg_Debug : bool;
  cfg_Controller : ControllerConfig;
  cfg_KubeConfig : string;
  cfg_StaticListeners : list Y;
  cfg_StaticClusters : list Y }.
Arguments mkConfig {Y}.
Arguments cfg_Debug {Y}.
Arguments cfg_Controller {Y}.
Arguments cfg_KubeConfig {Y}.
Arguments cfg_StaticListeners {Y}.
Arguments cfg_StaticClusters {Y}.

(** The functions that [main] adds to the kit, with what they capture. *)
Inductive Runnable (A : Type) : Type :=
| RunStaticClusters (clusters : gmap string Cluster)
| RunController (metricsAddr probeAddr : string) (cfg : ControllerConfig)
| RunGateway (addr : string) (listeners : list A)
| RunAdmin (listeners : list A) (addr : string).
Arguments RunStaticClusters {A}.
Arguments RunController {A}.
Arguments RunGateway {A}.
Arguments RunAdmin {A}.

Section Main.
Context {Y A : Type}.
Variable yaml_Marshal : Y -> string + string.
Variable protoyaml_Any : string -> A + string.
Variable protoyaml_Cluster : string -> Cluster + string.
(** [os.Open] and the decoder of gopkg.in/yaml.v3. *)
Variable openFile : string -> string + string.
Variable yaml_Decode : string -> Config Y + string.

Definition LoadConfig (path : string) : Config Y + gerror :=
  match openFile path with
  | inr e => inr (EWrap "failed to open config file" (EPlain e))
  | inl file => match yaml_Decode file with inl cfg => inl cfg | inr e => inr (EWrap "failed to decode config file" (EPlain e)) end
  end.

(** [lo.Must1] and [lo.Must0] panic with the error. *)
Fixpoint toAnySlice (cfg : list Y) : outcome (list A) :=
  match cfg with
  | [] => Ret []
  | c :: cfg =>
      bs ← match yaml_Marshal c with inl bs => Ret bs | inr e => Panic e end;
      n ← match protoyaml_Any bs with inl n => Ret n | inr e => Panic e end;
      anys ← toAnySlice cfg;
      Ret (n :: anys)
  end.

(** The runnables in the order in which they are added, before [app.Start];
    [None] when [main] returns before.  [devStaticServer] is false. *)
Definition main (f : Flags) : outcome (option (list (Runnable A))) :=
  match LoadConfig (configPath f) with
  | inr _ => Ret None
  | inl cfg =>
      let clusters := if staticClusterOnly f then
                        match toClusterMap yaml_Marshal protoyaml_Cluster (cfg_StaticClusters cfg) with
                        | inr _ => None
                        | inl m => Some (RunStaticClusters m)
                        end
                      else Some (RunController (metricsAddr f) (probeAddr f) (cfg_Controller cfg)) in
      match clusters with
      | None => Ret None
      | Some clusters =>
          listeners ← toAnySlice (cfg_StaticListeners cfg);
          Ret (Some [clusters; RunGateway (listenerAddr f) listeners; RunAdmin listeners (adminAddr f)])
      end
  end.

(** [bootkit.New] and [app.Add]. *)
Definition app {HF} (runnables : list (Runnable A)) : BootKit (Runnable A) HF :=
  mkBootKit None runnables [] false false StartIdle StopIdle (spawn 0) [] (mkErrChan 0 []).

Lemma app_added {HF} (runs : Runnable A -> option gerror -> Prop) (returns : HF -> option gerror -> Prop) runnables :
  rtc (boot_any runs returns) New_BootKit (app runnables).
Proof.
  induction runnables as [|r rs IH] using rev_ind; [apply rtc_refl|]. eapply rtc_r; [exact IH|]. exists Internal. apply Add.
Qed.
End Main.

(** ** What the program has done when it serves *)
Section Program.
Context {Y A X : Type} `{JSONPatchLaws} `{JSONPathLaws} `{JSONText} `{FloatText} `{NetURL} `{Router X} `{Unspeech X}.
Context `{AnyPB Cluster A} `{AnyPB Api.Route A}.
Variable yaml_Marshal : Y -> string + string.
Variable protoyaml_Any : string -> A + string.
Variable protoyaml_Cluster : string -> Cluster + string.
Variable openFile : string -> string + string.
Variable yaml_Decode : string -> Config Y + string.
Variable url_Parse : string -> string + string.
Variable BuildSpeechRequest : ClusterProvider -> string -> string -> LLMRequest -> Header -> option Header ->
                              outcome (HTTPRequest + gerror).
Variable decodeBase64 fetchURL : string -> (Z * Z * string) + gerror.
Variable Match : string -> string -> option bool.
Variable APIKeyAuth : string -> Z -> string -> Eff X (APIKeyAuthResponse + (gerror * option Auth.grpcCode)).
Variable UsageReport : string -> Z -> Usage.UsageReportRequest -> Eff X (option gerror).
Variable newRedisClient : RateLimitConfig -> option gerror.
Variable invalid : Z.
Variable routeLimiters : nat -> RateLimit.Surroundings X.
Variable listenerLimiters : nat -> nat -> RateLimit.Surroundings X.
Variable keys : gmap string (routeDefault X) -> list string.
Hypothesis keys_order : forall m, key_order (keys m) m.
Variable Marshal : json -> string.
Variable write_ok : string -> string -> bool.
Variable env : nat -> ListenerEnv X.
Variable at_panic : HTTPRequest -> World X -> World X.
Variable address : HTTPRequest -> Z.
Variable readRegister : Eff X (Register X * list string).
(** The functions of the hooks: the gateway's and the administration's. *)
Context {HF : Type}.
Variable drainOf : nat -> HF.
Variable closeOf : nat -> nat -> HF.
Variable serve shutdown serveAdmin shutdownAdmin : HF.
Variable listen : string -> option gerror.
(** The switch of proxy.go on the type of a message. *)
Variable asListener : A -> ListenerConfig.
Variable protojson_Marshal : ConfigDump A -> string + string.
Variable registers : X -> Register X * RouteManager (routeDefault X).
Variable order : gmap string Cluster -> list string.
Variable adminEnv : ListenerEnv X.
Context {M : Type}.
Variable GetConfig : option string.
Variable NewManager : ManagerOptions -> M + string.
Variable SetupWithManager : ReconcilerKind -> M -> option string.
Variable AddHealthzCheck AddReadyzCheck : string -> M -> option string.
Variable Start cancel : M -> HF.

#[local] Instance program_routes : RouteInterface (routeDefault X) :=
  default_route Match APIKeyAuth UsageReport newRedisClient invalid routeLimiters.

Abbreviation static := (StaticRegisterClusters url_Parse BuildSpeechRequest decodeBase64 fetchURL Match APIKeyAuth UsageReport
                          newRedisClient invalid routeLimiters keys).
Abbreviation gateway := (StartGateway Marshal write_ok env at_panic address Match APIKeyAuth UsageReport newRedisClient invalid
                           listenerLimiters readRegister drainOf closeOf serve shutdown listen).
Abbreviation adminServer := (NewAdminServer protojson_Marshal registers order adminEnv listen serveAdmin shutdownAdmin).
Abbreviation program := (main yaml_Marshal protoyaml_Any protoyaml_Cluster openFile yaml_Decode).

(** The errors that a runnable may return, with the hooks that it finds; a
    process that exits returns nothing. *)
Definition runs (r : Runnable A) (err : option gerror) : Prop :=
  match r with
  | RunStaticClusters m =>
      exists visited cr rm, visited ≡ₚ (map_to_list m).*2 /\ static visited NewClusterRegister emptyManager = (cr, rm, err)
  | RunController metrics probe cfg =>
      exists hooks hooks', StartController GetConfig NewManager SetupWithManager AddHealthzCheck AddReadyzCheck Start cancel metrics probe cfg hooks
        = Some (err, hooks')
  | RunGateway addr listeners => exists hooks, err = None <-> exists server, fst (gateway addr (map asListener listeners) hooks) = inl server
  | RunAdmin listeners addr => exists hooks, err = None <-> exists server, fst (adminServer listeners addr hooks) = inl server
  end.
Variable returns : HF -> option gerror -> Prop.

Lemma program_runnables f rs : program f = Ret (Some rs) -> exists cfg listeners clusters,
  LoadConfig openFile yaml_Decode (configPath f) = inl cfg /\
  toAnySlice yaml_Marshal protoyaml_Any (cfg_StaticListeners cfg) = Ret listeners /\
  rs = [clusters; RunGateway (listenerAddr f) listeners; RunAdmin listeners (adminAddr f)] /\
  if staticClusterOnly f
  then exists m, toClusterMap yaml_Marshal protoyaml_Cluster (cfg_StaticClusters cfg) = inl m /\ clusters = RunStaticClusters m
  else clusters = RunController (metricsAddr f) (probeAddr f) (cfg_Controller cfg).
Proof.
  unfold main. destruct (LoadConfig _ _ _) as [cfg|]; [|done].
  destruct (staticClusterOnly f).
  - destruct (toClusterMap _ _ _) as [m|] eqn:Em; [|done].
    destruct (toAnySlice _ _ _) as [listeners|] eqn:E; [|done]. intros [= <-].
    exists cfg, listeners, (RunStaticClusters m). by eauto 10.
  - destruct (toAnySlice _ _ _) as [listeners|] eqn:E; [|done]. intros [= <-]. by eauto 10.
Qed.

(** A gateway that has started, and its address. *)
Definition gateway_ready (addr : string) (listeners : list A) : Prop :=
  listeners <> [] /\ listen (orDefault addr ":8080") = None /\
  Forall (fun a => is_other (asListener a) = false) listeners /\
  all_built Marshal write_ok env at_panic address Match APIKeyAuth UsageReport newRedisClient invalid listenerLimiters readRegister closeOf 0 (map asListener listeners).

Lemma gateway_runs addr listeners : runs (RunGateway addr listeners) None -> gateway_ready addr listeners.
Proof.
  intros (hooks & [Hrun _]). destruct (Hrun eq_refl) as [server Hs].
  pose proof (StartGateway_run Marshal write_ok env at_panic address Match APIKeyAuth UsageReport newRedisClient invalid
    listenerLimiters readRegister drainOf closeOf serve shutdown listen addr (map asListener listeners) hooks) as Hg.
  cbv zeta in Hg. destruct (gateway addr (map asListener listeners) hooks) as [[s|] hooks']; [|done].
  destruct Hg as ((Hne & Ho & Hb & Hl) & _). split_and!; [by intros ->|done| |done].
  apply Forall_forall. intros a Ha. destruct (is_other (asListener a)) eqn:Hot; [|done].
  exfalso. apply not_true_iff_false in Ho. apply Ho, existsb_exists. exists (asListener a). split; [|done].
  apply in_map. by apply list_elem_of_In.
Qed.

Lemma admin_runs addr listeners : runs (RunAdmin listeners addr) None -> listen addr = None.
Proof.
  intros (hooks & [Hrun _]). destruct (Hrun eq_refl) as [server Hs]. unfold NewAdminServer in Hs. cbn in Hs.
  by destruct (listen addr).
Qed.

(** C9: the gateway takes no request before it is configured: whatever the
    scheduler does with the runnables of [main], when the first hook is
    started, and with it the servers, every listener of the configuration has
    been built behind its filters and both addresses are listened on; and with
    static clusters only, each of those that the file names is registered and
    served.  A failure of any of them starts no server. *)
Theorem serving_means_configured (f : Flags) (rs : list (Runnable A)) (b : BootKit (Runnable A) HF)
    (Hmain : program f = Ret (Some rs)) (Hreach : rtc (boot_any runs returns) (app rs) b) (Hserving : bk_starting b <> []) :
  exists cfg listeners, LoadConfig openFile yaml_Decode (configPath f) = inl cfg /\
    toAnySlice yaml_Marshal protoyaml_Any (cfg_StaticListeners cfg) = Ret listeners /\
    gateway_ready (listenerAddr f) listeners /\ listen (adminAddr f) = None /\
    (staticClusterOnly f = true -> exists m visited cr rm,
       toClusterMap yaml_Marshal protoyaml_Cluster (cfg_StaticClusters cfg) = inl m /\
       static visited NewClusterRegister emptyManager = (cr, rm, None) /\
       map_Forall (fun name c => cl_name c = name /\ serves url_Parse BuildSpeechRequest decodeBase64 fetchURL cr rm c) m).
Proof.
  destruct (program_runnables f rs Hmain) as (cfg & listeners & clusters & Hcfg & Hany & -> & Hclusters).
  pose proof (started_has_run runs returns _ b (app_added runs returns _) eq_refl eq_refl Hreach Hserving) as Hran.
  exists cfg, listeners. split; [done|]. split; [done|]. cbn [app bk_parallelRun] in Hran.
  split; [apply gateway_runs, Hran; right; left|]. split; [eapply admin_runs, Hran; right; right; left|].
  intros Hstatic. rewrite Hstatic in Hclusters. destruct Hclusters as (m & Hm & ->).
  destruct (Hran (RunStaticClusters m)) as (visited & cr & rm & Hvisited & Hrun); [left|].
  exists m, visited, cr, rm. split; [done|]. split; [done|].
  by eapply static_map_served in Hrun as (_ & _ & Hserved); [apply Hserved|..].
Qed.
End Program.

(** ** What the administration shows *)
Lemma sliceToAny_read {V A} `{AnyPBLaws V A} (s : list V) :
  Forall (fun v => is_Some (anypb_New v)) s -> mapM anypb_UnmarshalTo (sliceToAny s) = Some s.
Proof.
  induction 1 as [|v s [a Ha] _ IH]; [done|]. cbn [sliceToAny]. rewrite Ha. cbn [mapM mbind option_bind].
  rewrite (anypb_roundtrip v a Ha), IH. done.
Qed.

Lemma find_map {A B} (f : A -> B) (p : B -> bool) l : List.find p (map f l) = f <$> List.find (fun a => p (f a)) l.
Proof. induction l as [|a l IH]; [done|]. cbn. by destruct (p (f a)). Qed.

Section Dump.
Context {A K X : Type} `{AnyPBLaws Cluster A} `{AnyPBLaws Api.Route A}.
Context `{KubeLaws K} `{JSONPatchLaws} `{JSONPathLaws} `{JSONText} `{StructPB}.
Context `{KubeResource K ModelRoute} `{KubeResource K LLMBackend} `{KubeResource K ImageGenerationBackend}.
Variable url_Parse : string -> string + string.
Variable BuildSpeechRequest : ClusterProvider -> string -> string -> LLMRequest -> Header -> option Header ->
                              outcome (HTTPRequest + gerror).
Variable decodeBase64 fetchURL : string -> (Z * Z * string) + gerror.
Variable multierror : list string -> string.
Variable LowerCamelCase : string -> string.
Variable Match : string -> string -> option bool.
Variable APIKeyAuth : string -> Z -> string -> Eff X (APIKeyAuthResponse + (gerror * option Auth.grpcCode)).
Variable UsageReport : string -> Z -> Usage.UsageReportRequest -> Eff X (option gerror).
Variable newRedisClient : RateLimitConfig -> option gerror.
Variable invalid : Z.
Variable limiters : nat -> RateLimit.Surroundings X.
Variable keys : gmap string (routeDefault X) -> list string.
Hypothesis keys_order : forall m, key_order (keys m) m.

#[local] Instance dump_routes : RouteInterface (routeDefault X) :=
  default_route Match APIKeyAuth UsageReport newRedisClient invalid limiters.

Lemma dumped_cluster (cr : Register X) order c :
  clusters_ok url_Parse BuildSpeechRequest decodeBase64 fetchURL cr -> order ≡ₚ (map_to_list (reg_clustersDetails cr)).*1 ->
  c ∈ DebugDumpAllClusters cr order <-> exists m, FindClusterByName cr (cl_name c) = Some m /\ cd_cluster m = c.
Proof.
  intros [Hn Hd] Horder. unfold DebugDumpAllClusters. rewrite list_elem_of_omap. split.
  - intros (name & _ & Hc). rewrite Hd, lookup_fmap in Hc. apply fmap_Some in Hc as (m & Hm & ->).
    exists m. destruct (Hn name m Hm) as [-> _]. done.
  - intros (m & Hm & Hc). exists (cl_name c).
    assert (reg_clustersDetails cr !! cl_name c = Some c) as Hl.
    { rewrite Hd, lookup_fmap. unfold FindClusterByName in Hm. rewrite Hm. cbn. by f_equal. }
    split; [|done]. rewrite Horder, list_elem_of_fmap. exists (cl_name c, c). split; [done|]. by apply elem_of_map_to_list.
Qed.

(** C23: the administration shows what decides: in any state that the gateway
    can reach, [/config_dump] lists the clusters that a request can be handed
    to, each once under its name and no others, and the routes such that the
    first of them that matches a request is the configuration of the route
    that takes it; none is left out, as long as protobuf can marshal them; and
    the listeners of the configuration. *)
Theorem config_dump_tells (g : Gateway K (routeDefault X) X) (order : list string) (listeners : list A)
    (Hreach : sys_reach url_Parse BuildSpeechRequest decodeBase64 fetchURL multierror LowerCamelCase Match APIKeyAuth UsageReport
                newRedisClient invalid limiters keys g)
    (Horder : order ≡ₚ (map_to_list (reg_clustersDetails (gw_clusters g))).*1)
    (Hclusters : Forall (fun c => is_Some (anypb_New c : option A)) (DebugDumpAllClusters (gw_clusters g) order))
    (Hroutes : Forall (fun r => is_Some (anypb_New r : option A)) (DebugDumpAllRoutes (gw_routes g))) :
  let dump := dumpConfig (mkDebugListener listeners) (gw_clusters g) (gw_routes g) order in
  exists (clusters : list Cluster) (routes : list Api.Route),
    mapM anypb_UnmarshalTo (cd_Clusters dump) = Some clusters /\ mapM anypb_UnmarshalTo (cd_Routes dump) = Some routes /\
    cd_Listeners dump = listeners /\ NoDup (map cl_name clusters) /\
    (forall c, c ∈ clusters <-> exists m, FindClusterByName (gw_clusters g) (cl_name c) = Some m /\ cd_cluster m = c) /\
    (forall req, route_GetRouteConfig <$> MatchRoute (gw_routes g) req = List.find (fun cfg => Route_Match cfg req) routes).
Proof.
  cbv zeta. eapply sys_ok in Hreach as [_ Hok]; [|done].
  exists (DebugDumpAllClusters (gw_clusters g) order), (DebugDumpAllRoutes (gw_routes g)).
  split; [by apply sliceToAny_read|]. split; [by apply sliceToAny_read|]. split; [done|]. split; [|split].
  - assert (forall l, NoDup l -> NoDup (map cl_name (DebugDumpAllClusters (gw_clusters g) l))) as Hl;
      [|apply Hl; rewrite Horder; apply NoDup_fst_map_to_list].
    intros l Hnd. assert (forall n c, reg_clustersDetails (gw_clusters g) !! n = Some c -> cl_name c = n) as Hname.
    { destruct Hok as [Hn Hd]. intros n c. rewrite Hd, lookup_fmap. intros (m & Hm & ->)%fmap_Some. by destruct (Hn n m Hm). }
    induction Hnd as [|n l Hn _ IH]; [constructor|]. unfold DebugDumpAllClusters in *. cbn [omap list_omap].
    destruct (reg_clustersDetails (gw_clusters g) !! n) as [c|] eqn:E; [|done]. cbn [map]. constructor; [|done].
    rewrite (Hname n c E). intros (c' & Ec & (n' & Hn' & E')%list_elem_of_omap)%list_elem_of_fmap.
    apply Hn. rewrite Ec, (Hname n' c' E'). done.
  - intros c. by apply dumped_cluster.
  - intros req. unfold DebugDumpAllRoutes, MatchRoute. by rewrite find_map.
Qed.
End Dump.

(** ** Examples *)
#[local] Existing Instances rfc6902 rfc6902_laws dotted_paths dotted_paths_laws ex_Unmarshal whole_floats plain_urls ex_listener_laws
  ex_voices Gateway.ex_gateway ex_ModelRoutes ex_LLMBackends ex_ImageBackends ex_env ex_laws ex_structpb ex_structpb_laws.

Inductive ex_any : Type := AnyListener (name : string) | AnyCluster (c : Cluster) | AnyRoute (r : Api.Route).
#[local] Instance ex_any_cluster : AnyPB Cluster ex_any :=
  {| anypb_New c := Some (AnyCluster c); anypb_UnmarshalTo a := match a with AnyCluster c => Some c | _ => None end |}.
#[local] Instance ex_any_cluster_laws : AnyPBLaws Cluster ex_any.
Proof. split. by intros m a [= <-]. Qed.
#[local] Instance ex_any_route : AnyPB Api.Route ex_any :=
  {| anypb_New r := Some (AnyRoute r); anypb_UnmarshalTo a := match a with AnyRoute r => Some r | _ => None end |}.
#[local] Instance ex_any_route_laws : AnyPBLaws Api.Route ex_any.
Proof. split. by intros m a [= <-]. Qed.

Definition ex_asListener (a : ex_any) : ListenerConfig :=
  match a with
  | AnyListener "chat" => ChatCompletionListener [ex_keys]
  | AnyListener "image" => ImageListener []
  | _ => OtherListener (EPlain "is not a valid listener")
  end.
Definition ex_config : Config string :=
  mkConfig false (mkControllerConfig false false false) "" ["image"; "chat"] ["gpt-4o"; "backup"].
Definition ex_flags (static : bool) : Flags := mkFlags ":8080" "127.0.0.1:9080" ":8081" "0" "config/config.yaml" static.
Definition ex_main (static : bool) : outcome (option (list (Runnable ex_any))) :=
  main (fun s : string => inl s) (fun s => inl (AnyListener s)) ex_protoyaml inl (fun _ => inl ex_config) (ex_flags static).

Definition ex_any_listeners : list ex_any := [AnyListener "image"; AnyListener "chat"].
Definition ex_program (clusters : Runnable ex_any) : list (Runnable ex_any) :=
  [clusters; RunGateway ":8080" ex_any_listeners; RunAdmin ex_any_listeners "127.0.0.1:9080"].

Example main_static : ex_main true = Ret (Some (ex_program (RunStaticClusters ex_map))).
Proof. vm_compute. reflexivity. Qed.
Example main_controllers : ex_main false = Ret (Some (ex_program (RunController "0" ":8081" (cfg_Controller ex_config)))).
Proof. vm_compute. reflexivity. Qed.
(** A controller manager that cannot be made ends the process; otherwise a
    hook starts it. *)
Example controller_started :
  StartController (M := unit) (HF := string) (Some "kubeconfig") (fun _ => inl tt) (fun _ _ => None) (fun _ _ => None) (fun _ _ => None)
    (fun _ => "start") (fun _ => "cancel") "" "" (cfg_Controller ex_config) []
  = Some (None, [mkHook (Some "start") (Some "cancel")]).
Proof. reflexivity. Qed.
Example controller_exits :
  StartController (M := unit) (HF := string) None (fun _ => inl tt) (fun _ _ => None) (fun _ _ => None) (fun _ _ => None)
    (fun _ => "start") (fun _ => "cancel") "" "" (cfg_Controller ex_config) [] = None.
Proof. reflexivity. Qed.

(** The program with static clusters, up to the start of its hooks. *)
Abbreviation ex_main_runs :=
  (runs ex_parse ex_speech ex_picture ex_picture ex_glob ex_service ex_report (fun _ => None) 0 (fun _ => ex_limiter)
     (fun _ _ => ex_limiter) (fun m => (map_to_list m).*1) ex_Marshal (fun _ _ => true) (fun _ => ex_listener) ex_panic ex_address
     (mret (NewClusterRegister, [])) (fun _ => "drain") (fun _ _ => "close") "serve" "shutdown" "serve-admin" "shutdown-admin" (fun _ => None)
     ex_asListener (fun _ => inl "{}") (fun _ => (ex_clusters, ex_base)) (fun m => (map_to_list m).*1) ex_listener (M := unit) None
     (fun _ => inl tt) (fun _ _ => None) (fun _ _ => None) (fun _ _ => None) (fun _ => "start") (fun _ => "cancel")).

(** A kit of three runnables that return nil, the last of which appends a
    hook. *)
Definition ex_kit {RF HF} (a b c : RF) (h : LifeCycleHook HF) : BootKit RF HF :=
  mkBootKit (Some ByStart) [a; b; c] [h] false true StartHooks StopIdle
    (mkGroup [Finished None; Finished None; Finished None] true None (Some None)) [(h, Running)] (mkErrChan 1 []).

Lemma ex_kit_starts {RF HF} (runs : RF -> option gerror -> Prop) (returns : HF -> option gerror -> Prop) a b c h :
  runs a None -> runs b None -> runs c None ->
  rtc (boot_any runs returns) (mkBootKit None [a; b; c] [] false false StartIdle StopIdle (spawn 0) [] (mkErrChan 0 [])) (ex_kit a b c h).
Proof.
  intros Ha Hb Hc.
  eapply rtc_l; [exists Internal; apply Start_locks|].
  eapply rtc_l; [exists Appended; by apply (Append _ _ h)|].
  eapply rtc_l; [exists Internal; apply runnables_step, (task_returns _ _ _ 0); [done|by exists a]|].
  eapply rtc_l; [exists Internal; apply runnables_step, (task_returns _ _ _ 1); [done|by exists b]|].
  eapply rtc_l; [exists Internal; apply runnables_step, (task_returns _ _ _ 2); [done|by exists c]|].
  eapply rtc_l; [exists Internal; apply runnables_step, wait_group; [|done]|].
  { intros [|[|[|i]]] t Ht; simplify_eq/=; by eexists. }
  eapply rtc_l; [exists Internal; apply runnables_step, select_done; done|].
  eapply rtc_l; [exists Internal; by apply runnables_succeed|].
  eapply rtc_l; [exists Internal; by apply start_hooks_called|]. apply rtc_refl.
Qed.

Lemma inl_of {V E} (r : V + E) : (match r with inl _ => true | inr _ => false end) = true -> exists v, r = inl v.
Proof. destruct r as [v|]; [by exists v|done]. Qed.

Lemma ex_runs_static : ex_main_runs (RunStaticClusters ex_map) None.
Proof. exists (map_to_list ex_map).*2, ex_clusters, ex_base. split; [done|]. pose proof ex_static_run as Hrun. exact Hrun. Qed.
Lemma ex_runs_gateway : ex_main_runs (RunGateway ":8080" ex_any_listeners) None.
Proof. exists []. split; [intros _; apply inl_of; vm_compute; reflexivity|done]. Qed.
Lemma ex_runs_admin : ex_main_runs (RunAdmin ex_any_listeners "127.0.0.1:9080") None.
Proof. exists []. split; [intros _; apply inl_of; vm_compute; reflexivity|done]. Qed.

Definition ex_serving : BootKit (Runnable ex_any) string :=
  ex_kit (RunStaticClusters ex_map) (RunGateway ":8080" ex_any_listeners) (RunAdmin ex_any_listeners "127.0.0.1:9080")
    (mkHook (Some "serve-admin") (Some "shutdown-admin")).

Lemma serving_means_configured_witness :
  exists cfg listeners, inl ex_config = inl (B := gerror) cfg /\
    toAnySlice (fun s : string => inl s) (fun s => inl (AnyListener s)) (cfg_StaticListeners cfg) = Ret listeners /\
    listeners <> [] /\
    exists m cr rm, toClusterMap (fun s : string => inl s) ex_protoyaml (cfg_StaticClusters cfg) = inl m /\
       map_Forall (fun name c => cl_name c = name /\
         serves (H4 := ex_routes_of) ex_parse ex_speech ex_picture ex_picture cr rm c) m.
Proof.
  destruct (serving_means_configured (fun s : string => inl s) (fun s => inl (AnyListener s)) ex_protoyaml inl (fun _ => inl ex_config)
    ex_parse ex_speech ex_picture ex_picture ex_glob ex_service ex_report (fun _ => None) 0 (fun _ => ex_limiter)
    (fun _ _ => ex_limiter) (fun m => (map_to_list m).*1) (fun m => reflexivity _) ex_Marshal (fun _ _ => true) (fun _ => ex_listener)
    ex_panic ex_address (mret (NewClusterRegister, [])) (fun _ => "drain") (fun _ _ => "close") "serve" "shutdown" "serve-admin" "shutdown-admin"
    (fun _ => None) ex_asListener (fun _ => inl "{}") (fun _ => (ex_clusters, ex_base)) (fun m => (map_to_list m).*1) ex_listener
    (M := unit) None (fun _ => inl tt) (fun _ _ => None) (fun _ _ => None) (fun _ _ => None) (fun _ => "start") (fun _ => "cancel")
    (fun _ _ => True) (ex_flags true) (ex_program (RunStaticClusters ex_map)) ex_serving main_static
    (ex_kit_starts _ _ _ _ _ _ ex_runs_static ex_runs_gateway ex_runs_admin) ltac:(discriminate))
    as (cfg & listeners & Hcfg & Hany & (Hne & _) & _ & Hstatic).
  exists cfg, listeners. split; [exact Hcfg|split; [exact Hany|split; [exact Hne|]]].
  destruct (Hstatic eq_refl) as (m & visited & cr & rm & Hm & _ & Hall). exists m, cr, rm. exact (conj Hm Hall).
Defined.

(** The state of the system with two static clusters. *)
Lemma config_dump_tells_witness :
  exists clusters routes,
    mapM anypb_UnmarshalTo (cd_Clusters (dumpConfig (H1 := ex_routes_of) (mkDebugListener ex_any_listeners) (gw_clusters ex_sys) (gw_routes ex_sys)
                                           (map_to_list (reg_clustersDetails (gw_clusters ex_sys))).*1)) = Some clusters /\
    NoDup (map cl_name clusters) /\
    forall req, route_GetRouteConfig (RouteInterface := ex_routes_of) <$> MatchRoute (H := ex_routes_of) (gw_routes ex_sys) req
                = List.find (fun cfg => Route_Match cfg req) routes.
Proof.
  destruct (config_dump_tells (K := ex_api) ex_parse ex_speech ex_picture ex_picture ex_fixed_errors (fun _ => "deleteRegister") ex_glob ex_service
    ex_report (fun _ => None) 0 (fun _ => ex_limiter) (fun m => (map_to_list m).*1) (fun m => reflexivity _) ex_sys
    (map_to_list (reg_clustersDetails (gw_clusters ex_sys))).*1 ex_any_listeners ex_sys_reach (reflexivity _))
    as (clusters & routes & Hc & _ & _ & Hnd & _ & Hfind).
  - apply Forall_forall. intros c _. by eexists.
  - apply Forall_forall. intros c _. by eexists.
  - exists clusters, routes. exact (conj Hc (conj Hnd Hfind)).
Defined.

Example dump_shown :
  match configDump (H1 := ex_routes_of) (fun d : ConfigDump ex_any => inl (Itoa (Z.of_nat (length (cd_Clusters d) + length (cd_Routes d)))))
          (fun _ => (ex_clusters, ex_base)) (fun m => (map_to_list m).*1) ex_listener (mkDebugListener ex_any_listeners) ex_chat (ex_served false) with
  | Ret (w', r) => es_out (w_ext w') = [OutText "4"] /\ r = (None, None)
  | Panic _ => False
  end.
Proof. vm_compute. by split. Qed.
